(* ===== verification/_CoqProject ===== *)
-Q . S2P
Prelude.v
Effects.v
GoLib.v
Util.v
Kube.v
Clientset.v
CtrlUtil.v
Tracker.v
CacheTypes.v
EndpointsCache.v
ServiceCache.v
McsTypes.v
ServiceImportCache.v
IngressCache.v
Repo.v
Config.v
RouteBuild.v
LocalCache.v
RemoteConnector.v
ServiceExport.v
ClusterReconciler.v
Federation.v
Progress.v
ServiceLB.v
Helm.v
Certificates.v
Admission.v
Webhooks.v
WebhookServer.v
NamespacedIngress.v
WorkQueue.v
Informers.v
Watchers.v
EndToEnd.v
CrossCluster.v
Connectors.v
Startup.v
Triggers.v
Manager.v
Cli.v
Memory.v
DeepCopy.v
Clients.v
SharedInformers.v
ApiKinds.v
