(* ===== verification/Prelude.v ===== *)
(** * ErieCanal: a verification development

    ErieCanal is the control plane of a multi-cluster ingress and service mesh on
    Kubernetes.  In every cluster a local connector watches services, endpoints,
    ingresses and service imports, keeps an incremental cache of them, and pushes
    the routes that follow from it to a pipy repository, from which the proxies
    load them.  A control plane connects to remote clusters, decides which service
    exports are accepted, and has the other clusters import them.  This library is
    a shallow embedding of that code, translated from the Go sources under src/,
    with the theorems that say what it does.

    ** Parts and files

    - [Prelude] (this file): panics ([go]), fallible results ([result]), Go maps
      ([gomap], nil or made), ranging over a map in an unspecified order (the class
      [MapRange]), maps of slices, the hint database [erie].
    - [GoLib]: what the sources use of Go's standard library: suffixes, decimal
      numbers, parsing, classifying and printing IP addresses.
    - [Kube]: the Kubernetes objects as records of the fields the sources read or
      write, and the library functions they call as the class [KubeLib].
    - [Tracker]: the theory of change trackers, stated once against two
      interfaces: [ApplyStep] (how a pending change is folded into a map) and
      [Projection] (what an object contributes).  The four caches are instances.
    - [CacheTypes], [McsTypes]: pkg/cache/types.go, pkg/route/types.go, and the
      objects of apis/serviceimport and apis/serviceexport.
    - [EndpointsCache], [ServiceCache], [ServiceImportCache], [IngressCache]:
      pkg/cache/endpoints.go, service.go, serviceimport.go, ingress.go (with
      pkg/ingress and pkg/util/ingress.go).  A tracker is a record whose [items]
      is the pending changes; [X_Update] is its method Update; [XMap_Update] is
      the sync of the global map.
    - [Repo]: pkg/repo, the client of the pipy repository, in a monad [http] that
      logs every request with its outcome, with a small program logic [logs].
    - [Config]: pkg/config, the mesh configuration and its client, the listeners
      that react to a change, main.json, and the configuration of a connector.
    - [RouteBuild]: the pure half of pkg/cache/local_cache.go: the routes, their
      hashes and the batches.  [LocalCache]: the stateful half, with the event
      handlers of pkg/cache: the flags that say what is synced, the sync, the
      pushes in flight.
    - [RemoteConnector]: pkg/cluster/remote.go, pkg/event/events.go and
      pkg/cache/serviceexport_eventhandler.go, over an API server given by the
      class [ClusterAPI] with the laws [ClusterAPILaws].
    - [ServiceExport]: the reconciler of service exports; what it reads is a
      record, what it writes a log.
    - [ClusterReconciler]: the reconciler of clusters: the registry of connectors
      with their stop channels, and the decision on exports.
    - [Effects]: the monad [eff] of code that may panic, fail, and write to the API
      server, with the program logic [all_writes] on the writes.  [CtrlUtil]:
      pkg/util/ctrl.go.
    - [ServiceLB]: controllers/servicelb, the load balancer for services, with
      pkg/util/image.go and slice.go.
    - [Helm]: pkg/helm and pkg/util/yaml.go.  [NamespacedIngress]: the reconciler of
      controllers/namespacedingress on top of it, with pkg/util/tls/repo.go.
    - [Certificates]: pkg/certificate; the two managers are instances of the class
      [Manager], which the client [WebhookServer] is proved against.  How a replica
      gets its root CA is a program of two calls ([ca_prog]); [ca_step] interleaves
      the programs of all replicas.
    - [Admission]: pkg/admission, the handlers of pkg/webhooks, pkg/util/errors.go.
      [Webhooks]: the defaulters and validators of the ten kinds (the packages below pkg/webhooks).
      [WebhookServer]: their registration and the start of the webhook server
      (cmd/manager/webhooks.go).
    - [WorkQueue]: pkg/workqueue (the worker pool is the state machine [pool_step])
      and pkg/event/broker.go.
    - [Informers]: pkg/controller, the controllers between the informers and the
      caches; the relation [sys_step] runs them against the local cache.
    - [Federation]: the goroutines of the remote connectors as programs of API calls
      ([goroutine_prog]), run by the machine [fed_step] in which the calls of all
      connectors, the watchers, the reconciler of clusters, retries and foreign
      writers interleave; [spec_step] is the same federation with atomic messages.
    - [Progress]: runs of the federation in which every goroutine gets its turn, with the
      lexicographic measure that ends its retries.
    - [Connectors]: pkg/version, pkg/cluster/connector.go, pkg/cluster/context,
      pkg/cache/remote_cache.go, and Run of both connectors as the sequence of what
      it starts and waits for.
    - [Watchers]: the informer controllers of ConfigMaps and of the Gateway API, and
      filtered watches (RegisterConfigurationHanlder of pkg/config).
    - [EndToEnd]: the composition from the informers' stores to the requests that the
      repository accepts; [cs_step] adds the store of imports.  [CrossCluster]: the
      composition of [Federation] with it.
    - [Startup]: what cmd/manager, cmd/ingress-pipy, cmd/proxy-init and the local
      connector do with the repository when they start, the registration of the
      reconcilers, and the small reconcilers.  [Triggers]: SetupWithManager of all
      controllers, as the requests that follow from an event.  [Manager]: main of cmd/manager as one
      program over the configuration store and the repository, and main of
      cmd/ingress-pipy.
    - [Memory]: Go's memory with shared pointers, slices and maps, and the class
      [DeepCopies] of what a copying function promises.  [DeepCopy]: the types of apis/
      and their zz_generated.deepcopy.go.
    - [Clients]: the typed clients of pkg/generated/clientset as requests, and
      [rest_api], the implementation of [ClusterAPI] with them, whose laws follow from
      what Kubernetes documents of a server ([ObjectServer], [ClusterServer]).
      [Clientset]: the construction of clients (clientset.go, pkg/kube/k8s.go).
      [SharedInformers]: the informer factory of pkg/generated/informers as the machine
      [is_step], and the listers of pkg/generated/listers.  [ApiKinds]: the code that is
      generated for each of the six kinds: registration, group clients, informers, listers
      and the fake clients of the tests.
    - [Util]: the hashes and random names of pkg/util/util.go.  [Cli]: the commands
      install and uninstall of cli/cmd, and MergeMaps of pkg/helm.

    ** What the theorems show

    - The whole: after any run of informers, syncs and pushes the registry that is
      pushed lists exactly the declared addresses, and an accepted push has published
      it (C1); in a federation every address that a cluster publishes is its own or
      that of an accepted export of another cluster (C5), and the accepted exports are
      among them (C6).
    - The federation: every interleaving of the goroutines is that of atomic messages
      (C2, by a forward simulation with a rely-guarantee invariant per program);
      every imported endpoint has an accepted export (C3), clusters have one endpoint
      per port (C18), accepted exports stay in force (C19).  Under fair scheduling the
      goroutines do not make one another fail forever (C4), and accepted exports get
      imported (C7).
    - Refinement of the caches (C9 to C12): for every interleaving of informer
      events and syncs, and every order in which Go ranges over its maps, a sync
      makes the global map exactly what the stored objects declare.  The state
      machines are the relations [ep_step], [svc_step], [imp_step] and [ing_step].
      C8 carries this through the informer controllers and the whole local cache.
    - Content of the routes: the registry of services (C13), the ingress
      configuration (C14), independence from map order (C15); certificates
      and ExternalName addresses ([route_certificate_is_own],
      [external_name_not_local]).
    - The local cache: every sync covers the current routes (C16), initialization
      (C17).
    - The repository: a batch is committed only when complete (C20).
    - Multi-cluster, one message at a time: merging an export into the imports of a
      cluster and taking it out (C21, [delete_removes_exporter]), joining a cluster set (C22), the answer to
      an export (C23), the registry of connectors (C24), only exportable services
      take effect (C25), the export's settings reach its routes (C26).
    - Generated code: a deep copy shares no memory with the original (C27), rejecting
      an export changes its status only ([rejection_changes_status_only]), a shutdown of
      the informer factory is final (C28), the fake clients ask for what the real ones
      ask for ([fake_asks_the_same]).
    - Controllers: what an export owns is restored ([deleted_ingress_is_recreated]), which
      gateways a class concerns ([gateway_requests]).
    - Configuration: a refused update (C29), round trip ([update_get_config]).
    - Load balancer: addresses (C30), the DaemonSet (C31).
    - Admission: what is admitted is what can be connected (C32), one InCluster
      cluster (C33); the API server can verify the webhooks (C37).
    - Certificates: what is issued verifies (C34), replicas share one CA (C35),
      waiting ends (C36).
    - Namespaced ingresses stay in their namespace (C38).
    - Workers: bounds with wrap-around (C39).
    - Start-up: publication of the base codebases (C40), the manager starts only when
      everything before it went through ([manager_starts_complete]), the order in which the local connector
      starts its informers ([local_start_order]).
    - Further theorems pin down behaviour the authors probably did not intend,
      among them [service_type_change_is_lost], [class_adoption_is_lost],
      [shared_route_is_lost], [failed_probe_recreates], [refresh_keeps_stale_routes],
      [upsert_wipes_uncovered_port], [delete_drops_uncovered_port],
      [deleted_cluster_keeps_connector], [late_failure_panics],
      [half_failed_connector_panics], [mode_change_escapes], [delete_is_refused],
      [certmanager_requests_left], [negative_pool_panics], [delete_race_loses_endpoint],
      [late_acceptance_imports_withdrawn], [version_checked_once],
      [missed_config_deletion_ignored], [refused_configuration_panics],
      [rejection_of_deleted_export_never_succeeds], [export_not_woken_by_its_service],
      [seeded_objects_not_found] and [force_is_ignored].  The runs of C1, C5, C8 and C10
      leave out what the first of them shows to go wrong (a service that becomes a
      NodePort or LoadBalancer service), the hypotheses of C12 what the next two do, its
      fixed environment what [refresh_keeps_stale_routes] does, and the hypothesis of C19 what
      the two races of the federation do; C24 says where [half_failed_connector_panics] applies.

    ** Conventions, bounds and fuel

    Go's int, int32 and int64 are [Z].  Arithmetic that can overflow is written
    with its wrap-around: the version of a codebase (int64) and the counters of the
    worker pool (uint64).  Enumerations that are strings in Go are strings.  A nil
    pointer is [None]; dereferencing it panics in the [go] monad.  Aliasing is modelled
    where code depends on it: in [Memory], and in the stored objects that are changed
    before they are accepted (UpdateConfig).  Locks are the
    atomicity of the operations they guard; a goroutine that pushes batches is a
    pending push that ends later with any outcome; a goroutine that runs a connector
    takes, if it fails, two steps without the lock: [connector_failed] closes the
    channel, [connector_forgotten] removes the connector.  [os.Exit] is an error that ends the
    function.  All recursion is structural on lists and strings; the only fuel is
    that of printing a hash in base 16 (sixteen digits, enough for a 64-bit hash).
    Polling is a parameter with a law that bounds the number of tests by one at once,
    one per interval and one at the end, some of which may be missed: at one per
    second and a minute of patience at most 62 (C36).  [strings.ToLower] and paths
    are modelled on ASCII and on cleaned paths.

    ** Parameters

    Code outside the repository is a parameter: [KubeLib] (validation and helpers
    of Kubernetes), [X509Lib] and [CryptoLib] (PEM, X.509, keys), [Resty] (transport
    and server), [ConfigLib] (JSON, sjson, certificates), [NetLib] (DNS), [PortLib]
    (port numbers), [HashStructure] (the hash, which ignores the order of a set),
    [ClusterAPI], [MetaLib], [CondLib] and [ExportLib] (conditions and owner
    references), [DockerLib] (image references), [AdmissionLib] (decoding and
    patches), [GatewayLib] (the Gateway API), [HelmLib] and [ValuesLib] (charts),
    [WaitLib] and [PollLib] (polling), [VersionedLaws] (optimistic concurrency of the
    API server), [ReliableLaws] (its failures have the documented reasons), [SemverLib] (parsing and ordering of versions), [RestLib],
    [RestInterface], [ObjectServer] and [ClusterServer] (client-go's REST client and the
    API server behind it), [SchemeLib], [FakeLib] and [TrackerLib] (schemes and the fakes of
    client-go, with their laws), [ExternalTypes] (the types of Kubernetes that objects embed).
    The informers of client-go are the relation
    [informer_call].  Each property that relies on a law has a witness in which the
    parameter is a concrete function.

    ** Not modelled

    - Logging, metrics, command-line flags, signal handling, health probes and process
      control: input and output without state of the program.
    - The wiring of client-go's and cert-manager's informers in NewMeshConfigClient and in
      NewClient of the cert-manager client: both only call libraries; what the informers
      deliver is modelled where it is used.
    - Leader election in cmd/proxy-init is dead code: its main function only logs.
    - Constants of pkg/commons that no modelled function reads, and accessors of records
      that are the projections of the records here.
    - A slice views the whole of its array, so that slices that overlap are not modelled;
      nothing here makes one.
    - Time: fairness takes the place of the backoff of retries; the ten hours after which
      controller-runtime repeats a reconciliation are not modelled. *)

From stdpp Require Export base tactics option list gmap fin_maps strings pretty.
From Stdlib Require Export ZArith.

(** ** Notation scope of the development *)

Declare Scope erie_scope.
Delimit Scope erie_scope with erie.

(** [x ←? m; k]: Go's [x, err := m; if err != nil { return err }; k]. *)
Reserved Notation "x '←?' m ; k" (at level 20, m at level 100, k at level 200, only parsing).

(** A Go map value: [None] is the nil map, [Some m] a map made with [make].
    Reading and ranging treat nil as empty; only [reflect.DeepEqual] tells the
    two apart. *)
Abbreviation gomap K V := (option (gmap K V)).

(** ** Outcomes of Go code that may panic *)

Inductive go (A : Type) : Type :=
| Ret (a : A)
| Panic.
Arguments Ret {A} a.
Arguments Panic {A}.

#[export] Instance go_ret : MRet go := fun A a => Ret a.
#[export] Instance go_bind : MBind go :=
  fun A B f m => match m with Ret a => f a | Panic => Panic end.

(** Dereferencing a pointer: nil panics. *)
Definition deref {A} (p : option A) : go A :=
  match p with Some a => Ret a | None => Panic end.

(** A left fold whose body may panic: a Go [for] loop over a slice. *)
Fixpoint go_foldl {A B} (f : A → B → go A) (a : A) (l : list B) : go A :=
  match l with
  | [] => Ret a
  | b :: l => a' ← f a b; go_foldl f a' l
  end.

Lemma go_bind_ret {A B} (m : go A) (f : A → go B) b :
  (m ≫= f) = Ret b ↔ ∃ a, m = Ret a ∧ f a = Ret b.
Proof. split; destruct m; simpl; [eauto|done|naive_solver|naive_solver]. Qed.

Lemma go_foldl_app {A B} (f : A → B → go A) l1 l2 a :
  go_foldl f a (l1 ++ l2) = (a' ← go_foldl f a l1; go_foldl f a' l2).
Proof.
  revert a; induction l1 as [|b l1 IH]; intros a; simpl; [done|].
  destruct (f a b); simpl; [apply IH|done].
Qed.

(** ** Results of fallible calls: Go's [(value, error)] pairs *)

Inductive result (E A : Type) : Type :=
| Ok (a : A)
| Err (e : E).
Arguments Ok {E A} a.
Arguments Err {E A} e.

(** ** Go maps *)

Definition gm_val {K V} `{Countable K} (m : gomap K V) : gmap K V := default ∅ m.

(** Ranging over a Go map visits every entry once, in an unspecified order. *)
Class MapRange : Type := {
  go_range : ∀ {K V : Type} `{Countable K}, gmap K V → list (K * V);
  go_range_perm : ∀ (K V : Type) `{Countable K} (m : gmap K V),
    go_range m ≡ₚ map_to_list m
}.

(** The concrete order used to evaluate the model. *)
Definition list_range : MapRange :=
  {| go_range := fun K V _ _ m => map_to_list m;
     go_range_perm := fun K V _ _ m => Permutation_refl _ |}.

Section gomap_ops.
Context `{MapRange} {K V : Type} `{Countable K}.
Implicit Types (em other : gmap K V).

(** [for k := range other { em[k] = other[k] }] *)
Definition gomap_merge (em : gmap K V) (other : gomap K V) : gmap K V :=
  foldl (fun em kv => <[kv.1 := kv.2]> em) em (go_range (gm_val other)).

(** [for k := range other { delete(em, k) }] *)
Definition gomap_unmerge (em : gmap K V) (other : gomap K V) : gmap K V :=
  foldl (fun em kv => delete kv.1 em) em (go_range (gm_val other)).

Lemma foldl_insert_lookup (l : list (K * V)) em k :
  NoDup l.*1 →
  foldl (fun em kv => <[kv.1 := kv.2]> em) em l !! k =
    match (list_to_map l : gmap K V) !! k with
    | Some v => Some v | None => em !! k end.
Proof.
  revert em. induction l as [|[k' v'] l IH]; intros em Hnd; simpl.
  - by rewrite lookup_empty.
  - apply NoDup_cons in Hnd as [Hni Hnd]. rewrite IH by done.
    destruct (decide (k' = k)) as [->|Hne].
    + rewrite not_elem_of_list_to_map_1 by done.
      by rewrite !lookup_insert_eq.
    + by rewrite !lookup_insert_ne.
Qed.

Lemma foldl_delete_lookup (l : list (K * V)) em k :
  foldl (fun em kv => delete kv.1 em) em l !! k =
    if decide (k ∈ l.*1) then None else em !! k.
Proof.
  revert em. induction l as [|[k' v'] l IH]; intros em; simpl; [done|].
  rewrite IH. destruct (decide (k' = k)) as [->|Hne].
  - rewrite lookup_delete_eq. repeat case_decide; done || set_solver.
  - rewrite lookup_delete_ne by done. repeat case_decide; done || set_solver.
Qed.

Lemma go_range_NoDup (m : gmap K V) : NoDup (go_range m).*1.
Proof. rewrite go_range_perm. apply NoDup_fst_map_to_list. Qed.

Lemma go_range_empty : go_range (∅ : gmap K V) = [].
Proof. apply Permutation_nil_r. by rewrite go_range_perm, map_to_list_empty. Qed.

Lemma go_range_singleton k v : go_range ({[ k := v ]} : gmap K V) = [(k, v)].
Proof. apply Permutation_singleton_r. by rewrite go_range_perm, map_to_list_singleton. Qed.

Lemma go_range_elem (m : gmap K V) k v : (k, v) ∈ go_range m ↔ m !! k = Some v.
Proof. rewrite go_range_perm. apply elem_of_map_to_list. Qed.

Lemma go_range_dom (m : gmap K V) k : k ∈ (go_range m).*1 ↔ is_Some (m !! k).
Proof.
  rewrite list_elem_of_fmap. split.
  - intros ([k' v] & -> & Hin). apply go_range_elem in Hin. by exists v.
  - intros [v Hv]. exists (k, v). by rewrite go_range_elem.
Qed.

Lemma go_range_list_to_map (m : gmap K V) : list_to_map (go_range m) = m.
Proof.
  rewrite (list_to_map_proper _ (map_to_list m)).
  - apply list_to_map_to_list.
  - apply go_range_NoDup.
  - apply go_range_perm.
Qed.

Lemma lookup_gomap_merge em (other : gomap K V) k :
  gomap_merge em other !! k =
    match gm_val other !! k with Some v => Some v | None => em !! k end.
Proof.
  unfold gomap_merge. rewrite foldl_insert_lookup by apply go_range_NoDup.
  by rewrite go_range_list_to_map.
Qed.

Lemma lookup_gomap_unmerge em (other : gomap K V) k :
  gomap_unmerge em other !! k =
    match gm_val other !! k with Some _ => None | None => em !! k end.
Proof.
  unfold gomap_unmerge. rewrite foldl_delete_lookup.
  case_decide as Hk; rewrite go_range_dom in Hk.
  - destruct Hk as [v ->]. done.
  - apply eq_None_not_Some in Hk. by rewrite Hk.
Qed.
End gomap_ops.

(** ** Maps of slices: [m[k] = append(m[k], x)] *)

Section append_at.
Context {K V : Type} `{Countable K}.
Implicit Types (m : gmap K (list V)) (l : list (K * V)).

Definition append_at (k : K) (x : V) (m : gmap K (list V)) : gmap K (list V) :=
  <[k := default [] (m !! k) ++ [x]]> m.

(** The values paired with [k], in order. *)
Definition vals_at (k : K) (l : list (K * V)) : list V :=
  (filter (fun kv => kv.1 = k) l).*2.

Lemma vals_at_app k l1 l2 : vals_at k (l1 ++ l2) = vals_at k l1 ++ vals_at k l2.
Proof. unfold vals_at. by rewrite filter_app, fmap_app. Qed.

Lemma vals_at_elem k l x : x ∈ vals_at k l ↔ (k, x) ∈ l.
Proof.
  unfold vals_at. rewrite list_elem_of_fmap. split.
  - intros ([k' x'] & -> & [Hk Hin]%list_elem_of_filter). simpl in *. by subst.
  - intros Hin. exists (k, x). by rewrite list_elem_of_filter.
Qed.

Lemma lookup_append_at k x m k' :
  append_at k x m !! k' =
    if decide (k = k') then Some (default [] (m !! k') ++ [x]) else m !! k'.
Proof. unfold append_at. rewrite lookup_insert. by case_decide; subst. Qed.

Definition append_all (m : gmap K (list V)) (l : list (K * V)) : gmap K (list V) :=
  foldl (fun m kv => append_at kv.1 kv.2 m) m l.

(** Appending pair by pair groups the values by key, in order, and creates an
    entry only for the keys that occur. *)
Lemma lookup_append_all l m k :
  append_all m l !! k =
    match vals_at k l with
    | [] => m !! k
    | vs => Some (default [] (m !! k) ++ vs)
    end.
Proof.
  unfold append_all. revert m.
  induction l as [|[k' x] l IH]; intros m; [done|].
  simpl. rewrite IH, lookup_append_at.
  change ((k', x) :: l) with ([(k', x)] ++ l). rewrite vals_at_app.
  unfold vals_at at 2. rewrite filter_cons. simpl.
  case_decide; subst; simpl; [|done].
  destruct (vals_at k l); by rewrite <-?app_assoc.
Qed.

Lemma lookup_append_all_empty l k :
  append_all ∅ l !! k = match vals_at k l with [] => None | vs => Some vs end.
Proof. rewrite lookup_append_all, lookup_empty. by destruct (vals_at k l). Qed.
End append_at.

(** Writing pair by pair keeps the last value of every key. *)
Lemma foldl_insert_last {K V} `{Countable K} (l : list (K * V)) (m : gmap K V) k :
  foldl (fun m kv => <[kv.1 := kv.2]> m) m l !! k =
    match last (vals_at k l) with Some v => Some v | None => m !! k end.
Proof.
  revert m. induction l as [|[k' v'] l IH]; intros m; [done|].
  simpl. rewrite IH. change ((k', v') :: l) with ([(k', v')] ++ l).
  rewrite vals_at_app, last_app. destruct (last (vals_at k l)); [done|].
  unfold vals_at. rewrite filter_cons. simpl.
  rewrite lookup_insert. by case_decide.
Qed.

(** A nested loop is one loop over the concatenation. *)
Lemma foldl_mbind {A B C} (f : C → B → C) (g : A → list B) (l : list A) (c : C) :
  foldl (fun c a => foldl f c (g a)) c l = foldl f c (l ≫= g).
Proof.
  revert c. induction l as [|a l IH]; intros c; [done|].
  simpl. by rewrite IH, foldl_app.
Qed.

Lemma foldl_ext {A B} (f g : A → B → A) (l : list B) a :
  (∀ a b, f a b = g a b) → foldl f a l = foldl g a l.
Proof. intros Hfg. revert a. induction l as [|b l IH]; intros a; [done|]. simpl. by rewrite Hfg. Qed.

Lemma foldl_snd {A B C : Type} (f : A → C → A) (a : A) (l : list (B * C)) :
  foldl f a l.*2 = foldl (fun a c => f a c.2) a l.
Proof. by rewrite foldl_fmap. Qed.

(** Writing pair by pair only where there is no value yet keeps the first. *)
Lemma foldl_insert_first {K V} `{Countable K} (l : list (K * V)) (m : gmap K V) k :
  foldl (fun m kv => match m !! kv.1 with Some _ => m | None => <[kv.1 := kv.2]> m end) m l !! k =
    match m !! k with Some v => Some v | None => head (vals_at k l) end.
Proof.
  revert m. induction l as [|[k' v'] l IH]; intros m; simpl; [by destruct (m !! k)|].
  rewrite IH. unfold vals_at. rewrite filter_cons. simpl.
  destruct (m !! k') eqn:E; destruct (decide (k' = k)) as [->|Hne];
    rewrite ?E, ?lookup_insert_eq, ?lookup_insert_ne by done; done.
Qed.

(** Elements with different keys are told apart by their keys. *)
Lemma NoDup_fmap_eq {A B} (f : A → B) (l : list A) x y :
  NoDup (f <$> l) → x ∈ l → y ∈ l → f x = f y → x = y.
Proof.
  intros Hnd [i Hi]%list_elem_of_lookup [j Hj]%list_elem_of_lookup Heq.
  assert (i = j) as ->; [|congruence].
  eapply (NoDup_lookup _ _ _ (f x) Hnd); rewrite list_lookup_fmap.
  - by rewrite Hi.
  - rewrite Hj. simpl. by rewrite Heq.
Qed.

Lemma elem_of_drop_in {A} (x : A) n (l : list A) : x ∈ drop n l → x ∈ l.
Proof. intros Hin. rewrite <-(take_drop n l). set_solver. Qed.

(** Invariants of a step relation hold of every reachable state. *)
Lemma rtc_invariant {A} (R : relation A) (I : A → Prop) (x y : A) :
  I x → (∀ s s', R s s' → I s → I s') → rtc R x y → I y.
Proof. intros Hx Hstep Hr. induction Hr; eauto. Qed.

(** ** Automation *)

Create HintDb erie.
#[export] Hint Resolve go_range_NoDup : erie.
#[export] Hint Rewrite @lookup_gomap_merge @lookup_gomap_unmerge : erie.

(** Case analysis on every [decide], [bool_decide], [if] and [match] of the goal. *)
Ltac case_all := repeat (case_match || case_bool_decide || case_decide).
