(* ===== verification/Effects.v ===== *)
(** * Handlers that write to the API server

    A controller's handler makes a sequence of writes, each of which the API
    server may refuse, and may panic or return an error on the way.  [eff W E A]
    is the writes made, in order, with the result. *)

From S2P Require Import Prelude.

Definition eff (W E A : Type) : Type := go (list W * result E A).

Section eff.
Context {W E : Type}.

#[export] Instance eff_ret : MRet (eff W E) := fun A a => Ret ([], Ok a).
#[export] Instance eff_bind : MBind (eff W E) := fun A B f m =>
  match m with
  | Panic => Panic
  | Ret (ws, Err e) => Ret (ws, Err e)
  | Ret (ws, Ok a) =>
    match f a with
    | Panic => Panic
    | Ret (ws', r) => Ret (ws ++ ws', r)
    end
  end.

Definition fail {A} (e : E) : eff W E A := Ret ([], Err e).

(** A computation that only reads. *)
Definition from_result {A} (r : result E A) : eff W E A := Ret ([], r).
Definition from_go {A} (m : go A) : eff W E A :=
  match m with Ret a => Ret ([], Ok a) | Panic => Panic end.

(** A write with the server's answer. *)
Definition write {A} (answer : W → result E A) (w : W) : eff W E A := Ret ([w], answer w).

(** The writes a handler made, if it did not panic. *)
Definition writes {A} (m : eff W E A) : list W :=
  match m with Ret (ws, _) => ws | Panic => [] end.

(** Every write of the handler satisfies [P], and so does its result [Q]. *)
Definition all_writes {A} (P : W → Prop) (Q : A → Prop) (m : eff W E A) : Prop :=
  match m with
  | Panic => True
  | Ret (ws, r) => Forall P ws ∧ match r with Ok a => Q a | Err _ => True end
  end.

Lemma eff_bind_Ret {A B} (m : eff W E A) (f : A → eff W E B) ws r :
  (m ≫= f) = Ret (ws, r) ↔
  (∃ e, m = Ret (ws, Err e) ∧ r = Err e) ∨
  (∃ ws1 ws2 a, m = Ret (ws1, Ok a) ∧ f a = Ret (ws2, r) ∧ ws = ws1 ++ ws2).
Proof.
  unfold mbind, eff_bind. split.
  - destruct m as [[ws1 [a|e]]|]; [|intros [= <- <-]; eauto|done].
    destruct (f a) as [[ws2 r2]|] eqn:Hf; [|done]. intros [= <- <-]. right. by exists ws1, ws2, a.
  - intros [(e & -> & ->)|(ws1 & ws2 & a & -> & -> & ->)]; done.
Qed.

Lemma all_writes_ret {A} P (Q : A → Prop) a : Q a → all_writes P Q (mret a).
Proof. by split. Qed.

Lemma all_writes_fail {A} P (Q : A → Prop) e : all_writes P Q (fail e).
Proof. by split. Qed.

Lemma all_writes_bind {A B} P (Q : A → Prop) (R : B → Prop) (m : eff W E A) (f : A → eff W E B) :
  all_writes P Q m → (∀ a, Q a → all_writes P R (f a)) → all_writes P R (m ≫= f).
Proof.
  unfold mbind, eff_bind. destruct m as [[ws [a|e]]|]; simpl; [|done..].
  intros [Hws Ha] Hf. specialize (Hf a Ha). destruct (f a) as [[ws' r]|]; [|done].
  simpl in *. rewrite Forall_app. naive_solver.
Qed.

Lemma all_writes_write {A} (P : W → Prop) (answer : W → result E A) w : P w → all_writes P (fun _ => True) (write answer w).
Proof. intros Hw. split; [by apply Forall_singleton|by destruct (answer w)]. Qed.

Lemma all_writes_from_go {A} P (m : go A) : all_writes P (fun a => m = Ret a) (from_go m).
Proof. by destruct m. Qed.

Lemma all_writes_from_result {A} P (r : result E A) : all_writes P (fun a => r = Ok a) (from_result r).
Proof. by destruct r. Qed.
End eff.

#[export] Hint Resolve all_writes_ret all_writes_fail all_writes_write : erie.
