(* ===== verification/GoLib.v ===== *)
(** * The parts of Go's standard library the sources use

    Strings are byte strings.  [strings.ToLower] is modelled on ASCII letters
    (bytes above 127 are left alone): the sources only compare its results with
    ASCII words or with the lower-cased form of another host name. *)

From stdpp Require Import sorting.
From S2P Require Import Prelude.
From Stdlib Require Import Ascii.

Open Scope string_scope.
Open Scope list_scope.

(** ** Package [strings] *)

Definition HasSuffix (s suf : string) : bool :=
  let n := String.length s in
  let m := String.length suf in
  (m <=? n)%nat && (String.substring (n - m) m s =? suf)%string.

Definition TrimSuffix (s suf : string) : string :=
  if HasSuffix s suf
  then String.substring 0 (String.length s - String.length suf) s
  else s.

Definition lower_ascii (a : ascii) : ascii :=
  let n := nat_of_ascii a in
  if (65 <=? n)%nat && (n <=? 90)%nat then ascii_of_nat (n + 32) else a.

Fixpoint ToLower (s : string) : string :=
  match s with
  | EmptyString => EmptyString
  | String a s => String (lower_ascii a) (ToLower s)
  end.

(** [strings.Contains(s, string(c))] for a single byte. *)
Fixpoint ContainsByte (c : ascii) (s : string) : bool :=
  match s with
  | EmptyString => false
  | String a s => Ascii.eqb a c || ContainsByte c s
  end.

Fixpoint Join (elems : list string) (sep : string) : string :=
  match elems with
  | [] => ""
  | [e] => e
  | e :: es => e +:+ sep +:+ Join es sep
  end.

(** ** Package [sort] *)

Definition sort_Strings (l : list string) : list string := merge_sort String.le l.

Lemma sort_Strings_perm l : sort_Strings l ≡ₚ l.
Proof. apply merge_sort_Permutation. Qed.

Lemma sort_Strings_sorted l : Sorted String.le (sort_Strings l).
Proof. apply Sorted_merge_sort, _. Qed.

(** Sorting forgets the order of its argument. *)
Lemma sort_Strings_proper l l' : l ≡ₚ l' → sort_Strings l = sort_Strings l'.
Proof.
  intros Hl. apply (Sorted_unique String.le); [apply sort_Strings_sorted..|].
  by rewrite !sort_Strings_perm.
Qed.

Lemma sort_Strings_id l : Sorted String.le l → sort_Strings l = l.
Proof.
  intros Hs. apply (Sorted_unique String.le); [apply sort_Strings_sorted|done|apply sort_Strings_perm].
Qed.

(** ** Package [strconv] *)

(** [strconv.Itoa], and [%d] of package fmt. *)
Definition Itoa (z : Z) : string := pretty z.

Definition digit (a : ascii) : option Z :=
  let n := nat_of_ascii a in
  if (48 <=? n)%nat && (n <=? 57)%nat then Some (Z.of_nat n - 48)%Z else None.

Fixpoint digits (s : string) (acc : Z) : option Z :=
  match s with
  | EmptyString => Some acc
  | String a s => d ← digit a; digits s (acc * 10 + d)%Z
  end.

Definition int64_min : Z := - 2 ^ 63.
Definition int64_max : Z := 2 ^ 63 - 1.

(** [strconv.Atoi] on a 64-bit platform: an optional sign, at least one digit,
    and a value in range; every other input is an error. *)
Definition Atoi (s : string) : option Z :=
  let '(neg, rest) :=
    match s with
    | String "-" r => (true, r)
    | String "+" r => (false, r)
    | _ => (false, s)
    end in
  match rest with
  | EmptyString => None
  | _ =>
    v ← digits rest 0;
    let v := if neg : bool then (- v)%Z else v in
    if decide (int64_min ≤ v ≤ int64_max)%Z then Some v else None
  end.

(** ** Package [net] *)

Definition JoinHostPort (host port : string) : string :=
  if ContainsByte ":" host then "[" +:+ host +:+ "]:" +:+ port
  else host +:+ ":" +:+ port.

(** A [net.IP] of 16 bytes. *)
Definition IP := list Z.

Fixpoint split_on (c : ascii) (s : string) : list string :=
  match s with
  | EmptyString => [""]
  | String a s =>
    match split_on c s with
    | [] => [String a ""]
    | f :: fs => if Ascii.eqb a c then "" :: f :: fs else String a f :: fs
    end
  end.

(** One decimal field of a dotted IPv4 address: 1 to 3 digits, no leading
    zero, at most 255. *)
Definition ipv4_field (f : string) : option Z :=
  match f with
  | EmptyString => None
  | String "0" (String _ _) => None
  | _ =>
    if (3 <? String.length f)%nat then None
    else v ← digits f 0; if (v <=? 255)%Z then Some v else None
  end.

Definition v4InV6Prefix : list Z := [0; 0; 0; 0; 0; 0; 0; 0; 0; 0; 255; 255]%Z.

Definition parseIPv4 (s : string) : option IP :=
  match split_on "." s with
  | [a; b; c; d] =>
    a ← ipv4_field a; b ← ipv4_field b; c ← ipv4_field c; d ← ipv4_field d;
    Some (v4InV6Prefix ++ [a; b; c; d])
  | _ => None
  end.

Definition hex_digit (a : ascii) : option Z :=
  let n := nat_of_ascii a in
  if (48 <=? n)%nat && (n <=? 57)%nat then Some (Z.of_nat n - 48)%Z
  else if (97 <=? n)%nat && (n <=? 102)%nat then Some (Z.of_nat n - 87)%Z
  else if (65 <=? n)%nat && (n <=? 70)%nat then Some (Z.of_nat n - 55)%Z
  else None.

Fixpoint hex_digits (s : string) (acc : Z) : option Z :=
  match s with
  | EmptyString => Some acc
  | String a s => d ← hex_digit a; hex_digits s (acc * 16 + d)%Z
  end.

(** A 16-bit group of an IPv6 address, as its two bytes. *)
Definition ipv6_group (f : string) : option (list Z) :=
  match f with
  | EmptyString => None
  | _ =>
    if (4 <? String.length f)%nat then None
    else v ← hex_digits f 0; Some [Z.shiftr v 8; Z.land v 255]
  end.

(** A colon-separated run of groups; the last one may be a dotted IPv4 address. *)
Fixpoint ipv6_run (fs : list string) : option (list Z) :=
  match fs with
  | [] => Some []
  | [f] =>
    if ContainsByte "." f then drop 12 <$> parseIPv4 f else ipv6_group f
  | f :: fs => g ← ipv6_group f; r ← ipv6_run fs; Some (g ++ r)
  end.

Definition is_empty (s : string) : bool := (s =? "")%string.

(** Splits the fields at the first empty one, which stands for ["::"]. *)
Fixpoint at_ellipsis (fs : list string) : option (list string * list string) :=
  match fs with
  | [] => None
  | f :: fs =>
    if is_empty f then Some ([], fs)
    else '(l, r) ← at_ellipsis fs; Some (f :: l, r)
  end.

(** The groups on the two sides of ["::"], which stands for at least one zero
    group. *)
Definition ipv6_ellipsis (l r : list string) : option IP :=
  hd ← ipv6_run l;
  tl ← ipv6_run r;
  (* a dotted IPv4 tail is only allowed at the very end *)
  if existsb (ContainsByte ".") l then None
  else if (length hd + length tl <=? 14)%nat
  then Some (hd ++ replicate (16 - (length hd + length tl)) 0%Z ++ tl)
  else None.

Definition parseIPv6 (s : string) : option IP :=
  match split_on ":" s with
  | [""; ""; ""] => Some (replicate 16 0%Z)                (* "::" *)
  | "" :: "" :: fs => ipv6_ellipsis [] fs                  (* leading "::" *)
  | fs =>
    match at_ellipsis fs with
    | Some (l, [""]) => ipv6_ellipsis l []                 (* trailing "::" *)
    | Some ([], _) | Some (_, []) => None                  (* a lone leading or trailing colon *)
    | Some (l, r) => ipv6_ellipsis l r
    | None => b ← ipv6_run fs; if (length b =? 16)%nat then Some b else None
    end
  end.

(** [net.ParseIP]: dispatches on the first dot or colon. *)
Fixpoint first_sep (s : string) : option ascii :=
  match s with
  | EmptyString => None
  | String "." _ => Some "."%char
  | String ":" _ => Some ":"%char
  | String _ s => first_sep s
  end.

Definition ParseIP (s : string) : option IP :=
  match first_sep s with
  | Some "."%char => parseIPv4 s
  | Some _ => parseIPv6 s
  | None => None
  end.

(** The four bytes of an IPv4 address in either of its two forms. *)
Definition To4 (ip : IP) : option IP :=
  if decide (length ip = 4) then Some ip
  else if decide (take 12 ip = v4InV6Prefix ∧ length ip = 16) then Some (drop 12 ip)
  else None.

Definition IPv6loopback : IP := replicate 15 0%Z ++ [1%Z].

Definition IsLoopback (ip : IP) : bool :=
  match To4 ip with
  | Some (a :: _) => (a =? 127)%Z
  | _ => bool_decide (ip = IPv6loopback)
  end.

Definition IPv4zero : IP := v4InV6Prefix ++ [0; 0; 0; 0]%Z.

Definition IsUnspecified (ip : IP) : bool :=
  match To4 ip with
  | Some v4 => bool_decide (v4 = [0; 0; 0; 0]%Z)
  | None => bool_decide (ip = replicate 16 0%Z)
  end.

Example ParseIP_v4 : ParseIP "127.0.0.1" = Some (v4InV6Prefix ++ [127; 0; 0; 1]%Z).
Proof. reflexivity. Qed.
Example ParseIP_v4_leading_zero : ParseIP "127.0.0.01" = None.
Proof. reflexivity. Qed.
Example ParseIP_v6_loopback : ParseIP "::1" = Some IPv6loopback.
Proof. reflexivity. Qed.
Example ParseIP_v6_mapped : IsLoopback <$> ParseIP "::ffff:127.0.0.1" = Some true.
Proof. reflexivity. Qed.
Example ParseIP_v6_mid : ParseIP "2001:db8::8:800:200C:417A" =
  Some [32; 1; 13; 184; 0; 0; 0; 0; 0; 8; 8; 0; 32; 12; 65; 122]%Z.
Proof. reflexivity. Qed.
Example ParseIP_bad : ParseIP "1:2:3" = None ∧ ParseIP ":1::2" = None ∧ ParseIP "1::2::3" = None.
Proof. repeat split. Qed.
Example ParseIP_name : ParseIP "www.example.com" = None ∧ ParseIP "localhost" = None.
Proof. repeat split. Qed.
Example ParseIP_trail : ParseIP "1::" = Some ([0;1] ++ replicate 14 0)%Z ∧ ParseIP "1:" = None.
Proof. repeat split. Qed.
Example Atoi_ex : Atoi "-12" = Some (-12)%Z ∧ Atoi "" = None ∧ Atoi "1x" = None ∧ Atoi "9223372036854775808" = None.
Proof. repeat split. Qed.

(** ** [net.IP.String] *)

Definition hex_char (z : Z) : string :=
  nth (Z.to_nat z)
    ["0"; "1"; "2"; "3"; "4"; "5"; "6"; "7"; "8"; "9"; "a"; "b"; "c"; "d"; "e"; "f"] "".

(** Two hexadecimal digits of a byte. *)
Definition hex_byte (z : Z) : string := hex_char (z / 16) +:+ hex_char (z mod 16).

(** A 16-bit group without leading zeros. *)
Definition hex_group (z : Z) : string :=
  if (z <? 16)%Z then hex_char z
  else if (z <? 256)%Z then hex_byte z
  else if (z <? 4096)%Z then hex_char (z / 256) +:+ hex_byte (z mod 256)
  else hex_byte (z / 256) +:+ hex_byte (z mod 256).

Fixpoint ip_groups (ip : IP) : list Z :=
  match ip with
  | a :: b :: ip => (a * 256 + b)%Z :: ip_groups ip
  | _ => []
  end.

(** The number of zero groups the list starts with. *)
Fixpoint zero_run (gs : list Z) : nat :=
  match gs with
  | g :: gs => if (g =? 0)%Z then S (zero_run gs) else 0
  | [] => 0
  end.

(** The leftmost longest run of at least two zero groups: start and length. *)
Definition longest_zero_run (gs : list Z) : option (nat * nat) :=
  foldl (fun best i =>
    let n := zero_run (drop i gs) in
    let len := match best with Some (_, l) => l | None => 1 end in
    if (len <? n)%nat then Some (i, n) else best) None (seq 0 (length gs)).

Definition ipv6_String (ip : IP) : string :=
  let gs := ip_groups ip in
  match longest_zero_run gs with
  | None => Join (hex_group <$> gs) ":"
  | Some (i, n) =>
    Join (hex_group <$> take i gs) ":" +:+ "::" +:+ Join (hex_group <$> drop (i + n) gs) ":"
  end.

(** [None] is the nil address. *)
Definition IP_String (ip : option IP) : string :=
  match ip with
  | None => "<nil>"
  | Some ip =>
    match To4 ip with
    | Some v4 => Join (Itoa <$> v4) "."
    | None =>
      if decide (length ip = 16) then ipv6_String ip
      else "?" +:+ Join (hex_byte <$> ip) ""
    end
  end.

Example IP_String_v4 : IP_String (Some [10; 0; 0; 9]%Z) = "10.0.0.9" ∧ IP_String (Some IPv4zero) = "0.0.0.0".
Proof. split; reflexivity. Qed.
Example IP_String_v6 :
  IP_String (ParseIP "2001:db8::8:800:200C:417A") = "2001:db8::8:800:200c:417a" ∧
  IP_String (ParseIP "::1") = "::1" ∧ IP_String (ParseIP "1:0:0:2:0:0:0:3") = "1:0:0:2::3".
Proof. repeat split. Qed.

(** ** Lemmas *)

Lemma substring_whole s : String.substring 0 (String.length s) s = s.
Proof. induction s as [|a s IH]; simpl; congruence. Qed.

Lemma substring_app_r s t :
  String.substring (String.length s) (String.length t) (s +:+ t) = t.
Proof. induction s as [|a s IH]; simpl; [apply substring_whole|done]. Qed.

Lemma substring_app_l s t : String.substring 0 (String.length s) (s +:+ t) = s.
Proof.
  induction s as [|a s IH]; simpl; [by destruct t|].
  by rewrite IH.
Qed.

Lemma length_sapp s t : String.length (s +:+ t) = (String.length s + String.length t)%nat.
Proof. induction s as [|a s IH]; simpl; [done|by rewrite IH]. Qed.

Lemma HasSuffix_app s suf : HasSuffix (s +:+ suf) suf = true.
Proof.
  unfold HasSuffix. rewrite length_sapp.
  replace (String.length s + String.length suf - String.length suf)%nat
    with (String.length s) by lia.
  rewrite substring_app_r, String.eqb_refl, andb_true_r.
  apply Nat.leb_le. lia.
Qed.

Lemma substring_split s n :
  (n ≤ String.length s)%nat →
  s = String.substring 0 n s +:+ String.substring n (String.length s - n) s.
Proof.
  revert n. induction s as [|a s IH]; intros [|n] Hn; simpl in *; try done; try lia.
  - by rewrite substring_whole.
  - apply (f_equal (String a)), IH. lia.
Qed.

Lemma HasSuffix_inv s suf : HasSuffix s suf = true → ∃ p, s = p +:+ suf.
Proof.
  unfold HasSuffix. intros [Hle Heq]%andb_true_iff.
  apply Nat.leb_le in Hle. apply String.eqb_eq in Heq.
  exists (String.substring 0 (String.length s - String.length suf) s).
  rewrite <-Heq at 2.
  rewrite (substring_split s (String.length s - String.length suf)) at 1 by lia.
  do 2 f_equal. lia.
Qed.

Lemma TrimSuffix_app s suf : TrimSuffix (s +:+ suf) suf = s.
Proof.
  unfold TrimSuffix. rewrite HasSuffix_app, length_sapp.
  replace (String.length s + String.length suf - String.length suf)%nat
    with (String.length s) by lia.
  apply substring_app_l.
Qed.

Lemma sapp_nil_r s : s +:+ "" = s.
Proof. induction s as [|a s IH]; [done|]. exact (f_equal (String a) IH). Qed.

Lemma sapp_assoc s t u : (s +:+ t) +:+ u = s +:+ (t +:+ u).
Proof. induction s as [|a s IH]; [done|]. exact (f_equal (String a) IH). Qed.

(** Splitting at the first separator is unambiguous. *)
Lemma sep_inj c (s s' t t' : string) :
  ContainsByte c s = false → ContainsByte c s' = false →
  s +:+ String c t = s' +:+ String c t' → s = s' ∧ t = t'.
Proof.
  revert s'. induction s as [|a s IH]; intros [|a' s'] Hs Hs' Heq; simpl in *.
  - by simplify_eq.
  - injection Heq as -> _. by rewrite Ascii.eqb_refl in Hs'.
  - injection Heq as -> _. by rewrite Ascii.eqb_refl in Hs.
  - injection Heq as -> Heq. apply orb_false_iff in Hs as [_ Hs], Hs' as [_ Hs'].
    by destruct (IH s' Hs Hs' Heq) as [-> ->].
Qed.
