(* ===== verification/Util.v ===== *)
(** * Small helpers ([pkg/util/util.go], [pkg/util/signal.go], [pkg/kube/k8s.go])

    The FNV-1a hash of [hash/fnv] and the hexadecimal strings made from it and
    from random bytes. *)

From S2P Require Import Prelude GoLib.
From Stdlib Require Import Ascii.

(** ** FNV-1a, 32 bits ([hash/fnv]) *)

Definition fnv_offset32 : Z := 2166136261.
Definition fnv_prime32 : Z := 16777619.

Definition fnv_byte (hash : Z) (c : ascii) : Z :=
  Z.modulo (Z.lxor hash (Z.of_nat (nat_of_ascii c)) * fnv_prime32) (2 ^ 32).

Fixpoint fnv_write (s : string) (hash : Z) : Z :=
  match s with
  | EmptyString => hash
  | String c s => fnv_write s (fnv_byte hash c)
  end.

(** [Sum(nil)]: the hash, big end first. *)
Definition fnv_sum (hash : Z) : list Z :=
  [Z.land (Z.shiftr hash 24) 255; Z.land (Z.shiftr hash 16) 255; Z.land (Z.shiftr hash 8) 255; Z.land hash 255].

(** [fmt.Sprintf("%x", b)] of a slice of bytes. *)
Fixpoint hex_bytes (b : list Z) : string :=
  match b with
  | [] => ""
  | x :: b => hex_byte x +:+ hex_bytes b
  end.

Definition HashFNV (s : string) : string := hex_bytes (fnv_sum (fnv_write s fnv_offset32)).

(** [sum] is [sha256.Sum256]. *)
Definition Hash (sum : string → list Z) (data : string) : string := hex_bytes (sum data).

(** [b] are the eight bytes that were read; a slice beyond the end panics. *)
Definition GenerateRandom (b : list Z) (n : Z) : go string :=
  let s := hex_bytes b in
  if (n <? 0)%Z || (Z.of_nat (String.length s) <? n)%Z then Panic
  else Ret (String.substring 0 (Z.to_nat n) s).

(** ** Properties *)

Definition is_byte (x : Z) : Prop := (0 <= x < 256)%Z.

Lemma length_hex_char z : (0 <= z < 16)%Z → String.length (hex_char z) = 1%nat.
Proof.
  intros Hz. unfold hex_char. assert (Hn : (Z.to_nat z < 16)%nat) by lia.
  clear Hz. revert Hn. generalize (Z.to_nat z) as n. intros n Hn.
  do 16 (destruct n as [|n]; [done|]). lia.
Qed.

Lemma length_hex_bytes b : Forall is_byte b → String.length (hex_bytes b) = (2 * length b)%nat.
Proof.
  unfold is_byte. induction 1 as [|x b Hx Hb IH]; [done|]. cbn [hex_bytes length]. unfold hex_byte.
  rewrite !length_sapp, IH, !length_hex_char; [lia|by apply Z.mod_pos_bound|].
  split; [apply Z.div_pos; lia|apply Z.div_lt_upper_bound; lia].
Qed.

Lemma fnv_sum_bytes hash : Forall is_byte (fnv_sum hash).
Proof.
  unfold fnv_sum, is_byte. repeat constructor; rewrite (Z.land_ones _ 8) by lia; apply Z.mod_pos_bound; lia.
Qed.

Lemma length_substring_0 n s : (n ≤ String.length s)%nat → String.length (String.substring 0 n s) = n.
Proof. revert n. induction s as [|c s IH]; intros [|n] Hn; simpl in *; try lia. by rewrite IH by lia. Qed.

(** The hash of a string stays within 32 bits. *)
Lemma fnv_write_range s hash : (0 <= hash < 2 ^ 32)%Z → (0 <= fnv_write s hash < 2 ^ 32)%Z.
Proof.
  revert hash. induction s as [|c s IH]; intros hash Hh; [done|]. apply IH.
  unfold fnv_byte. apply Z.mod_pos_bound. lia.
Qed.

(** The hash determines the eight digits and the digits the hash: the bytes printed
    add up to the hash again. *)
Lemma fnv_sum_value hash : (0 <= hash < 2 ^ 32)%Z →
  foldl (fun acc x => acc * 256 + x)%Z 0%Z (fnv_sum hash) = hash.
Proof.
  intros Hh. unfold fnv_sum. cbn [foldl].
  rewrite !(Z.land_ones _ 8) by lia. rewrite !Z.shiftr_div_pow2 by lia.
  change (2 ^ 24)%Z with 16777216%Z. change (2 ^ 16)%Z with 65536%Z. change (2 ^ 8)%Z with 256%Z.
  change (2 ^ 32)%Z with 4294967296%Z in Hh. Z.div_mod_to_equations. lia.
Qed.

Theorem HashFNV_shape s :
  String.length (HashFNV s) = 8%nat ∧
  ∃ bytes, HashFNV s = hex_bytes bytes ∧ length bytes = 4%nat ∧
    foldl (fun acc x => acc * 256 + x)%Z 0%Z bytes = fnv_write s fnv_offset32.
Proof.
  unfold HashFNV. split; [rewrite length_hex_bytes; [done|apply fnv_sum_bytes]|]. eexists. split_and!; [done|done|].
  by apply fnv_sum_value, fnv_write_range.
Qed.

(** Random strings have at most sixteen digits; asking for more panics. *)
Theorem GenerateRandom_length b n :
  length b = 8%nat → Forall is_byte b →
  match GenerateRandom b n with
  | Ret s => Z.of_nat (String.length s) = n ∧ (0 <= n <= 16)%Z
  | Panic => (n < 0 ∨ 16 < n)%Z
  end.
Proof.
  intros Hb Hbytes. unfold GenerateRandom. rewrite length_hex_bytes, Hb by done.
  destruct (Z.ltb_spec n 0) as [Hn|Hn]; cbn [orb]; [by left|]. destruct (Z.ltb_spec (Z.of_nat (2 * 8)) n) as [Hgt|Hle];
    [right; lia|].
  split; [|lia]. rewrite length_substring_0; [lia|]. rewrite length_hex_bytes, Hb by done. lia.
Qed.

(** Published test values of FNV-1a. *)
Example fnv_empty : HashFNV "" = "811c9dc5".
Proof. reflexivity. Qed.
Example fnv_a : HashFNV "a" = "e40c292c".
Proof. reflexivity. Qed.
Example fnv_foobar : HashFNV "foobar" = "bf9cf968".
Proof. reflexivity. Qed.
