(* ===== verification/Kube.v ===== *)
(** * The Kubernetes API data and library calls the sources rely on

    The API objects (packages [k8s.io/api] and [k8s.io/apimachinery]) are
    records of the fields ErieCanal reads or writes.  Functions of those
    packages are not part of the repository: they are fields of the class
    [KubeLib], so every definition that calls one takes it as an argument. *)

From S2P Require Import Prelude GoLib.
From Stdlib Require Import Ascii.

(** ** Names *)

Record NamespacedName : Type := mkNN {
  nn_Namespace : string;
  nn_Name : string
}.

#[export] Instance NamespacedName_eq_dec : EqDecision NamespacedName.
Proof. solve_decision. Defined.
#[export] Instance NamespacedName_countable : Countable NamespacedName.
Proof.
  refine (inj_countable' (fun n => (nn_Namespace n, nn_Name n))
            (fun p => mkNN p.1 p.2) _); by intros [].
Defined.

(** [types.NamespacedName.String] *)
Definition NamespacedName_String (n : NamespacedName) : string :=
  nn_Namespace n +:+ "/" +:+ nn_Name n.

(** ** Object metadata *)

Record ObjectMeta : Type := mkMeta {
  Namespace : string;
  Name : string;
  UID : string;
  ResourceVersion : string;
  Generation : Z;
  DeletionTimestamp : option Z;
  Labels : gomap string string;
  Annotations : gomap string string;
  Finalizers : list string;
  (** the UID of the controlling owner reference *)
  ControllerUID : option string
}.

#[export] Instance ObjectMeta_eq_dec : EqDecision ObjectMeta.
Proof. solve_decision. Defined.

(** The metadata of an object of which only the name is known. *)
Definition named (ns n : string) : ObjectMeta :=
  mkMeta ns n "" "" 0 None None None [] None.

Definition meta_nn (m : ObjectMeta) : NamespacedName := mkNN (Namespace m) (Name m).

(** Reading a string map: a missing key (or a nil map) gives the empty string. *)
Definition smap_get (m : gomap string string) (k : string) : string :=
  default "" (gm_val m !! k).

(** ** Services *)

Inductive IntOrString : Type :=
| IntVal (z : Z)
| StrVal (s : string).
#[export] Instance IntOrString_eq_dec : EqDecision IntOrString.
Proof. solve_decision. Defined.

Record CoreServicePort : Type := mkSvcPort {
  sp_Name : string;
  sp_Protocol : string;
  sp_AppProtocol : option string;
  sp_Port : Z;
  sp_TargetPort : IntOrString;
  sp_NodePort : Z
}.
#[export] Instance CoreServicePort_eq_dec : EqDecision CoreServicePort.
Proof. solve_decision. Defined.

Definition ServiceTypeClusterIP : string := "ClusterIP".
Definition ServiceTypeNodePort : string := "NodePort".
Definition ServiceTypeLoadBalancer : string := "LoadBalancer".
Definition ServiceTypeExternalName : string := "ExternalName".

Definition ProtocolTCP : string := "TCP".

Record Service : Type := mkService {
  svc_Meta : ObjectMeta;
  svc_Type : string;
  svc_Ports : list CoreServicePort;
  svc_ClusterIP : string;
  svc_ClusterIPs : list string;
  svc_ExternalName : string;
  svc_IPFamilyPolicy : option string;
  svc_IPFamilies : list string;
  (** Status.LoadBalancer.Ingress, the IP of each entry *)
  svc_LBIngress : list string
}.
#[export] Instance Service_eq_dec : EqDecision Service.
Proof. solve_decision. Defined.

(** ** Endpoints *)

Record EndpointAddress : Type := mkAddr {
  addr_IP : string;
  addr_Hostname : string;
  addr_NodeName : option string
}.

Record EndpointPort : Type := mkEpPort {
  epp_Name : string;
  epp_Port : Z;
  epp_Protocol : string
}.

Record EndpointSubset : Type := mkSubset {
  ss_Addresses : list EndpointAddress;
  ss_Ports : list EndpointPort
}.

Record Endpoints : Type := mkEndpoints {
  eps_Meta : ObjectMeta;
  eps_Subsets : list EndpointSubset
}.

(** ** Ingresses *)

Record ServiceBackendPort : Type := mkBackendPort {
  bp_Name : string;
  bp_Number : Z
}.

Record IngressServiceBackend : Type := mkBackend {
  isb_Name : string;
  isb_Port : ServiceBackendPort
}.

Record HTTPIngressPath : Type := mkPath {
  hp_Path : string;
  hp_PathType : option string;
  hp_Backend_Service : option IngressServiceBackend
}.

Record IngressRule : Type := mkRule {
  ir_Host : string;
  (** the HTTP pointer with its paths *)
  ir_HTTP : option (list HTTPIngressPath)
}.

Record IngressTLS : Type := mkTLS {
  itls_Hosts : list string;
  itls_SecretName : string
}.

Record Ingress : Type := mkIngress {
  ing_Meta : ObjectMeta;
  ing_ClassName : option string;
  ing_TLS : list IngressTLS;
  ing_Rules : list IngressRule
}.

Definition PathTypeExact : string := "Exact".
Definition PathTypePrefix : string := "Prefix".

Record IngressClass : Type := mkIngressClass {
  ic_Meta : ObjectMeta
}.

(** ** Errors of API calls, as [k8s.io/apimachinery/pkg/api/errors] tells them apart *)

Inductive kerror : Type :=
| NotFound
| AlreadyExists
| OtherError (msg : string).

(** ** Library calls *)

Class KubeLib : Type := {
  (** k8s.io/utils/net.IsIPv4String *)
  IsIPv4String : string → bool;
  (** k8s.io/kubernetes/pkg/proxy/util *)
  GetClusterIPByFamily : string → Service → string;
  IPPart : string → string;
  PortPart : string → option Z;
  (** k8s.io/apimachinery/pkg/util/intstr *)
  IntValue : IntOrString → Z;
  (** k8s.io/apimachinery/pkg/util/validation, the list of error messages *)
  IsDNS1123Subdomain : string → list string;
  IsWildcardDNS1123Subdomain : string → list string;
  (** k8s.io/client-go/tools/cache.SplitMetaNamespaceKey *)
  SplitMetaNamespaceKey : string → result string (string * string)
}.

Definition IPv4Protocol : string := "IPv4".

(** ** A concrete library, to evaluate the model on examples *)

Definition has_ipv4 (s : string) : bool :=
  match ParseIP s with
  | Some ip => bool_decide (is_Some (To4 ip)) && negb (ContainsByte ":"%char s)
  | None => false
  end.

(** What precedes the first colon, and what follows it. *)
Definition host_part (s : string) : string := default "" (head (split_on ":"%char s)).
Definition port_part (s : string) : option Z := split_on ":"%char s !! 1%nat ≫= Atoi.

Definition sample_lib : KubeLib := {|
  IsIPv4String := has_ipv4;
  GetClusterIPByFamily := fun fam svc =>
    if bool_decide (fam = IPv4Protocol) then svc_ClusterIP svc else "";
  IPPart := host_part;
  PortPart := port_part;
  IntValue := fun v =>
    match v with IntVal z => z | StrVal s => default 0%Z (Atoi s) end;
  IsDNS1123Subdomain := fun s => if bool_decide (s = "") then ["empty"] else [];
  IsWildcardDNS1123Subdomain := fun s =>
    match s with String "*"%char (String "."%char _) => [] | _ => ["not a wildcard"] end;
  SplitMetaNamespaceKey := fun s =>
    match split_on "/"%char s with
    | [n] => Ok ("", n)
    | [ns; n] => Ok (ns, n)
    | _ => Err "unexpected key format"
    end
|}.
