(* ===== verification/Clientset.v ===== *)
(** * Building clients ([pkg/generated/clientset/versioned], [pkg/kube/k8s.go])

    From a REST configuration to the clients of the API: what is copied, what is
    shared, and what happens when a client cannot be built. *)

From S2P Require Import Prelude GoLib.

(** ** Configurations and client-go *)

Section clientset.
(** Rate limiters, HTTP clients and REST clients of client-go. *)
Context {Limiter HTTPClient RESTClient : Type}.

Record RestConfig : Type := mkRestConfig {
  rest_UserAgent : string;
  rest_RateLimiter : option Limiter;
  rest_QPS : Z;
  rest_Burst : Z;
  rest_GroupVersion : option (string * string);
  rest_APIPath : string;
  rest_Timeout : Z
}.

Class RestLib : Type := {
  DefaultKubernetesUserAgent : string;
  NewTokenBucketRateLimiter : Z → Z → Limiter;
  HTTPClientFor : RestConfig → result string HTTPClient;
  RESTClientForConfigAndClient : RestConfig → HTTPClient → result string RESTClient;
  NewDiscoveryClientForConfigAndClient : RestConfig → HTTPClient → result string RESTClient;
  (** the constructors of the clients of Kubernetes itself *)
  kubernetes_NewForConfig : RestConfig → result string RESTClient;
  dynamic_NewForConfig : RestConfig → result string RESTClient;
  discovery_NewForConfig : RestConfig → result string RESTClient;
  extensions_NewForConfig : RestConfig → result string RESTClient
}.
Context `{RestLib}.

Definition with_UserAgent (c : RestConfig) (a : string) : RestConfig :=
  mkRestConfig a (rest_RateLimiter c) (rest_QPS c) (rest_Burst c) (rest_GroupVersion c) (rest_APIPath c) (rest_Timeout c).
Definition with_RateLimiter (c : RestConfig) (l : Limiter) : RestConfig :=
  mkRestConfig (rest_UserAgent c) (Some l) (rest_QPS c) (rest_Burst c) (rest_GroupVersion c) (rest_APIPath c)
    (rest_Timeout c).
Definition with_API (c : RestConfig) (gv : string * string) (path : string) : RestConfig :=
  mkRestConfig (rest_UserAgent c) (rest_RateLimiter c) (rest_QPS c) (rest_Burst c) (Some gv) path (rest_Timeout c).
Definition with_Timeout (c : RestConfig) (t : Z) : RestConfig :=
  mkRestConfig (rest_UserAgent c) (rest_RateLimiter c) (rest_QPS c) (rest_Burst c) (rest_GroupVersion c) (rest_APIPath c) t.

(** [OrDie]: an error is a panic. *)
Definition or_die {A} (r : result string A) : go A := match r with Ok a => Ret a | Err _ => Panic end.

(** ** The client of a group *)

Definition SchemeGroupVersion : string * string := ("flomesh.io", "v1alpha1").

Definition default_user_agent (c : RestConfig) : RestConfig :=
  if bool_decide (rest_UserAgent c = "") then with_UserAgent c DefaultKubernetesUserAgent else c.

Definition setConfigDefaults (config : RestConfig) : RestConfig :=
  default_user_agent (with_API config SchemeGroupVersion "/apis").

Definition group_NewForConfigAndClient (c : RestConfig) (h : HTTPClient) : result string RESTClient :=
  RESTClientForConfigAndClient (setConfigDefaults c) h.

Definition group_NewForConfig (c : RestConfig) : result string RESTClient :=
  let config := setConfigDefaults c in
  match HTTPClientFor config with
  | Err e => Err e
  | Ok httpClient => group_NewForConfigAndClient config httpClient
  end.

Definition group_NewForConfigOrDie (c : RestConfig) : go RESTClient := or_die (group_NewForConfig c).

(** ** The clientset *)

Record Clientset : Type := mkClientset {
  clusterV1alpha1 : RESTClient;
  globaltrafficpolicyV1alpha1 : RESTClient;
  multiclusterendpointV1alpha1 : RESTClient;
  namespacedingressV1alpha1 : RESTClient;
  serviceexportV1alpha1 : RESTClient;
  serviceimportV1alpha1 : RESTClient;
  DiscoveryClient : RESTClient
}.

(** The copy of the configuration, with a rate limiter when one is asked for. *)
Definition rate_limited (c : RestConfig) : result string RestConfig :=
  match rest_RateLimiter c with
  | None =>
    if bool_decide (rest_QPS c > 0)%Z then
      if bool_decide (rest_Burst c <= 0)%Z
      then Err "burst is required to be greater than 0 when RateLimiter is not set and QPS is set to greater than 0"
      else Ok (with_RateLimiter c (NewTokenBucketRateLimiter (rest_QPS c) (rest_Burst c)))
    else Ok c
  | Some _ => Ok c
  end.

Definition NewForConfigAndClient (c : RestConfig) (httpClient : HTTPClient) : result string Clientset :=
  match rate_limited c with
  | Err e => Err e
  | Ok c =>
    match group_NewForConfigAndClient c httpClient with Err e => Err e | Ok cluster =>
    match group_NewForConfigAndClient c httpClient with Err e => Err e | Ok policy =>
    match group_NewForConfigAndClient c httpClient with Err e => Err e | Ok endpoint =>
    match group_NewForConfigAndClient c httpClient with Err e => Err e | Ok ingress =>
    match group_NewForConfigAndClient c httpClient with Err e => Err e | Ok export =>
    match group_NewForConfigAndClient c httpClient with Err e => Err e | Ok import =>
    match NewDiscoveryClientForConfigAndClient c httpClient with Err e => Err e | Ok discovery =>
      Ok (mkClientset cluster policy endpoint ingress export import discovery)
    end end end end end end end
  end.

Definition NewForConfig (c : RestConfig) : result string Clientset :=
  let c := default_user_agent c in
  match HTTPClientFor c with
  | Err e => Err e
  | Ok httpClient => NewForConfigAndClient c httpClient
  end.

Definition NewForConfigOrDie (c : RestConfig) : go Clientset := or_die (NewForConfig c).

(** ** All clients of a cluster *)

Record K8sAPI : Type := mkK8sAPI {
  api_Config : RestConfig;
  api_Client : RESTClient;
  api_EventClient : RESTClient;
  api_DynamicClient : RESTClient;
  api_DiscoveryClient : RESTClient;
  api_FlomeshClient : Clientset;
  api_ExtensionsClient : RESTClient
}.

(** [config] is changed in place: the caller's configuration has the timeout, too. *)
Definition NewAPIForConfigOrDie (config : RestConfig) (timeout : Z) : go (result string K8sAPI) :=
  let config := with_Timeout config timeout in
  clientset ← or_die (kubernetes_NewForConfig config);
  eventClient ← or_die (kubernetes_NewForConfig config);
  dynamicClient ← or_die (dynamic_NewForConfig config);
  discoveryClient ← or_die (discovery_NewForConfig config);
  flomeshClient ← NewForConfigOrDie config;
  extensionsClient ← or_die (extensions_NewForConfig config);
  Ret (Ok (mkK8sAPI config clientset eventClient dynamicClient discoveryClient flomeshClient extensionsClient)).

Definition NewAPIForConfig (config : RestConfig) (timeout : Z) : go (result string K8sAPI) :=
  NewAPIForConfigOrDie config timeout.

(** [config] is what [GetConfig] or [GetConfigWithContext] found. *)
Definition NewAPI (config : result string RestConfig) (timeout : Z) : go (result string K8sAPI) :=
  match config with
  | Err e => Ret (Err ("error get config for K8s API client: " +:+ e))
  | Ok config => NewAPIForConfig config timeout
  end.

(** ** Properties *)

(** The six clients of a clientset are made from the same configuration, which is
    the caller's one but for the user agent, the API and, when the caller set a rate
    and no limiter, one limiter that they all share. *)
Theorem clientset_shares_configuration c h cs :
  NewForConfigAndClient c h = Ok cs →
  ∃ c', rate_limited c = Ok c' ∧ rest_Timeout c' = rest_Timeout c ∧
    (∀ l, rest_RateLimiter c = Some l → rest_RateLimiter c' = Some l) ∧
    Forall (fun client => RESTClientForConfigAndClient (setConfigDefaults c') h = Ok client)
      [clusterV1alpha1 cs; globaltrafficpolicyV1alpha1 cs; multiclusterendpointV1alpha1 cs;
       namespacedingressV1alpha1 cs; serviceexportV1alpha1 cs; serviceimportV1alpha1 cs].
Proof.
  unfold NewForConfigAndClient. destruct (rate_limited c) as [c'|e] eqn:Hc; [|done].
  unfold group_NewForConfigAndClient. destruct (RESTClientForConfigAndClient _ h) as [client|e] eqn:Hr; [|done].
  destruct (NewDiscoveryClientForConfigAndClient c' h) as [d|e]; [|done]. intros [= <-]. exists c'.
  assert (rest_Timeout c' = rest_Timeout c ∧ ∀ l, rest_RateLimiter c = Some l → rest_RateLimiter c' = Some l) as [Ht Hl].
  { unfold rate_limited in Hc. repeat case_match; simplify_eq/=; (split; [done|congruence]). }
  split_and!; [done|done|done|]. by repeat constructor.
Qed.

(** Either building the clients panics, or there is a client of everything:
    the error that [NewAPIForConfig] declares is never returned. *)
Theorem NewAPIForConfig_never_fails config timeout :
  NewAPIForConfig config timeout = Panic ∨
  ∃ api, NewAPIForConfig config timeout = Ret (Ok api) ∧ rest_Timeout (api_Config api) = timeout ∧
    NewForConfig (api_Config api) = Ok (api_FlomeshClient api).
Proof.
  unfold NewAPIForConfig, NewAPIForConfigOrDie, NewForConfigOrDie, or_die.
  destruct (kubernetes_NewForConfig _) as [c1|]; [|by left]. simpl.
  destruct (dynamic_NewForConfig _) as [c2|]; [|by left]. simpl.
  destruct (discovery_NewForConfig _) as [c3|]; [|by left]. simpl.
  destruct (NewForConfig _) as [c4|] eqn:Hf; [|by left]. simpl.
  destruct (extensions_NewForConfig _) as [c5|]; [|by left]. simpl. right. by eexists.
Qed.
End clientset.
Arguments RestConfig : clear implicits.
