(* ===== verification/CtrlUtil.v ===== *)
(** * Create or update ([pkg/util/ctrl.go])

    [CreateOrUpdate] is generic in the type of the object; the API server's
    answers are parameters, the writes are logged. *)

From S2P Require Import Prelude GoLib Effects Kube.

(** The text of an error of the API server. *)
Definition kerror_Error (e : kerror) : string :=
  match e with NotFound => "not found" | AlreadyExists => "already exists" | OtherError msg => msg end.

Inductive OperationResult : Type := ResultNone | ResultCreated | ResultUpdated.

Section create_or_update.
Context {W O : Type} `{EqDecision O}.
(** reading the object of the same key; client.Merge.Data *)
Context (get : O → result kerror O) (mergeData : O → option kerror).
Context (create patch : O → eff W kerror unit).

(** [obj] is overwritten by the object read: a copy is compared and patched. *)
Definition CreateOrUpdate (obj : O) : eff W kerror OperationResult :=
  let modifiedObj := obj in
  match get obj with
  | Err NotFound => _ ← create obj; mret ResultCreated
  | Err e => fail e
  | Ok found =>
    if bool_decide (found ≠ modifiedObj) then
      match mergeData modifiedObj with
      | Some e => fail e
      | None => _ ← patch modifiedObj; mret ResultUpdated
      end
    else mret ResultNone
  end.

(** An object that does not exist is created, one that differs is patched to what
    was asked for, and an identical one is left alone. *)
Lemma CreateOrUpdate_ok obj ws r :
  CreateOrUpdate obj = Ret (ws, Ok r) →
  match r with
  | ResultNone => ws = [] ∧ get obj = Ok obj
  | ResultCreated => get obj = Err NotFound ∧ create obj = Ret (ws, Ok tt)
  | ResultUpdated => (∃ found, get obj = Ok found ∧ found ≠ obj) ∧ patch obj = Ret (ws, Ok tt)
  end.
Proof.
  unfold CreateOrUpdate. destruct (get obj) as [found|[]]; [| |done|done].
  - case_bool_decide as Hne; [|intros [= <- <-]; by subst].
    destruct (mergeData obj); [done|].
    intros [(? & _ & [=])|(ws1 & ws2 & [] & Hp & [= <- <-] & ->)]%eff_bind_Ret.
    rewrite app_nil_r. split; [by exists found|done].
  - intros [(? & _ & [=])|(ws1 & ws2 & [] & Hp & [= <- <-] & ->)]%eff_bind_Ret.
    by rewrite app_nil_r.
Qed.

(** An object that was just read back unchanged is not written again; one that
    carries anything the caller did not set always is. *)
Lemma CreateOrUpdate_idle obj : get obj = Ok obj → CreateOrUpdate obj = mret ResultNone.
Proof. intros Hg. unfold CreateOrUpdate. rewrite Hg. by rewrite bool_decide_false by (intros Hn; by apply Hn). Qed.
End create_or_update.
