(* ===== verification/Tracker.v ===== *)
(** * The theory of change trackers

    The cache of the local connector keeps four change trackers of the same
    shape (services, endpoints, service imports, ingresses).  A tracker records,
    per object name, the map the object contributed when the last sync happened
    ([previous]) and the one it contributes now ([current]); a sync folds the
    pending changes into the global map.

    This file states, once, what that is good for: whatever order the Go runtime
    ranges over the pending changes in, a sync makes the global map equal to the
    union of what the objects contribute now.  The components instantiate it with
    their own projections and their own way of applying a change. *)

From S2P Require Import Prelude GoLib Kube.

Record change (K V : Type) `{Countable K} : Type := mkChange {
  previous : gomap K V;
  current : gomap K V
}.
Arguments mkChange {K V _ _} _ _.
Arguments previous {K V _ _} _.
Arguments current {K V _ _} _.

(** What applying one change to the global map has to do: current entries win,
    entries that were there only before go away, the others stay. *)
Class ApplyStep {K V : Type} `{Countable K}
    (step : gmap K V → change K V → gmap K V) : Prop :=
  apply_step_lookup : ∀ em c k,
    step em c !! k =
      match gm_val (current c) !! k with
      | Some v => Some v
      | None =>
        match gm_val (previous c) !! k with Some _ => None | None => em !! k end
      end.

Section tracker.
Context {K V : Type} `{Countable K} `{EqDecision V}.
Context (owner : K → NamespacedName).
Implicit Types (em : gmap K V) (items : gmap NamespacedName (change K V)).
Implicit Types (view : NamespacedName → gmap K V).

(** The bookkeeping every [Update] method performs on the pending changes. *)
Definition track (items : gmap NamespacedName (change K V)) (nn : NamespacedName)
    (prev cur : gomap K V) : gmap NamespacedName (change K V) :=
  let ch := match items !! nn with
            | Some ch => mkChange (previous ch) cur
            | None => mkChange prev cur
            end in
  if decide (previous ch = current ch) then delete nn items else <[nn := ch]> items.

(** Every key of the map belongs to the object [nn]. *)
Definition owned_by (nn : NamespacedName) (m : gmap K V) : Prop :=
  ∀ k v, m !! k = Some v → owner k = nn.

(** [view nn] is what the object [nn] contributes now; the global map agrees
    with it, except on the objects with a pending change, where it still shows
    what the change remembers as [previous]. *)
Record coherent (view : NamespacedName → gmap K V) (em : gmap K V)
    (items : gmap NamespacedName (change K V)) : Prop := {
  coh_view : ∀ nn, owned_by nn (view nn);
  coh_prev : ∀ nn ch, items !! nn = Some ch → owned_by nn (gm_val (previous ch));
  coh_cur : ∀ nn ch, items !! nn = Some ch → gm_val (current ch) = view nn;
  coh_pending : ∀ k ch, items !! owner k = Some ch → em !! k = gm_val (previous ch) !! k;
  coh_settled : ∀ k, items !! owner k = None → em !! k = view (owner k) !! k
}.

Definition view_set (view : NamespacedName → gmap K V) nn m : NamespacedName → gmap K V :=
  fun n => if decide (n = nn) then m else view n.

Lemma coherent_init : coherent (fun _ => ∅) ∅ ∅.
Proof. split; intros *; try intros ?; simplify_map_eq; done. Qed.

Lemma track_lookup_ne items nn prev cur nn' :
  nn ≠ nn' → track items nn prev cur !! nn' = items !! nn'.
Proof.
  intros Hne. unfold track.
  by case_decide; [rewrite lookup_delete_ne|rewrite lookup_insert_ne].
Qed.

(** The change recorded for [nn], or the equality that made it vanish. *)
Lemma track_lookup_eq items nn prev cur :
  let p := match items !! nn with Some ch => previous ch | None => prev end in
  (p = cur ∧ track items nn prev cur !! nn = None) ∨
  (p ≠ cur ∧ track items nn prev cur !! nn = Some (mkChange p cur)).
Proof.
  unfold track. destruct (items !! nn) as [ch|]; simpl; case_decide; simpl in *;
    rewrite ?lookup_delete_eq, ?lookup_insert_eq; auto.
Qed.

(** Recording an event keeps the invariant: the object's view becomes the new
    map, the global map is untouched. *)
Lemma track_coherent view em items nn prev cur :
  coherent view em items →
  gm_val prev = view nn →
  owned_by nn (gm_val cur) →
  coherent (view_set view nn (gm_val cur)) em (track items nn prev cur).
Proof.
  intros [Hv Hp Hc Hpe Hs] Hprev Hown.
  (* the map shown for [nn] so far *)
  assert (Hem : ∀ k, owner k = nn → em !! k =
            gm_val (match items !! nn with Some ch => previous ch | None => prev end) !! k).
  { intros k <-. destruct (items !! owner k) as [ch|] eqn:E; [by apply Hpe|].
    rewrite Hprev. by apply Hs. }
  assert (Hpo : owned_by nn
            (gm_val (match items !! nn with Some ch => previous ch | None => prev end))).
  { destruct (items !! nn) as [ch|] eqn:E; [by eapply Hp|]. rewrite Hprev. apply Hv. }
  unfold view_set.
  split; intros x; (destruct (decide (x = nn)) as [->|Hx] || destruct (decide (owner x = nn)) as [Hx|Hx]);
    rewrite ?Hx, ?track_lookup_ne by done; eauto;
    destruct (track_lookup_eq items nn prev cur) as [[Heq ->]|[Hne ->]]; naive_solver.
Qed.

(** Folding changes, in any order, into the global map. *)
Section apply.
Context (step : gmap K V → change K V → gmap K V) `{!ApplyStep step}.

Definition apply_changes (em : gmap K V) (l : list (NamespacedName * change K V)) :
    gmap K V := foldl (fun em c => step em c.2) em l.

Lemma apply_changes_lookup l em k :
  NoDup l.*1 →
  (∀ nn ch, (nn, ch) ∈ l →
     owned_by nn (gm_val (previous ch)) ∧ owned_by nn (gm_val (current ch))) →
  apply_changes em l !! k =
    match (list_to_map l : gmap NamespacedName (change K V)) !! owner k with
    | Some ch => step em ch !! k
    | None => em !! k
    end.
Proof.
  unfold apply_changes. revert em.
  induction l as [|[nn ch] l IH]; intros em Hnd Hown; simpl.
  - by rewrite lookup_empty.
  - apply NoDup_cons in Hnd as [Hni Hnd].
    rewrite IH by (try done; intros; apply Hown; by right).
    destruct (decide (nn = owner k)) as [->|Hne].
    + rewrite not_elem_of_list_to_map_1 by done. by rewrite lookup_insert_eq.
    + rewrite lookup_insert_ne by done.
      destruct (Hown nn ch) as [Hop Hoc]; [by left|].
      assert (Hskip : step em ch !! k = em !! k).
      { rewrite apply_step_lookup.
        destruct (gm_val (current ch) !! k) eqn:Ec; [by apply Hoc in Ec|].
        destruct (gm_val (previous ch) !! k) eqn:Ep; [by apply Hop in Ep|done]. }
      destruct (list_to_map l !! owner k) as [ch'|]; [|done].
      by rewrite !(apply_step_lookup _ ch'), Hskip.
Qed.

(** The refinement theorem of the trackers: after a sync, in whatever order
    the changes are visited, the map holds exactly what the objects
    contribute. *)
Lemma apply_changes_refines `{MapRange} view em items :
  coherent view em items →
  ∀ k, apply_changes em (go_range items) !! k = view (owner k) !! k.
Proof.
  intros [Hv Hp Hc Hpe Hs] k.
  rewrite apply_changes_lookup; [|by auto with erie|].
  - rewrite go_range_list_to_map.
    destruct (items !! owner k) as [ch|] eqn:E; [|by apply Hs].
    rewrite apply_step_lookup, (Hc _ _ E), (Hpe _ _ E).
    destruct (view (owner k) !! k); [done|].
    by destruct (gm_val (previous ch) !! k).
  - intros nn ch Hin%go_range_elem. split; [by eapply Hp|].
    rewrite (Hc _ _ Hin). apply Hv.
Qed.

Lemma apply_changes_coherent `{MapRange} view em items :
  coherent view em items → coherent view (apply_changes em (go_range items)) ∅.
Proof.
  intros Hcoh. split; intros *; try (intros ?; by simplify_map_eq).
  - apply Hcoh.
  - intros _. by apply apply_changes_refines.
Qed.
End apply.

Lemma coherent_proper view view' em items :
  (∀ nn, view nn = view' nn) → coherent view em items → coherent view' em items.
Proof.
  intros Heq [Hv Hp Hc Hpe Hs].
  split; intros *; rewrite <-?Heq; eauto.
Qed.
End tracker.

(** ** Projections

    What one API object contributes to the global map; the interface between a
    tracker and the component that maintains the map. *)
Class Projection (Obj K V : Type) `{Countable K} : Type := {
  obj_name : Obj → NamespacedName;
  proj : Obj → gomap K V;
  key_owner : K → NamespacedName;
  (** the objects whose contributions are kept apart by the owner of the key *)
  obj_ok : Obj → Prop;
  proj_owned : ∀ o, obj_ok o → owned_by key_owner (obj_name o) (gm_val (proj o))
}.

Section projection.
Context {Obj K V : Type} `{Countable K} {P : Projection Obj K V}.

(** What the object stored under a name contributes; nothing when there is
    none. *)
Definition store_view (store : gmap NamespacedName Obj) (nn : NamespacedName) : gmap K V :=
  match store !! nn with Some o => gm_val (proj o) | None => ∅ end.

(** The objects of a store are filed under their own names. *)
Definition store_ok (store : gmap NamespacedName Obj) : Prop :=
  ∀ nn o, store !! nn = Some o → obj_name o = nn.

(** Projecting a possibly nil object. *)
Definition proj_opt (o : option Obj) : gomap K V := o ≫= proj.

(** The object a notification is about: the new one, else the old one. *)
Definition event_obj (prev cur : option Obj) : option Obj :=
  match cur with Some o => Some o | None => prev end.

(** An informer notification: add, update or delete of one object, with the
    old object as the informer saw it. *)
Record event_ok (store : gmap NamespacedName Obj) (nn : NamespacedName)
    (prev cur : option Obj) : Prop := {
  ev_prev : prev = store !! nn;
  ev_cur : ∀ o, cur = Some o → obj_name o = nn ∧ obj_ok o;
  ev_some : is_Some (event_obj prev cur)
}.

(** The store after the notification. *)
Definition store_set (store : gmap NamespacedName Obj) (nn : NamespacedName)
    (cur : option Obj) : gmap NamespacedName Obj :=
  match cur with Some o => <[nn := o]> store | None => delete nn store end.

Lemma store_set_ok store nn prev cur :
  store_ok store → event_ok store nn prev cur → store_ok (store_set store nn cur).
Proof.
  intros Hok [_ Hcur _] nn' o. destruct cur as [o'|]; simpl.
  - rewrite lookup_insert. case_decide; naive_solver.
  - rewrite lookup_delete. case_decide; naive_solver.
Qed.

(** The object of a well-formed notification carries the notified name. *)
Lemma event_ok_obj store nn prev cur :
  store_ok store → event_ok store nn prev cur →
  ∃ o, event_obj prev cur = Some o ∧ obj_name o = nn.
Proof.
  intros Hok [-> Hcur [o Ho]]. exists o. split; [done|].
  destruct cur; naive_solver.
Qed.

Lemma proj_opt_view store nn :
  gm_val (proj_opt (store !! nn)) = store_view store nn.
Proof. unfold store_view, proj_opt. by destruct (store !! nn). Qed.

Lemma store_view_set store nn cur nn' :
  view_set (store_view store) nn (gm_val (proj_opt cur)) nn' =
    store_view (store_set store nn cur) nn'.
Proof.
  unfold view_set, store_view, store_set, proj_opt.
  destruct cur as [o|]; simpl; [rewrite lookup_insert|rewrite lookup_delete];
    case_all; naive_solver.
Qed.

(** Recording an informer notification keeps tracker, map and store coherent. *)
Lemma track_event_coherent `{EqDecision V} store em items nn prev cur :
  store_ok store →
  event_ok store nn prev cur →
  coherent key_owner (store_view store) em items →
  coherent key_owner (store_view (store_set store nn cur)) em
    (track items nn (proj_opt prev) (proj_opt cur)).
Proof.
  intros Hok [-> Hcur _] Hcoh.
  eapply coherent_proper; [apply store_view_set|].
  apply track_coherent; [done|apply proj_opt_view|].
  destruct cur as [o|]; simpl; [|done].
  destruct (Hcur o) as [<- Hook]; [done|]. by apply proj_owned.
Qed.
End projection.
