(* ===== verification/CacheTypes.v ===== *)
(** * Data of the cache and of the generated routes

    [pkg/cache/types.go], the record types of the cache's maps, and
    [pkg/route/types.go]. *)

From S2P Require Import Prelude GoLib Kube.

(** ** pkg/cache/types.go *)

Record ServicePortName : Type := mkSPN {
  spn_NamespacedName : NamespacedName;
  spn_Port : string;
  spn_Protocol : string
}.

#[export] Instance ServicePortName_eq_dec : EqDecision ServicePortName.
Proof. solve_decision. Defined.
#[export] Instance ServicePortName_countable : Countable ServicePortName.
Proof.
  refine (inj_countable' (fun s => (spn_NamespacedName s, spn_Port s, spn_Protocol s))
            (fun p => mkSPN p.1.1 p.1.2 p.2) _); by intros [].
Defined.

Definition fmtPortName (i : string) : string :=
  if bool_decide (i = "") then "" else ":" +:+ i.

Definition ServicePortName_String (spn : ServicePortName) : string :=
  NamespacedName_String (spn_NamespacedName spn) +:+ fmtPortName (spn_Port spn).

(** ** Endpoints: the only implementation of the [Endpoint] interface *)

Record BaseEndpointInfo : Type := mkBaseEndpointInfo {
  Endpoint : string;
  Nodename : string;
  Hostname : string;
  ClusterInfo : string
}.
#[export] Instance BaseEndpointInfo_eq_dec : EqDecision BaseEndpointInfo.
Proof. solve_decision. Defined.

Definition BaseEndpointInfo_String (info : BaseEndpointInfo) : string := Endpoint info.

Definition BaseEndpointInfo_Equal (info other : BaseEndpointInfo) : bool :=
  bool_decide (BaseEndpointInfo_String info = BaseEndpointInfo_String other).

Definition BaseEndpointInfo_IP `{KubeLib} (info : BaseEndpointInfo) : string :=
  IPPart (Endpoint info).

Definition BaseEndpointInfo_Port `{KubeLib} (info : BaseEndpointInfo) : option Z :=
  PortPart (Endpoint info).

Definition newBaseEndpointInfo (ip : string) (port : Z) (nodename hostname : string) :
    BaseEndpointInfo :=
  mkBaseEndpointInfo (JoinHostPort ip (Itoa port)) nodename hostname "".

(** ** Service ports: the implementations of the [ServicePort] interface *)

Record BaseServiceInfo : Type := mkBaseServiceInfo {
  bsi_address : string;
  bsi_port : Z;
  bsi_portName : string;
  bsi_protocol : string
}.
#[export] Instance BaseServiceInfo_eq_dec : EqDecision BaseServiceInfo.
Proof. solve_decision. Defined.

Inductive ServicePort : Type :=
| SP_Base (info : BaseServiceInfo)
| SP_serviceInfo (info : BaseServiceInfo) (svcName : NamespacedName) (Type' : string)
| SP_serviceImportInfo (info : BaseServiceInfo) (svcName : NamespacedName).
#[export] Instance ServicePort_eq_dec : EqDecision ServicePort.
Proof. solve_decision. Defined.

(** The embedded [*BaseServiceInfo]. *)
Definition ServicePort_base (p : ServicePort) : BaseServiceInfo :=
  match p with
  | SP_Base i | SP_serviceInfo i _ _ | SP_serviceImportInfo i _ => i
  end.

Definition BaseServiceInfo_String (info : BaseServiceInfo) : string :=
  bsi_address info +:+ ":" +:+ Itoa (bsi_port info) +:+ "/" +:+ bsi_protocol info.

Definition BaseServiceInfo_Address (info : BaseServiceInfo) : string := bsi_address info.

(** ** pkg/route/types.go *)

Definition AlgoBalancer := string.
Definition RoundRobinLoadBalancer : AlgoBalancer := "round-robin".
Definition HashingLoadBalancer : AlgoBalancer := "hashing".
Definition LeastWorkLoadBalancer : AlgoBalancer := "least-work".

Record CertificateSpec : Type := mkCert {
  Cert : string;
  Key : string;
  CA : string
}.
#[export] Instance CertificateSpec_eq_dec : EqDecision CertificateSpec.
Proof. solve_decision. Defined.

Record UpstreamEndpoint : Type := mkUpstreamEndpoint {
  ue_IP : string;
  ue_Port : Z;
  ue_Protocol : string
}.
#[export] Instance UpstreamEndpoint_eq_dec : EqDecision UpstreamEndpoint.
Proof. solve_decision. Defined.

Record UpstreamSpec : Type := mkUpstream {
  SSLName : string;
  SSLCert : option CertificateSpec;
  SSLVerify : bool;
  us_Endpoints : list UpstreamEndpoint
}.
#[export] Instance UpstreamSpec_eq_dec : EqDecision UpstreamSpec.
Proof. solve_decision. Defined.

Record RouterSpec : Type := mkRouter {
  rs_Host : string;
  rs_Path : string;
  rs_Service : string;
  rs_Rewrite : list string
}.

Record BalancerSpec : Type := mkBalancer {
  bs_Sticky : bool;
  bs_Balancer : AlgoBalancer;
  bs_Upstream : option UpstreamSpec
}.

Record TLSSpec : Type := mkTLSSpec {
  ts_IsTLS : bool;
  ts_IsWildcardHost : bool;
  ts_VerifyClient : bool;
  ts_VerifyDepth : Z;
  ts_Certificate : option CertificateSpec;
  ts_TrustedCA : option CertificateSpec
}.

Record IngressRouteSpec : Type := mkIngressRoute {
  irs_Router : RouterSpec;
  irs_Balancer : BalancerSpec;
  irs_TLS : TLSSpec
}.

#[export] Instance RouterSpec_eq_dec : EqDecision RouterSpec.
Proof. solve_decision. Defined.
#[export] Instance BalancerSpec_eq_dec : EqDecision BalancerSpec.
Proof. solve_decision. Defined.
#[export] Instance TLSSpec_eq_dec : EqDecision TLSSpec.
Proof. solve_decision. Defined.
#[export] Instance IngressRouteSpec_eq_dec : EqDecision IngressRouteSpec.
Proof. solve_decision. Defined.

Record IngressData : Type := mkIngressData {
  id_Hash : string;
  id_Routes : list IngressRouteSpec
}.

Record Target : Type := mkTarget {
  Address : string;
  Tags : gmap string string
}.

Record ServiceRouteEntry : Type := mkServiceRouteEntry {
  sre_Name : string;
  sre_Namespace : string;
  sre_Targets : list Target;
  sre_PortName : string
}.

Record ServiceRoute : Type := mkServiceRoute {
  sr_Hash : string;
  sr_Routes : list ServiceRouteEntry
}.

#[export] Instance Target_eq_dec : EqDecision Target.
Proof. solve_decision. Defined.
#[export] Instance ServiceRouteEntry_eq_dec : EqDecision ServiceRouteEntry.
Proof. solve_decision. Defined.

(** The configuration pushed to the ingress codebase. *)
Record IngressConfig : Type := mkIngressConfig {
  ic_TrustedCAs : list string;
  ic_Certificates : gmap string TLSSpec;
  ic_Routes : gmap string RouterSpec;
  ic_Services : gmap string BalancerSpec
}.
