(* ===== verification/EndpointsCache.v ===== *)
(** * The endpoints tracker and the endpoints map ([pkg/cache/endpoints.go]) *)

From S2P Require Import Prelude GoLib Kube Tracker CacheTypes.

Abbreviation EndpointsMap := (gmap ServicePortName (list BaseEndpointInfo)).
Abbreviation endpointsChange := (change ServicePortName (list BaseEndpointInfo)).

(** The mutex of the tracker makes its methods atomic; the event recorder and
    the controllers are not used by them. *)
Record EndpointChangeTracker : Type := mkEndpointChangeTracker {
  ect_items : gmap NamespacedName endpointsChange;
  ect_enrichEndpointInfo : option (BaseEndpointInfo → BaseEndpointInfo)
}.

Definition NewEndpointChangeTracker (enrich : option (BaseEndpointInfo → BaseEndpointInfo)) :
    EndpointChangeTracker := mkEndpointChangeTracker ∅ enrich.

(** [nodename]: the name the address carries, the empty string for nil. *)
Definition nodename (addr : option EndpointAddress) : string :=
  match addr with
  | None => ""
  | Some addr => match addr_NodeName addr with Some n => n | None => "" end
  end.

Definition formatEndpointsList (endpoints : list BaseEndpointInfo) : list string :=
  BaseEndpointInfo_String <$> endpoints.

Section endpoints.
Context `{KubeLib} `{MapRange}.

(** ** Turning an Endpoints object into a map *)

(** The body of the loop over the addresses of a port: addresses without an IP
    and addresses that are not IPv4 are skipped. *)
Definition endpoints_add_address (enrich : option (BaseEndpointInfo → BaseEndpointInfo))
    (svcPortName : ServicePortName) (port : EndpointPort)
    (m : EndpointsMap) (addr : EndpointAddress) : EndpointsMap :=
  if bool_decide (addr_IP addr = "") then m
  else if negb (IsIPv4String (addr_IP addr)) then m
  else
    let info := newBaseEndpointInfo (addr_IP addr) (epp_Port port)
                  (nodename (Some addr)) (addr_Hostname addr) in
    append_at svcPortName (match enrich with Some f => f info | None => info end) m.

(** The body of the loop over the ports of a subset: port 0 is skipped. *)
Definition endpoints_add_port (enrich : option (BaseEndpointInfo → BaseEndpointInfo))
    (nn : NamespacedName) (ss : EndpointSubset)
    (m : EndpointsMap) (port : EndpointPort) : EndpointsMap :=
  if bool_decide (epp_Port port = 0%Z) then m
  else
    let svcPortName := mkSPN nn (epp_Name port) (epp_Protocol port) in
    foldl (endpoints_add_address enrich svcPortName port) m (ss_Addresses ss).

Definition endpointsToEndpointsMap (ect : EndpointChangeTracker) (endpoints : option Endpoints) :
    gomap ServicePortName (list BaseEndpointInfo) :=
  match endpoints with
  | None => None
  | Some endpoints =>
    let nn := meta_nn (eps_Meta endpoints) in
    Some (foldl
      (fun m ss => foldl (endpoints_add_port (ect_enrichEndpointInfo ect) nn ss) m (ss_Ports ss))
      ∅ (eps_Subsets endpoints))
  end.

(** ** Recording changes *)

(** [Update] answers whether any change is pending. *)
Definition EndpointChangeTracker_Update (ect : EndpointChangeTracker)
    (prev cur : option Endpoints) : bool * EndpointChangeTracker :=
  match event_obj prev cur with
  | None => (false, ect)
  | Some endpoints =>
    let nn := meta_nn (eps_Meta endpoints) in
    let ch :=
      match ect_items ect !! nn with
      | Some ch => mkChange (previous ch) (endpointsToEndpointsMap ect cur)
      | None => mkChange (endpointsToEndpointsMap ect prev) (endpointsToEndpointsMap ect cur)
      end in
    let items :=
      if decide (previous ch = current ch)
      then delete nn (ect_items ect)
      else <[nn := ch]> (ect_items ect) in
    (bool_decide (items ≠ ∅), mkEndpointChangeTracker items (ect_enrichEndpointInfo ect))
  end.

Definition EndpointChangeTracker_checkoutChanges (ect : EndpointChangeTracker) :
    list endpointsChange * EndpointChangeTracker :=
  ((go_range (ect_items ect)).*2, mkEndpointChangeTracker ∅ (ect_enrichEndpointInfo ect)).

(** ** The global map *)

Definition EndpointsMap_merge (em : EndpointsMap) (other : gomap ServicePortName (list BaseEndpointInfo)) :
    EndpointsMap := gomap_merge em other.

Definition EndpointsMap_unmerge (em : EndpointsMap) (other : gomap ServicePortName (list BaseEndpointInfo)) :
    EndpointsMap := gomap_unmerge em other.

(** The body of the loop over the checked-out changes. *)
Definition EndpointsMap_step (em : EndpointsMap) (ch : endpointsChange) : EndpointsMap :=
  EndpointsMap_merge (EndpointsMap_unmerge em (previous ch)) (current ch).

Definition EndpointsMap_apply (em : EndpointsMap) (ect : option EndpointChangeTracker) :
    EndpointsMap * option EndpointChangeTracker :=
  match ect with
  | None => (em, None)
  | Some ect =>
    let '(changes, ect') := EndpointChangeTracker_checkoutChanges ect in
    (foldl EndpointsMap_step em changes, Some ect')
  end.

Definition EndpointsMap_Update (em : EndpointsMap) (changes : option EndpointChangeTracker) :
    EndpointsMap * option EndpointChangeTracker := EndpointsMap_apply em changes.

#[local] Arguments EndpointsMap_Update : simpl never.

(** ** What an Endpoints object contributes, declaratively *)

(** The endpoint entries of one port, in the order of the addresses. *)
Definition port_entries (enrich : option (BaseEndpointInfo → BaseEndpointInfo))
    (nn : NamespacedName) (ss : EndpointSubset) (port : EndpointPort) :
    list (ServicePortName * BaseEndpointInfo) :=
  if bool_decide (epp_Port port = 0%Z) then []
  else
    (fun addr =>
       (mkSPN nn (epp_Name port) (epp_Protocol port),
        default (fun i => i) enrich
          (newBaseEndpointInfo (addr_IP addr) (epp_Port port)
             (default "" (addr_NodeName addr)) (addr_Hostname addr)))) <$>
    filter (fun addr => addr_IP addr ≠ "" ∧ IsIPv4String (addr_IP addr) = true) (ss_Addresses ss).

Definition endpoints_entries (enrich : option (BaseEndpointInfo → BaseEndpointInfo))
    (e : Endpoints) : list (ServicePortName * BaseEndpointInfo) :=
  ss ← eps_Subsets e;
  port ← ss_Ports ss;
  port_entries enrich (meta_nn (eps_Meta e)) ss port.

Lemma endpoints_add_address_all enrich spn port m addrs :
  foldl (endpoints_add_address enrich spn port) m addrs =
    append_all m ((fun addr =>
       (spn, default (fun i => i) enrich
          (newBaseEndpointInfo (addr_IP addr) (epp_Port port)
             (default "" (addr_NodeName addr)) (addr_Hostname addr)))) <$>
      filter (fun addr => addr_IP addr ≠ "" ∧ IsIPv4String (addr_IP addr) = true) addrs).
Proof.
  revert m. induction addrs as [|addr addrs IH]; intros m; [done|].
  simpl. rewrite IH, filter_cons. unfold endpoints_add_address.
  case_bool_decide as Hip; destruct (IsIPv4String (addr_IP addr)) eqn:E4; simpl;
    case_decide; try naive_solver.
  by destruct enrich.
Qed.

Lemma endpointsToEndpointsMap_entries ect e :
  endpointsToEndpointsMap ect (Some e) =
    Some (append_all ∅ (endpoints_entries (ect_enrichEndpointInfo ect) e)).
Proof.
  unfold endpointsToEndpointsMap, endpoints_entries, append_all. f_equal.
  rewrite <-foldl_mbind. apply foldl_ext. intros m ss.
  rewrite <-foldl_mbind. apply foldl_ext. intros m' port.
  unfold endpoints_add_port, port_entries. case_bool_decide; [done|].
  apply endpoints_add_address_all.
Qed.

Lemma endpoints_entries_owned enrich e spn info :
  (spn, info) ∈ endpoints_entries enrich e →
  spn_NamespacedName spn = meta_nn (eps_Meta e).
Proof.
  unfold endpoints_entries, port_entries. intros Hin.
  apply list_elem_of_bind in Hin as (ss & Hin & _).
  apply list_elem_of_bind in Hin as (port & Hin & _).
  case_bool_decide; [by apply not_elem_of_nil in Hin|].
  by apply list_elem_of_fmap in Hin as (addr & [= -> _] & _).
Qed.

(** ** Correctness of a sync *)

#[export] Instance EndpointsMap_step_ok : ApplyStep EndpointsMap_step.
Proof.
  intros em c k. unfold EndpointsMap_step, EndpointsMap_merge, EndpointsMap_unmerge.
  by autorewrite with erie.
Qed.

#[export] Program Instance endpoints_projection (ect : EndpointChangeTracker) :
    Projection Endpoints ServicePortName (list BaseEndpointInfo) := {|
  obj_name e := meta_nn (eps_Meta e);
  proj e := endpointsToEndpointsMap ect (Some e);
  key_owner := spn_NamespacedName;
  obj_ok _ := True
|}.
Next Obligation.
  intros ect e _ k v. rewrite endpointsToEndpointsMap_entries. simpl.
  rewrite lookup_append_all_empty. destruct (vals_at k _) as [|x vs] eqn:E; [done|].
  intros _. assert (Hin : x ∈ vals_at k (endpoints_entries (ect_enrichEndpointInfo ect) e)).
  { rewrite E. by left. }
  apply vals_at_elem in Hin. by eapply endpoints_entries_owned.
Qed.

Lemma EndpointChangeTracker_Update_track ect prev cur e :
  event_obj prev cur = Some e →
  let '(b, ect') := EndpointChangeTracker_Update ect prev cur in
  ect_items ect' = track (ect_items ect) (meta_nn (eps_Meta e))
    (endpointsToEndpointsMap ect prev) (endpointsToEndpointsMap ect cur) ∧
  ect_enrichEndpointInfo ect' = ect_enrichEndpointInfo ect ∧
  b = bool_decide (ect_items ect' ≠ ∅).
Proof. intros He. unfold EndpointChangeTracker_Update. rewrite He. done. Qed.

Lemma EndpointsMap_apply_changes em ect :
  EndpointsMap_apply em (Some ect) =
    (apply_changes EndpointsMap_step em (go_range (ect_items ect)),
     Some (mkEndpointChangeTracker ∅ (ect_enrichEndpointInfo ect))).
Proof.
  unfold EndpointsMap_apply. simpl. by rewrite foldl_snd.
Qed.

(** ** The tracker as a state machine

    An informer delivers events that agree with its store; syncs may happen
    between any two of them. *)
Record ep_state : Type := mkEpState {
  eps_store : gmap NamespacedName Endpoints;
  eps_tracker : EndpointChangeTracker;
  eps_map : EndpointsMap
}.

Inductive ep_step (ect0 : EndpointChangeTracker) : ep_state → ep_state → Prop :=
| ep_event store ect em nn prev cur :
    event_ok (P := endpoints_projection ect0) store nn prev cur →
    ep_step ect0 (mkEpState store ect em)
      (mkEpState (store_set store nn cur) (EndpointChangeTracker_Update ect prev cur).2 em)
| ep_sync store ect em em' ect' :
    EndpointsMap_Update em (Some ect) = (em', Some ect') →
    ep_step ect0 (mkEpState store ect em) (mkEpState store ect' em').

Definition ep_init (enrich : option (BaseEndpointInfo → BaseEndpointInfo)) : ep_state :=
  mkEpState ∅ (NewEndpointChangeTracker enrich) ∅.

Definition ep_inv (ect0 : EndpointChangeTracker) (s : ep_state) : Prop :=
  store_ok (P := endpoints_projection ect0) (eps_store s) ∧
  ect_enrichEndpointInfo (eps_tracker s) = ect_enrichEndpointInfo ect0 ∧
  coherent spn_NamespacedName (store_view (P := endpoints_projection ect0) (eps_store s))
    (eps_map s) (ect_items (eps_tracker s)).

Lemma endpointsToEndpointsMap_enrich ect ect0 e :
  ect_enrichEndpointInfo ect = ect_enrichEndpointInfo ect0 →
  endpointsToEndpointsMap ect e = endpointsToEndpointsMap ect0 e.
Proof. intros He. unfold endpointsToEndpointsMap. by rewrite He. Qed.

Lemma proj_opt_endpoints ect0 e :
  proj_opt (P := endpoints_projection ect0) e = endpointsToEndpointsMap ect0 e.
Proof. by destruct e. Qed.

Lemma ep_step_inv ect0 s s' : ep_step ect0 s s' → ep_inv ect0 s → ep_inv ect0 s'.
Proof.
  intros [store ect em nn prev cur Hev|store ect em em' ect' Hup] (Hok & Hen & Hcoh);
    simpl in *.
  - split; [by eapply store_set_ok|].
    destruct (event_ok_obj _ _ _ _ Hok Hev) as (e & He & <-).
    pose proof (EndpointChangeTracker_Update_track ect prev cur e He) as Ht.
    destruct (EndpointChangeTracker_Update ect prev cur) as [b ect'].
    destruct Ht as (Hitems & Hen' & _). simpl. split; [congruence|].
    rewrite Hitems, !(endpointsToEndpointsMap_enrich ect ect0), <-!proj_opt_endpoints by done.
    by apply (track_event_coherent (P := endpoints_projection ect0)).
  - unfold EndpointsMap_Update in Hup. rewrite EndpointsMap_apply_changes in Hup.
    injection Hup as <- <-. split_and!; [done|done|].
    apply apply_changes_coherent; [apply _|exact Hcoh].
Qed.

Lemma ep_reachable_inv ect0 s :
  rtc (ep_step ect0) (ep_init (ect_enrichEndpointInfo ect0)) s → ep_inv ect0 s.
Proof.
  apply rtc_invariant; [|apply ep_step_inv].
  split_and!; [by intros nn e|done|].
  eapply coherent_proper; [|apply coherent_init]. done.
Qed.
End endpoints.

(** A sync shows what the stored Endpoints declare. *)
Lemma ep_sync_lookup `{KubeLib} `{MapRange} ect0 s :
  rtc (ep_step ect0) (ep_init (ect_enrichEndpointInfo ect0)) s →
  ∃ em' ect', EndpointsMap_Update (eps_map s) (Some (eps_tracker s)) = (em', Some ect') ∧
    ect_items ect' = ∅ ∧
    ∀ k, em' !! k =
      match eps_store s !! spn_NamespacedName k with
      | Some e =>
        match vals_at k (endpoints_entries (ect_enrichEndpointInfo ect0) e) with
        | [] => None
        | infos => Some infos
        end
      | None => None
      end.
Proof.
  intros (Hok & Hen & Hcoh)%ep_reachable_inv.
  unfold EndpointsMap_Update. rewrite EndpointsMap_apply_changes.
  eexists _, _. split_and!; [done|done|]. intros k.
  rewrite (apply_changes_refines _ _ _ _ _ Hcoh). unfold store_view.
  destruct (eps_store s !! spn_NamespacedName k) as [e|]; [|by rewrite lookup_empty].
  cbn [proj endpoints_projection]. rewrite endpointsToEndpointsMap_entries.
  apply lookup_append_all_empty.
Qed.

(** ** Properties *)

(** C9 (refinement).  Whatever the interleaving of informer events and syncs, a
    sync makes the endpoints map hold, for every service port, exactly the
    endpoint entries the stored Endpoints objects declare for it (in their
    order), and nothing else, and leaves no change pending; the order in which
    the runtime ranges over the pending changes is irrelevant. *)
Theorem endpoints_sync_refines `{KubeLib} `{MapRange} ect0 s :
  rtc (ep_step ect0) (ep_init (ect_enrichEndpointInfo ect0)) s →
  ∃ em' ect', EndpointsMap_Update (eps_map s) (Some (eps_tracker s)) = (em', Some ect') ∧
    ect_items ect' = ∅ ∧
    ∀ k, em' !! k =
      match eps_store s !! spn_NamespacedName k with
      | Some e =>
        match vals_at k (endpoints_entries (ect_enrichEndpointInfo ect0) e) with
        | [] => None
        | infos => Some infos
        end
      | None => None
      end.
Proof. apply ep_sync_lookup. Qed.

Definition sample_endpoints : Endpoints :=
  mkEndpoints (named "ns" "web")
    [mkSubset [mkAddr "10.0.0.1" "h" (Some "node1"); mkAddr "fd00::1" "h6" None; mkAddr "" "h0" None]
       [mkEpPort "http" 8080 "TCP"; mkEpPort "none" 0 "TCP"]].

Lemma endpoints_sync_refines_witness :
  ∃ em' ect',
    @EndpointsMap_Update list_range ∅
      (Some (@EndpointChangeTracker_Update sample_lib (NewEndpointChangeTracker None)
               None (Some sample_endpoints)).2) = (em', Some ect') ∧
    em' !! mkSPN (mkNN "ns" "web") "http" "TCP" =
      Some [mkBaseEndpointInfo "10.0.0.1:8080" "node1" "h" ""].
Proof.
  edestruct (@endpoints_sync_refines sample_lib list_range (NewEndpointChangeTracker None)
    (mkEpState (store_set ∅ (mkNN "ns" "web") (Some sample_endpoints))
       (@EndpointChangeTracker_Update sample_lib (NewEndpointChangeTracker None)
          None (Some sample_endpoints)).2 ∅)) as (em' & ect' & Heq & _ & Hk).
  - apply rtc_once. constructor. split; [done|by intros e [= <-]; split|by eexists].
  - exists em', ect'. split; [exact Heq|]. rewrite Hk. vm_compute. reflexivity.
Defined.

(** An update that is undone before the next sync leaves the
    tracker as it was: the pending change cancels out instead of being applied. *)
Theorem endpoints_update_cancels `{KubeLib} ect old new :
  ect_items ect !! meta_nn (eps_Meta old) = None →
  meta_nn (eps_Meta new) = meta_nn (eps_Meta old) →
  (EndpointChangeTracker_Update
     (EndpointChangeTracker_Update ect (Some old) (Some new)).2 (Some new) (Some old)).2 = ect.
Proof.
  intros Hnone Hname. destruct ect as [items enrich]. simpl in Hnone.
  unfold EndpointChangeTracker_Update at 2. cbn [event_obj ect_items]. rewrite Hname, Hnone.
  case_decide as Heq; cbn [snd fst previous current] in *.
  - rewrite delete_id by done. unfold EndpointChangeTracker_Update.
    cbn [event_obj ect_items]. rewrite Hnone. cbn [previous current].
    rewrite (endpointsToEndpointsMap_enrich _ (mkEndpointChangeTracker items enrich)), <-Heq by done.
    rewrite decide_True by done. simpl. by rewrite delete_id.
  - unfold EndpointChangeTracker_Update. cbn [event_obj ect_items].
    rewrite lookup_insert_eq. cbn [previous current].
    rewrite decide_True by done. simpl. by rewrite delete_insert_id.
Qed.

Lemma endpoints_update_cancels_witness :
  let new := mkEndpoints (named "ns" "web") [] in
  let u := @EndpointChangeTracker_Update sample_lib in
  (u (u (NewEndpointChangeTracker None) (Some sample_endpoints) (Some new)).2
     (Some new) (Some sample_endpoints)).2 = NewEndpointChangeTracker None.
Proof.
  exact (@endpoints_update_cancels sample_lib (NewEndpointChangeTracker None) sample_endpoints
           (mkEndpoints (named "ns" "web") []) eq_refl eq_refl).
Defined.
