(* ===== verification/ServiceCache.v ===== *)
(** * The service tracker and the service map ([pkg/cache/service.go]) *)

From S2P Require Import Prelude GoLib Kube Tracker CacheTypes.

Abbreviation ServiceMap := (gmap ServicePortName ServicePort).
Abbreviation serviceChange := (change ServicePortName ServicePort).

Definition enrichServiceInfoFunc : Type := CoreServicePort → Service → BaseServiceInfo → ServicePort.

Record ServiceChangeTracker : Type := mkServiceChangeTracker {
  sct_items : gmap NamespacedName serviceChange;
  sct_enrichServiceInfo : option enrichServiceInfoFunc
}.

Definition NewServiceChangeTracker (enrich : option enrichServiceInfoFunc) : ServiceChangeTracker :=
  mkServiceChangeTracker ∅ enrich.

(** The enricher the local cache passes to its tracker. *)
Definition enrichServiceInfo (port : CoreServicePort) (service : Service)
    (baseInfo : BaseServiceInfo) : ServicePort :=
  SP_serviceInfo baseInfo (meta_nn (svc_Meta service)) (svc_Type service).

(** [for k := range *sm { if _, ok := other[k]; ok { delete( *sm, k) } }] *)
Definition ServiceMap_filter `{MapRange} (sm other : gomap ServicePortName ServicePort) :
    gomap ServicePortName ServicePort :=
  match sm with
  | None => None
  | Some sm =>
    Some (foldl (fun sm kv => match gm_val other !! kv.1 with
                              | Some _ => delete kv.1 sm
                              | None => sm
                              end) sm (go_range sm))
  end.

(** The returned set (the names of the merged ports) is ignored by the callers. *)
Definition ServiceMap_merge `{MapRange} (sm : ServiceMap) (other : gomap ServicePortName ServicePort) :
    ServiceMap * gset string :=
  foldl (fun '(sm, existingPorts) kv =>
           (<[kv.1 := kv.2]> sm, {[ServicePortName_String kv.1]} ∪ existingPorts))
    (sm, ∅) (go_range (gm_val other)).

Definition ServiceMap_unmerge `{MapRange} (sm : ServiceMap) (other : gomap ServicePortName ServicePort) :
    ServiceMap :=
  foldl (fun sm kv => match sm !! kv.1 with
                      | Some _ => delete kv.1 sm
                      | None => sm
                      end) sm (go_range (gm_val other)).

(** The body of the loop of [apply]: merge what is there now, then remove what
    was there before and is not there any more. *)
Definition ServiceMap_step `{MapRange} (sm : ServiceMap) (ch : serviceChange) : ServiceMap :=
  let sm := (ServiceMap_merge sm (current ch)).1 in
  let prev := ServiceMap_filter (previous ch) (current ch) in
  ServiceMap_unmerge sm prev.

Definition ServiceMap_apply `{MapRange} (sm : ServiceMap) (changes : ServiceChangeTracker) :
    ServiceMap * ServiceChangeTracker :=
  (foldl ServiceMap_step sm (go_range (sct_items changes)).*2,
   mkServiceChangeTracker ∅ (sct_enrichServiceInfo changes)).

Definition ServiceMap_Update `{MapRange} (sm : ServiceMap) (changes : ServiceChangeTracker) :
    ServiceMap * ServiceChangeTracker := ServiceMap_apply sm changes.

(** NodePort and LoadBalancer services are not tracked. *)
Definition shouldSkipService (svc : option Service) : bool :=
  match svc with
  | None => true
  | Some svc =>
    bool_decide (svc_Type svc = ServiceTypeNodePort) ||
    bool_decide (svc_Type svc = ServiceTypeLoadBalancer)
  end.

(** Asks the lister for a ServiceImport of the same name; every error counts as
    "does not exist". *)
Definition serviceImportExists {A E : Type} (lister : NamespacedName → result E A) (svc : Service) : bool :=
  match lister (meta_nn (svc_Meta svc)) with Ok _ => true | Err _ => false end.

Section services.
Context `{KubeLib} `{MapRange}.

(** ** Turning a Service into a map *)

(** The branch of an ExternalName service: the host must not be the local host,
    and must be an IP or a DNS name. *)
Definition newExternalNameInfo (port : CoreServicePort) (service : Service) : option BaseServiceInfo :=
  let externalName := svc_ExternalName service in
  let info := mkBaseServiceInfo
    (svc_ExternalName service +:+ ":" +:+ Itoa (IntValue (sp_TargetPort port)))
    (sp_Port port) (sp_Name port) (sp_Protocol port) in
  if bool_decide (externalName = "localhost") then None
  else
    match ParseIP externalName with
    | Some ip => if IsLoopback ip then None else Some info
    | None =>
      match IsDNS1123Subdomain (TrimSuffix externalName ".") with
      | _ :: _ => None
      | [] => Some info
      end
    end.

Definition newBaseServiceInfo (port : CoreServicePort) (service : Service) : option BaseServiceInfo :=
  if bool_decide (svc_Type service = ServiceTypeClusterIP) then
    Some (mkBaseServiceInfo (GetClusterIPByFamily IPv4Protocol service)
            (sp_Port port) (sp_Name port) (sp_Protocol port))
  else if bool_decide (svc_Type service = ServiceTypeExternalName) then
    newExternalNameInfo port service
  else None.

(** The body of the loop over the ports; a port that cannot be handled is
    skipped. *)
Definition service_add_port (enrich : option enrichServiceInfoFunc) (service : Service)
    (m : ServiceMap) (port : CoreServicePort) : ServiceMap :=
  let svcPortName := mkSPN (meta_nn (svc_Meta service)) (sp_Name port) (sp_Protocol port) in
  match newBaseServiceInfo port service with
  | None => m
  | Some baseSvcInfo =>
    <[svcPortName := match enrich with
                     | Some f => f port service baseSvcInfo
                     | None => SP_Base baseSvcInfo
                     end]> m
  end.

Definition serviceToServiceMap (sct : ServiceChangeTracker) (service : option Service) :
    gomap ServicePortName ServicePort :=
  match service with
  | None => None
  | Some service =>
    if bool_decide (GetClusterIPByFamily IPv4Protocol service = "") then None
    else Some (foldl (service_add_port (sct_enrichServiceInfo sct) service) ∅ (svc_Ports service))
  end.

(** ** Recording changes *)

Definition ServiceChangeTracker_Update (sct : ServiceChangeTracker) (prev cur : option Service) :
    bool * ServiceChangeTracker :=
  match event_obj prev cur with
  | None => (false, sct)
  | Some svc =>
    if shouldSkipService (Some svc) then (false, sct)
    else
      let nn := meta_nn (svc_Meta svc) in
      let ch :=
        match sct_items sct !! nn with
        | Some ch => mkChange (previous ch) (serviceToServiceMap sct cur)
        | None => mkChange (serviceToServiceMap sct prev) (serviceToServiceMap sct cur)
        end in
      let items :=
        if decide (previous ch = current ch)
        then delete nn (sct_items sct)
        else <[nn := ch]> (sct_items sct) in
      (bool_decide (items ≠ ∅), mkServiceChangeTracker items (sct_enrichServiceInfo sct))
  end.

(** ** What the steps do to the map *)

Lemma ServiceMap_merge_fst sm other : (ServiceMap_merge sm other).1 = gomap_merge sm other.
Proof.
  unfold ServiceMap_merge, gomap_merge.
  generalize (∅ : gset string). revert sm.
  induction (go_range (gm_val other)) as [|kv l IH]; intros sm s; simpl; [done|apply IH].
Qed.

Lemma ServiceMap_unmerge_gomap sm other : ServiceMap_unmerge sm other = gomap_unmerge sm other.
Proof.
  unfold ServiceMap_unmerge, gomap_unmerge. apply foldl_ext. intros m kv.
  destruct (m !! kv.1) eqn:E; [done|]. by rewrite delete_id.
Qed.

Lemma lookup_ServiceMap_filter sm other k :
  gm_val (ServiceMap_filter sm other) !! k =
    match gm_val other !! k with Some _ => None | None => gm_val sm !! k end.
Proof.
  destruct sm as [sm|]; simpl; [|by rewrite lookup_empty; destruct (gm_val other !! k)].
  assert (Hfold : ∀ (l : list (ServicePortName * ServicePort)) (m : ServiceMap),
    foldl (fun sm kv => match gm_val other !! kv.1 with
                        | Some _ => delete kv.1 sm
                        | None => sm
                        end) m l !! k =
      if decide (k ∈ l.*1 ∧ is_Some (gm_val other !! k)) then None else m !! k).
  { induction l as [|[k' v'] l IH]; intros m.
    - rewrite decide_False by set_solver. done.
    - cbn [foldl fmap list_fmap fst]. rewrite IH.
      assert (Hs : is_Some (gm_val other !! k') ∨ gm_val other !! k' = None)
        by (destruct (gm_val other !! k'); eauto).
      destruct (decide (k' = k)) as [->|Hne]; destruct Hs as [[v Hv]|Hn];
        rewrite ?Hv, ?Hn, ?lookup_delete_eq, ?lookup_delete_ne by done;
        repeat case_decide; rewrite ?elem_of_cons in *; try done;
        unfold is_Some in *; naive_solver. }
  rewrite Hfold. destruct (gm_val other !! k) eqn:E.
  - destruct (sm !! k) eqn:E'; [|by destruct (decide _)].
    rewrite decide_True; [done|]. split; [|done]. apply go_range_dom. by rewrite E'.
  - rewrite decide_False by (intros [_ [? ?]]; done). done.
Qed.

(** Merging first and filtering before removing is the same as removing the old
    entries and adding the new ones. *)
#[export] Instance ServiceMap_step_ok : ApplyStep ServiceMap_step.
Proof.
  intros sm c k. unfold ServiceMap_step.
  rewrite ServiceMap_unmerge_gomap, ServiceMap_merge_fst, lookup_gomap_unmerge, lookup_gomap_merge,
    lookup_ServiceMap_filter.
  destruct (gm_val (current c) !! k); [done|].
  by destruct (gm_val (previous c) !! k).
Qed.

(** ** What a Service contributes *)

Lemma service_ports_owned enrich service ports m :
  owned_by spn_NamespacedName (meta_nn (svc_Meta service)) m →
  owned_by spn_NamespacedName (meta_nn (svc_Meta service))
    (foldl (service_add_port enrich service) m ports).
Proof.
  revert m. induction ports as [|p ports IH]; intros m Hm; simpl; [done|].
  apply IH. unfold service_add_port. destruct (newBaseServiceInfo p service); [|done].
  intros k v. rewrite lookup_insert. case_decide; [by intros; subst|apply Hm].
Qed.

#[export] Program Instance service_projection (sct : ServiceChangeTracker) :
    Projection Service ServicePortName ServicePort := {|
  obj_name s := meta_nn (svc_Meta s);
  proj s := serviceToServiceMap sct (Some s);
  key_owner := spn_NamespacedName;
  obj_ok _ := True
|}.
Next Obligation.
  intros sct s _. simpl. case_bool_decide; [done|]. by apply service_ports_owned.
Qed.

Lemma service_ports_nothing enrich service ports m :
  (∀ p, newBaseServiceInfo p service = None) →
  foldl (service_add_port enrich service) m ports = m.
Proof.
  intros Hn. induction ports as [|p ports IH]; simpl; [done|].
  unfold service_add_port at 2. by rewrite Hn.
Qed.

(** A service that is not tracked would contribute nothing anyway. *)
Lemma skipped_contributes_nothing sct s :
  shouldSkipService (Some s) = true → gm_val (serviceToServiceMap sct (Some s)) = ∅.
Proof.
  unfold serviceToServiceMap. case_bool_decide; [done|]. simpl. intros Hskip.
  apply service_ports_nothing. intros p. unfold newBaseServiceInfo.
  apply orb_true_iff in Hskip as [Ht|Ht]; apply bool_decide_eq_true in Ht; rewrite Ht; reflexivity.
Qed.

Lemma serviceToServiceMap_enrich sct sct0 s :
  sct_enrichServiceInfo sct = sct_enrichServiceInfo sct0 →
  serviceToServiceMap sct s = serviceToServiceMap sct0 s.
Proof. intros He. unfold serviceToServiceMap. by rewrite He. Qed.

Lemma proj_opt_service sct0 s :
  proj_opt (P := service_projection sct0) s = serviceToServiceMap sct0 s.
Proof. by destruct s. Qed.

Lemma ServiceMap_apply_changes sm sct :
  ServiceMap_apply sm sct =
    (apply_changes ServiceMap_step sm (go_range (sct_items sct)),
     mkServiceChangeTracker ∅ (sct_enrichServiceInfo sct)).
Proof.
  unfold ServiceMap_apply. by rewrite foldl_snd.
Qed.

Lemma ServiceChangeTracker_Update_track sct prev cur s :
  event_obj prev cur = Some s →
  shouldSkipService (Some s) = false →
  let '(b, sct') := ServiceChangeTracker_Update sct prev cur in
  sct_items sct' = track (sct_items sct) (meta_nn (svc_Meta s))
    (serviceToServiceMap sct prev) (serviceToServiceMap sct cur) ∧
  sct_enrichServiceInfo sct' = sct_enrichServiceInfo sct ∧
  b = bool_decide (sct_items sct' ≠ ∅).
Proof. intros He Hs. unfold ServiceChangeTracker_Update. rewrite He, Hs. done. Qed.

(** ** The tracker as a state machine

    The events considered do not turn a tracked service into one of an untracked
    type; see [service_type_change_is_lost] for those that do. *)
Record svc_state : Type := mkSvcState {
  svcs_store : gmap NamespacedName Service;
  svcs_tracker : ServiceChangeTracker;
  svcs_map : ServiceMap
}.

Definition keeps_tracking (prev cur : option Service) : Prop :=
  ∀ p c, prev = Some p → cur = Some c →
    shouldSkipService (Some c) = true → shouldSkipService (Some p) = true.

Inductive svc_step (sct0 : ServiceChangeTracker) : svc_state → svc_state → Prop :=
| svc_event store sct sm nn prev cur :
    event_ok (P := service_projection sct0) store nn prev cur →
    keeps_tracking prev cur →
    svc_step sct0 (mkSvcState store sct sm)
      (mkSvcState (store_set store nn cur) (ServiceChangeTracker_Update sct prev cur).2 sm)
| svc_sync store sct sm sm' sct' :
    ServiceMap_Update sm sct = (sm', sct') →
    svc_step sct0 (mkSvcState store sct sm) (mkSvcState store sct' sm').

Definition svc_init (enrich : option enrichServiceInfoFunc) : svc_state :=
  mkSvcState ∅ (NewServiceChangeTracker enrich) ∅.

Definition svc_inv (sct0 : ServiceChangeTracker) (s : svc_state) : Prop :=
  store_ok (P := service_projection sct0) (svcs_store s) ∧
  sct_enrichServiceInfo (svcs_tracker s) = sct_enrichServiceInfo sct0 ∧
  coherent spn_NamespacedName (store_view (P := service_projection sct0) (svcs_store s))
    (svcs_map s) (sct_items (svcs_tracker s)).

(** A skipped event changes no view. *)
Lemma skipped_event_view sct0 store nn prev cur s :
  event_ok (P := service_projection sct0) store nn prev cur →
  keeps_tracking prev cur →
  event_obj prev cur = Some s → shouldSkipService (Some s) = true →
  ∀ nn', store_view (P := service_projection sct0) store nn' =
         store_view (P := service_projection sct0) (store_set store nn cur) nn'.
Proof.
  intros [Hprev _ _] Hk Hs Hskip nn'.
  assert (Hp : store_view (P := service_projection sct0) store nn = ∅).
  { unfold store_view. rewrite <-Hprev. destruct prev as [p|]; [|done].
    apply skipped_contributes_nothing. destruct cur as [c|]; simpl in Hs; [|congruence].
    injection Hs as ->. by apply (Hk p s). }
  destruct (decide (nn' = nn)) as [->|Hne].
  - rewrite Hp. unfold store_view, store_set. destruct cur as [c|].
    + injection Hs as ->. rewrite lookup_insert_eq. symmetry. by apply skipped_contributes_nothing.
    + by rewrite lookup_delete_eq.
  - unfold store_view, store_set. destruct cur; by rewrite ?lookup_insert_ne, ?lookup_delete_ne.
Qed.

Lemma svc_step_inv sct0 s s' : svc_step sct0 s s' → svc_inv sct0 s → svc_inv sct0 s'.
Proof.
  intros [store sct sm nn prev cur Hev Hk|store sct sm sm' sct' Hup] (Hok & Hen & Hcoh);
    cbn [svcs_store svcs_tracker svcs_map] in *.
  - split; [by eapply store_set_ok|]. cbn [svcs_store svcs_tracker svcs_map].
    destruct (event_ok_obj _ _ _ _ Hok Hev) as (o & Ho & Hon).
    destruct (shouldSkipService (Some o)) eqn:Hskip.
    + assert (ServiceChangeTracker_Update sct prev cur = (false, sct)) as ->.
      { unfold ServiceChangeTracker_Update. by rewrite Ho, Hskip. }
      split; [done|]. eapply coherent_proper; [|exact Hcoh].
      by eapply skipped_event_view.
    + pose proof (ServiceChangeTracker_Update_track sct prev cur o Ho Hskip) as Ht.
      destruct (ServiceChangeTracker_Update sct prev cur) as [b sct'].
      destruct Ht as (Hitems & Hen' & _). simpl. split; [congruence|].
      rewrite Hitems, !(serviceToServiceMap_enrich sct sct0), <-!proj_opt_service by done.
      rewrite <-Hon in *. by apply (track_event_coherent (P := service_projection sct0)).
  - unfold ServiceMap_Update in Hup. rewrite ServiceMap_apply_changes in Hup.
    injection Hup as <- <-. split_and!; [done|done|].
    apply apply_changes_coherent; [apply _|exact Hcoh].
Qed.

Lemma svc_reachable_inv sct0 s :
  rtc (svc_step sct0) (svc_init (sct_enrichServiceInfo sct0)) s → svc_inv sct0 s.
Proof.
  apply rtc_invariant; [|apply svc_step_inv].
  split_and!; [by intros nn e|done|].
  eapply coherent_proper; [|apply coherent_init]. done.
Qed.
End services.

(** ** What a Service contributes, declaratively *)

(** The entries of the ports that can be handled, in the order of the ports. *)
Definition service_entries `{KubeLib} (enrich : option enrichServiceInfoFunc) (s : Service) :
    list (ServicePortName * ServicePort) :=
  omap (fun p =>
    (fun b => (mkSPN (meta_nn (svc_Meta s)) (sp_Name p) (sp_Protocol p),
               match enrich with Some f => f p s b | None => SP_Base b end)) <$>
    newBaseServiceInfo p s) (svc_Ports s).

(** The entry of one service port; of two ports with the same name and protocol
    the later one counts. *)
Definition service_entry `{KubeLib} (enrich : option enrichServiceInfoFunc) (s : Service)
    (k : ServicePortName) : option ServicePort :=
  if bool_decide (GetClusterIPByFamily IPv4Protocol s = "") then None
  else last (vals_at k (service_entries enrich s)).

Lemma service_ports_entries `{KubeLib} enrich s m :
  foldl (service_add_port enrich s) m (svc_Ports s) =
    foldl (fun m kv => <[kv.1 := kv.2]> m) m (service_entries enrich s).
Proof.
  unfold service_entries. revert m. induction (svc_Ports s) as [|p ports IH]; intros m; [done|].
  simpl. rewrite IH. unfold service_add_port.
  by destruct (newBaseServiceInfo p s).
Qed.

Lemma serviceToServiceMap_entry `{KubeLib} sct s k :
  gm_val (serviceToServiceMap sct (Some s)) !! k = service_entry (sct_enrichServiceInfo sct) s k.
Proof.
  unfold serviceToServiceMap, service_entry. case_bool_decide; [done|]. simpl.
  rewrite service_ports_entries, foldl_insert_last, lookup_empty.
  by destruct (last _).
Qed.

(** A sync shows what the stored services contribute. *)
Lemma svc_sync_lookup `{KubeLib} `{MapRange} sct0 s :
  rtc (svc_step sct0) (svc_init (sct_enrichServiceInfo sct0)) s →
  ∃ sm' sct', ServiceMap_Update (svcs_map s) (svcs_tracker s) = (sm', sct') ∧
    sct_items sct' = ∅ ∧
    ∀ k, sm' !! k =
      svcs_store s !! spn_NamespacedName k ≫= fun svc => service_entry (sct_enrichServiceInfo sct0) svc k.
Proof.
  intros (Hok & Hen & Hcoh)%svc_reachable_inv.
  unfold ServiceMap_Update. rewrite ServiceMap_apply_changes.
  eexists _, _. split_and!; [done|done|]. intros k.
  rewrite (apply_changes_refines _ _ _ _ _ Hcoh). unfold store_view.
  destruct (svcs_store s !! spn_NamespacedName k) as [svc|]; [|apply lookup_empty].
  apply serviceToServiceMap_entry.
Qed.

(** ** Properties *)

(** C10 (refinement).  For every interleaving of informer events (that do not
    turn a tracked service into a NodePort or LoadBalancer one) and syncs, and
    every iteration order, a sync makes the service map hold, for every service
    port, exactly the entry the stored service declares for it, and leaves no
    change pending. *)
Theorem services_sync_refines `{KubeLib} `{MapRange} sct0 s :
  rtc (svc_step sct0) (svc_init (sct_enrichServiceInfo sct0)) s →
  ∃ sm' sct', ServiceMap_Update (svcs_map s) (svcs_tracker s) = (sm', sct') ∧
    sct_items sct' = ∅ ∧
    ∀ k, sm' !! k =
      svcs_store s !! spn_NamespacedName k ≫= fun svc => service_entry (sct_enrichServiceInfo sct0) svc k.
Proof. apply svc_sync_lookup. Qed.

Definition sample_service (ty : string) : Service :=
  mkService (named "ns" "web") ty
    [mkSvcPort "http" "TCP" None 80 (IntVal 8080) 0; mkSvcPort "adm" "TCP" None 81 (IntVal 81) 0]
    "10.96.0.7" ["10.96.0.7"] "" None [] [].

Definition sample_service_state : svc_state :=
  mkSvcState (store_set ∅ (mkNN "ns" "web") (Some (sample_service "ClusterIP")))
    (@ServiceChangeTracker_Update sample_lib (NewServiceChangeTracker (Some enrichServiceInfo))
       None (Some (sample_service "ClusterIP"))).2 ∅.

Lemma sample_service_reachable :
  rtc (@svc_step sample_lib list_range (NewServiceChangeTracker (Some enrichServiceInfo)))
    (svc_init (Some enrichServiceInfo)) sample_service_state.
Proof.
  apply rtc_once. constructor; [|by intros p c [=]].
  split; [done|by intros e [= <-]; split|by eexists].
Qed.

Lemma services_sync_refines_witness :
  (@ServiceMap_Update list_range (svcs_map sample_service_state)
     (svcs_tracker sample_service_state)).1 !! mkSPN (mkNN "ns" "web") "adm" "TCP" =
  Some (SP_serviceInfo (mkBaseServiceInfo "10.96.0.7" 81 "adm" "TCP") (mkNN "ns" "web") "ClusterIP").
Proof.
  destruct (@services_sync_refines sample_lib list_range
              (NewServiceChangeTracker (Some enrichServiceInfo))
              sample_service_state sample_service_reachable) as (sm' & sct' & Heq & _ & Hk).
  rewrite Heq. simpl. rewrite Hk. vm_compute. reflexivity.
Defined.

(** A service that becomes a NodePort or LoadBalancer service
    is lost track of: the update is dropped, so after the next sync the map
    still shows every port it had, although the new service contributes nothing,
    and deleting it later is dropped as well. *)
Theorem service_type_change_is_lost `{KubeLib} `{MapRange} sct0 s old new k v :
  rtc (svc_step sct0) (svc_init (sct_enrichServiceInfo sct0)) s →
  svcs_store s !! spn_NamespacedName k = Some old →
  shouldSkipService (Some new) = true →
  service_entry (sct_enrichServiceInfo sct0) old k = Some v →
  let sct' := (ServiceChangeTracker_Update (svcs_tracker s) (Some old) (Some new)).2 in
  (ServiceMap_Update (svcs_map s) sct').1 !! k = Some v ∧
  service_entry (sct_enrichServiceInfo sct0) new k = None ∧
  ServiceChangeTracker_Update sct' (Some new) None = (false, sct').
Proof.
  intros Hr Hold Hskip Hv. cbv zeta.
  assert (ServiceChangeTracker_Update (svcs_tracker s) (Some old) (Some new) =
          (false, svcs_tracker s)) as ->.
  { unfold ServiceChangeTracker_Update. cbn [event_obj]. by rewrite Hskip. }
  destruct (svc_sync_lookup sct0 s Hr) as (sm' & sct' & Heq & _ & Hk).
  split_and!.
  - cbn [snd]. rewrite Heq. cbn [fst]. by rewrite Hk, Hold.
  - by rewrite <-serviceToServiceMap_entry, skipped_contributes_nothing.
  - unfold ServiceChangeTracker_Update. cbn [event_obj]. by rewrite Hskip.
Qed.

Lemma service_type_change_is_lost_witness :
  (@ServiceMap_Update list_range (svcs_map sample_service_state)
     (@ServiceChangeTracker_Update sample_lib (svcs_tracker sample_service_state)
        (Some (sample_service "ClusterIP")) (Some (sample_service "NodePort"))).2).1
    !! mkSPN (mkNN "ns" "web") "http" "TCP" =
  Some (SP_serviceInfo (mkBaseServiceInfo "10.96.0.7" 80 "http" "TCP") (mkNN "ns" "web") "ClusterIP").
Proof.
  apply (@service_type_change_is_lost sample_lib list_range
           (NewServiceChangeTracker (Some enrichServiceInfo)) sample_service_state
           (sample_service "ClusterIP") (sample_service "NodePort")
           (mkSPN (mkNN "ns" "web") "http" "TCP") _ sample_service_reachable);
    vm_compute; reflexivity.
Defined.

(** An ExternalName service is given an address only when its name
    is not the local host: not the word "localhost", not a loopback IP, and, when
    it is no IP at all, a valid DNS name (a trailing dot aside). *)
Theorem external_name_not_local `{KubeLib} port svc info :
  svc_Type svc = ServiceTypeExternalName →
  newBaseServiceInfo port svc = Some info →
  svc_ExternalName svc ≠ "localhost" ∧
  (∀ ip, ParseIP (svc_ExternalName svc) = Some ip → IsLoopback ip = false) ∧
  (ParseIP (svc_ExternalName svc) = None →
     IsDNS1123Subdomain (TrimSuffix (svc_ExternalName svc) ".") = []) ∧
  bsi_address info =
    svc_ExternalName svc +:+ ":" +:+ Itoa (IntValue (sp_TargetPort port)).
Proof.
  intros Hty. unfold newBaseServiceInfo. rewrite Hty.
  rewrite bool_decide_eq_false_2, bool_decide_eq_true_2 by done.
  unfold newExternalNameInfo. case_bool_decide; [done|].
  destruct (ParseIP (svc_ExternalName svc)) as [ip|].
  - destruct (IsLoopback ip) eqn:?; naive_solver.
  - destruct (IsDNS1123Subdomain _) eqn:?; naive_solver.
Qed.

Lemma external_name_not_local_witness :
  IsLoopback (v4InV6Prefix ++ [93; 184; 216; 34]%Z) = false.
Proof.
  refine (proj1 (proj2 (@external_name_not_local sample_lib
    (mkSvcPort "http" "TCP" None 80 (IntVal 8080) 0)
    (mkService (named "ns" "ext") "ExternalName" [] "" [] "93.184.216.34" None [] [])
    _ eq_refl _)) _ _); vm_compute; reflexivity.
Defined.
