(* ===== verification/McsTypes.v ===== *)
(** * The multi-cluster API objects ([apis/serviceimport], [apis/serviceexport]) *)

From S2P Require Import Prelude GoLib Kube CacheTypes.

(** ** ServiceImport *)

Record ImportTarget : Type := mkImportTarget {
  it_Host : string;
  it_IP : string;
  it_Port : Z;
  it_Path : string
}.

Record ImportEndpoint : Type := mkImportEndpoint {
  ie_Target : ImportTarget;
  ie_ClusterKey : string
}.

Record ImportServicePort : Type := mkImportPort {
  ip_Name : string;
  ip_Protocol : string;
  ip_AppProtocol : option string;
  ip_Port : Z;
  ip_Endpoints : list ImportEndpoint
}.

Definition ClusterSetIP : string := "ClusterSetIP".

(** The fields the sources set; IPs and session affinity are never touched. *)
Record ServiceImport : Type := mkServiceImport {
  si_Meta : ObjectMeta;
  si_Ports : list ImportServicePort;
  si_Type : string;
  si_ServiceAccountName : string
}.

#[export] Instance ImportTarget_eq_dec : EqDecision ImportTarget.
Proof. solve_decision. Defined.
#[export] Instance ImportEndpoint_eq_dec : EqDecision ImportEndpoint.
Proof. solve_decision. Defined.
#[export] Instance ImportServicePort_eq_dec : EqDecision ImportServicePort.
Proof. solve_decision. Defined.

(** [ServicePort.String], used for logging; nil prints as "nil". *)
Definition ImportServicePort_String (p : option ImportServicePort) : string :=
  match p with
  | None => "nil"
  | Some p =>
    Join ["&ServicePort{"; "Name:" +:+ ip_Name p +:+ ","; "Protocol:" +:+ ip_Protocol p +:+ ",";
          "Port:" +:+ Itoa (ip_Port p) +:+ ","; "}"] ""
  end.

(** ** ServiceExport *)

Record ServiceExportRule : Type := mkExportRule {
  er_PortNumber : Z;
  er_Path : string;
  er_PathType : option string
}.

Record PathRewrite : Type := mkPathRewrite {
  pr_From : string;
  pr_To : string
}.

Record ServiceExportSpec : Type := mkExportSpec {
  ses_PathRewrite : option PathRewrite;
  ses_SessionSticky : bool;
  ses_LoadBalancer : AlgoBalancer;
  ses_Rules : list ServiceExportRule;
  ses_TargetClusters : list string;
  ses_ServiceAccountName : string
}.

(** metav1.Condition, without the transition time *)
Record Condition : Type := mkCondition {
  cond_Type : string;
  cond_Status : string;
  cond_ObservedGeneration : Z;
  cond_Reason : string;
  cond_Message : string
}.

Definition ConditionTrue : string := "True".
Definition ConditionFalse : string := "False".

Definition ServiceExportValid : string := "Valid".
Definition ServiceExportConflict : string := "Conflict".

Record ServiceExport : Type := mkServiceExport {
  se_Meta : ObjectMeta;
  se_Spec : ServiceExportSpec;
  (** nil or the list of conditions *)
  se_Conditions : option (list Condition)
}.
