(* ===== verification/ServiceImportCache.v ===== *)
(** * The service import tracker ([pkg/cache/serviceimport.go])

    One tracker feeds two maps: the ports of the imported services and the
    endpoints the other clusters of the set serve them from. *)

From S2P Require Import Prelude GoLib Kube Tracker CacheTypes McsTypes ServiceCache.

Abbreviation ServiceImportMap := (gmap ServicePortName ServicePort).
Abbreviation MultiClusterEndpointsMap := (gmap ServicePortName (list BaseEndpointInfo)).
Abbreviation serviceImportChange := (change ServicePortName ServicePort).
Abbreviation multiClusterEndpointsChange := (change ServicePortName (list BaseEndpointInfo)).

Definition enrichServiceImportInfoFunc : Type :=
  ImportServicePort → ServiceImport → BaseServiceInfo → ServicePort.

Record ServiceImportChangeTracker : Type := mkServiceImportChangeTracker {
  ict_items : gmap NamespacedName serviceImportChange;
  ict_endpointItems : gmap NamespacedName multiClusterEndpointsChange;
  ict_enrichServiceImportInfo : option enrichServiceImportInfoFunc;
  ict_enrichEndpointInfo : option (BaseEndpointInfo → BaseEndpointInfo)
}.

Definition NewServiceImportChangeTracker (enrich : option enrichServiceImportInfoFunc)
    (enrichEp : option (BaseEndpointInfo → BaseEndpointInfo)) : ServiceImportChangeTracker :=
  mkServiceImportChangeTracker ∅ ∅ enrich enrichEp.

(** The enricher the local cache passes to its tracker. *)
Definition enrichServiceImportInfo (port : ImportServicePort) (svcImp : ServiceImport)
    (baseInfo : BaseServiceInfo) : ServicePort :=
  SP_serviceImportInfo baseInfo (meta_nn (si_Meta svcImp)).

Definition newMultiClusterEndpointInfo (ep : ImportEndpoint) (target : ImportTarget) :
    BaseEndpointInfo :=
  mkBaseEndpointInfo (it_Host target +:+ ":" +:+ Itoa (it_Port target) +:+ it_Path target)
    "" "" (ie_ClusterKey ep).

Definition shouldSkipServiceImport (svcImp : option ServiceImport) : bool :=
  match svcImp with None => true | Some _ => false end.

(** ** The maps *)

Definition MultiClusterEndpointsMap_merge `{MapRange} (em : MultiClusterEndpointsMap)
    (other : gomap ServicePortName (list BaseEndpointInfo)) : MultiClusterEndpointsMap :=
  gomap_merge em other.

Definition MultiClusterEndpointsMap_unmerge `{MapRange} (em : MultiClusterEndpointsMap)
    (other : gomap ServicePortName (list BaseEndpointInfo)) : MultiClusterEndpointsMap :=
  gomap_unmerge em other.

Definition MultiClusterEndpointsMap_step `{MapRange} (em : MultiClusterEndpointsMap)
    (ch : multiClusterEndpointsChange) : MultiClusterEndpointsMap :=
  MultiClusterEndpointsMap_merge (MultiClusterEndpointsMap_unmerge em (previous ch)) (current ch).

Definition ServiceImportChangeTracker_checkoutChanges `{MapRange} (sct : ServiceImportChangeTracker) :
    list multiClusterEndpointsChange * ServiceImportChangeTracker :=
  ((go_range (ict_endpointItems sct)).*2,
   mkServiceImportChangeTracker (ict_items sct) ∅
     (ict_enrichServiceImportInfo sct) (ict_enrichEndpointInfo sct)).

Definition MultiClusterEndpointsMap_apply `{MapRange} (em : MultiClusterEndpointsMap)
    (sct : option ServiceImportChangeTracker) :
    MultiClusterEndpointsMap * option ServiceImportChangeTracker :=
  match sct with
  | None => (em, None)
  | Some sct =>
    let '(changes, sct') := ServiceImportChangeTracker_checkoutChanges sct in
    (foldl MultiClusterEndpointsMap_step em changes, Some sct')
  end.

Definition MultiClusterEndpointsMap_Update `{MapRange} (em : MultiClusterEndpointsMap)
    (changes : option ServiceImportChangeTracker) :
    MultiClusterEndpointsMap * option ServiceImportChangeTracker :=
  MultiClusterEndpointsMap_apply em changes.

(** [for k := range *sm { if _, ok := other[k]; ok { delete( *sm, k) } }] *)
Definition ServiceImportMap_filter `{MapRange} (sm other : gomap ServicePortName ServicePort) :
    gomap ServicePortName ServicePort :=
  match sm with
  | None => None
  | Some sm =>
    Some (foldl (fun sm kv => match gm_val other !! kv.1 with
                              | Some _ => delete kv.1 sm
                              | None => sm
                              end) sm (go_range sm))
  end.

Definition ServiceImportMap_merge `{MapRange} (sm : ServiceImportMap)
    (other : gomap ServicePortName ServicePort) : ServiceImportMap * gset string :=
  foldl (fun '(sm, existingPorts) kv =>
           (<[kv.1 := kv.2]> sm, {[ServicePortName_String kv.1]} ∪ existingPorts))
    (sm, ∅) (go_range (gm_val other)).

Definition ServiceImportMap_unmerge `{MapRange} (sm : ServiceImportMap)
    (other : gomap ServicePortName ServicePort) : ServiceImportMap :=
  foldl (fun sm kv => match sm !! kv.1 with
                      | Some _ => delete kv.1 sm
                      | None => sm
                      end) sm (go_range (gm_val other)).

Definition ServiceImportMap_step `{MapRange} (sm : ServiceImportMap) (ch : serviceImportChange) :
    ServiceImportMap :=
  let sm := (ServiceImportMap_merge sm (current ch)).1 in
  let prev := ServiceImportMap_filter (previous ch) (current ch) in
  ServiceImportMap_unmerge sm prev.

Definition ServiceImportMap_apply `{MapRange} (sm : ServiceImportMap)
    (changes : ServiceImportChangeTracker) : ServiceImportMap * ServiceImportChangeTracker :=
  (foldl ServiceImportMap_step sm (go_range (ict_items changes)).*2,
   mkServiceImportChangeTracker ∅ (ict_endpointItems changes)
     (ict_enrichServiceImportInfo changes) (ict_enrichEndpointInfo changes)).

Definition ServiceImportMap_Update `{MapRange} (sm : ServiceImportMap)
    (changes : ServiceImportChangeTracker) : ServiceImportMap * ServiceImportChangeTracker :=
  ServiceImportMap_apply sm changes.

Section imports.
Context `{KubeLib} `{MapRange}.
(** The lister of Services: the object or an error (not found or other). *)
Context (svcLister : NamespacedName → result string Service).

Definition serviceExists (svcImp : ServiceImport) : option Service :=
  match svcLister (meta_nn (si_Meta svcImp)) with Ok svc => Some svc | Err _ => None end.

(** The address is the cluster IP of the Service of the same name, if any. *)
Definition newImportBaseServiceInfo (port : ImportServicePort) (svcImp : ServiceImport) :
    BaseServiceInfo :=
  let clusterIP := match serviceExists svcImp with
                   | Some svc => GetClusterIPByFamily IPv4Protocol svc
                   | None => ""
                   end in
  mkBaseServiceInfo clusterIP (ip_Port port) (ip_Name port) (ip_Protocol port).

Definition import_add_port (enrich : option enrichServiceImportInfoFunc) (svcImp : ServiceImport)
    (m : ServiceImportMap) (port : ImportServicePort) : ServiceImportMap :=
  let svcPortName := mkSPN (meta_nn (si_Meta svcImp)) (ip_Name port) (ip_Protocol port) in
  let baseSvcInfo := newImportBaseServiceInfo port svcImp in
  <[svcPortName := match enrich with
                   | Some f => f port svcImp baseSvcInfo
                   | None => SP_Base baseSvcInfo
                   end]> m.

Definition serviceImportToServiceMap (sct : ServiceImportChangeTracker)
    (svcImp : option ServiceImport) : gomap ServicePortName ServicePort :=
  match svcImp with
  | None => None
  | Some svcImp =>
    Some (foldl (import_add_port (ict_enrichServiceImportInfo sct) svcImp) ∅ (si_Ports svcImp))
  end.

Definition import_add_endpoint (enrich : option (BaseEndpointInfo → BaseEndpointInfo))
    (svcPortName : ServicePortName) (m : MultiClusterEndpointsMap) (ep : ImportEndpoint) :
    MultiClusterEndpointsMap :=
  let info := newMultiClusterEndpointInfo ep (ie_Target ep) in
  append_at svcPortName (match enrich with Some f => f info | None => info end) m.

Definition importEndpointsToEndpointsMap (sct : ServiceImportChangeTracker)
    (svcImp : option ServiceImport) : gomap ServicePortName (list BaseEndpointInfo) :=
  match svcImp with
  | None => None
  | Some svcImp =>
    Some (foldl (fun m port =>
      let svcPortName := mkSPN (meta_nn (si_Meta svcImp)) (ip_Name port) (ip_Protocol port) in
      foldl (import_add_endpoint (ict_enrichEndpointInfo sct) svcPortName) m (ip_Endpoints port))
      ∅ (si_Ports svcImp))
  end.

(** Both halves of the bookkeeping: the service change, then the endpoints
    change. *)
Definition ServiceImportChangeTracker_Update (sct : ServiceImportChangeTracker)
    (prev cur : option ServiceImport) : bool * ServiceImportChangeTracker :=
  match event_obj prev cur with
  | None => (false, sct)
  | Some svcImp =>
    if shouldSkipServiceImport (Some svcImp) then (false, sct)
    else
      let nn := meta_nn (si_Meta svcImp) in
      let ch :=
        match ict_items sct !! nn with
        | Some ch => mkChange (previous ch) (serviceImportToServiceMap sct cur)
        | None => mkChange (serviceImportToServiceMap sct prev) (serviceImportToServiceMap sct cur)
        end in
      let items :=
        if decide (previous ch = current ch)
        then delete nn (ict_items sct)
        else <[nn := ch]> (ict_items sct) in
      let epCh :=
        match ict_endpointItems sct !! nn with
        | Some ch => mkChange (previous ch) (importEndpointsToEndpointsMap sct cur)
        | None => mkChange (importEndpointsToEndpointsMap sct prev)
                    (importEndpointsToEndpointsMap sct cur)
        end in
      let endpointItems :=
        if decide (previous epCh = current epCh)
        then delete nn (ict_endpointItems sct)
        else <[nn := epCh]> (ict_endpointItems sct) in
      (bool_decide (items ≠ ∅) || bool_decide (endpointItems ≠ ∅),
       mkServiceImportChangeTracker items endpointItems
         (ict_enrichServiceImportInfo sct) (ict_enrichEndpointInfo sct))
  end.

(** ** The steps *)

#[export] Instance MultiClusterEndpointsMap_step_ok : ApplyStep MultiClusterEndpointsMap_step.
Proof.
  intros em c k.
  unfold MultiClusterEndpointsMap_step, MultiClusterEndpointsMap_merge, MultiClusterEndpointsMap_unmerge.
  by autorewrite with erie.
Qed.

(** The import map is applied the way the service map is. *)
#[export] Instance ServiceImportMap_step_ok : ApplyStep ServiceImportMap_step.
Proof. exact ServiceMap_step_ok. Qed.

(** ** What a ServiceImport contributes, declaratively *)

(** The entry of each port, in the order of the ports. *)
Definition import_entries (enrich : option enrichServiceImportInfoFunc) (svcImp : ServiceImport) :
    list (ServicePortName * ServicePort) :=
  (fun port =>
     (mkSPN (meta_nn (si_Meta svcImp)) (ip_Name port) (ip_Protocol port),
      match enrich with
      | Some f => f port svcImp (newImportBaseServiceInfo port svcImp)
      | None => SP_Base (newImportBaseServiceInfo port svcImp)
      end)) <$> si_Ports svcImp.

(** The endpoints of each port, in order. *)
Definition import_endpoint_entries (enrich : option (BaseEndpointInfo → BaseEndpointInfo))
    (svcImp : ServiceImport) : list (ServicePortName * BaseEndpointInfo) :=
  port ← si_Ports svcImp;
  (fun ep => (mkSPN (meta_nn (si_Meta svcImp)) (ip_Name port) (ip_Protocol port),
              default (fun i => i) enrich (newMultiClusterEndpointInfo ep (ie_Target ep)))) <$>
    ip_Endpoints port.

Lemma serviceImportToServiceMap_entry sct i k :
  gm_val (serviceImportToServiceMap sct (Some i)) !! k =
    last (vals_at k (import_entries (ict_enrichServiceImportInfo sct) i)).
Proof.
  unfold import_entries. simpl.
  assert (Hf : ∀ m, foldl (import_add_port (ict_enrichServiceImportInfo sct) i) m (si_Ports i) =
    foldl (fun m kv => <[kv.1 := kv.2]> m) m (import_entries (ict_enrichServiceImportInfo sct) i)).
  { unfold import_entries. induction (si_Ports i) as [|p ps IH]; intros m; [done|]. simpl. apply IH. }
  rewrite Hf, foldl_insert_last, lookup_empty. unfold import_entries.
  by destruct (last _).
Qed.

Lemma importEndpointsToEndpointsMap_entries sct i :
  importEndpointsToEndpointsMap sct (Some i) =
    Some (append_all ∅ (import_endpoint_entries (ict_enrichEndpointInfo sct) i)).
Proof.
  unfold importEndpointsToEndpointsMap, import_endpoint_entries, append_all. f_equal.
  rewrite <-foldl_mbind. apply foldl_ext. intros m port.
  rewrite foldl_fmap. apply foldl_ext. intros m' ep. unfold import_add_endpoint. simpl.
  by destruct (ict_enrichEndpointInfo sct).
Qed.

#[export] Program Instance import_projection (sct : ServiceImportChangeTracker) :
    Projection ServiceImport ServicePortName ServicePort := {|
  obj_name i := meta_nn (si_Meta i);
  proj i := serviceImportToServiceMap sct (Some i);
  key_owner := spn_NamespacedName;
  obj_ok _ := True
|}.
Next Obligation.
  intros sct i _ k v Hv. rewrite serviceImportToServiceMap_entry in Hv.
  apply last_Some_elem_of, vals_at_elem, list_elem_of_fmap in Hv as (p & [= -> _] & _). done.
Qed.

#[export] Program Instance import_endpoints_projection (sct : ServiceImportChangeTracker) :
    Projection ServiceImport ServicePortName (list BaseEndpointInfo) := {|
  obj_name i := meta_nn (si_Meta i);
  proj i := importEndpointsToEndpointsMap sct (Some i);
  key_owner := spn_NamespacedName;
  obj_ok _ := True
|}.
Next Obligation.
  intros sct i _ k v. rewrite importEndpointsToEndpointsMap_entries. simpl.
  rewrite lookup_append_all_empty.
  destruct (vals_at k _) as [|x vs] eqn:E; [done|]. intros _.
  assert (Hin : x ∈ vals_at k (import_endpoint_entries (ict_enrichEndpointInfo sct) i))
    by (rewrite E; by left).
  apply vals_at_elem, list_elem_of_bind in Hin as (p & Hin & _).
  by apply list_elem_of_fmap in Hin as (ep & [= -> _] & _).
Qed.

(** ** The tracker as a state machine *)

Record imp_state : Type := mkImpState {
  imps_store : gmap NamespacedName ServiceImport;
  imps_tracker : ServiceImportChangeTracker;
  imps_map : ServiceImportMap;
  imps_endpoints : MultiClusterEndpointsMap
}.

Inductive imp_step (sct0 : ServiceImportChangeTracker) : imp_state → imp_state → Prop :=
| imp_event store sct sm em nn prev cur :
    event_ok (P := import_projection sct0) store nn prev cur →
    imp_step sct0 (mkImpState store sct sm em)
      (mkImpState (store_set store nn cur) (ServiceImportChangeTracker_Update sct prev cur).2 sm em)
| imp_sync store sct sm em sm' sct' :
    ServiceImportMap_Update sm sct = (sm', sct') →
    imp_step sct0 (mkImpState store sct sm em) (mkImpState store sct' sm' em)
| imp_sync_endpoints store sct sm em em' sct' :
    MultiClusterEndpointsMap_Update em (Some sct) = (em', Some sct') →
    imp_step sct0 (mkImpState store sct sm em) (mkImpState store sct' sm em').

Definition imp_init (sct0 : ServiceImportChangeTracker) : imp_state :=
  mkImpState ∅
    (NewServiceImportChangeTracker (ict_enrichServiceImportInfo sct0) (ict_enrichEndpointInfo sct0))
    ∅ ∅.

Definition imp_inv (sct0 : ServiceImportChangeTracker) (s : imp_state) : Prop :=
  store_ok (P := import_projection sct0) (imps_store s) ∧
  ict_enrichServiceImportInfo (imps_tracker s) = ict_enrichServiceImportInfo sct0 ∧
  ict_enrichEndpointInfo (imps_tracker s) = ict_enrichEndpointInfo sct0 ∧
  coherent spn_NamespacedName (store_view (P := import_projection sct0) (imps_store s))
    (imps_map s) (ict_items (imps_tracker s)) ∧
  coherent spn_NamespacedName (store_view (P := import_endpoints_projection sct0) (imps_store s))
    (imps_endpoints s) (ict_endpointItems (imps_tracker s)).

Lemma import_maps_enrich sct sct0 :
  ict_enrichServiceImportInfo sct = ict_enrichServiceImportInfo sct0 →
  ict_enrichEndpointInfo sct = ict_enrichEndpointInfo sct0 →
  (∀ i, serviceImportToServiceMap sct i = proj_opt (P := import_projection sct0) i) ∧
  (∀ i, importEndpointsToEndpointsMap sct i = proj_opt (P := import_endpoints_projection sct0) i).
Proof. intros H1 H2. split; intros [i|]; simpl; rewrite ?H1, ?H2; done. Qed.

Lemma ServiceImportChangeTracker_Update_track sct prev cur i :
  event_obj prev cur = Some i →
  let sct' := (ServiceImportChangeTracker_Update sct prev cur).2 in
  ict_items sct' = track (ict_items sct) (meta_nn (si_Meta i))
    (serviceImportToServiceMap sct prev) (serviceImportToServiceMap sct cur) ∧
  ict_endpointItems sct' = track (ict_endpointItems sct) (meta_nn (si_Meta i))
    (importEndpointsToEndpointsMap sct prev) (importEndpointsToEndpointsMap sct cur) ∧
  ict_enrichServiceImportInfo sct' = ict_enrichServiceImportInfo sct ∧
  ict_enrichEndpointInfo sct' = ict_enrichEndpointInfo sct.
Proof. intros He. unfold ServiceImportChangeTracker_Update. rewrite He. done. Qed.

Lemma ServiceImportMap_apply_changes sm sct :
  ServiceImportMap_apply sm sct =
    (apply_changes ServiceImportMap_step sm (go_range (ict_items sct)),
     mkServiceImportChangeTracker ∅ (ict_endpointItems sct)
       (ict_enrichServiceImportInfo sct) (ict_enrichEndpointInfo sct)).
Proof. unfold ServiceImportMap_apply. by rewrite foldl_snd. Qed.

Lemma MultiClusterEndpointsMap_apply_changes em sct :
  MultiClusterEndpointsMap_apply em (Some sct) =
    (apply_changes MultiClusterEndpointsMap_step em (go_range (ict_endpointItems sct)),
     Some (mkServiceImportChangeTracker (ict_items sct) ∅
       (ict_enrichServiceImportInfo sct) (ict_enrichEndpointInfo sct))).
Proof. unfold MultiClusterEndpointsMap_apply. simpl. by rewrite foldl_snd. Qed.

Lemma imp_step_inv sct0 s s' : imp_step sct0 s s' → imp_inv sct0 s → imp_inv sct0 s'.
Proof.
  intros [store sct sm em nn prev cur Hev|store sct sm em sm' sct' Hup|store sct sm em em' sct' Hup]
    (Hok & He1 & He2 & Hc1 & Hc2); unfold imp_inv;
    cbn [imps_store imps_tracker imps_map imps_endpoints] in *.
  - destruct (event_ok_obj _ _ _ _ Hok Hev) as (i & Hi & <-).
    destruct (ServiceImportChangeTracker_Update_track sct prev cur i Hi) as (-> & -> & -> & ->).
    destruct (import_maps_enrich sct sct0 He1 He2) as [Hm1 Hm2]. rewrite !Hm1, !Hm2.
    assert (Hev2 : event_ok (P := import_endpoints_projection sct0) store
                     (meta_nn (si_Meta i)) prev cur) by (destruct Hev; by split).
    split_and!; [by eapply store_set_ok|done|done| |].
    + by apply (track_event_coherent (P := import_projection sct0)).
    + by apply (track_event_coherent (P := import_endpoints_projection sct0)).
  - unfold ServiceImportMap_Update in Hup. rewrite ServiceImportMap_apply_changes in Hup.
    injection Hup as <- <-. split_and!; [done..| |done].
    apply apply_changes_coherent; [apply _|exact Hc1].
  - unfold MultiClusterEndpointsMap_Update in Hup.
    rewrite MultiClusterEndpointsMap_apply_changes in Hup.
    injection Hup as <- <-. split_and!; [done..|].
    apply apply_changes_coherent; [apply _|exact Hc2].
Qed.

Lemma imp_reachable_inv sct0 s : rtc (imp_step sct0) (imp_init sct0) s → imp_inv sct0 s.
Proof.
  apply rtc_invariant; [|apply imp_step_inv].
  split_and!; try done; eapply coherent_proper, coherent_init; done.
Qed.
End imports.

(** ** Properties *)

(** What the two maps hold after a sync. *)
Lemma imports_sync_lookup `{KubeLib} `{MapRange} svcLister sct0 s :
  rtc (imp_step svcLister sct0) (imp_init sct0) s →
  ∃ sm' sct1 em' sct2,
    ServiceImportMap_Update (imps_map s) (imps_tracker s) = (sm', sct1) ∧
    MultiClusterEndpointsMap_Update (imps_endpoints s) (Some sct1) = (em', Some sct2) ∧
    ict_items sct2 = ∅ ∧ ict_endpointItems sct2 = ∅ ∧
    (∀ k, sm' !! k = imps_store s !! spn_NamespacedName k ≫= fun i =>
       last (vals_at k (import_entries svcLister (ict_enrichServiceImportInfo sct0) i))) ∧
    (∀ k, em' !! k = imps_store s !! spn_NamespacedName k ≫= fun i =>
       match vals_at k (import_endpoint_entries (ict_enrichEndpointInfo sct0) i) with
       | [] => None
       | infos => Some infos
       end).
Proof.
  intros (Hok & He1 & He2 & Hc1 & Hc2)%imp_reachable_inv.
  unfold ServiceImportMap_Update, MultiClusterEndpointsMap_Update.
  rewrite ServiceImportMap_apply_changes. eexists _, _.
  rewrite MultiClusterEndpointsMap_apply_changes. eexists _, _.
  split_and!; [done..| |]; intros k; cbn [ict_endpointItems].
  - rewrite (apply_changes_refines _ _ _ _ _ Hc1). unfold store_view.
    destruct (imps_store s !! spn_NamespacedName k) as [i|]; [|apply lookup_empty].
    apply serviceImportToServiceMap_entry.
  - rewrite (apply_changes_refines _ _ _ _ _ Hc2). unfold store_view.
    destruct (imps_store s !! spn_NamespacedName k) as [i|]; [|apply lookup_empty].
    cbn [proj import_endpoints_projection]. rewrite importEndpointsToEndpointsMap_entries.
    apply lookup_append_all_empty.
Qed.

(** C11 (refinement).  For every interleaving of ServiceImport events and syncs of
    the two maps, and every iteration order, syncing both maps makes the import
    map hold exactly the port entries of the stored ServiceImports and the
    multi-cluster endpoints map exactly the endpoints they list per port, and
    leaves no change pending.  (The Service lister is fixed during the run.) *)
Theorem imports_sync_refines `{KubeLib} `{MapRange} svcLister sct0 s :
  rtc (imp_step svcLister sct0) (imp_init sct0) s →
  ∃ sm' sct1 em' sct2,
    ServiceImportMap_Update (imps_map s) (imps_tracker s) = (sm', sct1) ∧
    MultiClusterEndpointsMap_Update (imps_endpoints s) (Some sct1) = (em', Some sct2) ∧
    ict_items sct2 = ∅ ∧ ict_endpointItems sct2 = ∅ ∧
    (∀ k, sm' !! k = imps_store s !! spn_NamespacedName k ≫= fun i =>
       last (vals_at k (import_entries svcLister (ict_enrichServiceImportInfo sct0) i))) ∧
    (∀ k, em' !! k = imps_store s !! spn_NamespacedName k ≫= fun i =>
       match vals_at k (import_endpoint_entries (ict_enrichEndpointInfo sct0) i) with
       | [] => None
       | infos => Some infos
       end).
Proof. apply imports_sync_lookup. Qed.

Definition sample_import : ServiceImport :=
  mkServiceImport (named "ns" "web")
    [mkImportPort "http" "TCP" None 80
       [mkImportEndpoint (mkImportTarget "gw1" "1.2.3.4" 8080 "/web") "r/z/g/c1";
        mkImportEndpoint (mkImportTarget "gw2" "1.2.3.5" 8081 "/web") "r/z/g/c2"]]
    ClusterSetIP "".

Definition no_service : NamespacedName → result string Service := fun _ => Err "not found".

Lemma imports_sync_refines_witness :
  let sct0 := NewServiceImportChangeTracker (Some enrichServiceImportInfo) None in
  let sct := (@ServiceImportChangeTracker_Update sample_lib no_service sct0 None (Some sample_import)).2 in
  ∃ em' sct2,
    @MultiClusterEndpointsMap_Update list_range ∅ (Some (@ServiceImportMap_Update list_range ∅ sct).2)
      = (em', Some sct2) ∧
    em' !! mkSPN (mkNN "ns" "web") "http" "TCP" =
      Some [mkBaseEndpointInfo "gw1:8080/web" "" "" "r/z/g/c1";
            mkBaseEndpointInfo "gw2:8081/web" "" "" "r/z/g/c2"].
Proof.
  intros sct0 sct.
  destruct (@imports_sync_refines sample_lib list_range no_service sct0
    (mkImpState (store_set ∅ (mkNN "ns" "web") (Some sample_import)) sct ∅ ∅))
    as (sm' & sct1 & em' & sct2 & H1 & H2 & _ & _ & _ & Hk).
  - apply rtc_once. constructor. split; [done|by intros e [= <-]; split|by eexists].
  - exists em', sct2. cbn [imps_map imps_tracker imps_endpoints imps_store] in *.
    rewrite H1. split; [exact H2|]. rewrite Hk. vm_compute. reflexivity.
Defined.
