(* ===== verification/IngressCache.v ===== *)
(** * The ingress tracker ([pkg/cache/ingress.go], [pkg/ingress], [pkg/util/ingress.go])

    Code that dereferences a pointer lives in the [go] monad: a nil path type
    panics. *)

From S2P Require Import Prelude GoLib Kube Tracker CacheTypes.

(** ** pkg/ingress *)

Definition IngressPipyClass : string := "pipy".
Definition NoDefaultIngressClass : string := "".
Definition IngressAnnotationKey : string := "kubernetes.io/ingress.class".
Definition IngressClassAnnotationKey : string := "ingressclass.kubernetes.io/is-default-class".
Definition PipyIngressAnnotationPrefix : string := "pipy.ingress.kubernetes.io".
Definition PipyIngressAnnotationRewriteFrom := PipyIngressAnnotationPrefix +:+ "/rewrite-target-from".
Definition PipyIngressAnnotationRewriteTo := PipyIngressAnnotationPrefix +:+ "/rewrite-target-to".
Definition PipyIngressAnnotationSessionSticky := PipyIngressAnnotationPrefix +:+ "/session-sticky".
Definition PipyIngressAnnotationLoadBalancer := PipyIngressAnnotationPrefix +:+ "/lb-type".
Definition PipyIngressAnnotationUpstreamSSLName := PipyIngressAnnotationPrefix +:+ "/upstream-ssl-name".
Definition PipyIngressAnnotationUpstreamSSLSecret := PipyIngressAnnotationPrefix +:+ "/upstream-ssl-secret".
Definition PipyIngressAnnotationUpstreamSSLVerify := PipyIngressAnnotationPrefix +:+ "/upstream-ssl-verify".
Definition PipyIngressAnnotationTLSVerifyClient := PipyIngressAnnotationPrefix +:+ "/tls-verify-client".
Definition PipyIngressAnnotationTLSVerifyDepth := PipyIngressAnnotationPrefix +:+ "/tls-verify-depth".
Definition PipyIngressAnnotationTLSTrustedCASecret := PipyIngressAnnotationPrefix +:+ "/tls-trusted-ca-secret".

(** Keys of a TLS secret ([pkg/commons/consts.go]). *)
Definition RootCACertName : string := "ca.crt".
Definition TLSCertName : string := "tls.crt".
Definition TLSPrivateKeyName : string := "tls.key".

(** [defaultClass] is the package variable [DefaultIngressClass]. *)
Definition IsValidPipyIngress (defaultClass : string) (ing : Ingress) : bool :=
  let ingressClass :=
    match gm_val (Annotations (ing_Meta ing)) !! IngressAnnotationKey with
    | Some c => c
    | None => match ing_ClassName ing with Some c => c | None => "" end
    end in
  if bool_decide (ingressClass = "") &&
     (bool_decide (defaultClass = IngressPipyClass) || bool_decide (defaultClass = ""))
  then true
  else bool_decide (ingressClass = IngressPipyClass).

(** ** Routes *)

Record BaseIngressInfo : Type := mkIngressInfo {
  bii_headers : gmap string string;
  bii_host : string;
  bii_path : string;
  bii_backend : ServicePortName;
  bii_rewrite : list string;
  bii_sessionSticky : bool;
  bii_lbType : AlgoBalancer;
  bii_upstream : option UpstreamSpec;
  bii_certificate : option CertificateSpec;
  bii_isTLS : bool;
  bii_isWildcardHost : bool;
  bii_verifyClient : bool;
  bii_verifyDepth : Z;
  bii_trustedCA : option CertificateSpec
}.
#[export] Instance BaseIngressInfo_eq_dec : EqDecision BaseIngressInfo.
Proof. solve_decision. Defined.

Definition BaseIngressInfo_String (info : BaseIngressInfo) : string :=
  bii_host info +:+ bii_path info.

(** The accessors of the upstream dereference its pointer. *)
Definition UpstreamSSLName (info : BaseIngressInfo) : go string :=
  u ← deref (bii_upstream info); Ret (SSLName u).
Definition UpstreamSSLCert (info : BaseIngressInfo) : go (option CertificateSpec) :=
  u ← deref (bii_upstream info); Ret (SSLCert u).
Definition UpstreamSSLVerify (info : BaseIngressInfo) : go bool :=
  u ← deref (bii_upstream info); Ret (SSLVerify u).

Record RouteKey : Type := mkRouteKey {
  rk_ServicePortName : ServicePortName;
  rk_Host : string;
  rk_Path : string
}.
#[export] Instance RouteKey_eq_dec : EqDecision RouteKey.
Proof. solve_decision. Defined.
#[export] Instance RouteKey_countable : Countable RouteKey.
Proof.
  refine (inj_countable' (fun r => (rk_ServicePortName r, rk_Host r, rk_Path r))
            (fun p => mkRouteKey p.1.1 p.1.2 p.2) _); by intros [].
Defined.

Definition RouteKey_String (irk : RouteKey) : string :=
  rk_Host irk +:+ "#" +:+ rk_Path irk +:+ "#" +:+ ServicePortName_String (rk_ServicePortName irk).

Abbreviation IngressMap := (gmap RouteKey BaseIngressInfo).
Abbreviation ingressChange := (change RouteKey BaseIngressInfo).

Record IngressChangeTracker : Type := mkIngressChangeTracker {
  ingt_items : gmap NamespacedName ingressChange
}.

Definition NewIngressChangeTracker : IngressChangeTracker := mkIngressChangeTracker ∅.

(** ** The environment of the tracker *)

(** The crypto packages of the standard library: PEM decoding, X.509 parsing and
    host name verification ([None] is success). *)
Class X509Lib : Type := {
  x509_Certificate : Type;
  pem_Decode : string → option string;
  x509_ParseCertificate : string → result string x509_Certificate;
  VerifyHostname : x509_Certificate → string → option string
}.

(** [utils.ConvertPEMCertToX509] *)
Definition ConvertPEMCertToX509 `{X509Lib} (pemCrt : string) : result string x509_Certificate :=
  match pem_Decode pemCrt with
  | None => Err "no valid certificate in PEM"
  | Some block => x509_ParseCertificate block
  end.

(** What the tracker reads from its informers and from the API server. *)
Record IngressEnv : Type := mkIngressEnv {
  (** Service.Store.GetByKey: the object if it exists *)
  env_ServiceStore : string → result string (option Service);
  (** CoreV1().Services(ns).Get *)
  env_ServiceAPI : NamespacedName → result string Service;
  (** Secret.Lister.Secrets(ns).Get, the data of the secret *)
  env_Secrets : NamespacedName → result string (gmap string string);
  (** the package variable DefaultIngressClass *)
  env_DefaultIngressClass : string
}.

Definition createSvcPortNameInstance (namespace serviceName portName : string) : ServicePortName :=
  mkSPN (mkNN namespace serviceName) portName ProtocolTCP.

(** ** The global map *)

Definition IngressMap_merge `{MapRange} (im : IngressMap) (other : gomap RouteKey BaseIngressInfo) :
    IngressMap := gomap_merge im other.

Definition IngressMap_unmerge `{MapRange} (im : IngressMap) (other : gomap RouteKey BaseIngressInfo) :
    IngressMap := gomap_unmerge im other.

Definition IngressMap_step `{MapRange} (im : IngressMap) (ch : ingressChange) : IngressMap :=
  IngressMap_merge (IngressMap_unmerge im (previous ch)) (current ch).

Definition IngressChangeTracker_checkoutChanges `{MapRange} (ict : IngressChangeTracker) :
    list ingressChange * IngressChangeTracker :=
  ((go_range (ingt_items ict)).*2, mkIngressChangeTracker ∅).

Definition IngressMap_apply `{MapRange} (im : IngressMap) (ict : option IngressChangeTracker) :
    IngressMap * option IngressChangeTracker :=
  match ict with
  | None => (im, None)
  | Some ict =>
    let '(changes, ict') := IngressChangeTracker_checkoutChanges ict in
    (foldl IngressMap_step im changes, Some ict')
  end.

Definition IngressMap_Update `{MapRange} (im : IngressMap) (changes : option IngressChangeTracker) :
    IngressMap * option IngressChangeTracker := IngressMap_apply im changes.

Section ingress.
Context `{KubeLib} `{X509Lib}.
Context (env : IngressEnv).

Definition isWildcardHost (host : string) : bool :=
  if bool_decide (host = "") then false
  else match IsWildcardDNS1123Subdomain host with [] => true | _ => false end.

(** A prefix path is completed to end in "/*". *)
Definition prefixPath (path : string) : string :=
  if HasSuffix path "/*" then path
  else if HasSuffix path "/" then path +:+ "*"
  else path +:+ "/*".

Definition newBaseIngressInfo (rule : IngressRule) (path : HTTPIngressPath)
    (svcPortName : ServicePortName) : go (option BaseIngressInfo) :=
  let info hostPath :=
    mkIngressInfo ∅ (ir_Host rule) hostPath svcPortName [] false "" None None false
      (isWildcardHost (ir_Host rule)) false 0 None in
  pathType ← deref (hp_PathType path);
  if bool_decide (pathType = PathTypeExact) then Ret (Some (info (hp_Path path)))
  else if bool_decide (pathType = PathTypePrefix) then Ret (Some (info (prefixPath (hp_Path path))))
  else Ret None.

(** First the local store, then the API server. *)
Definition findService (namespace : string) (service : IngressServiceBackend) : result string Service :=
  let svcName := namespace +:+ "/" +:+ isb_Name service in
  match env_ServiceStore env svcName with
  | Err e => Err e
  | Ok (Some svc) => Ok svc
  | Ok None => env_ServiceAPI env (mkNN namespace (isb_Name service))
  end.

Definition ingress_servicePortName (namespace : string) (service : option IngressServiceBackend) :
    option ServicePortName :=
  match service with
  | None => None
  | Some service =>
    if bool_decide (bp_Name (isb_Port service) ≠ "") then
      Some (createSvcPortNameInstance namespace (isb_Name service) (bp_Name (isb_Port service)))
    else if (0 <? bp_Number (isb_Port service))%Z then
      match findService namespace service with
      | Err _ => None
      | Ok svc =>
        match List.find (fun p => sp_Port p =? bp_Number (isb_Port service))%Z (svc_Ports svc) with
        | Some port => Some (createSvcPortNameInstance namespace (isb_Name service) (sp_Name port))
        | None => None
        end
      end
    else None
  end.

Definition fetchSSLCert (ing : Ingress) (ns name : string) : option CertificateSpec :=
  let ns := if bool_decide (ns = "") then Namespace (ing_Meta ing) else ns in
  if bool_decide (name = "") then None
  else
    match env_Secrets env (mkNN ns name) with
    | Err _ => None
    | Ok data =>
      Some (mkCert (default "" (data !! TLSCertName)) (default "" (data !! TLSPrivateKeyName))
              (default "" (data !! RootCACertName)))
    end.

(** Whether the certificate of a TLS section is usable for the host. *)
Definition certMatchesHost (ing : Ingress) (host : string) (tls : IngressTLS) : bool :=
  if bool_decide (itls_SecretName tls = "") then false
  else
    match fetchSSLCert ing (Namespace (ing_Meta ing)) (itls_SecretName tls) with
    | None => false
    | Some cert =>
      if bool_decide (Cert cert = "") || bool_decide (Key cert = "") then false
      else
        match ConvertPEMCertToX509 (Cert cert) with
        | Err _ => false
        | Ok x509Cert =>
          match VerifyHostname x509Cert host with Some _ => false | None => true end
        end
    end.

(** By host name first, then by what the certificates are valid for. *)
Definition getTLSSecretName (rule : IngressRule) (ing : Ingress) : string :=
  let host := ir_Host rule in
  let lowercaseHost := ToLower host in
  let byName tls := existsb (fun tlsHost => (lowercaseHost =? ToLower tlsHost)%string) (itls_Hosts tls) in
  match List.find byName (ing_TLS ing) with
  | Some tls => itls_SecretName tls
  | None =>
    match List.find (certMatchesHost ing host) (ing_TLS ing) with
    | Some tls => itls_SecretName tls
    | None => ""
    end
  end.

(** [util.SecretNamespaceAndName]: the triple Go returns, with the error. *)
Definition SecretNamespaceAndName (secretName : string) (ing : Ingress) :
    string * string * option string :=
  match SplitMetaNamespaceKey secretName with
  | Err e => ("", "", Some e)
  | Ok (secrNs, secrName) =>
    if bool_decide (secrName = "") then ("", "", None)
    else if bool_decide (secrNs = "") then (Namespace (ing_Meta ing), secrName, None)
    else (secrNs, secrName, None)
  end.

(** The on/off annotations: everything that is not a word for "on" is off. *)
Definition annotationIsOn (v : string) : bool :=
  let v := ToLower v in
  existsb (fun w => (v =? w)%string) ["yes"; "true"; "1"; "on"].

(** The certificate of the route's own TLS section. *)
Definition ingressCertificate (rule : IngressRule) (ing : Ingress) (info : BaseIngressInfo) :
    option CertificateSpec :=
  match ing_TLS ing with
  | [] => bii_certificate info
  | _ :: _ =>
    let secretName := getTLSSecretName rule ing in
    if bool_decide (secretName = "") then bii_certificate info
    else
      match fetchSSLCert ing (Namespace (ing_Meta ing)) secretName with
      | Some cert =>
        if bool_decide (Cert cert ≠ "") && bool_decide (Key cert ≠ "") then Some cert
        else bii_certificate info
      | None => bii_certificate info
      end
  end.

Definition ingressLBType (lbValue : string) : AlgoBalancer :=
  let lbValue := if bool_decide (lbValue = "") then RoundRobinLoadBalancer else lbValue in
  if bool_decide (lbValue = RoundRobinLoadBalancer) || bool_decide (lbValue = LeastWorkLoadBalancer) ||
     bool_decide (lbValue = HashingLoadBalancer)
  then lbValue else RoundRobinLoadBalancer.

(** The three upstream annotations; the last one always leaves a non-nil spec. *)
Definition ingressUpstream (annos : gomap string string) (ing : Ingress)
    (upstream : option UpstreamSpec) : UpstreamSpec :=
  let u0 := default (mkUpstream "" None false []) upstream in
  let name := smap_get annos PipyIngressAnnotationUpstreamSSLName in
  let u1 := if bool_decide (name ≠ "")
            then mkUpstream name (SSLCert u0) (SSLVerify u0) (us_Endpoints u0) else u0 in
  let secret := smap_get annos PipyIngressAnnotationUpstreamSSLSecret in
  let u2 :=
    if bool_decide (secret ≠ "") then
      match SecretNamespaceAndName secret ing with
      | (ns, name, None) =>
        mkUpstream (SSLName u1) (fetchSSLCert ing ns name) (SSLVerify u1) (us_Endpoints u1)
      | (_, _, Some _) => u1
      end
    else u1 in
  mkUpstream (SSLName u2) (SSLCert u2)
    (annotationIsOn (smap_get annos PipyIngressAnnotationUpstreamSSLVerify)) (us_Endpoints u2).

Definition ingressVerifyDepth (v : string) : Z :=
  let v := if bool_decide (v = "") then "1" else v in
  match Atoi v with Some depth => depth | None => 1%Z end.

Definition ingressTrustedCA (annos : gomap string string) (ing : Ingress)
    (certificate trustedCA : option CertificateSpec) : option CertificateSpec :=
  let trustedCA :=
    match certificate with
    | Some c => if bool_decide (CA c ≠ "") then certificate else trustedCA
    | None => trustedCA
    end in
  let secret := smap_get annos PipyIngressAnnotationTLSTrustedCASecret in
  if bool_decide (secret ≠ "") then
    match SecretNamespaceAndName secret ing with
    | (ns, name, None) => fetchSSLCert ing ns name
    | (_, _, Some _) => trustedCA
    end
  else trustedCA.

(** Without any annotation the route keeps its base settings: in particular its
    upstream stays nil. *)
Definition enrichIngressInfo (rule : IngressRule) (ing : Ingress) (info : BaseIngressInfo) :
    BaseIngressInfo :=
  let isTLS := match ing_TLS ing with [] => bii_isTLS info | _ => true end in
  let certificate := ingressCertificate rule ing info in
  match Annotations (ing_Meta ing) with
  | None =>
    mkIngressInfo (bii_headers info) (bii_host info) (bii_path info) (bii_backend info)
      (bii_rewrite info) (bii_sessionSticky info) (bii_lbType info) (bii_upstream info)
      certificate isTLS (bii_isWildcardHost info)
      (bii_verifyClient info) (bii_verifyDepth info) (bii_trustedCA info)
  | Some _ =>
    let annos := Annotations (ing_Meta ing) in
    let from := smap_get annos PipyIngressAnnotationRewriteFrom in
    let to := smap_get annos PipyIngressAnnotationRewriteTo in
    let rewrite := if bool_decide (from ≠ "") && bool_decide (to ≠ "")
                   then [from; to] else bii_rewrite info in
    mkIngressInfo (bii_headers info) (bii_host info) (bii_path info) (bii_backend info)
      rewrite
      (annotationIsOn (smap_get annos PipyIngressAnnotationSessionSticky))
      (ingressLBType (smap_get annos PipyIngressAnnotationLoadBalancer))
      (Some (ingressUpstream annos ing (bii_upstream info)))
      certificate isTLS (bii_isWildcardHost info)
      (annotationIsOn (smap_get annos PipyIngressAnnotationTLSVerifyClient))
      (ingressVerifyDepth (smap_get annos PipyIngressAnnotationTLSVerifyDepth))
      (ingressTrustedCA annos ing certificate (bii_trustedCA info))
  end.

(** ** Turning an Ingress into a map *)

(** The body of the loop over the paths; of two paths with the same route key
    the first one wins. *)
Definition ingress_add_path (ing : Ingress) (rule : IngressRule) (ingressMap : IngressMap)
    (path : HTTPIngressPath) : go IngressMap :=
  match hp_Backend_Service path with
  | None => Ret ingressMap
  | Some service =>
    match ingress_servicePortName (Namespace (ing_Meta ing)) (Some service) with
    | None => Ret ingressMap
    | Some svcPortName =>
      baseIngInfo ← newBaseIngressInfo rule path svcPortName;
      match baseIngInfo with
      | None => Ret ingressMap
      | Some baseIngInfo =>
        let routeKey := mkRouteKey svcPortName (bii_host baseIngInfo) (bii_path baseIngInfo) in
        match ingressMap !! routeKey with
        | Some _ => Ret ingressMap
        | None => Ret (<[routeKey := enrichIngressInfo rule ing baseIngInfo]> ingressMap)
        end
      end
    end
  end.

Definition ingress_add_rule (ing : Ingress) (ingressMap : IngressMap) (rule : IngressRule) :
    go IngressMap :=
  match ir_HTTP rule with
  | None => Ret ingressMap
  | Some paths => go_foldl (ingress_add_path ing rule) ingressMap paths
  end.

Definition ingressToIngressMap (ing : option Ingress) : go (gomap RouteKey BaseIngressInfo) :=
  match ing with
  | None => Ret None
  | Some ing =>
    ingressMap ← go_foldl (ingress_add_rule ing) ∅ (ing_Rules ing);
    Ret (Some ingressMap)
  end.

(** ** Recording changes *)

Definition IngressChangeTracker_Update (ict : IngressChangeTracker) (prev cur : option Ingress) :
    go (bool * IngressChangeTracker) :=
  match event_obj prev cur with
  | None => Ret (false, ict)
  | Some ing =>
    if negb (IsValidPipyIngress (env_DefaultIngressClass env) ing) then Ret (false, ict)
    else
      let nn := meta_nn (ing_Meta ing) in
      prevMap ← match ingt_items ict !! nn with
                | Some ch => Ret (previous ch)
                | None => ingressToIngressMap prev
                end;
      curMap ← ingressToIngressMap cur;
      let ch := mkChange prevMap curMap in
      let items :=
        if decide (previous ch = current ch)
        then delete nn (ingt_items ict)
        else <[nn := ch]> (ingt_items ict) in
      Ret (bool_decide (items ≠ ∅), mkIngressChangeTracker items)
  end.
End ingress.

(** ** What an Ingress contributes, declaratively *)

Section entries.
Context `{KubeLib} `{X509Lib}.
Context (env : IngressEnv).

(** The route path of an ingress path; only the two standard path types have
    one. *)
Definition route_path (pathType path : string) : option string :=
  if bool_decide (pathType = PathTypeExact) then Some path
  else if bool_decide (pathType = PathTypePrefix) then Some (prefixPath path)
  else None.

(** The route of one path, when its backend is a service port that exists. *)
Definition path_entry (ing : Ingress) (rule : IngressRule) (path : HTTPIngressPath) :
    option (RouteKey * BaseIngressInfo) :=
  service ← hp_Backend_Service path;
  spn ← ingress_servicePortName env (Namespace (ing_Meta ing)) (Some service);
  pathType ← hp_PathType path;
  hostPath ← route_path pathType (hp_Path path);
  Some (mkRouteKey spn (ir_Host rule) hostPath,
        enrichIngressInfo env rule ing
          (mkIngressInfo ∅ (ir_Host rule) hostPath spn [] false "" None None false
             (isWildcardHost (ir_Host rule)) false 0 None)).

Definition ingress_entries (ing : Ingress) : list (RouteKey * BaseIngressInfo) :=
  ing_Rules ing ≫= fun rule => omap (path_entry ing rule) (default [] (ir_HTTP rule)).

(** The API server admits no path without a path type. *)
Definition paths_typed (ing : Ingress) : Prop :=
  Forall (fun rule => Forall (fun p => is_Some (hp_PathType p)) (default [] (ir_HTTP rule)))
    (ing_Rules ing).

(** Of two entries with the same key the first one is kept. *)
Definition add_first (m : IngressMap) (kv : RouteKey * BaseIngressInfo) : IngressMap :=
  match m !! kv.1 with Some _ => m | None => <[kv.1 := kv.2]> m end.

Lemma ingress_add_path_entry ing rule m p :
  is_Some (hp_PathType p) →
  ingress_add_path env ing rule m p =
    Ret (match path_entry ing rule p with Some kv => add_first m kv | None => m end).
Proof.
  intros [pt Hpt]. unfold ingress_add_path, path_entry.
  destruct (hp_Backend_Service p) as [service|]; [|done]. cbn [mbind option_bind].
  destruct (ingress_servicePortName env _ (Some service)) as [spn|]; [|done].
  unfold newBaseIngressInfo, route_path. rewrite Hpt. simpl.
  repeat case_bool_decide; simpl; unfold add_first; simpl; try done;
    by destruct (m !! _).
Qed.

Lemma ingress_add_paths_entries ing rule ps m :
  Forall (fun p => is_Some (hp_PathType p)) ps →
  go_foldl (ingress_add_path env ing rule) m ps =
    Ret (foldl add_first m (omap (path_entry ing rule) ps)).
Proof.
  intros Hps. revert m. induction Hps as [|p ps Hp Hps IH]; intros m; [done|].
  simpl. rewrite ingress_add_path_entry by done. simpl. rewrite IH.
  by destruct (path_entry ing rule p).
Qed.

Lemma ingress_add_rules_entries ing rules m :
  Forall (fun rule => Forall (fun p => is_Some (hp_PathType p)) (default [] (ir_HTTP rule))) rules →
  go_foldl (ingress_add_rule env ing) m rules =
    Ret (foldl add_first m
           (rules ≫= fun rule => omap (path_entry ing rule) (default [] (ir_HTTP rule)))).
Proof.
  intros Hrs. revert m. induction Hrs as [|r rules Hr Hrs IH]; intros m; [done|].
  simpl. rewrite foldl_app, <-IH.
  assert (ingress_add_rule env ing m r =
          Ret (foldl add_first m (omap (path_entry ing r) (default [] (ir_HTTP r))))) as ->; [|done].
  unfold ingress_add_rule. destruct (ir_HTTP r) as [ps|]; simpl in *; [|done].
  by rewrite ingress_add_paths_entries.
Qed.

Lemma ingressToIngressMap_entries ing :
  paths_typed ing →
  ingressToIngressMap env (Some ing) = Ret (Some (foldl add_first ∅ (ingress_entries ing))).
Proof. intros Ht. unfold ingressToIngressMap. by rewrite ingress_add_rules_entries. Qed.

(** The first of the entries of the route key, for an ingress of this
    controller's class. *)
Definition ingress_entry (ing : Ingress) (k : RouteKey) : option BaseIngressInfo :=
  if IsValidPipyIngress (env_DefaultIngressClass env) ing
  then head (vals_at k (ingress_entries ing)) else None.

(** ** The tracker as a state machine

    [owner] says which ingress a route belongs to; see [shared_route_is_lost]
    for what happens when two ingresses declare the same route. *)
Context (owner : RouteKey → NamespacedName).

Definition owns_its_routes (ing : Ingress) : Prop :=
  Forall (fun kv => owner kv.1 = meta_nn (ing_Meta ing)) (ingress_entries ing).

Definition ingress_map (ing : Ingress) : gomap RouteKey BaseIngressInfo :=
  if IsValidPipyIngress (env_DefaultIngressClass env) ing
  then Some (foldl add_first ∅ (ingress_entries ing)) else None.

Lemma ingress_map_lookup ing k : gm_val (ingress_map ing) !! k = ingress_entry ing k.
Proof.
  unfold ingress_map, ingress_entry. destruct (IsValidPipyIngress _ _); [|apply lookup_empty].
  simpl. unfold add_first. by rewrite foldl_insert_first, lookup_empty.
Qed.

#[export] Program Instance ingress_projection : Projection Ingress RouteKey BaseIngressInfo := {|
  obj_name i := meta_nn (ing_Meta i);
  proj := ingress_map;
  key_owner := owner;
  obj_ok i := paths_typed i ∧ owns_its_routes i
|}.
Next Obligation.
  intros i [_ Hown] k v. rewrite ingress_map_lookup. unfold ingress_entry.
  destruct (IsValidPipyIngress _ _); [|done]. intros Hk%head_Some_elem_of.
  apply vals_at_elem in Hk. unfold owns_its_routes in Hown.
  rewrite Forall_forall in Hown. by apply (Hown _ Hk).
Qed.

Lemma ingressToIngressMap_valid i :
  paths_typed i → IsValidPipyIngress (env_DefaultIngressClass env) i = true →
  ingressToIngressMap env (Some i) = Ret (ingress_map i).
Proof. intros Ht Hv. rewrite ingressToIngressMap_entries by done. unfold ingress_map. by rewrite Hv. Qed.

Record ing_state : Type := mkIngState {
  ings_store : gmap NamespacedName Ingress;
  ings_tracker : IngressChangeTracker;
  ings_map : IngressMap
}.

(** An update that does not change whether the ingress is this controller's. *)
Definition keeps_class (prev cur : option Ingress) : Prop :=
  ∀ p c, prev = Some p → cur = Some c →
    IsValidPipyIngress (env_DefaultIngressClass env) p =
    IsValidPipyIngress (env_DefaultIngressClass env) c.

Context `{MapRange}.

Inductive ing_step : ing_state → ing_state → Prop :=
| ing_event store ict im nn prev cur b ict' :
    event_ok store nn prev cur →
    keeps_class prev cur →
    IngressChangeTracker_Update env ict prev cur = Ret (b, ict') →
    ing_step (mkIngState store ict im) (mkIngState (store_set store nn cur) ict' im)
| ing_sync store ict im im' ict' :
    IngressMap_Update im (Some ict) = (im', Some ict') →
    ing_step (mkIngState store ict im) (mkIngState store ict' im').

Definition ing_init : ing_state := mkIngState ∅ NewIngressChangeTracker ∅.

#[export] Instance ingress_apply_step : ApplyStep IngressMap_step.
Proof.
  intros im c k. unfold IngressMap_step, IngressMap_merge, IngressMap_unmerge.
  by autorewrite with erie.
Qed.

Lemma IngressMap_Update_changes im ict :
  IngressMap_Update im (Some ict) =
    (apply_changes IngressMap_step im (go_range (ingt_items ict)), Some NewIngressChangeTracker).
Proof. unfold IngressMap_Update, IngressMap_apply, IngressChangeTracker_checkoutChanges. by rewrite foldl_snd. Qed.

Definition store_objs_ok (store : gmap NamespacedName Ingress) : Prop :=
  ∀ nn i, store !! nn = Some i → obj_ok i.

Lemma store_objs_ok_set store nn prev cur :
  store_objs_ok store → event_ok store nn prev cur → store_objs_ok (store_set store nn cur).
Proof.
  intros Hok [_ Hcur _] nn' o. destruct cur as [o'|]; simpl.
  - rewrite lookup_insert. case_decide; [|apply Hok]. intros [= <-]. by apply Hcur.
  - rewrite lookup_delete. case_decide; [done|apply Hok].
Qed.

(** A notification about an ingress of the class is recorded, one about another
    class is ignored; neither panics. *)
Lemma IngressChangeTracker_Update_track store ict nn prev cur :
  store_ok store → store_objs_ok store → event_ok store nn prev cur → keeps_class prev cur →
  ∃ i, event_obj prev cur = Some i ∧
    ∃ b, IngressChangeTracker_Update env ict prev cur =
      Ret (b, if IsValidPipyIngress (env_DefaultIngressClass env) i
              then mkIngressChangeTracker
                     (track (ingt_items ict) nn (proj_opt prev) (proj_opt cur))
              else ict).
Proof.
  intros Hok Hobjs Hev Hk. destruct (event_ok_obj _ _ _ _ Hok Hev) as (i & Hi & Hn).
  exists i. split; [done|]. unfold IngressChangeTracker_Update. rewrite Hi.
  destruct (IsValidPipyIngress _ i) eqn:Hv; [|by eexists]. cbn [negb].
  destruct Hev as [Hprev Hcur _].
  assert (Hp : ingressToIngressMap env prev = Ret (proj_opt prev)).
  { destruct prev as [p|]; [|done]. apply ingressToIngressMap_valid; [by eapply Hobjs|].
    destruct cur as [c|]; simpl in Hi; [|congruence]. rewrite (Hk p c) by done. congruence. }
  assert (Hc : ingressToIngressMap env cur = Ret (proj_opt cur)).
  { destruct cur as [c|]; [|done]. apply ingressToIngressMap_valid; [by eapply Hcur|].
    simpl in Hi. congruence. }
  rewrite Hp, Hc. simpl in Hn. rewrite Hn. unfold track.
  destruct (ingt_items ict !! nn) as [ch|]; by eexists.
Qed.

(** What an ingress of another class contributes, before and after. *)
Lemma invalid_event_view store nn prev cur i :
  event_ok store nn prev cur → keeps_class prev cur →
  event_obj prev cur = Some i → IsValidPipyIngress (env_DefaultIngressClass env) i = false →
  ∀ nn', store_view store nn' = store_view (store_set store nn cur) nn'.
Proof.
  intros [Hprev _ _] Hk Hi Hv nn'.
  assert (Hempty : ∀ j, IsValidPipyIngress (env_DefaultIngressClass env) j = false →
            gm_val (proj j) = ∅) by (intros j Hj; simpl; unfold ingress_map; by rewrite Hj).
  destruct (decide (nn' = nn)) as [->|Hne].
  - trans (∅ : IngressMap).
    + unfold store_view. rewrite <-Hprev. destruct prev as [p|]; [|done]. apply Hempty.
      destruct cur as [c|]; simpl in Hi; [|congruence]. rewrite (Hk p c) by done. congruence.
    + unfold store_view, store_set. destruct cur as [c|].
      * rewrite lookup_insert_eq. symmetry. apply Hempty. simpl in Hi. congruence.
      * by rewrite lookup_delete_eq.
  - unfold store_view, store_set. destruct cur; by rewrite ?lookup_insert_ne, ?lookup_delete_ne.
Qed.

Definition ing_inv (s : ing_state) : Prop :=
  store_ok (ings_store s) ∧ store_objs_ok (ings_store s) ∧
  coherent owner (store_view (ings_store s)) (ings_map s) (ingt_items (ings_tracker s)).

Lemma ing_step_inv s s' : ing_step s s' → ing_inv s → ing_inv s'.
Proof.
  intros [store ict im nn prev cur b ict' Hev Hk Hup|store ict im im' ict' Hup]
    (Hok & Hobjs & Hcoh); unfold ing_inv; cbn [ings_store ings_tracker ings_map] in *.
  - split_and!; [by eapply store_set_ok|by eapply store_objs_ok_set|].
    destruct (IngressChangeTracker_Update_track store ict nn prev cur Hok Hobjs Hev Hk)
      as (i & Hi & b' & Heq).
    rewrite Hup in Heq. injection Heq as _ ->.
    destruct (IsValidPipyIngress _ i) eqn:Hv.
    + by apply (track_event_coherent (P := ingress_projection)).
    + eapply coherent_proper; [|exact Hcoh]. by eapply invalid_event_view.
  - rewrite IngressMap_Update_changes in Hup. injection Hup as <- <-.
    split_and!; [done|done|]. apply apply_changes_coherent; [apply _|exact Hcoh].
Qed.

Lemma ing_reachable_inv s : rtc ing_step ing_init s → ing_inv s.
Proof.
  apply rtc_invariant; [|apply ing_step_inv].
  split_and!; [by intros nn e|by intros nn e|].
  eapply coherent_proper; [|apply coherent_init]. done.
Qed.
End entries.

(** A sync shows what the stored ingresses contribute. *)
Lemma ing_sync_lookup `{KubeLib} `{X509Lib} `{MapRange} env owner s :
  rtc (ing_step env owner) ing_init s →
  ∃ im', IngressMap_Update (ings_map s) (Some (ings_tracker s)) =
           (im', Some NewIngressChangeTracker) ∧
    ∀ k, im' !! k = ings_store s !! owner k ≫= fun i => ingress_entry env i k.
Proof.
  intros (Hok & Hobjs & Hcoh)%ing_reachable_inv.
  rewrite IngressMap_Update_changes. eexists. split; [done|]. intros k.
  rewrite (apply_changes_refines _ _ _ _ _ Hcoh). unfold store_view.
  destruct (ings_store s !! owner k) as [i|]; [|apply lookup_empty].
  apply ingress_map_lookup.
Qed.

(** ** Properties of the tracker *)

(** C12 (refinement).  For every interleaving of informer events and syncs over ingresses that own
    their routes and keep their class, while what the tracker looks up for them (services,
    secrets, the default ingress class) stays the same, and every iteration order: an event is
    handled without a panic, and a sync makes the route map hold exactly the routes the stored
    ingresses of this controller's class declare, the first declaration of a route counting, and
    leaves no change pending. (When what is looked up changes, routes may stay behind: see
    [refresh_keeps_stale_routes].) *)
Theorem ingresses_sync_refines `{KubeLib} `{X509Lib} `{MapRange} env owner s :
  rtc (ing_step env owner) ing_init s →
  (∀ nn prev cur,
     event_ok (P := ingress_projection env owner) (ings_store s) nn prev cur →
     keeps_class env prev cur →
     ∃ b ict', IngressChangeTracker_Update env (ings_tracker s) prev cur = Ret (b, ict')) ∧
  ∃ im', IngressMap_Update (ings_map s) (Some (ings_tracker s)) =
           (im', Some NewIngressChangeTracker) ∧
    ∀ k, im' !! k = ings_store s !! owner k ≫= fun i => ingress_entry env i k.
Proof.
  intros Hr. split; [|by apply ing_sync_lookup].
  intros nn prev cur Hev Hk. destruct (ing_reachable_inv _ _ _ Hr) as (Hok & Hobjs & _).
  destruct (IngressChangeTracker_Update_track env owner _ (ings_tracker s) nn prev cur
              Hok Hobjs Hev Hk) as (i & _ & b & Heq).
  eauto.
Qed.

Definition sample_x509 : X509Lib := {|
  x509_Certificate := string;
  pem_Decode := fun s => if bool_decide (s = "") then None else Some s;
  x509_ParseCertificate := fun s => Ok s;
  VerifyHostname := fun c h => if bool_decide (c = h) then None else Some "mismatch"
|}.

Definition sample_ing_env : IngressEnv :=
  mkIngressEnv (fun _ => Ok None) (fun _ => Err "not found") (fun _ => Err "not found") "pipy".

Definition sample_ingress (class name : string) : Ingress :=
  mkIngress (named "ns" name) (Some class) []
    [mkRule "a.com" (Some [mkPath "/x" (Some "Prefix") (Some (mkBackend "web" (mkBackendPort "http" 0)))])].

Definition sample_route : RouteKey :=
  mkRouteKey (mkSPN (mkNN "ns" "web") "http" "TCP") "a.com" "/x/*".

Definition sample_owner (_ : RouteKey) : NamespacedName := mkNN "ns" "one".

Definition sample_ing_tracker (class : string) : IngressChangeTracker :=
  match @IngressChangeTracker_Update sample_lib sample_x509 sample_ing_env NewIngressChangeTracker
          None (Some (sample_ingress class "one")) with
  | Ret (_, t) => t
  | Panic => NewIngressChangeTracker
  end.

Definition sample_ing_state (class : string) : ing_state :=
  mkIngState (store_set ∅ (mkNN "ns" "one") (Some (sample_ingress class "one")))
    (sample_ing_tracker class) ∅.

Lemma sample_ingress_ok class :
  obj_ok (Projection := @ingress_projection sample_lib sample_x509 sample_ing_env sample_owner)
    (sample_ingress class "one").
Proof. split; repeat constructor. by eexists. Qed.

Lemma sample_ing_reachable class :
  class = "pipy" ∨ class = "nginx" →
  rtc (@ing_step sample_lib sample_x509 sample_ing_env sample_owner list_range) ing_init
    (sample_ing_state class).
Proof.
  intros Hc. apply rtc_once. eapply (ing_event _ _ _ _ _ _ None _ (bool_decide (class = "pipy"))).
  - split; [done| |by eexists]. intros i [= <-]. split; [done|apply sample_ingress_ok].
  - by intros p c [=].
  - destruct Hc as [-> | ->]; vm_compute; reflexivity.
Qed.

Lemma ingresses_sync_refines_witness :
  is_Some ((@IngressMap_Update list_range (ings_map (sample_ing_state "pipy"))
              (Some (ings_tracker (sample_ing_state "pipy")))).1 !! sample_route).
Proof.
  destruct (proj2 (@ingresses_sync_refines sample_lib sample_x509 list_range sample_ing_env
              sample_owner _ (sample_ing_reachable "pipy" (or_introl eq_refl))))
    as (im' & Heq & Hk).
  rewrite Heq. simpl. rewrite Hk. vm_compute. by eexists.
Defined.

(** An ingress that is moved to this controller's class without
    any change of its routes is missed: the tracker computes what the old object
    "contributed" without looking at its class, finds no difference and drops
    the event, so after the next sync none of its routes is served although it
    declares them. *)
Theorem class_adoption_is_lost `{KubeLib} `{X509Lib} `{MapRange} env owner s old new k v :
  rtc (ing_step env owner) ing_init s →
  ings_store s !! owner k = Some old →
  ingt_items (ings_tracker s) !! owner k = None →
  meta_nn (ing_Meta new) = owner k →
  IsValidPipyIngress (env_DefaultIngressClass env) old = false →
  ingress_entry env new k = Some v →
  paths_typed new →
  ingressToIngressMap env (Some old) = ingressToIngressMap env (Some new) →
  ∃ b, IngressChangeTracker_Update env (ings_tracker s) (Some old) (Some new) =
         Ret (b, ings_tracker s) ∧
       (IngressMap_Update (ings_map s) (Some (ings_tracker s))).1 !! k = None.
Proof.
  intros Hr Hold Hnone Hname Hv Hentry Ht Hsame.
  assert (Hvn : IsValidPipyIngress (env_DefaultIngressClass env) new = true).
  { unfold ingress_entry in Hentry. by destruct (IsValidPipyIngress _ new). }
  assert (Heta : mkIngressChangeTracker (ingt_items (ings_tracker s)) = ings_tracker s)
    by by destruct (ings_tracker s).
  eexists. split.
  - unfold IngressChangeTracker_Update. cbn [event_obj]. rewrite Hvn. cbn [negb].
    rewrite Hname, Hnone, Hsame, ingressToIngressMap_entries by done. simpl.
    rewrite decide_True, delete_id by done. by rewrite Heta.
  - destruct (ing_sync_lookup env owner s Hr) as (im' & -> & Hk). simpl. rewrite Hk, Hold.
    simpl. unfold ingress_entry. by rewrite Hv.
Qed.

Lemma class_adoption_is_lost_witness :
  ∃ b, @IngressChangeTracker_Update sample_lib sample_x509 sample_ing_env
         (ings_tracker (sample_ing_state "nginx"))
         (Some (sample_ingress "nginx" "one")) (Some (sample_ingress "pipy" "one")) =
         Ret (b, ings_tracker (sample_ing_state "nginx")) ∧
       (@IngressMap_Update list_range (ings_map (sample_ing_state "nginx"))
          (Some (ings_tracker (sample_ing_state "nginx")))).1
         !! sample_route = None.
Proof.
  eapply (@class_adoption_is_lost sample_lib sample_x509 list_range sample_ing_env sample_owner
            (sample_ing_state "nginx") (sample_ingress "nginx" "one")
            (sample_ingress "pipy" "one") sample_route _
            (sample_ing_reachable "nginx" (or_intror eq_refl))).
  1-4: vm_compute; reflexivity.
  - vm_compute; reflexivity.
  - apply sample_ingress_ok.
  - by rewrite !ingressToIngressMap_entries by apply sample_ingress_ok.
Defined.

(** A sync with a single pending change. *)
Lemma IngressMap_Update_singleton `{MapRange} im nn ch k :
  (IngressMap_Update im (Some (mkIngressChangeTracker {[ nn := ch ]}))).1 !! k =
    match gm_val (current ch) !! k with
    | Some v => Some v
    | None => match gm_val (previous ch) !! k with Some _ => None | None => im !! k end
    end.
Proof.
  rewrite IngressMap_Update_changes. unfold apply_changes. simpl.
  assert (Hl : go_range ({[ nn := ch ]} : gmap NamespacedName ingressChange) = [(nn, ch)]).
  { apply Permutation_singleton_r. by rewrite go_range_perm, map_to_list_singleton. }
  rewrite Hl. simpl. by rewrite (apply_step_lookup (ApplyStep := ingress_apply_step)).
Qed.

(** The first event of an ingress of the class, with nothing pending. *)
Lemma fresh_ingress_tracked `{KubeLib} `{X509Lib} env ict ing :
  ingt_items ict = ∅ → paths_typed ing →
  IsValidPipyIngress (env_DefaultIngressClass env) ing = true →
  IngressChangeTracker_Update env ict None (Some ing) =
    Ret (true, mkIngressChangeTracker {[ meta_nn (ing_Meta ing) := mkChange None (ingress_map env ing) ]}).
Proof.
  intros Hnone Ht Hv. unfold IngressChangeTracker_Update. cbn [event_obj]. rewrite Hv. cbn [negb].
  rewrite Hnone, lookup_empty, ingressToIngressMap_valid by done. simpl.
  rewrite decide_False by (unfold ingress_map; by rewrite Hv).
  rewrite insert_empty, bool_decide_eq_true_2; [done|apply map_non_empty_singleton].
Qed.

(** The deletion of an ingress of the class, with nothing pending. *)
Lemma deleted_ingress_tracked `{KubeLib} `{X509Lib} env ict ing :
  ingt_items ict = ∅ → paths_typed ing →
  IsValidPipyIngress (env_DefaultIngressClass env) ing = true →
  IngressChangeTracker_Update env ict (Some ing) None =
    Ret (true, mkIngressChangeTracker {[ meta_nn (ing_Meta ing) := mkChange (ingress_map env ing) None ]}).
Proof.
  intros Hnone Ht Hv. unfold IngressChangeTracker_Update. cbn [event_obj]. rewrite Hv. cbn [negb].
  rewrite Hnone, lookup_empty, ingressToIngressMap_valid by done. simpl.
  rewrite decide_False by (unfold ingress_map; rewrite Hv; discriminate).
  rewrite insert_empty, bool_decide_eq_true_2; [done|apply map_non_empty_singleton].
Qed.

Lemma ingress_entry_class `{KubeLib} `{X509Lib} env ing k v :
  ingress_entry env ing k = Some v → IsValidPipyIngress (env_DefaultIngressClass env) ing = true.
Proof. unfold ingress_entry. by destruct (IsValidPipyIngress _ ing). Qed.

(** An event handled and synced at once. *)
Definition event_then_sync `{KubeLib} `{X509Lib} `{MapRange} (env : IngressEnv) (prev cur : option Ingress)
    (im : IngressMap) : go IngressMap :=
  r ← IngressChangeTracker_Update env NewIngressChangeTracker prev cur;
  Ret (IngressMap_Update im (Some r.2)).1.

(** Routes are keyed by host, path and backend only, not by
    the ingress: when two ingresses declare the same route, the second one to
    appear takes it over, and deleting that one takes the route away although
    the first one still declares it. *)
Theorem shared_route_is_lost `{KubeLib} `{X509Lib} `{MapRange} env a b im k va vb :
  paths_typed a → paths_typed b →
  ingress_entry env a k = Some va →
  ingress_entry env b k = Some vb →
  ∃ im1 im2 im3,
    event_then_sync env None (Some b) im = Ret im1 ∧ im1 !! k = Some vb ∧
    event_then_sync env None (Some a) im1 = Ret im2 ∧ im2 !! k = Some va ∧
    event_then_sync env (Some a) None im2 = Ret im3 ∧ im3 !! k = None.
Proof.
  intros Hta Htb Ha Hb. pose proof (ingress_entry_class _ _ _ _ Ha) as Hva.
  pose proof (ingress_entry_class _ _ _ _ Hb) as Hvb. unfold event_then_sync.
  rewrite !fresh_ingress_tracked, deleted_ingress_tracked by done. cbn [mbind go_bind snd].
  eexists _, _, _. split_and!; [done| |done| |done|];
    rewrite IngressMap_Update_singleton; cbn [previous current]; by rewrite ingress_map_lookup, ?Ha, ?Hb.
Qed.

Lemma shared_route_is_lost_witness :
  ∃ im1 im2 im3 v,
    @event_then_sync sample_lib sample_x509 list_range sample_ing_env None
      (Some (sample_ingress "pipy" "two")) ∅ = Ret im1 ∧ im1 !! sample_route = Some v ∧
    @event_then_sync sample_lib sample_x509 list_range sample_ing_env None
      (Some (sample_ingress "pipy" "one")) im1 = Ret im2 ∧
    @event_then_sync sample_lib sample_x509 list_range sample_ing_env
      (Some (sample_ingress "pipy" "one")) None im2 = Ret im3 ∧ im3 !! sample_route = None.
Proof.
  edestruct (@shared_route_is_lost sample_lib sample_x509 list_range sample_ing_env
            (sample_ingress "pipy" "one") (sample_ingress "pipy" "two") ∅ sample_route)
    as (im1 & im2 & im3 & H1 & Hb & H2 & Ha & H3 & Hn);
    [repeat constructor; by eexists|repeat constructor; by eexists|vm_compute; reflexivity|
     vm_compute; reflexivity|].
  exists im1, im2, im3. eexists. repeat split; [exact H1|exact Hb|exact H2|exact H3|exact Hn].
Defined.

Lemma prefixPath_suffix path : HasSuffix (prefixPath path) "/*" = true.
Proof.
  unfold prefixPath. destruct (HasSuffix path "/*") eqn:E; [done|].
  destruct (HasSuffix path "/") eqn:E'; [|apply HasSuffix_app].
  apply HasSuffix_inv in E' as [p ->]. rewrite sapp_assoc. apply (HasSuffix_app p "/*").
Qed.

Lemma prefixPath_extends path : ∃ rest, prefixPath path = path +:+ rest.
Proof.
  unfold prefixPath. destruct (HasSuffix path "/*"); [exists ""; by rewrite sapp_nil_r|].
  destruct (HasSuffix path "/"); eauto.
Qed.

Lemma servicePortName_namespace `{KubeLib} env ns service spn :
  ingress_servicePortName env ns service = Some spn →
  nn_Namespace (spn_NamespacedName spn) = ns.
Proof.
  unfold ingress_servicePortName, createSvcPortNameInstance. intros Hs.
  case_all; naive_solver.
Qed.

Lemma enrich_keeps_route `{KubeLib} `{X509Lib} env rule ing info :
  bii_backend (enrichIngressInfo env rule ing info) = bii_backend info ∧
  bii_host (enrichIngressInfo env rule ing info) = bii_host info ∧
  bii_path (enrichIngressInfo env rule ing info) = bii_path info.
Proof. unfold enrichIngressInfo. by destruct (Annotations (ing_Meta ing)). Qed.

(** The routes of an ingress: a prefix path is turned into a
    pattern that ends in "/*" and starts with the path, the completion is
    idempotent, an exact path is kept, and every route lies in the ingress's own
    namespace, carries its host and names its own path. *)
Theorem ingress_routes_shape `{KubeLib} `{X509Lib} env ing k info :
  (k, info) ∈ ingress_entries env ing →
  nn_Namespace (spn_NamespacedName (rk_ServicePortName k)) = Namespace (ing_Meta ing) ∧
  bii_backend info = rk_ServicePortName k ∧ bii_host info = rk_Host k ∧ bii_path info = rk_Path k ∧
  ∃ rule paths p, rule ∈ ing_Rules ing ∧ ir_HTTP rule = Some paths ∧ p ∈ paths ∧
    rk_Host k = ir_Host rule ∧
    ((hp_PathType p = Some PathTypeExact ∧ rk_Path k = hp_Path p) ∨
     (hp_PathType p = Some PathTypePrefix ∧ rk_Path k = prefixPath (hp_Path p) ∧
      HasSuffix (rk_Path k) "/*" = true ∧ prefixPath (rk_Path k) = rk_Path k ∧
      ∃ rest, rk_Path k = hp_Path p +:+ rest)).
Proof.
  unfold ingress_entries. intros (rule & Hin & Hr)%list_elem_of_bind.
  apply list_elem_of_omap in Hin as (p & Hp & Hentry).
  unfold path_entry in Hentry.
  apply bind_Some in Hentry as (service & Hs & Hentry).
  apply bind_Some in Hentry as (spn & Hspn & Hentry).
  apply bind_Some in Hentry as (pt & Hpt & Hentry).
  apply bind_Some in Hentry as (hostPath & Hhp & [= <- <-]).
  apply servicePortName_namespace in Hspn.
  destruct (enrich_keeps_route env rule ing
    (mkIngressInfo ∅ (ir_Host rule) hostPath spn [] false "" None None false
       (isWildcardHost (ir_Host rule)) false 0 None)) as (-> & -> & ->).
  simpl. split_and!; [done..|].
  destruct (ir_HTTP rule) as [paths|] eqn:Hh; [|by apply elem_of_nil in Hp].
  exists rule, paths, p. split_and!; [done..|].
  revert Hhp. unfold route_path. case_bool_decide; [intros [= <-]; subst; by left|].
  case_bool_decide; [|done]. intros [= <-]. subst. right.
  split_and!; [done..|apply prefixPath_suffix| |apply prefixPath_extends].
  unfold prefixPath at 1. by rewrite prefixPath_suffix.
Qed.

Lemma ingress_routes_shape_witness :
  ∃ info, (sample_route, info) ∈
    @ingress_entries sample_lib sample_x509 sample_ing_env (sample_ingress "pipy" "one") ∧
    bii_path info = "/x/*".
Proof.
  eexists. split; [vm_compute; left|].
  eapply (@ingress_routes_shape sample_lib sample_x509 sample_ing_env
            (sample_ingress "pipy" "one") sample_route).
  vm_compute. left.
Defined.

(** The secret of a route is the one of a TLS section of its ingress. *)
Lemma getTLSSecretName_section `{KubeLib} `{X509Lib} env rule ing :
  getTLSSecretName env rule ing = "" ∨
  ∃ tls, tls ∈ ing_TLS ing ∧ getTLSSecretName env rule ing = itls_SecretName tls.
Proof.
  unfold getTLSSecretName.
  destruct (List.find _ (ing_TLS ing)) as [tls|] eqn:E1.
  - right. exists tls. split; [|done]. apply find_some in E1 as [E1 _]. by apply list_elem_of_In.
  - destruct (List.find (certMatchesHost env ing _) (ing_TLS ing)) as [tls|] eqn:E2; [|by left].
    right. exists tls. split; [|done]. apply find_some in E2 as [E2 _]. by apply list_elem_of_In.
Qed.

Lemma entry_enriched `{KubeLib} `{X509Lib} env ing k info :
  (k, info) ∈ ingress_entries env ing →
  ∃ rule base, info = enrichIngressInfo env rule ing base ∧
    bii_certificate base = None ∧ bii_upstream base = None ∧ bii_rewrite base = [].
Proof.
  intros (rule & (p & _ & Hentry)%list_elem_of_omap & _)%list_elem_of_bind.
  unfold path_entry in Hentry.
  apply bind_Some in Hentry as (service & _ & Hentry).
  apply bind_Some in Hentry as (spn & _ & Hentry).
  apply bind_Some in Hentry as (pt & _ & Hentry).
  apply bind_Some in Hentry as (hostPath & _ & [= <- <-]).
  by eexists _, _.
Qed.

(** A route serves a certificate only if the certificate and its
    key are both present, and it is the one stored in the secret that a TLS
    section of the same ingress names, in the ingress's own namespace. *)
Theorem route_certificate_is_own `{KubeLib} `{X509Lib} env ing k info c :
  (k, info) ∈ ingress_entries env ing →
  bii_certificate info = Some c →
  Cert c ≠ "" ∧ Key c ≠ "" ∧ bii_isTLS info = true ∧
  ∃ tls data, tls ∈ ing_TLS ing ∧
    env_Secrets env (mkNN (Namespace (ing_Meta ing)) (itls_SecretName tls)) = Ok data ∧
    data !! TLSCertName = Some (Cert c) ∧ data !! TLSPrivateKeyName = Some (Key c).
Proof.
  intros (rule & base & -> & Hbc & _)%entry_enriched Hc.
  assert (Hcert : ingressCertificate env rule ing base = Some c).
  { unfold enrichIngressInfo in Hc. by destruct (Annotations (ing_Meta ing)). }
  clear Hc. unfold ingressCertificate in Hcert. rewrite Hbc in Hcert.
  destruct (ing_TLS ing) as [|tls0 rest] eqn:Htls; [done|].
  case_bool_decide as Hempty; [done|].
  destruct (fetchSSLCert env ing _ _) as [c'|] eqn:Hf; [|done].
  destruct (bool_decide (Cert c' ≠ "")) eqn:Hce; [|done].
  destruct (bool_decide (Key c' ≠ "")) eqn:Hke; [|done]. simpl in Hcert.
  injection Hcert as ->. apply bool_decide_eq_true in Hce, Hke.
  split_and!; [done..| |].
  - unfold enrichIngressInfo. rewrite Htls. by destruct (Annotations (ing_Meta ing)).
  - destruct (getTLSSecretName_section env rule ing) as [?|(tls & Hin & Hn)]; [done|].
    rewrite <-Htls. exists tls. unfold fetchSSLCert in Hf.
    assert (Hns : ∀ n : string, (if bool_decide (n = "") then n else n) = n)
      by (intros n; destruct (bool_decide (n = "")); reflexivity).
    rewrite Hns, bool_decide_eq_false_2 in Hf by done. rewrite <-Hn.
    destruct (env_Secrets env _) as [data|]; [|done]. injection Hf as <-. simpl in *.
    exists data. split_and!; [done|done| |].
    + by destruct (data !! TLSCertName).
    + by destruct (data !! TLSPrivateKeyName).
Qed.

Definition sample_tls_env : IngressEnv :=
  mkIngressEnv (fun _ => Ok None) (fun _ => Err "not found")
    (fun n => if bool_decide (n = mkNN "ns" "sec")
              then Ok {[ TLSCertName := "CRT"; TLSPrivateKeyName := "KEY" ]} else Err "not found")
    "pipy".

Definition sample_tls_ingress : Ingress :=
  mkIngress (named "ns" "one") (Some "pipy") [mkTLS ["A.com"] "sec"]
    (ing_Rules (sample_ingress "pipy" "one")).

Lemma route_certificate_is_own_witness :
  ∃ info, (sample_route, info) ∈ @ingress_entries sample_lib sample_x509 sample_tls_env sample_tls_ingress ∧
    bii_certificate info = Some (mkCert "CRT" "KEY" "") ∧ bii_isTLS info = true.
Proof.
  eexists. split; [vm_compute; left|]. split; [reflexivity|].
  eapply (@route_certificate_is_own sample_lib sample_x509 sample_tls_env sample_tls_ingress
            sample_route _ (mkCert "CRT" "KEY" "")); [vm_compute; left|reflexivity].
Defined.

(** Only an ingress without an annotation map has routes with a nil upstream. *)
Lemma entry_upstream `{KubeLib} `{X509Lib} env ing k info :
  (k, info) ∈ ingress_entries env ing →
  bii_upstream info = None ↔ Annotations (ing_Meta ing) = None.
Proof.
  intros (rule & base & -> & _ & Hb & _)%entry_enriched. unfold enrichIngressInfo.
  by destruct (Annotations (ing_Meta ing)); simpl; rewrite ?Hb.
Qed.
