(* ===== verification/Repo.v ===== *)
(** * The client of the pipy repository ([pkg/repo])

    The client talks HTTP through resty.  The server and the transport are
    parameters: a world and the round trip of a request in it.  A session pairs
    the world with the log of the requests the client made and their outcomes,
    which is what the theorems are about. *)

From S2P Require Import Prelude GoLib CacheTypes.

(** ** Data ([pkg/repo/types.go]) *)

Record Codebase : Type := mkCodebase {
  cb_Version : Z;
  cb_Path : string;
  cb_Main : string;
  cb_Base : string;
  cb_Files : list string;
  cb_EditFiles : list string;
  cb_ErasedFiles : list string;
  cb_Derived : list string
}.
#[export] Instance Codebase_eq_dec : EqDecision Codebase.
Proof. solve_decision. Defined.

(** A codebase with only a version and a base set. *)
Definition codebase (version : Z) (base : string) : Codebase :=
  mkCodebase version "" "" base [] [] [] [].

(** What the callers put into the [interface{}] content of an item. *)
Inductive Content : Type :=
| C_ServiceRegistry (services : gmap string (list string))
| C_IngressConfig (cfg : IngressConfig)
| C_string (s : string).

Record BatchItem : Type := mkBatchItem {
  bi_Path : string;
  bi_Filename : string;
  bi_Content : Content
}.

Record Batch : Type := mkBatch {
  b_Basepath : string;
  b_Items : list BatchItem
}.

(** ** HTTP *)

Inductive Request : Type :=
| GET (url : string)
| POST (url : string) (contentType : string) (body : Codebase + Content)
| PATCH (url : string) (contentType : string) (body : Codebase).

(** [resp_Result] is what [Result()] points to: the decoded body, or the zero
    value when there was nothing to decode. *)
Record Response : Type := mkResponse {
  resp_StatusCode : Z;
  resp_Status : string;
  resp_Result : Codebase;
  resp_Body : string
}.

(** The transport and resty's classification of the answers. *)
Class Resty : Type := {
  World : Type;
  RoundTrip : Request → World → result string Response * World;
  IsSuccess : Response → bool;
  IsError : Response → bool
}.

Definition StatusOK : Z := 200.
Definition StatusCreated : Z := 201.
Definition StatusNotFound : Z := 404.

Definition DefaultPipyRepoApiPath : string := "/api/v1/repo".
Definition DefaultPipyFileApiPath : string := "/api/v1/repo-files".

Definition fullRepoApiPath (path : string) : string := DefaultPipyRepoApiPath +:+ path.
Definition fullFileApiPath (path : string) : string := DefaultPipyFileApiPath +:+ path.

(** int64 arithmetic wraps around. *)
Definition int64_wrap (z : Z) : Z := ((z + 2 ^ 63) mod 2 ^ 64 - 2 ^ 63)%Z.

(** ** Sessions: the state monad of the client *)

Abbreviation exchange := (Request * result string Response)%type.

Section client.
Context `{Resty}.

Record session : Type := mkSession {
  ses_world : World;
  ses_log : list exchange
}.

Definition http (A : Type) : Type := session → A * session.

#[export] Instance http_ret : MRet http := fun A a s => (a, s).
#[export] Instance http_bind : MBind http := fun A B f m s => let '(a, s') := m s in f a s'.

Definition send (r : Request) : http (result string Response) := fun s =>
  let '(out, w) := RoundTrip r (ses_world s) in
  (out, mkSession w (ses_log s ++ [(r, out)])).

(** Continue with the value, or return the error. *)
Definition try {A B : Type} (m : http (result string A)) (f : A → http (result string B)) :
    http (result string B) :=
  r ← m; match r with Ok a => f a | Err e => mret (Err e) end.

#[local] Notation "x ←? m ; k" := (try m (fun x => k)).

(** ** Operations *)

Definition isCodebaseExists (path : string) : http (option Codebase) :=
  r ← send (GET (fullRepoApiPath path));
  match r with
  | Ok resp =>
    if bool_decide (resp_StatusCode resp = StatusNotFound) then mret None
    else if bool_decide (resp_StatusCode resp = StatusOK) then mret (Some (resp_Result resp))
    else mret None
  | Err _ => mret None
  end.

(** Whatever the status of the answer, its result is returned. *)
Definition get (path : string) : http (result string Codebase) :=
  resp ←? send (GET (fullRepoApiPath path)); mret (Ok (resp_Result resp)).

Definition createCodebase (path : string) : http (result string Codebase) :=
  resp ←? send (POST (fullRepoApiPath path) "application/json" (inl (codebase 1 "")));
  if IsError resp
  then mret (Err ("failed to create codebase " +:+ path +:+ ", reason: " +:+ resp_Status resp))
  else get path.

Definition deriveCodebase (path base : string) : http (result string Codebase) :=
  exists' ← isCodebaseExists base;
  match exists' with
  | None => mret (Err ("parent " +:+ base +:+ " of codebase " +:+ path +:+ " doesn't exists"))
  | Some _ =>
    resp ←? send (POST (fullRepoApiPath path) "application/json" (inl (codebase 1 base)));
    if bool_decide (resp_StatusCode resp = StatusOK) ||
       bool_decide (resp_StatusCode resp = StatusCreated)
    then get path
    else mret (Err ("failed to derive codebase codebase: path: " +:+ path +:+ ", base: " +:+
                     base +:+ ", reason: " +:+ resp_Status resp))
  end.

Definition GetFile (path : string) : http (result string string) :=
  resp ←? send (GET (fullFileApiPath path)); mret (Ok (resp_Body resp)).

Definition upsertFile (path : string) (content : Content) : http (result string unit) :=
  let contentType := if HasSuffix path ".json" then "application/json" else "text/plain" in
  resp ←? send (POST (fullFileApiPath path) contentType (inr content));
  if IsSuccess resp then mret (Ok tt)
  else mret (Err ("repo server responsed with error HTTP code: " +:+
                   Itoa (resp_StatusCode resp) +:+ ", error: " +:+ resp_Status resp)).

Definition commit (path : string) (version : Z) : http (result string unit) :=
  resp ←? send (PATCH (fullRepoApiPath path) "application/json" (codebase (int64_wrap (version + 1)) ""));
  if IsSuccess resp then mret (Ok tt)
  else mret (Err ("failed to commit codebase " +:+ path +:+ ", reason: " +:+ resp_Status resp)).

(** Step 1 of a batch: the version of the codebase, which is created when it is
    not found. *)
Definition batch_version (basepath : string) : http (result string Z) :=
  exists' ← isCodebaseExists basepath;
  match exists' with
  | Some cb => mret (Ok (cb_Version cb))
  | None => cb ←? createCodebase basepath; mret (Ok (cb_Version cb))
  end.

Definition item_path (basepath : string) (item : BatchItem) : string :=
  basepath +:+ bi_Path item +:+ "/" +:+ bi_Filename item.

(** Step 2: upload each item, stopping at the first error. *)
Fixpoint batch_upload (basepath : string) (items : list BatchItem) : http (result string unit) :=
  match items with
  | [] => mret (Ok tt)
  | item :: items =>
    _ ←? upsertFile (item_path basepath item) (bi_Content item);
    batch_upload basepath items
  end.

(** Step 3: commit. *)
Definition batch_one (batch : Batch) : http (result string unit) :=
  version ←? batch_version (b_Basepath batch);
  _ ←? batch_upload (b_Basepath batch) (b_Items batch);
  if bool_decide (version = -1)%Z then mret (Err (Itoa version +:+ " is not a valid version"))
  else commit (b_Basepath batch) version.

Fixpoint Batch_all (batches : list Batch) : http (result string unit) :=
  match batches with
  | [] => mret (Ok tt)
  | batch :: batches => _ ←? batch_one batch; Batch_all batches
  end.

Definition DeriveCodebase (path base : string) : http (result string unit) :=
  exists' ← isCodebaseExists path;
  match exists' with
  | Some _ => mret (Ok tt)
  | None => result ←? deriveCodebase path base; commit path (cb_Version result)
  end.

Definition IsRepoUp : http bool :=
  r ← get "/";
  match r with Ok _ => mret true | Err _ => mret false end.

(** ** A program logic on the request log

    [logs m P]: whenever [m] returns [a], the exchanges it added to the log
    satisfy [P a]. *)

Definition logs {A : Type} (m : http A) (P : A → list exchange → Prop) : Prop :=
  ∀ s a s', m s = (a, s') → ∃ l, ses_log s' = ses_log s ++ l ∧ P a l.

Lemma logs_send r : logs (send r) (fun out l => l = [(r, out)]).
Proof.
  intros s a s'. unfold send. destruct (RoundTrip r (ses_world s)) as [out w].
  intros [= <- <-]. by eexists.
Qed.

Lemma logs_ret {A} (a : A) (P : A → list exchange → Prop) : P a [] → logs (mret a) P.
Proof. intros HP s b s' [= <- <-]. exists []. by rewrite app_nil_r. Qed.

Lemma logs_bind {A B} (m : http A) (f : A → http B) P Q :
  logs m P → (∀ a l, P a l → logs (f a) (fun b l' => Q b (l ++ l'))) → logs (m ≫= f) Q.
Proof.
  intros Hm Hf s b s'. unfold mbind, http_bind. destruct (m s) as [a s1] eqn:Em. intros Ef.
  destruct (Hm _ _ _ Em) as (l & Hl & HP). destruct (Hf a l HP _ _ _ Ef) as (l' & Hl' & HQ).
  exists (l ++ l'). by rewrite Hl', Hl, app_assoc.
Qed.

Lemma logs_try {A B} (m : http (result string A)) (f : A → http (result string B)) P Q :
  logs m P →
  (∀ a l, P (Ok a) l → logs (f a) (fun b l' => Q b (l ++ l'))) →
  (∀ e l, P (Err e) l → Q (Err e) l) →
  logs (try m f) Q.
Proof.
  intros Hm Hf He. apply (logs_bind m _ P); [done|].
  intros [a|e] l HP; [by apply Hf|]. apply logs_ret. rewrite app_nil_r. by apply He.
Qed.

Lemma logs_mono {A} (m : http A) (P Q : A → list exchange → Prop) :
  logs m P → (∀ a l, P a l → Q a l) → logs m Q.
Proof. intros Hm HPQ s a s' E. destruct (Hm _ _ _ E) as (l & ? & ?). eauto. Qed.

(** ** What the operations do on the wire *)

(** The probe of step 1 that ended with a version. *)
Inductive probed (base : string) : Z → list exchange → Prop :=
| probed_found resp :
    resp_StatusCode resp = StatusOK →
    probed base (cb_Version (resp_Result resp)) [(GET (fullRepoApiPath base), Ok resp)]
| probed_created out resp resp' :
    (∀ r, out = Ok r → resp_StatusCode r ≠ StatusOK) →
    IsError resp = false →
    probed base (cb_Version (resp_Result resp'))
      [(GET (fullRepoApiPath base), out);
       (POST (fullRepoApiPath base) "application/json" (inl (codebase 1 "")), Ok resp);
       (GET (fullRepoApiPath base), Ok resp')].

(** An accepted upload of an item. *)
Definition uploaded (base : string) (item : BatchItem) (e : exchange) : Prop :=
  ∃ ct resp, e = (POST (fullFileApiPath (item_path base item)) ct (inr (bi_Content item)), Ok resp) ∧
    IsSuccess resp = true.

(** An accepted commit. *)
Definition committed (base : string) (version : Z) (e : exchange) : Prop :=
  ∃ resp, e = (PATCH (fullRepoApiPath base) "application/json"
                 (codebase (int64_wrap (version + 1)) ""), Ok resp) ∧
    IsSuccess resp = true.

(** The exchanges of a batch that went through: the probe, the uploads of all its
    items in order, and at last the commit of the next version. *)
Definition batch_done (b : Batch) (l : list exchange) : Prop :=
  ∃ version lp lu c, l = lp ++ lu ++ [c] ∧
    probed (b_Basepath b) version lp ∧
    Forall2 (uploaded (b_Basepath b)) (b_Items b) lu ∧
    version ≠ (-1)%Z ∧ committed (b_Basepath b) version c.

Definition url (r : Request) : string :=
  match r with GET u | POST u _ _ | PATCH u _ _ => u end.

(** The exchange is about the batch, and is not an accepted commit. *)
Definition uncommitted (b : Batch) (e : exchange) : Prop :=
  (url e.1 = fullRepoApiPath (b_Basepath b) ∨
   ∃ item, item ∈ b_Items b ∧ url e.1 = fullFileApiPath (item_path (b_Basepath b) item)) ∧
  ∀ u ct body resp, e = (PATCH u ct body, Ok resp) → IsSuccess resp = false.

Lemma logs_isCodebaseExists path :
  logs (isCodebaseExists path) (fun r l => ∃ out, l = [(GET (fullRepoApiPath path), out)] ∧
    match r with
    | Some cb => ∃ resp, out = Ok resp ∧ resp_StatusCode resp = StatusOK ∧ cb = resp_Result resp
    | None => ∀ resp, out = Ok resp → resp_StatusCode resp ≠ StatusOK
    end).
Proof.
  eapply logs_bind; [apply logs_send|]. intros out l ->.
  destruct out as [resp|e]; [|apply logs_ret; by eexists].
  repeat case_bool_decide; apply logs_ret; eexists; (split; [done|]).
  - intros ? [= <-] Hs. rewrite Hs in *. done.
  - naive_solver.
  - by intros ? [= <-].
Qed.

Lemma logs_get path :
  logs (get path) (fun r l => ∃ out, l = [(GET (fullRepoApiPath path), out)] ∧
    match out with
    | Ok resp => r = Ok (resp_Result resp)
    | Err e => r = Err e
    end).
Proof.
  eapply logs_try; [apply logs_send|..].
  - intros resp l ->. apply logs_ret. by eexists.
  - intros e l ->. by eexists.
Qed.

(** Logs of a failed step: only uncommitted exchanges about the batch. *)
Abbreviation failed b l := (Forall (uncommitted b) l).

Lemma uncommitted_repo b r out :
  url r = fullRepoApiPath (b_Basepath b) →
  (∀ u ct body, r ≠ PATCH u ct body) → uncommitted b (r, out).
Proof. intros Hu Hp. split; [by left|]. intros u ct body resp [= -> _]. by destruct (Hp u ct body). Qed.
Ltac failed_log :=
  repeat (apply Forall_cons_2 || apply Forall_nil_2); try done; try by apply uncommitted_repo.

Lemma logs_batch_version b :
  logs (batch_version (b_Basepath b)) (fun r l =>
    failed b l ∧ match r with Ok v => probed (b_Basepath b) v l | Err _ => True end).
Proof.
  unfold batch_version. eapply logs_bind; [apply logs_isCodebaseExists|].
  intros r l (out & -> & Hr). destruct r as [cb|].
  - destruct Hr as (resp & -> & Hs & ->). apply logs_ret. simpl.
    split; [failed_log|by constructor].
  - eapply (logs_try _ _ (fun r l =>
      failed b l ∧ match r with
      | Ok cb => probed (b_Basepath b) (cb_Version cb) ((GET (fullRepoApiPath (b_Basepath b)), out) :: l)
      | Err _ => True
      end)).
    + eapply logs_try; [apply logs_send|..].
      * intros resp l ->. destruct (IsError resp) eqn:He.
        -- apply logs_ret. split; [|done]. failed_log.
        -- eapply logs_mono; [apply logs_get|]. intros r l (out' & -> & Hr').
           split; [failed_log|].
           destruct out' as [resp'|e]; subst r; [|done]. by constructor.
      * intros e l ->. split; [|done]. failed_log.
    + intros cb l [Hf Hp]. apply logs_ret. rewrite app_nil_r. simpl.
      split; [|done]. failed_log.
    + intros e l [Hf _]. simpl. split; [|done]. failed_log.
Qed.

Lemma logs_upsertFile b item :
  item ∈ b_Items b →
  logs (upsertFile (item_path (b_Basepath b) item) (bi_Content item)) (fun r l =>
    failed b l ∧
    match r with Ok _ => ∃ e, l = [e] ∧ uploaded (b_Basepath b) item e | Err _ => True end).
Proof.
  intros Hin.
  assert (Hun : ∀ ct body out, uncommitted b
            (POST (fullFileApiPath (item_path (b_Basepath b) item)) ct body, out)).
  { intros. split; [right; eauto|by intros ???? [=]]. }
  eapply logs_try; [apply logs_send|..].
  - intros resp l ->. destruct (IsSuccess resp) eqn:Hs; apply logs_ret; (split; [by constructor|]); [|done].
    eexists. split; [done|]. by eexists _, _.
  - intros e l ->. split; [by constructor|done].
Qed.

Lemma logs_batch_upload b items :
  (∀ item, item ∈ items → item ∈ b_Items b) →
  logs (batch_upload (b_Basepath b) items) (fun r l =>
    failed b l ∧
    match r with Ok _ => Forall2 (uploaded (b_Basepath b)) items l | Err _ => True end).
Proof.
  induction items as [|item items IH]; intros Hin; simpl.
  - apply logs_ret. by repeat constructor.
  - eapply logs_try; [apply logs_upsertFile, Hin; by left|..].
    + intros _ l [Hf (e & -> & Hup)].
      eapply logs_mono; [apply IH; intros; apply Hin; by right|].
      intros r l [Hf' Hr]. simpl. apply Forall_cons_1 in Hf as [Hf _].
      split; [by apply Forall_cons_2|]. destruct r; [by apply Forall2_cons|done].
    + by intros e l [Hf _].
Qed.

Lemma logs_commit b version :
  logs (commit (b_Basepath b) version) (fun r l =>
    match r with Ok _ => ∃ e, l = [e] ∧ committed (b_Basepath b) version e | Err _ => failed b l end).
Proof.
  eapply logs_try; [apply logs_send|..].
  - intros resp l ->. destruct (IsSuccess resp) eqn:Hs; apply logs_ret.
    + eexists. split; [done|]. by eexists.
    + constructor; [|done]. split; [by left|]. intros u ct body resp' [= _ _ _ <-]. done.
  - intros e l ->. constructor; [|done]. split; [by left|]. by intros ???? [=].
Qed.

Lemma logs_batch_one b :
  logs (batch_one b) (fun r l => match r with Ok _ => batch_done b l | Err _ => failed b l end).
Proof.
  eapply logs_try; [apply logs_batch_version| |by intros e l [Hf _]].
  intros version lp [Hfp Hp].
  eapply logs_try; [by apply logs_batch_upload| |by intros e l [Hf _]; apply Forall_app].
  intros _ lu [Hfu Hu].
  case_bool_decide as Hv.
  - apply logs_ret. rewrite app_nil_r. by apply Forall_app.
  - eapply logs_mono; [apply logs_commit|]. intros [[]|e] l Hc.
    + destruct Hc as (c & -> & Hc). by exists version, lp, lu, c.
    + rewrite !Forall_app. done.
Qed.

(** ** Properties *)

(** C20 (safety).  A push goes batch by batch, and each batch becomes visible
    only when it is complete: if [Batch] returns no error, the exchanges are,
    for each batch in order, the probe of its codebase, one accepted upload for
    each of its items in order, and the accepted commit of the version after the
    probed one; if it returns an error, that holds for the batches before some
    batch, every exchange after them concerns that batch and none of them is an
    accepted commit, and the later batches are not touched. *)
Theorem batch_commits_only_complete batches s r s' :
  Batch_all batches s = (r, s') →
  match r with
  | Ok _ => ∃ ls, ses_log s' = ses_log s ++ concat ls ∧ Forall2 batch_done batches ls
  | Err _ =>
    ∃ done b rest ls l, batches = done ++ b :: rest ∧
      ses_log s' = ses_log s ++ concat ls ++ l ∧
      Forall2 batch_done done ls ∧ Forall (uncommitted b) l
  end.
Proof.
  revert s. induction batches as [|b batches IH]; intros s; simpl.
  - intros [= <- <-]. exists []. simpl. by rewrite app_nil_r.
  - unfold try, mbind, http_bind. destruct (batch_one b s) as [r1 s1] eqn:E1.
    destruct (logs_batch_one b _ _ _ E1) as (l & Hl & Hb).
    destruct r1 as [[]|e].
    + intros E2. specialize (IH _ E2). destruct r as [u|e].
      * destruct IH as (ls & Hls & Hf). exists (l :: ls). simpl.
        rewrite Hls, Hl, app_assoc. split; [done|]. by constructor.
      * destruct IH as (done & b' & rest & ls & l' & -> & Hls & Hf & Hun).
        exists (b :: done), b', rest, (l :: ls), l'. simpl. rewrite Hls, Hl, <-!app_assoc.
        split_and!; [done..|by constructor|done].
    + intros [= <- <-]. exists [], b, batches, [], l. by split_and!.
Qed.
End client.

Notation "x ←? m ; k" := (try m (fun x => k)) : erie_scope.
Open Scope erie_scope.

(** A small repository to evaluate the client on: the versions of its
    codebases. *)
Definition sample_repo_trip (r : Request) (w : gmap string Z) : result string Response * gmap string Z :=
  let ok v := Ok (mkResponse 200 "200 OK" (codebase v "") "") in
  match r with
  | GET u =>
    (match w !! u with
     | Some v => ok v
     | None => Ok (mkResponse 404 "404 Not Found" (codebase 0%Z "") "")
     end, w)
  | POST u _ (inl cb) => (ok 0%Z, <[u := cb_Version cb]> w)
  | POST u _ (inr _) => (ok 0%Z, w)
  | PATCH u _ cb => (ok 0%Z, <[u := cb_Version cb]> w)
  end.

Definition sample_resty : Resty := {|
  World := gmap string Z;
  RoundTrip := sample_repo_trip;
  IsSuccess := fun r => bool_decide (200 ≤ resp_StatusCode r ≤ 299)%Z;
  IsError := fun r => bool_decide (400 ≤ resp_StatusCode r)%Z
|}.

Definition sample_batches : list Batch :=
  [mkBatch "/local/services" [mkBatchItem "/config" "registry.json" (C_string "{}")]].

Lemma batch_commits_only_complete_witness :
  ∃ ls, ses_log (@Batch_all sample_resty sample_batches (mkSession (H := sample_resty) ∅ [])).2 =
          concat ls ∧ Forall2 (batch_done (H := sample_resty)) sample_batches ls.
Proof.
  exact (@batch_commits_only_complete sample_resty sample_batches
           (mkSession (H := sample_resty) ∅ []) (Ok tt) _ eq_refl).
Defined.

(** Every operation only extends the log. *)
Lemma logs_any_Batch_all `{Resty} batches : logs (Batch_all batches) (fun _ _ => True).
Proof.
  induction batches as [|b batches IH]; [by apply logs_ret|].
  eapply logs_try; [apply logs_batch_one| |done].
  intros _ l _. eapply logs_mono; [apply IH|done].
Qed.

(** The log starts with the probe of the codebase, and goes on with its creation
    when the probe was not answered by 200. *)
Definition probe_then_create (base : string) (l : list exchange) : Prop :=
  ∃ out l', l = (GET (fullRepoApiPath base), out) :: l' ∧
    ((∀ resp, out = Ok resp → resp_StatusCode resp ≠ StatusOK) →
     ∃ out' l'', l' = (POST (fullRepoApiPath base) "application/json" (inl (codebase 1 "")), out') :: l'').

Lemma probe_then_create_app base l l' :
  probe_then_create base l → probe_then_create base (l ++ l').
Proof.
  intros (out & l1 & -> & Hl). exists out, (l1 ++ l'). split; [done|].
  intros Hout. destruct (Hl Hout) as (out' & l2 & ->). by eexists _, _.
Qed.

Lemma logs_createCodebase `{Resty} path :
  logs (createCodebase path) (fun _ l => ∃ out l', l =
    (POST (fullRepoApiPath path) "application/json" (inl (codebase 1 "")), out) :: l').
Proof.
  eapply logs_try; [apply logs_send| |by intros e l ->; eexists _, _].
  intros resp l ->. destruct (IsError resp); [apply logs_ret; by eexists _, _|].
  eapply logs_mono; [apply logs_get|]. by eexists _, _.
Qed.

Lemma logs_batch_version_probe `{Resty} base :
  logs (batch_version base) (fun _ => probe_then_create base).
Proof.
  eapply logs_bind; [apply logs_isCodebaseExists|]. intros r l (out & -> & Hr).
  destruct r as [cb|].
  - apply logs_ret. destruct Hr as (resp & -> & Hs & _). eexists _, _. split; [done|].
    intros Hn. by destruct (Hn resp).
  - eapply logs_try; [apply logs_createCodebase|..].
    + intros cb l (out' & l' & ->). apply logs_ret. eexists _, _. split; [done|]. intros _.
      by eexists _, _.
    + intros e l (out' & l' & ->). eexists _, _. split; [done|]. intros _. by eexists _, _.
Qed.

Lemma logs_batch_one_probe `{Resty} b :
  logs (batch_one b) (fun _ => probe_then_create (b_Basepath b)).
Proof.
  eapply logs_try; [apply logs_batch_version_probe| |done].
  intros v l Hl. eapply logs_try; [by apply logs_batch_upload|..].
  - intros _ l' _. case_bool_decide; [apply logs_ret; by rewrite app_nil_r; apply probe_then_create_app|].
    eapply logs_mono; [apply logs_commit|]. intros ? l'' _. by apply probe_then_create_app.
  - intros e l' _. by apply probe_then_create_app.
Qed.

(** A codebase is created anew whenever its probe is not answered
    by 200, not only when it is answered by 404: after a transport error or a
    server error the next request posts version 1 of the codebase, existing or
    not. *)
Theorem failed_probe_recreates `{Resty} b rest s :
  ∃ l, ses_log (Batch_all (b :: rest) s).2 = ses_log s ++ l ∧ probe_then_create (b_Basepath b) l.
Proof.
  destruct (Batch_all (b :: rest) s) as [r s'] eqn:E. cbn [snd].
  refine (logs_try (batch_one b) (fun _ => Batch_all rest) _ (fun _ => probe_then_create (b_Basepath b))
            (logs_batch_one_probe b) _ _ s r s' E); [|done].
  intros u l Hl. eapply logs_mono; [apply logs_any_Batch_all|]. intros. by apply probe_then_create_app.
Qed.

(** A successful derivation of a codebase that did not exist. *)
Definition derived `{Resty} (path base : string) (l : list exchange) : Prop :=
  ∃ out respB respP respG c, l =
    [(GET (fullRepoApiPath path), out);
     (GET (fullRepoApiPath base), Ok respB);
     (POST (fullRepoApiPath path) "application/json" (inl (codebase 1 base)), Ok respP);
     (GET (fullRepoApiPath path), Ok respG); c] ∧
    resp_StatusCode respB = StatusOK ∧
    (resp_StatusCode respP = StatusOK ∨ resp_StatusCode respP = StatusCreated) ∧
    committed path (cb_Version (resp_Result respG)) c.

Lemma logs_deriveCodebase `{Resty} path base :
  logs (deriveCodebase path base) (fun r l => ∀ cb, r = Ok cb →
    ∃ respB respP respG, l =
      [(GET (fullRepoApiPath base), Ok respB);
       (POST (fullRepoApiPath path) "application/json" (inl (codebase 1 base)), Ok respP);
       (GET (fullRepoApiPath path), Ok respG)] ∧
      resp_StatusCode respB = StatusOK ∧
      (resp_StatusCode respP = StatusOK ∨ resp_StatusCode respP = StatusCreated) ∧
      cb = resp_Result respG).
Proof.
  eapply logs_bind; [apply logs_isCodebaseExists|]. intros r l (out & -> & Hr).
  destruct r as [cb|]; [|by apply logs_ret].
  destruct Hr as (respB & -> & HB & _).
  eapply logs_try; [apply logs_send| |by intros e l _ cb' [=]].
  intros respP l ->. destruct (bool_decide _ || bool_decide _) eqn:Hst; [|by apply logs_ret].
  apply orb_true_iff in Hst. rewrite !bool_decide_eq_true in Hst.
  eapply logs_mono; [apply logs_get|]. intros r l (out & -> & Hr) cb' ->.
  destruct out as [respG|e]; [|done]. injection Hr as ->. by exists respB, respP, respG.
Qed.

Lemma logs_DeriveCodebase `{Resty} path base :
  logs (DeriveCodebase path base) (fun r l => r = Ok tt →
    (∃ resp, resp_StatusCode resp = StatusOK ∧ l = [(GET (fullRepoApiPath path), Ok resp)]) ∨
    derived path base l).
Proof.
  eapply logs_bind; [apply logs_isCodebaseExists|]. intros r l (out & -> & Hr).
  destruct r as [cb|].
  { destruct Hr as (resp & -> & Hs & _). apply logs_ret. intros _. left. by exists resp. }
  eapply logs_try; [apply logs_deriveCodebase| |by intros e l _ [=]].
  intros cb l Hl. destruct (Hl cb eq_refl) as (respB & respP & respG & -> & HB & HP & ->).
  eapply logs_mono; [apply (logs_commit (mkBatch path []))|]. intros r l' Hc ->.
  destruct Hc as (c & -> & Hc). right. by exists out, respB, respP, respG, c.
Qed.

(** Deriving a codebase: when it exists nothing but the probe
    is sent; otherwise success means that the base was found, the codebase was
    posted with that base and answered 200 or 201, read back, and its next
    version committed. *)
Theorem derive_protocol `{Resty} path base s s' :
  DeriveCodebase path base s = (Ok tt, s') →
  ∃ l, ses_log s' = ses_log s ++ l ∧
    ((∃ resp, resp_StatusCode resp = StatusOK ∧ l = [(GET (fullRepoApiPath path), Ok resp)]) ∨
     derived path base l).
Proof.
  intros E. destruct (logs_DeriveCodebase path base _ _ _ E) as (l & Hl & Hr). eauto.
Qed.

Lemma derive_protocol_witness :
  let s : session (H := sample_resty) := mkSession (H := sample_resty)
            {[ fullRepoApiPath "/base/services" := 3%Z ]} [] in
  ∃ l, ses_log (@DeriveCodebase sample_resty "/local/services" "/base/services" s).2 = ses_log s ++ l ∧
    ((∃ resp, resp_StatusCode resp = StatusOK ∧
        l = [(GET (fullRepoApiPath "/local/services"), Ok resp)]) ∨
     derived (H := sample_resty) "/local/services" "/base/services" l).
Proof.
  intros s. exact (@derive_protocol sample_resty "/local/services" "/base/services" s _ eq_refl).
Defined.
