(* ===== verification/Config.v ===== *)
(** * Configuration ([pkg/config])

    The mesh configuration and its client, the listeners that react to its
    changes, the updates of main.json in the repository, and the configuration
    of a cluster connector.  JSON, struct validation, sjson, DNS and the API
    server are parameters. *)

From Stdlib Require Import Ascii.
From S2P Require Import Prelude GoLib Kube Repo.

(** ** Data ([pkg/config/mesh.go]) *)

Record Images : Type := mkImages {
  im_Repository : string;
  im_PipyImage : string;
  im_ProxyInitImage : string;
  im_KlipperLbImage : string
}.

Record HTTPConfig : Type := mkHTTP {
  http_Enabled : bool;
  http_Bind : Z;
  http_Listen : Z;
  http_NodePort : Z
}.

Record SSLPassthrough : Type := mkSSLPassthrough {
  sslp_Enabled : bool;
  sslp_UpstreamPort : Z
}.

Record TLSConfig : Type := mkTLSConfig {
  tls_Enabled : bool;
  tls_Bind : Z;
  tls_Listen : Z;
  tls_NodePort : Z;
  tls_MTLS : bool;
  tls_SSLPassthrough : SSLPassthrough
}.

Record IngressSettings : Type := mkIngressSettings {
  is_Enabled : bool;
  is_Namespaced : bool;
  is_HTTP : HTTPConfig;
  is_TLS : TLSConfig
}.

Record ClusterSettings : Type := mkClusterSettings {
  cl_UID : string;
  cl_Region : string;
  cl_Zone : string;
  cl_Group : string;
  cl_Name : string;
  cl_ControlPlaneUID : string
}.

Record CertificateSettings : Type := mkCertificateSettings {
  cs_Manager : string;
  cs_CaBundleName : string;
  cs_CaBundleNamespace : string
}.

Record MeshConfig : Type := mkMeshConfig {
  mc_IsManaged : bool;
  mc_Repo_RootURL : string;
  mc_Images : Images;
  mc_Webhook_ServiceName : string;
  mc_Ingress : IngressSettings;
  mc_GatewayApi_Enabled : bool;
  mc_Certificate : CertificateSettings;
  mc_Cluster : ClusterSettings;
  mc_ServiceLB_Enabled : bool
}.

(** The zero value [MeshConfig{}]. *)
Definition zeroMeshConfig : MeshConfig :=
  mkMeshConfig false "" (mkImages "" "" "" "") ""
    (mkIngressSettings false false (mkHTTP false 0 0 0)
       (mkTLSConfig false 0 0 0 false (mkSSLPassthrough false 0)))
    false (mkCertificateSettings "" "" "") (mkClusterSettings "" "" "" "" "" "") false.

Definition MeshConfigName : string := "erie-canal-mesh-config".
Definition MeshConfigJsonName : string := "mesh_config.json".
Definition DefaultPipyRepoPath : string := "/repo".
Definition DefaultIngressBasePath : string := "/base/ingress".

(** [erieCanalNamespace] is the metadata read from the environment at start. *)
Record ErieCanalMetadata : Type := mkMetadata {
  md_PodName : string;
  md_PodNamespace : string;
  md_ErieCanalNamespace : string
}.

Definition GetErieCanalPodName (md : ErieCanalMetadata) : string := md_PodName md.
Definition GetErieCanalPodNamespace (md : ErieCanalMetadata) : string := md_PodNamespace md.
Definition GetErieCanalNamespace (md : ErieCanalMetadata) : string := md_ErieCanalNamespace md.

(** ** Methods of the configuration *)

Definition IsControlPlane (o : MeshConfig) : bool :=
  bool_decide (cl_ControlPlaneUID (mc_Cluster o) = "") ||
  bool_decide (cl_UID (mc_Cluster o) = cl_ControlPlaneUID (mc_Cluster o)).

Definition PipyImage (o : MeshConfig) : string :=
  im_Repository (mc_Images o) +:+ "/" +:+ im_PipyImage (mc_Images o).
Definition ProxyInitImage (o : MeshConfig) : string :=
  im_Repository (mc_Images o) +:+ "/" +:+ im_ProxyInitImage (mc_Images o).
Definition ServiceLbImage (o : MeshConfig) : string :=
  im_Repository (mc_Images o) +:+ "/" +:+ im_KlipperLbImage (mc_Images o).

Definition RepoRootURL (o : MeshConfig) : string := mc_Repo_RootURL o.
Definition RepoBaseURL (o : MeshConfig) : string := mc_Repo_RootURL o +:+ DefaultPipyRepoPath.

Definition GetDefaultIngressPath (o : MeshConfig) : string := "/local/ingress".
Definition GetDefaultServicesPath (o : MeshConfig) : string := "/local/services".
Definition IngressCodebasePath (o : MeshConfig) : string := GetDefaultIngressPath o.
Definition NamespacedIngressCodebasePath (o : MeshConfig) (namespace : string) : string :=
  "/local/nsig/" +:+ namespace.

Definition GetCaBundleName (o : MeshConfig) : string := cs_CaBundleName (mc_Certificate o).
Definition GetCaBundleNamespace (md : ErieCanalMetadata) (o : MeshConfig) : string :=
  if bool_decide (cs_CaBundleNamespace (mc_Certificate o) ≠ "")
  then cs_CaBundleNamespace (mc_Certificate o) else GetErieCanalNamespace md.

(** ** Libraries *)

(** Values handed to sjson. *)
Inductive JValue : Type :=
| JBool (b : bool)
| JInt (z : Z)
| JString (s : string)
| JObject (fields : list (string * JValue)).

Record Certificate : Type := mkCertificate {
  CrtPEM : string;
  KeyPEM : string;
  cert_CA : string
}.

Class ConfigLib : Type := {
  (** encoding/json *)
  json_Unmarshal : string → result string MeshConfig;
  json_MarshalIndent : MeshConfig → result string string;
  (** go-playground/validator, [None] when the struct is valid *)
  validate_Struct : MeshConfig → option string;
  (** tidwall/sjson *)
  sjson_Set : string → string → JValue → result string string;
  (** the certificate manager, for the common name *)
  IssueCertificate : string → result string Certificate
}.

Definition ToJson `{ConfigLib} (o : MeshConfig) : string :=
  match json_MarshalIndent o with Ok s => s | Err _ => "" end.

(** ** The client of the configuration

    The ConfigMap is read from the informer's cache, and from the API server when
    the cache does not have it.  The cache hands out a pointer: what the client
    writes to the object it got from the cache, it writes into the cache. *)

Record ConfigMap : Type := mkConfigMap {
  cm_Meta : ObjectMeta;
  cm_Data : gomap string string
}.

Record cfg_world : Type := mkCfgWorld {
  cw_cache : result kerror ConfigMap;
  cw_server : result kerror ConfigMap
}.

Section client.
Context `{ConfigLib} (md : ErieCanalMetadata).
(** The API server's answer to an update. *)
Context (apiUpdate : ConfigMap → result string ConfigMap).

Definition ParseMeshConfig (cm : ConfigMap) : result string MeshConfig :=
  match gm_val (cm_Data cm) !! MeshConfigJsonName with
  | None => Err ("Config file mesh_config.json not found, please check ConfigMap " +:+
                  GetErieCanalNamespace md +:+ "/erie-canal-mesh-config.")
  | Some cfgJson =>
    match json_Unmarshal cfgJson with
    | Err e => Err ("Unable to unmarshal mesh_config.json to config.MeshConfig, " +:+ e)
    | Ok cfg =>
      match validate_Struct cfg with Some e => Err e | None => Ok cfg end
    end
  end.

(** The object, and whether it is the one in the cache. *)
Definition getConfigMap (w : cfg_world) : option (ConfigMap * bool) :=
  match cw_cache w with
  | Ok cm => Some (cm, true)
  | Err NotFound => match cw_server w with Ok cm => Some (cm, false) | Err _ => None end
  | Err _ => None
  end.

Definition GetConfig (w : cfg_world) : go MeshConfig :=
  match getConfigMap w with
  | Some (cm, _) => match ParseMeshConfig cm with Ok cfg => Ret cfg | Err _ => Panic end
  | None => Panic
  end.

(** Assigning to an entry of a nil map panics. *)
Definition set_data (cm : ConfigMap) (k v : string) : go ConfigMap :=
  m ← deref (cm_Data cm); Ret (mkConfigMap (cm_Meta cm) (Some (<[k := v]> m))).

Definition UpdateConfig (config : option MeshConfig) (w : cfg_world) :
    go (result string MeshConfig * cfg_world) :=
  match config with
  | None => Ret (Err "config is nil", w)
  | Some config =>
    match validate_Struct config with
    | Some e => Ret (Err e, w)
    | None =>
      match getConfigMap w with
      | None => Ret (Err ("config map '" +:+ GetErieCanalNamespace md +:+
                           "/erie-canal-mesh-config' is not found"), w)
      | Some (cm, cached) =>
        cm ← set_data cm MeshConfigJsonName (ToJson config);
        let w := if cached then mkCfgWorld (Ok cm) (cw_server w) else w in
        match apiUpdate cm with
        | Err e => Ret (Err ("Update ConfigMap " +:+ GetErieCanalNamespace md +:+
                              "/erie-canal-mesh-config error, " +:+ e), w)
        | Ok cm' => Ret (ParseMeshConfig cm', mkCfgWorld (cw_cache w) (Ok cm'))
        end
      end
    end
  end.

(** ** Notifications ([types.go], [handler.go]) *)

(** What an informer hands to its handlers. *)
Inductive informer_obj : Type :=
| ConfigMapObj (cm : ConfigMap)
| DeletedFinalStateUnknown (obj : option ConfigMap)
| OtherObj.

(** The calls made to each of the listeners. *)
Inductive listener_call : Type :=
| OnConfigCreate (cfg : MeshConfig)
| OnConfigUpdate (oldCfg cfg : MeshConfig)
| OnConfigDelete (cfg : MeshConfig).

Definition OnConfigMapAdd (cm : ConfigMap) : option listener_call :=
  if bool_decide (Name (cm_Meta cm) = MeshConfigName) then
    match ParseMeshConfig cm with Ok cfg => Some (OnConfigCreate cfg) | Err _ => None end
  else None.

Definition OnConfigMapUpdate (oldCm cm : ConfigMap) : option listener_call :=
  if bool_decide (Name (cm_Meta cm) = MeshConfigName) then
    match ParseMeshConfig oldCm with
    | Err _ => None
    | Ok oldCfg =>
      match ParseMeshConfig cm with Ok cfg => Some (OnConfigUpdate oldCfg cfg) | Err _ => None end
    end
  else None.

Definition OnConfigMapDelete (cm : ConfigMap) : option listener_call :=
  if bool_decide (Name (cm_Meta cm) = MeshConfigName) then
    match ParseMeshConfig cm with Ok cfg => Some (OnConfigDelete cfg) | Err _ => None end
  else None.

Definition handleAddConfigMap (obj : informer_obj) : option listener_call :=
  match obj with ConfigMapObj cm => OnConfigMapAdd cm | _ => None end.

Definition handleUpdateConfigMap (oldObj newObj : informer_obj) : option listener_call :=
  match oldObj with
  | ConfigMapObj oldCm =>
    match newObj with ConfigMapObj cm => OnConfigMapUpdate oldCm cm | _ => None end
  | _ => None
  end.

Definition handleDeleteConfigMap (obj : informer_obj) : option listener_call :=
  match obj with
  | ConfigMapObj cm => OnConfigMapDelete cm
  | DeletedFinalStateUnknown (Some cm) => OnConfigMapDelete cm
  | _ => None
  end.

(** [DefaultConfigurationFilter]: the objects the handler is called for. *)
Definition DefaultWatchedConfigMaps : list string := [MeshConfigName].
Definition DefaultConfigurationFilter (obj : informer_obj) : bool :=
  match obj with
  | ConfigMapObj cm =>
    bool_decide (Namespace (cm_Meta cm) = GetErieCanalNamespace md) &&
    bool_decide (Name (cm_Meta cm) ∈ DefaultWatchedConfigMaps)
  | _ => false
  end.
End client.

(** ** main.json ([util.go], [http.go], [tls.go]) *)

Definition getPathOfMainJson (basepath : string) : string := basepath +:+ "/config/main.json".

Section main_json.
Context `{Resty} `{ConfigLib}.

Definition getMainJson (basepath : string) : http (result string string) :=
  json ←? GetFile (getPathOfMainJson basepath); mret (Ok json).

Definition main_json_batch (basepath newJson : string) : Batch :=
  mkBatch basepath [mkBatchItem "/config" "main.json" (C_string newJson)].

Definition updateMainJson (basepath newJson : string) : http (result string unit) :=
  _ ←? Batch_all [main_json_batch basepath newJson]; mret (Ok tt).

(** Continue with the result of an sjson call, or return its error. *)
Definition with_json (r : result string string) (f : string → http (result string unit)) :
    http (result string unit) :=
  match r with Ok json => f json | Err e => mret (Err e) end.

Definition UpdateIngressHTTPConfig (basepath : string) (mc : MeshConfig) : http (result string unit) :=
  json ←? getMainJson basepath;
  with_json (sjson_Set json "http" (JObject
    [("enabled", JBool (http_Enabled (is_HTTP (mc_Ingress mc))));
     ("listen", JInt (http_Listen (is_HTTP (mc_Ingress mc))))])) (fun newJson =>
  updateMainJson basepath newJson).

Definition UpdateIngressTLSConfig (basepath : string) (mc : MeshConfig) : http (result string unit) :=
  let tls := is_TLS (mc_Ingress mc) in
  json ←? getMainJson basepath;
  with_json (sjson_Set json "tls.enabled" (JBool (tls_Enabled tls))) (fun newJson =>
  with_json (sjson_Set newJson "tls.listen" (JInt (tls_Listen tls))) (fun newJson =>
  with_json (sjson_Set newJson "tls.mTLS" (JBool (tls_MTLS tls))) (fun newJson =>
  updateMainJson basepath newJson))).

Definition IssueCertForIngress (basepath : string) (mc : MeshConfig) : http (result string unit) :=
  let tls := is_TLS (mc_Ingress mc) in
  match IssueCertificate "ingress-pipy" with
  | Err e => mret (Err e)
  | Ok cert =>
    json ←? getMainJson basepath;
    with_json (sjson_Set json "tls" (JObject
      [("enabled", JBool (tls_Enabled tls));
       ("listen", JInt (tls_Listen tls));
       ("mTLS", JBool (tls_MTLS tls));
       ("certificate", JObject
          [("cert", JString (CrtPEM cert)); ("key", JString (KeyPEM cert)); ("ca", JString (cert_CA cert))])]))
      (fun newJson => updateMainJson basepath newJson)
  end.

Definition UpdateSSLPassthrough (basepath : string) (enabled : bool) (upstreamPort : Z) :
    http (result string unit) :=
  json ←? getMainJson basepath;
  with_json (sjson_Set json "sslPassthrough" (JObject
    [("enabled", JBool enabled); ("upstreamPort", JInt upstreamPort)])) (fun newJson =>
  updateMainJson basepath newJson).
End main_json.

(** ** Listeners ([listener.go]) *)

Definition isHTTPConfigChanged (oldCfg cfg : MeshConfig) : bool :=
  let old := is_HTTP (mc_Ingress oldCfg) in
  let new := is_HTTP (mc_Ingress cfg) in
  is_Enabled (mc_Ingress cfg) &&
  (negb (eqb (http_Enabled old) (http_Enabled new)) || negb (http_Listen old =? http_Listen new)%Z).

Definition isTLSConfigChanged (oldCfg cfg : MeshConfig) : bool :=
  let old := is_TLS (mc_Ingress oldCfg) in
  let new := is_TLS (mc_Ingress cfg) in
  is_Enabled (mc_Ingress cfg) &&
  (negb (eqb (tls_Enabled old) (tls_Enabled new)) || negb (tls_Listen old =? tls_Listen new)%Z ||
   negb (eqb (tls_MTLS old) (tls_MTLS new))).

Definition shouldUpdateIngressControllerServiceSpec (oldCfg cfg : MeshConfig) : bool :=
  let oldT := is_TLS (mc_Ingress oldCfg) in
  let newT := is_TLS (mc_Ingress cfg) in
  let oldH := is_HTTP (mc_Ingress oldCfg) in
  let newH := is_HTTP (mc_Ingress cfg) in
  is_Enabled (mc_Ingress cfg) &&
  (negb (eqb (tls_Enabled oldT) (tls_Enabled newT)) || negb (tls_Listen oldT =? tls_Listen newT)%Z ||
   negb (tls_Bind oldT =? tls_Bind newT)%Z || negb (tls_NodePort oldT =? tls_NodePort newT)%Z ||
   negb (eqb (http_Enabled oldH) (http_Enabled newH)) || negb (http_Listen oldH =? http_Listen newH)%Z ||
   negb (http_NodePort oldH =? http_NodePort newH)%Z || negb (http_Bind oldH =? http_Bind newH)%Z).

(** The ports of the ingress controller's service. *)
Definition ingress_service_ports (cfg : MeshConfig) : list CoreServicePort :=
  let h := is_HTTP (mc_Ingress cfg) in
  let t := is_TLS (mc_Ingress cfg) in
  (if http_Enabled h
   then [mkSvcPort "http" ProtocolTCP None (http_Bind h) (IntVal (http_Listen h))
           (if (0 <? http_NodePort h)%Z then http_NodePort h else 0)%Z] else []) ++
  (if tls_Enabled t
   then [mkSvcPort "https" ProtocolTCP None (tls_Bind t) (IntVal (tls_Listen t))
           (if (0 <? tls_NodePort t)%Z then tls_NodePort t else 0)%Z] else []).

(** The service with its ports replaced. *)
Definition with_ports (svc : Service) (ports : list CoreServicePort) : Service :=
  mkService (svc_Meta svc) (svc_Type svc) ports (svc_ClusterIP svc) (svc_ClusterIPs svc)
    (svc_ExternalName svc) (svc_IPFamilyPolicy svc) (svc_IPFamilies svc) (svc_LBIngress svc).

(** The updates sent to the API server for the services the selector lists. *)
Definition updateIngressControllerSpec (svcList : result string (list Service)) (cfg : MeshConfig) :
    list Service :=
  match svcList with
  | Err _ => []
  | Ok svcs =>
    match ingress_service_ports cfg with
    | [] => []
    | ports => (fun svc => with_ports svc ports) <$> svcs
    end
  end.

Section listeners.
Context `{Resty} `{ConfigLib} (md : ErieCanalMetadata).

(** [meshCfgChangeListenerForBasicConfig.OnConfigUpdate]: errors are logged and
    the next part goes on.  Returns the service updates. *)
Definition BasicConfig_OnConfigUpdate (svcList : result string (list Service)) (oldCfg cfg : MeshConfig) :
    http (list Service) :=
  _ ← (if isHTTPConfigChanged oldCfg cfg
       then UpdateIngressHTTPConfig DefaultIngressBasePath cfg else mret (Ok tt));
  _ ← (if isTLSConfigChanged oldCfg cfg
       then if tls_Enabled (is_TLS (mc_Ingress cfg))
            then IssueCertForIngress DefaultIngressBasePath cfg
            else UpdateIngressTLSConfig DefaultIngressBasePath cfg
       else mret (Ok tt));
  mret (if shouldUpdateIngressControllerServiceSpec oldCfg cfg
        then updateIngressControllerSpec svcList cfg else []).

(** [meshCfgChangeListenerForIngress.onUpdate]: whether the ingress controllers
    are restarted; a nil old configuration is read from the client. *)
Definition Ingress_onUpdate (w : cfg_world) (oldCfg cfg : option MeshConfig) : go bool :=
  oldCfg ← match oldCfg with Some c => Ret c | None => GetConfig md w end;
  let cfg := default zeroMeshConfig cfg in
  Ret (bool_decide (IngressCodebasePath oldCfg ≠ IngressCodebasePath cfg)).

(** The deployments [updateIngressController] patches, and with which outcome:
    an error of one does not stop the others. *)
Definition updateIngressController (deployments : result string (list NamespacedName))
    (patch : NamespacedName → option string) : list (NamespacedName * option string) :=
  match deployments with
  | Err _ => []
  | Ok l => (fun d => (d, patch d)) <$> l
  end.
End listeners.

(** ** The configuration of a connector ([connector.go]) *)

Record ConnectorConfig : Type := mkConnectorConfig {
  cc_name : string;
  cc_region : string;
  cc_zone : string;
  cc_group : string;
  cc_inCluster : bool;
  cc_key : string;
  cc_gatewayHost : string;
  cc_gatewayIP : option IP;
  cc_gatewayPort : Z;
  cc_controlPlaneUID : string
}.

(** [ClusterIDTemplate]: "{{ .Region }}/{{ .Zone }}/{{ .Group }}/{{ .Cluster }}" *)
Definition clusterKey (region zone group name : string) : string :=
  region +:+ "/" +:+ zone +:+ "/" +:+ group +:+ "/" +:+ name.

Class NetLib : Type := {
  (** k8s.io/apimachinery/pkg/util/validation, the list of errors *)
  IsValidIPv4Address : string → list string;
  (** net.ResolveIPAddr("ip4", host) *)
  ResolveIPAddr4 : string → result string IP
}.

Section connector.
Context `{KubeLib} `{NetLib}.

(** The IPv4 address of the gateway, or why there is none. *)
Definition gatewayIPv4 (gatewayHost : string) : result string (option IP) :=
  match IsValidIPv4Address gatewayHost with
  | [] => Ok (ParseIP gatewayHost ≫= To4)
  | _ :: _ =>
    match IsDNS1123Subdomain gatewayHost with
    | _ :: _ => Err ("invalid DNS name or IP " +:+ gatewayHost)
    | [] =>
      match ResolveIPAddr4 gatewayHost with
      | Err e => Err (gatewayHost +:+ " cannot be resolved to IP, " +:+ e)
      | Ok ip => Ok (To4 ip)
      end
    end
  end.

Definition NewConnectorConfig (region zone group name gatewayHost : string) (gatewayPort : Z)
    (inCluster : bool) (controlPlaneUID : string) : result string ConnectorConfig :=
  let key := clusterKey region zone group name in
  if inCluster
  then Ok (mkConnectorConfig name region zone group true key "" None 0 controlPlaneUID)
  else
    match gatewayIPv4 gatewayHost with
    | Err e => Err e
    | Ok None => Err (gatewayHost +:+ " cannot be resolved to a IPv4 address")
    | Ok (Some gwIPv4) =>
      if IsLoopback gwIPv4 || IsUnspecified gwIPv4
      then Err ("gateway Host " +:+ gatewayHost +:+ " is resolved to Loopback IP or Unspecified")
      else Ok (mkConnectorConfig name region zone group false key gatewayHost (Some gwIPv4)
                 gatewayPort controlPlaneUID)
    end.

Definition GatewayHost (c : ConnectorConfig) : string :=
  if cc_inCluster c then "" else cc_gatewayHost c.
Definition GatewayIP (c : ConnectorConfig) : option IP :=
  if cc_inCluster c then Some IPv4zero else cc_gatewayIP c.
Definition GatewayPort (c : ConnectorConfig) : Z :=
  if cc_inCluster c then 0%Z else cc_gatewayPort c.
End connector.

(** ** Properties *)

(** An update of the configuration that the API server accepts
    as sent is what the client reads back, from the answer and from later reads,
    provided JSON decoding inverts encoding on it. *)
Theorem update_get_config `{ConfigLib} md apiUpdate w cfg json cm cached :
  getConfigMap w = Some (cm, cached) →
  cm_Data cm ≠ None →
  validate_Struct cfg = None →
  json_MarshalIndent cfg = Ok json →
  json_Unmarshal json = Ok cfg →
  (∀ c, apiUpdate c = Ok c) →
  ∃ w', UpdateConfig md apiUpdate (Some cfg) w = Ret (Ok cfg, w') ∧ GetConfig md w' = Ret cfg.
Proof.
  intros Hcm Hdata Hvalid Hm Hu Hapi. destruct (cm_Data cm) as [m|] eqn:Hd; [|done].
  set (cm' := mkConfigMap (cm_Meta cm) (Some (<[MeshConfigJsonName := json]> m))).
  assert (Hparse : ParseMeshConfig md cm' = Ok cfg).
  { unfold ParseMeshConfig, cm', gm_val. simpl. by rewrite lookup_insert_eq, Hu, Hvalid. }
  unfold UpdateConfig, set_data, ToJson. rewrite Hvalid, Hcm, Hd, Hm. cbn [mbind go_bind deref].
  fold cm'. rewrite Hapi, Hparse. eexists. split; [done|].
  unfold GetConfig, getConfigMap. destruct cached; cbn [cw_cache cw_server].
  - by rewrite Hparse.
  - unfold getConfigMap in Hcm. destruct (cw_cache w) as [?|[]]; [by simplify_eq| |done|done].
    by rewrite Hparse.
Qed.

Definition sample_mesh_config : MeshConfig :=
  mkMeshConfig true "http://repo:6060" (mkImages "flomesh" "pipy" "init" "lb") "webhook"
    (mkIngressSettings true false (mkHTTP true 80 8000 0)
       (mkTLSConfig false 443 8443 0 false (mkSSLPassthrough false 443)))
    false (mkCertificateSettings "archon" "ca" "") (mkClusterSettings "u" "r" "z" "g" "c" "") false.

Definition sample_config_lib : ConfigLib := {|
  json_Unmarshal := fun s => if bool_decide (s = "{}") then Ok sample_mesh_config else Err "syntax";
  json_MarshalIndent := fun _ => Ok "{}";
  validate_Struct := fun _ => None;
  sjson_Set := fun j k _ => Ok (j +:+ k);
  IssueCertificate := fun _ => Ok (mkCertificate "crt" "key" "ca")
|}.

Definition sample_md : ErieCanalMetadata := mkMetadata "pod" "ns" "erie-canal".

Definition sample_cfg_world : cfg_world :=
  mkCfgWorld (Err NotFound) (Ok (mkConfigMap (named "erie-canal" MeshConfigName) (Some ∅))).

Lemma update_get_config_witness :
  ∃ w', @UpdateConfig sample_config_lib sample_md Ok (Some sample_mesh_config) sample_cfg_world =
          Ret (Ok sample_mesh_config, w') ∧
    @GetConfig sample_config_lib sample_md w' = Ret sample_mesh_config.
Proof.
  by eapply (@update_get_config sample_config_lib sample_md Ok sample_cfg_world sample_mesh_config
            "{}" (mkConfigMap (named "erie-canal" MeshConfigName) (Some ∅)) false).
Defined.

(** C29 (error).  The update writes the new configuration into the object of the
    informer's cache before it asks the API server: when the server refuses the
    update, the error is returned and the server keeps the old configuration,
    but every later read of the client returns the refused one. *)
Theorem refused_update_stays_in_cache `{ConfigLib} md apiUpdate w cfg json cm e :
  cw_cache w = Ok cm →
  cm_Data cm ≠ None →
  validate_Struct cfg = None →
  json_MarshalIndent cfg = Ok json →
  json_Unmarshal json = Ok cfg →
  (∀ c, apiUpdate c = Err e) →
  ∃ msg w', UpdateConfig md apiUpdate (Some cfg) w = Ret (Err msg, w') ∧
    cw_server w' = cw_server w ∧ GetConfig md w' = Ret cfg.
Proof.
  intros Hcm Hdata Hvalid Hm Hu Hapi. destruct (cm_Data cm) as [m|] eqn:Hd; [|done].
  unfold UpdateConfig, getConfigMap, set_data, ToJson. rewrite Hvalid, Hcm, Hd, Hm.
  cbn [mbind go_bind deref]. rewrite Hapi. eexists _, _. split_and!; [done|done|].
  unfold GetConfig, getConfigMap. cbn [cw_cache]. unfold ParseMeshConfig, gm_val.
  simpl. by rewrite lookup_insert_eq, Hu, Hvalid.
Qed.

Lemma refused_update_stays_in_cache_witness :
  let cm := mkConfigMap (named "erie-canal" MeshConfigName) (Some {[ MeshConfigJsonName := "old" ]}) in
  ∃ msg w', @UpdateConfig sample_config_lib sample_md (fun _ => Err "conflict")
              (Some sample_mesh_config) (mkCfgWorld (Ok cm) (Ok cm)) = Ret (Err msg, w') ∧
    cw_server w' = Ok cm ∧ @GetConfig sample_config_lib sample_md w' = Ret sample_mesh_config.
Proof.
  intros cm.
  by eapply (@refused_update_stays_in_cache sample_config_lib sample_md (fun _ => Err "conflict")
            (mkCfgWorld (Ok cm) (Ok cm)) sample_mesh_config "{}" cm "conflict").
Defined.

(** What a connector configuration says of its gateway. *)
Lemma NewConnectorConfig_usable `{KubeLib} `{NetLib} region zone group name host port inCluster uid c :
  NewConnectorConfig region zone group name host port inCluster uid = Ok c →
  cc_key c = clusterKey region zone group name ∧ cc_controlPlaneUID c = uid ∧
  if inCluster then GatewayHost c = "" ∧ GatewayIP c = Some IPv4zero ∧ GatewayPort c = 0%Z
  else GatewayHost c = host ∧ GatewayPort c = port ∧
    ∃ ip, GatewayIP c = Some ip ∧ length ip = 4 ∧ ip !! 0 ≠ Some 127%Z ∧ ip ≠ [0; 0; 0; 0]%Z.
Proof.
  unfold NewConnectorConfig. destruct inCluster; [by intros [= <-]|].
  destruct (gatewayIPv4 host) as [[ip|]|e] eqn:Hip; [|done|done].
  destruct (IsLoopback ip || IsUnspecified ip) eqn:Hbad; [done|]. intros [= <-].
  split_and!; [done|done|done|done|]. exists ip. split; [done|].
  assert (Hlen : length ip = 4).
  { assert (∃ ip0, To4 ip0 = Some ip) as [ip0 Hto4].
    { unfold gatewayIPv4 in Hip. destruct (IsValidIPv4Address host); [|destruct (IsDNS1123Subdomain host)].
      - injection Hip as Hip. apply bind_Some in Hip as (ip0 & _ & Hip). eauto.
      - destruct (ResolveIPAddr4 host); [|done]. injection Hip as Hip. eauto.
      - done. }
    unfold To4 in Hto4. case_decide; [by simplify_eq|]. case_decide as Hd; [|done].
    injection Hto4 as <-. rewrite length_drop. lia. }
  apply orb_false_iff in Hbad as [Hlo Hun]. split; [done|].
  unfold IsLoopback, IsUnspecified, To4 in *. rewrite decide_True in Hlo, Hun by done.
  apply bool_decide_eq_false in Hun. split; [|done].
  destruct ip as [|a ip]; [done|]. simpl. intros [= ->]. by rewrite Z.eqb_refl in Hlo.
Qed.

(** The configuration of a connector that could be created: in
    the cluster it has no gateway; out of the cluster its gateway address is an
    IPv4 address of four bytes that is neither a loopback address nor 0.0.0.0,
    and host and port are the ones given. *)
Theorem connector_gateway_is_usable `{KubeLib} `{NetLib} region zone group name host port inCluster uid c :
  NewConnectorConfig region zone group name host port inCluster uid = Ok c →
  cc_key c = clusterKey region zone group name ∧ cc_controlPlaneUID c = uid ∧
  if inCluster then GatewayHost c = "" ∧ GatewayIP c = Some IPv4zero ∧ GatewayPort c = 0%Z
  else GatewayHost c = host ∧ GatewayPort c = port ∧
    ∃ ip, GatewayIP c = Some ip ∧ length ip = 4 ∧ ip !! 0 ≠ Some 127%Z ∧ ip ≠ [0; 0; 0; 0]%Z.
Proof. apply NewConnectorConfig_usable. Qed.

Definition sample_net_lib : NetLib := {|
  IsValidIPv4Address := fun s => match ParseIP s with Some ip => match To4 ip with Some _ => [] | None => ["v6"] end | None => ["no IP"] end;
  ResolveIPAddr4 := fun s => if bool_decide (s = "gw.example.com") then Ok [10; 0; 0; 9]%Z else Err "no such host"
|}.

Lemma connector_gateway_is_usable_witness :
  ∃ c, @NewConnectorConfig sample_lib sample_net_lib "r" "z" "g" "c" "gw.example.com" 8080 false "u" = Ok c ∧
    GatewayHost c = "gw.example.com" ∧ cc_key c = "r/z/g/c".
Proof.
  eexists. split; [vm_compute; reflexivity|].
  match goal with |- GatewayHost ?c = _ ∧ _ =>
    destruct (@connector_gateway_is_usable sample_lib sample_net_lib "r" "z" "g" "c"
                "gw.example.com" 8080 false "u" c) as (Hk & _ & Hh & _); [vm_compute; reflexivity|]
  end.
  split; [exact Hh|exact Hk].
Defined.

(** The key of a cluster determines its region, zone, group and
    name, as long as none of the first three contains a slash. *)
Theorem cluster_key_injective r z g n r' z' g' n' :
  ContainsByte "/" r = false → ContainsByte "/" z = false → ContainsByte "/" g = false →
  ContainsByte "/" r' = false → ContainsByte "/" z' = false → ContainsByte "/" g' = false →
  clusterKey r z g n = clusterKey r' z' g' n' → r = r' ∧ z = z' ∧ g = g' ∧ n = n'.
Proof.
  intros Hr Hz Hg Hr' Hz' Hg' Heq. unfold clusterKey in Heq. simpl in Heq.
  apply sep_inj in Heq as [-> Heq]; [|done..].
  apply sep_inj in Heq as [-> Heq]; [|done..].
  by apply sep_inj in Heq as [-> ->].
Qed.

Lemma cluster_key_injective_witness :
  clusterKey "r" "z" "g" "n" = clusterKey "r" "z" "g" "n" ∧ "r" = "r".
Proof.
  split; [reflexivity|].
  exact (proj1 (cluster_key_injective "r" "z" "g" "n" "r" "z" "g" "n"
           eq_refl eq_refl eq_refl eq_refl eq_refl eq_refl eq_refl)).
Defined.

Section main_json_logs.
Context `{Resty} `{ConfigLib}.

Lemma logs_getMainJson basepath :
  logs (getMainJson basepath) (fun r l => ∃ out,
    l = [(GET (fullFileApiPath (getPathOfMainJson basepath)), out)] ∧
    match out with Ok resp => r = Ok (resp_Body resp) | Err e => r = Err e end).
Proof.
  unfold getMainJson, GetFile. eapply logs_try; [eapply (logs_try _ _ _ (fun r l => ∃ out,
    l = [(GET (fullFileApiPath (getPathOfMainJson basepath)), out)] ∧
    match out with Ok resp => r = Ok (resp_Body resp) | Err e => r = Err e end)); [apply logs_send|..]|..].
  - intros resp l ->. apply logs_ret. by eexists.
  - intros e l ->. by eexists.
  - intros json l (out & -> & Hout). apply logs_ret. by eexists.
  - done.
Qed.

Lemma logs_updateMainJson basepath newJson :
  logs (updateMainJson basepath newJson) (fun r l =>
    r = Ok tt → batch_done (main_json_batch basepath newJson) l).
Proof.
  assert (Hb : logs (Batch_all [main_json_batch basepath newJson]) (fun r l => match r with
      | Ok _ => batch_done (main_json_batch basepath newJson) l | Err _ => True end)).
  { simpl. eapply logs_try; [apply logs_batch_one| |done].
    intros u l Hl. apply logs_ret. by rewrite app_nil_r. }
  eapply logs_try; [exact Hb| |by intros e l _ [=]].
  intros u l Hl. apply logs_ret. by rewrite app_nil_r.
Qed.

(** Reading main.json, changing it by [f] and pushing the result. *)
Definition read_modify_write (basepath : string) (f : string → result string string)
    (l : list exchange) : Prop :=
  ∃ resp newJson l', l = (GET (fullFileApiPath (getPathOfMainJson basepath)), Ok resp) :: l' ∧
    f (resp_Body resp) = Ok newJson ∧ batch_done (main_json_batch basepath newJson) l'.

Lemma logs_read_modify_write basepath (f : string → result string string)
    (k : string → http (result string unit)) :
  (∀ json, k json = with_json (f json) (updateMainJson basepath)) →
  logs (try (getMainJson basepath) k) (fun r l => r = Ok tt → read_modify_write basepath f l).
Proof.
  intros Hk. eapply logs_try; [apply logs_getMainJson| |by intros e l _ [=]].
  intros json l (out & -> & Hout). rewrite Hk.
  destruct out as [resp|e]; [injection Hout as ->|done].
  destruct (f (resp_Body resp)) as [newJson|e] eqn:Hf; simpl; [|by apply logs_ret].
  eapply logs_mono; [apply logs_updateMainJson|]. intros r l Hl Hr.
  eexists resp, newJson, l. by split_and!; [|done|apply Hl].
Qed.
End main_json_logs.

(** The three settings of [UpdateIngressTLSConfig], one after the other. *)
Definition set_tls `{ConfigLib} (tls : TLSConfig) (json : string) : result string string :=
  match sjson_Set json "tls.enabled" (JBool (tls_Enabled tls)) with
  | Err e => Err e
  | Ok j =>
    match sjson_Set j "tls.listen" (JInt (tls_Listen tls)) with
    | Err e => Err e
    | Ok j => sjson_Set j "tls.mTLS" (JBool (tls_MTLS tls))
    end
  end.

(** The configuration pushed by a successful update of the HTTP
    or TLS settings is the main.json just read with those settings replaced,
    pushed as one complete batch. *)
Theorem ingress_settings_read_modify_write `{Resty} `{ConfigLib} basepath mc s r s' :
  (UpdateIngressHTTPConfig basepath mc s = (r, s') → r = Ok tt →
   ∃ l, ses_log s' = ses_log s ++ l ∧
     read_modify_write basepath (fun json => sjson_Set json "http" (JObject
       [("enabled", JBool (http_Enabled (is_HTTP (mc_Ingress mc))));
        ("listen", JInt (http_Listen (is_HTTP (mc_Ingress mc))))])) l) ∧
  (UpdateIngressTLSConfig basepath mc s = (r, s') → r = Ok tt →
   ∃ l, ses_log s' = ses_log s ++ l ∧
     read_modify_write basepath (set_tls (is_TLS (mc_Ingress mc))) l).
Proof.
  split; intros E Hr.
  - destruct (logs_read_modify_write basepath _ _ (fun json => eq_refl) _ _ _ E) as (l & Hl & Hrmw).
    eauto.
  - assert (Hk : ∀ json, (fun json =>
        with_json (sjson_Set json "tls.enabled" (JBool (tls_Enabled (is_TLS (mc_Ingress mc))))) (fun newJson =>
        with_json (sjson_Set newJson "tls.listen" (JInt (tls_Listen (is_TLS (mc_Ingress mc))))) (fun newJson =>
        with_json (sjson_Set newJson "tls.mTLS" (JBool (tls_MTLS (is_TLS (mc_Ingress mc))))) (fun newJson =>
        updateMainJson basepath newJson)))) json =
        with_json (set_tls (is_TLS (mc_Ingress mc)) json) (updateMainJson basepath)).
    { intros json. unfold set_tls, with_json. by repeat case_match. }
    destruct (logs_read_modify_write basepath _ _ Hk _ _ _ E) as (l & Hl & Hrmw). eauto.
Qed.

Lemma ingress_settings_read_modify_write_witness :
  ∃ l, ses_log (@UpdateIngressHTTPConfig sample_resty sample_config_lib "/base/ingress"
                  sample_mesh_config (mkSession (H := sample_resty) ∅ [])).2 = [] ++ l ∧
    @read_modify_write sample_resty "/base/ingress" (fun json => @sjson_Set sample_config_lib json "http"
      (JObject [("enabled", JBool true); ("listen", JInt 8000)])) l.
Proof.
  exact (proj1 (@ingress_settings_read_modify_write sample_resty sample_config_lib "/base/ingress"
           sample_mesh_config (mkSession (H := sample_resty) ∅ []) (Ok tt) _) eq_refl eq_refl).
Defined.
