(* ===== verification/RouteBuild.v ===== *)
(** * Building the routes ([pkg/cache/local_cache.go], [pkg/util/util.go])

    From the maps of the cache to the ingress and service routes, and from the
    routes to the batches that are pushed to the repository. *)

From S2P Require Import Prelude GoLib Kube CacheTypes EndpointsCache ServiceCache ServiceImportCache IngressCache Repo Config.

(** ** Hashes *)

Definition hex_digit_of (n : N) : string :=
  nth (N.to_nat n)
    ["0"; "1"; "2"; "3"; "4"; "5"; "6"; "7"; "8"; "9"; "a"; "b"; "c"; "d"; "e"; "f"] "".

(** [fmt.Sprintf("%x", n)] for a uint64: sixteen digits are enough. *)
Fixpoint hex_go (fuel : nat) (n : N) : string :=
  match fuel with
  | O => ""
  | S fuel =>
    if (n <? 16)%N then hex_digit_of n
    else hex_go fuel (n / 16) +:+ hex_digit_of (n mod 16)
  end.
Definition Sprintf_x (n : N) : string := hex_go 16 n.

(** mitchellh/hashstructure.  The fields tagged [hash:"ignore"] do not count, and
    the order of the elements does not count in those tagged [hash:"set"]. *)
Class HashStructure : Type := {
  Hash_IngressData : IngressData → result string N;
  Hash_ServiceRoute : ServiceRoute → result string N;
  Hash_IngressData_set : ∀ d d', id_Routes d ≡ₚ id_Routes d' →
    Hash_IngressData d = Hash_IngressData d';
  Hash_ServiceRoute_set : ∀ d d', sr_Routes d ≡ₚ sr_Routes d' →
    Hash_ServiceRoute d = Hash_ServiceRoute d'
}.

Definition SimpleHash (hash : result string N) : string :=
  match hash with Ok h => Sprintf_x h | Err _ => "" end.

(** ** Ingress routes *)

Definition upstream_endpoint `{KubeLib} (ep : BaseEndpointInfo) : option UpstreamEndpoint :=
  let epIP := BaseEndpointInfo_IP ep in
  match BaseEndpointInfo_Port ep with
  | Some epPort => if bool_decide (epIP = "") then None else Some (mkUpstreamEndpoint epIP epPort "")
  | None => None
  end.

(** The body of the loop over the ingress map: the route, if it has endpoints. *)
Definition buildIngressRoute `{KubeLib} (em : EndpointsMap) (route : BaseIngressInfo) :
    go (option IngressRouteSpec) :=
  let svcName := bii_backend route in
  sslName ← UpstreamSSLName route;
  sslVerify ← UpstreamSSLVerify route;
  sslCert ← UpstreamSSLCert route;
  let endpoints := omap upstream_endpoint (default [] (em !! svcName)) in
  let ir :=
    mkIngressRoute
      (mkRouter (bii_host route) (bii_path route) (ServicePortName_String svcName) (bii_rewrite route))
      (mkBalancer (bii_sessionSticky route) (bii_lbType route)
         (Some (mkUpstream sslName sslCert sslVerify endpoints)))
      (mkTLSSpec (bii_isTLS route) (bii_isWildcardHost route) (bii_verifyClient route)
         (bii_verifyDepth route) (bii_certificate route) (bii_trustedCA route)) in
  Ret (match endpoints with [] => None | _ => Some ir end).

Definition ingress_routes `{KubeLib} `{MapRange} (im : IngressMap) (em : EndpointsMap) :
    go (list IngressRouteSpec) :=
  go_foldl (fun routes kv =>
    ir ← buildIngressRoute em kv.2;
    Ret (routes ++ match ir with Some ir => [ir] | None => [] end)) [] (go_range im).

Definition buildIngressConfig `{KubeLib} `{MapRange} `{HashStructure} (im : IngressMap)
    (em : EndpointsMap) : go IngressData :=
  routes ← ingress_routes im em;
  Ret (mkIngressData (SimpleHash (Hash_IngressData (mkIngressData "" routes))) routes).

Definition routerKey (r : IngressRouteSpec) : string :=
  rs_Host (irs_Router r) +:+ rs_Path (irs_Router r).

Definition getTrustedCAs `{MapRange} (caMap : gmap string bool) : list string := (go_range caMap).*1.

(** The four maps the loop of [ingressBatches] fills. *)
Record ingress_tables : Type := mkTables {
  it_routes : gmap string RouterSpec;
  it_services : gmap string BalancerSpec;
  it_certificates : gmap string TLSSpec;
  it_trustedCAs : gmap string bool
}.

Definition add_ca (ca : option CertificateSpec) (m : gmap string bool) : gmap string bool :=
  match ca with
  | Some c => if bool_decide (CA c ≠ "") then <[CA c := true]> m else m
  | None => m
  end.

(** The body of the loop; a TLS host that already has a certificate entry ends
    the iteration early. *)
Definition ingress_add_tables (t : ingress_tables) (r : IngressRouteSpec) : ingress_tables :=
  let routes := <[routerKey r := irs_Router r]> (it_routes t) in
  let services := <[rs_Service (irs_Router r) := irs_Balancer r]> (it_services t) in
  let host := rs_Host (irs_Router r) in
  let cas := add_ca (ts_Certificate (irs_TLS r)) (add_ca (ts_TrustedCA (irs_TLS r)) (it_trustedCAs t)) in
  if bool_decide (host ≠ "") && ts_IsTLS (irs_TLS r) then
    match it_certificates t !! host with
    | Some _ => mkTables routes services (it_certificates t) (it_trustedCAs t)
    | None => mkTables routes services (<[host := irs_TLS r]> (it_certificates t)) cas
    end
  else mkTables routes services (it_certificates t) cas.

Definition ingressBatchItems (cfg : IngressConfig) : list BatchItem :=
  [mkBatchItem "/config" "ingress.json" (C_IngressConfig cfg)].

Definition ingressBatches `{MapRange} (ingressData : IngressData) (mc : MeshConfig) :
    option (list Batch) :=
  let t := foldl ingress_add_tables (mkTables ∅ ∅ ∅ ∅) (id_Routes ingressData) in
  let cfg := mkIngressConfig (getTrustedCAs (it_trustedCAs t)) (it_certificates t)
               (it_routes t) (it_services t) in
  match ingressBatchItems cfg with
  | [] => None
  | items => Some [mkBatch (GetDefaultIngressPath mc) items]
  end.

(** ** Service routes *)

Definition endpoint_target (ep : BaseEndpointInfo) : Target :=
  mkTarget (BaseEndpointInfo_String ep) {[ "Node" := Nodename ep; "Host" := Hostname ep ]}.

Definition multicluster_target (ep : BaseEndpointInfo) : Target :=
  mkTarget (BaseEndpointInfo_String ep) {[ "Cluster" := ClusterInfo ep ]}.

(** The route of a service of the service map. *)
Definition service_route (em : EndpointsMap) (k : ServicePortName) (p : ServicePort) :
    list ServiceRouteEntry :=
  match p with
  | SP_serviceInfo info svcName ty =>
    let sr targets := mkServiceRouteEntry (nn_Name svcName) (nn_Namespace svcName) targets (bsi_portName info) in
    if bool_decide (ty = ServiceTypeClusterIP)
    then [sr (endpoint_target <$> default [] (em !! k))]
    else if bool_decide (ty = ServiceTypeExternalName)
    then [sr [mkTarget (BaseServiceInfo_Address info) ∅]]
    else []
  | _ => []
  end.

(** The route of a service import. *)
Definition import_route (mem : MultiClusterEndpointsMap) (k : ServicePortName) (p : ServicePort) :
    list ServiceRouteEntry :=
  match p with
  | SP_serviceImportInfo info svcName =>
    [mkServiceRouteEntry (nn_Name svcName) (nn_Namespace svcName)
       (multicluster_target <$> default [] (mem !! k)) (bsi_portName info)]
  | _ => []
  end.

(** mapset's [ToSlice]: every element once, in an unspecified order. *)
Definition ToSlice `{MapRange} (s : gset ServicePortName) : list ServicePortName :=
  (go_range (gset_to_gmap tt s)).*1.

Definition service_routes_of (sm : ServiceMap) (sim : ServiceImportMap) (em : EndpointsMap)
    (mem : MultiClusterEndpointsMap) (k : ServicePortName) : list ServiceRouteEntry :=
  match sm !! k with Some p => service_route em k p | None => [] end ++
  match sim !! k with Some p => import_route mem k p | None => [] end.

Definition buildServiceRoutes `{MapRange} `{HashStructure} (sm : ServiceMap) (sim : ServiceImportMap)
    (em : EndpointsMap) (mem : MultiClusterEndpointsMap) : ServiceRoute :=
  let svcNames := dom sm ∪ dom sim in
  let routes := foldl (fun routes k => routes ++ service_routes_of sm sim em mem k) [] (ToSlice svcNames) in
  mkServiceRoute (SimpleHash (Hash_ServiceRoute (mkServiceRoute "" routes))) routes.

Definition addresses (route : ServiceRouteEntry) : list string := Address <$> sre_Targets route.

Definition servicePortName (route : ServiceRouteEntry) : string :=
  sre_Namespace route +:+ "/" +:+ sre_Name route +:+ fmtPortName (sre_PortName route).

Definition registry_add (services : gmap string (list string)) (route : ServiceRouteEntry) :
    gmap string (list string) :=
  match addresses route with
  | [] => services
  | addrs => <[servicePortName route := default [] (services !! servicePortName route) ++ addrs]> services
  end.

Definition serviceBatches (serviceRoutes : ServiceRoute) (mc : MeshConfig) : option (list Batch) :=
  let registry := foldl registry_add ∅ (sr_Routes serviceRoutes) in
  Some [mkBatch (GetDefaultServicesPath mc)
          [mkBatchItem "/config" "registry.json" (C_ServiceRegistry registry)]].

(** ** Ingress routes: lemmas *)

(** The route, for a route whose upstream is set. *)
Definition route_spec `{KubeLib} (em : EndpointsMap) (route : BaseIngressInfo) (u : UpstreamSpec) :
    option IngressRouteSpec :=
  match omap upstream_endpoint (default [] (em !! bii_backend route)) with
  | [] => None
  | endpoints => Some
    (mkIngressRoute
      (mkRouter (bii_host route) (bii_path route) (ServicePortName_String (bii_backend route))
         (bii_rewrite route))
      (mkBalancer (bii_sessionSticky route) (bii_lbType route)
         (Some (mkUpstream (SSLName u) (SSLCert u) (SSLVerify u) endpoints)))
      (mkTLSSpec (bii_isTLS route) (bii_isWildcardHost route) (bii_verifyClient route)
         (bii_verifyDepth route) (bii_certificate route) (bii_trustedCA route)))
  end.

Lemma buildIngressRoute_spec `{KubeLib} em route :
  buildIngressRoute em route =
    match bii_upstream route with Some u => Ret (route_spec em route u) | None => Panic end.
Proof.
  unfold buildIngressRoute, UpstreamSSLName, UpstreamSSLVerify, UpstreamSSLCert, route_spec.
  destruct (bii_upstream route) as [u|]; [|done]. simpl.
  by destruct (omap upstream_endpoint _).
Qed.

Definition route_list `{KubeLib} (em : EndpointsMap) (l : list (RouteKey * BaseIngressInfo)) :
    list IngressRouteSpec :=
  omap (fun kv => u ← bii_upstream kv.2; route_spec em kv.2 u) l.

Lemma ingress_routes_fold `{KubeLib} em l acc :
  go_foldl (fun routes kv =>
    ir ← buildIngressRoute em kv.2;
    Ret (routes ++ match ir with Some ir => [ir] | None => [] end)) acc l =
  if decide (Forall (fun kv : RouteKey * BaseIngressInfo => bii_upstream kv.2 ≠ None) l)
  then Ret (acc ++ route_list em l) else Panic.
Proof.
  revert acc. induction l as [|[k route] l IH]; intros acc.
  - rewrite decide_True by constructor. simpl. by rewrite app_nil_r.
  - cbn [go_foldl snd]. rewrite buildIngressRoute_spec.
    destruct (bii_upstream route) as [u|] eqn:Hu; cbn [mbind go_bind].
    + rewrite IH. destruct (decide (Forall _ l)) as [Hl|Hl].
      * rewrite decide_True by (constructor; [simpl; by rewrite Hu|done]).
        unfold route_list. simpl. rewrite Hu. simpl.
        destruct (route_spec em route u); by rewrite <-?app_assoc, ?app_nil_r.
      * rewrite decide_False; [done|]. intros [_ ?]%Forall_cons. done.
    + rewrite decide_False; [done|]. intros [? _]%Forall_cons. done.
Qed.

(** All routes of the map have an upstream. *)
Definition upstreams_set (im : IngressMap) : Prop :=
  ∀ k route, im !! k = Some route → bii_upstream route ≠ None.

Lemma upstreams_set_range `{MapRange} im :
  Forall (fun kv : RouteKey * BaseIngressInfo => bii_upstream kv.2 ≠ None) (go_range im) ↔
  upstreams_set im.
Proof.
  rewrite Forall_forall. split.
  - intros Hf k route Hk%go_range_elem. by apply (Hf _ Hk).
  - intros Hu [k route] Hk%go_range_elem. by apply (Hu k).
Qed.

Lemma ingress_routes_ok `{KubeLib} `{MapRange} im em :
  upstreams_set im → ingress_routes im em = Ret (route_list em (go_range im)).
Proof.
  intros Hu. unfold ingress_routes. rewrite ingress_routes_fold.
  by rewrite decide_True by by apply upstreams_set_range.
Qed.

Lemma ingress_routes_panic `{KubeLib} `{MapRange} im em :
  ingress_routes im em = Panic ↔ ¬ upstreams_set im.
Proof.
  unfold ingress_routes. rewrite ingress_routes_fold, <-upstreams_set_range.
  case_decide; naive_solver.
Qed.

(** ** Service routes: lemmas *)

Lemma foldl_app_concat {A B} (f : A → list B) l acc :
  foldl (fun acc a => acc ++ f a) acc l = acc ++ (l ≫= f).
Proof.
  revert acc. induction l as [|a l IH]; intros acc; simpl; [by rewrite app_nil_r|].
  by rewrite IH, app_assoc.
Qed.

Lemma elem_of_ToSlice `{MapRange} s k : k ∈ ToSlice s ↔ k ∈ s.
Proof.
  unfold ToSlice. rewrite go_range_dom, lookup_gset_to_gmap.
  rewrite option_guard_bool_decide. case_bool_decide; split; done.
Qed.

Lemma ToSlice_perm (r1 r2 : MapRange) s : @ToSlice r1 s ≡ₚ @ToSlice r2 s.
Proof. unfold ToSlice. by rewrite (@go_range_perm r1), (@go_range_perm r2). Qed.

Lemma sr_Routes_concat `{MapRange} `{HashStructure} sm sim em mem :
  sr_Routes (buildServiceRoutes sm sim em mem) =
    (ToSlice (dom sm ∪ dom sim) ≫= service_routes_of sm sim em mem).
Proof. unfold buildServiceRoutes. simpl. by rewrite foldl_app_concat. Qed.

(** The addresses registered under a name, in the order of the routes. *)
Definition registered (routes : list ServiceRouteEntry) (name : string) : list string :=
  filter (fun r => servicePortName r = name) routes ≫= addresses.

Lemma registry_lookup routes m name :
  foldl registry_add m routes !! name =
    match registered routes name with
    | [] => m !! name
    | l => Some (default [] (m !! name) ++ l)
    end.
Proof.
  revert m. induction routes as [|r routes IH]; intros m; [done|]. simpl. rewrite IH.
  unfold registered. rewrite filter_cons. unfold registry_add.
  case_decide as Hn; simpl.
  - destruct (addresses r) as [|a l] eqn:Ha; [done|]. rewrite Hn, lookup_insert_eq. simpl.
    change (list_bind _ _ addresses ?x) with (x ≫= addresses).
    destruct (filter _ routes ≫= addresses); simpl; [by rewrite app_nil_r|by rewrite <-app_assoc].
  - destruct (addresses r); [done|]. by rewrite lookup_insert_ne.
Qed.

Lemma elem_of_registered routes name a :
  a ∈ registered routes name ↔ ∃ r, r ∈ routes ∧ servicePortName r = name ∧ a ∈ addresses r.
Proof.
  unfold registered. rewrite list_elem_of_bind.
  setoid_rewrite list_elem_of_filter. naive_solver.
Qed.

(** ** Properties *)

(** The name a port of a service is registered under. *)
Definition registry_name (svc : NamespacedName) (portName : string) : string :=
  NamespacedName_String svc +:+ fmtPortName portName.

(** What has to be registered: the endpoints of the ClusterIP services, the
    addresses of the ExternalName services, and the endpoints of the imported
    services. *)
Inductive serves (sm : ServiceMap) (sim : ServiceImportMap) (em : EndpointsMap)
    (mem : MultiClusterEndpointsMap) : string → string → Prop :=
| serves_endpoint k info svc eps ep :
    sm !! k = Some (SP_serviceInfo info svc ServiceTypeClusterIP) →
    em !! k = Some eps → ep ∈ eps →
    serves sm sim em mem (registry_name svc (bsi_portName info)) (Endpoint ep)
| serves_external k info svc :
    sm !! k = Some (SP_serviceInfo info svc ServiceTypeExternalName) →
    serves sm sim em mem (registry_name svc (bsi_portName info)) (bsi_address info)
| serves_import k info svc eps ep :
    sim !! k = Some (SP_serviceImportInfo info svc) →
    mem !! k = Some eps → ep ∈ eps →
    serves sm sim em mem (registry_name svc (bsi_portName info)) (Endpoint ep).

Lemma registry_name_route ns n targets port :
  servicePortName (mkServiceRouteEntry n ns targets port) = registry_name (mkNN ns n) port.
Proof.
  unfold servicePortName, registry_name, NamespacedName_String. simpl.
  by rewrite !sapp_assoc.
Qed.

Lemma elem_of_targets {A} (f : A → Target) (l : list A) a :
  a ∈ Address <$> (f <$> l) ↔ ∃ x, x ∈ l ∧ a = Address (f x).
Proof. rewrite <-list_fmap_compose, list_elem_of_fmap. naive_solver. Qed.

(** The routes of one service port register what it serves. *)
Lemma service_route_serves em k p name a :
  (∃ r, r ∈ service_route em k p ∧ servicePortName r = name ∧ a ∈ addresses r) ↔
  ∃ info svc, name = registry_name svc (bsi_portName info) ∧
    ((p = SP_serviceInfo info svc ServiceTypeClusterIP ∧
      ∃ ep, ep ∈ default [] (em !! k) ∧ a = Endpoint ep) ∨
     (p = SP_serviceInfo info svc ServiceTypeExternalName ∧ a = bsi_address info)).
Proof.
  split.
  - intros (r & Hr & <- & Ha). destruct p as [|info [ns n] ty|]; simpl in Hr; try by apply elem_of_nil in Hr.
    exists info, (mkNN ns n). case_bool_decide; [|case_bool_decide; [|by apply elem_of_nil in Hr]];
      apply list_elem_of_singleton in Hr as ->; rewrite registry_name_route; (split; [done|]).
    + left. apply elem_of_targets in Ha as (ep & Hep & ->). subst. eauto.
    + right. apply list_elem_of_singleton in Ha as ->. by subst.
  - intros (info & [ns n] & -> & [(-> & ep & Hep & ->)|(-> & ->)]); simpl;
      eexists; (split; [apply list_elem_of_singleton; reflexivity|]); rewrite registry_name_route;
      (split; [done|]).
    + apply elem_of_targets. eauto.
    + by apply list_elem_of_singleton.
Qed.

Lemma import_route_serves mem k p name a :
  (∃ r, r ∈ import_route mem k p ∧ servicePortName r = name ∧ a ∈ addresses r) ↔
  ∃ info svc, name = registry_name svc (bsi_portName info) ∧
    p = SP_serviceImportInfo info svc ∧ ∃ ep, ep ∈ default [] (mem !! k) ∧ a = Endpoint ep.
Proof.
  split.
  - intros (r & Hr & <- & Ha). destruct p as [| |info [ns n]]; simpl in Hr; try by apply elem_of_nil in Hr.
    exists info, (mkNN ns n). apply list_elem_of_singleton in Hr as ->. rewrite registry_name_route.
    apply elem_of_targets in Ha as (ep & Hep & ->). eauto.
  - intros (info & [ns n] & -> & -> & ep & Hep & ->). simpl.
    eexists. split; [apply list_elem_of_singleton; reflexivity|]. rewrite registry_name_route.
    split; [done|]. apply elem_of_targets. eauto.
Qed.

(** All routes together register what has to be registered. *)
Lemma service_routes_serve `{MapRange} sm sim em mem name a :
  (∃ r, r ∈ (ToSlice (dom sm ∪ dom sim) ≫= service_routes_of sm sim em mem) ∧
        servicePortName r = name ∧ a ∈ addresses r) ↔ serves sm sim em mem name a.
Proof.
  setoid_rewrite list_elem_of_bind. setoid_rewrite elem_of_ToSlice. split.
  - intros (r & (k & Hr & Hk) & Hn & Ha). unfold service_routes_of in Hr.
    apply elem_of_app in Hr as [Hr|Hr].
    + destruct (sm !! k) as [p|] eqn:Hp; [|by apply elem_of_nil in Hr].
      destruct (proj1 (service_route_serves em k p name a)) as
        (info & svc & -> & [(-> & ep & Hep & ->)|(-> & ->)]); [by eauto|..].
      * destruct (em !! k) as [eps|] eqn:He; [|by apply elem_of_nil in Hep]. by econstructor.
      * by econstructor.
    + destruct (sim !! k) as [p|] eqn:Hp; [|by apply elem_of_nil in Hr].
      destruct (proj1 (import_route_serves mem k p name a)) as (info & svc & -> & -> & ep & Hep & ->);
        [by eauto|].
      destruct (mem !! k) as [eps|] eqn:He; [|by apply elem_of_nil in Hep]. by eapply serves_import.
  - intros [k info svc eps ep Hk He Hep|k info svc Hk|k info svc eps ep Hk He Hep].
    + destruct (proj2 (service_route_serves em k (SP_serviceInfo info svc ServiceTypeClusterIP)
        (registry_name svc (bsi_portName info)) (Endpoint ep))) as (r & Hr & Hn & Ha).
      { exists info, svc. rewrite He. simpl. naive_solver. }
      exists r. split_and!; [|done|done]. exists k. unfold service_routes_of. rewrite Hk.
      split; [by apply elem_of_app; left|]. apply elem_of_union. left. by apply elem_of_dom_2 in Hk.
    + destruct (proj2 (service_route_serves em k (SP_serviceInfo info svc ServiceTypeExternalName)
        (registry_name svc (bsi_portName info)) (bsi_address info))) as (r & Hr & Hn & Ha).
      { exists info, svc. naive_solver. }
      exists r. split_and!; [|done|done]. exists k. unfold service_routes_of. rewrite Hk.
      split; [by apply elem_of_app; left|]. apply elem_of_union. left. by apply elem_of_dom_2 in Hk.
    + destruct (proj2 (import_route_serves mem k (SP_serviceImportInfo info svc)
        (registry_name svc (bsi_portName info)) (Endpoint ep))) as (r & Hr & Hn & Ha).
      { exists info, svc. rewrite He. simpl. naive_solver. }
      exists r. split_and!; [|done|done]. exists k. unfold service_routes_of. rewrite Hk.
      split; [by apply elem_of_app; right|]. apply elem_of_union. right. by apply elem_of_dom_2 in Hk.
Qed.

(** The registry lists what has to be registered. *)
Lemma serviceBatches_exact `{MapRange} `{HashStructure} sm sim em mem mc :
  ∃ registry,
    serviceBatches (buildServiceRoutes sm sim em mem) mc =
      Some [mkBatch (GetDefaultServicesPath mc)
              [mkBatchItem "/config" "registry.json" (C_ServiceRegistry registry)]] ∧
    (∀ name a, (∃ l, registry !! name = Some l ∧ a ∈ l) ↔ serves sm sim em mem name a) ∧
    ∀ name, registry !! name ≠ Some [].
Proof.
  eexists. split; [done|].
  assert (Hl : ∀ name, foldl registry_add ∅ (sr_Routes (buildServiceRoutes sm sim em mem)) !! name =
    match registered (ToSlice (dom sm ∪ dom sim) ≫= service_routes_of sm sim em mem) name with
    | [] => None | l => Some l end).
  { intros name. rewrite registry_lookup, sr_Routes_concat, lookup_empty. by destruct (registered _ _). }
  split.
  - intros name a. rewrite <-service_routes_serve, <-elem_of_registered, Hl.
    destruct (registered _ name) as [|x l]; [|naive_solver].
    split; [naive_solver|]. by intros ?%elem_of_nil.
  - intros name. rewrite Hl. by destruct (registered _ name).
Qed.

(** C13 (functional).  The registry pushed to the services codebase lists, under
    every service port name, exactly the addresses that have to be registered
    (the endpoints of ClusterIP services, the addresses of ExternalName services,
    the endpoints imported from other clusters), and no name without addresses,
    whatever the iteration order. *)
Theorem service_registry_exact `{MapRange} `{HashStructure} sm sim em mem mc :
  ∃ registry,
    serviceBatches (buildServiceRoutes sm sim em mem) mc =
      Some [mkBatch (GetDefaultServicesPath mc)
              [mkBatchItem "/config" "registry.json" (C_ServiceRegistry registry)]] ∧
    (∀ name a, (∃ l, registry !! name = Some l ∧ a ∈ l) ↔ serves sm sim em mem name a) ∧
    ∀ name, registry !! name ≠ Some [].
Proof. apply serviceBatches_exact. Qed.

Lemma omap_perm {A B} (f : A → option B) (l l' : list A) : l ≡ₚ l' → omap f l ≡ₚ omap f l'.
Proof. by intros ->. Qed.

(** C15 (equivalence).  The order in which Go visits its maps does not matter:
    two runs over the same maps build the same routes up to their order, both
    panic or none does, and the hashes that decide whether to push are equal. *)
Theorem routes_order_irrelevant `{KubeLib} `{HashStructure} (r1 r2 : MapRange) sm sim em mem im :
  sr_Routes (@buildServiceRoutes r1 _ sm sim em mem) ≡ₚ sr_Routes (@buildServiceRoutes r2 _ sm sim em mem) ∧
  sr_Hash (@buildServiceRoutes r1 _ sm sim em mem) = sr_Hash (@buildServiceRoutes r2 _ sm sim em mem) ∧
  match @buildIngressConfig _ r1 _ im em, @buildIngressConfig _ r2 _ im em with
  | Ret d1, Ret d2 => id_Routes d1 ≡ₚ id_Routes d2 ∧ id_Hash d1 = id_Hash d2
  | Panic, Panic => True
  | _, _ => False
  end.
Proof.
  assert (Hs : sr_Routes (@buildServiceRoutes r1 _ sm sim em mem) ≡ₚ
               sr_Routes (@buildServiceRoutes r2 _ sm sim em mem)).
  { rewrite !sr_Routes_concat. by rewrite (ToSlice_perm r1 r2). }
  split_and!; [done| |].
  - unfold buildServiceRoutes in *. simpl in *. f_equal. by apply Hash_ServiceRoute_set.
  - unfold buildIngressConfig.
    destruct (@ingress_routes _ r1 im em) as [l1|] eqn:E1, (@ingress_routes _ r2 im em) as [l2|] eqn:E2;
      simpl; try done.
    + assert (Hu : upstreams_set im).
      { intros k route Hk Hn. assert (@ingress_routes _ r1 im em = Panic) by
          (apply ingress_routes_panic; intros Hu; by apply (Hu _ _ Hk)). congruence. }
      rewrite (@ingress_routes_ok _ r1) in E1 by done. rewrite (@ingress_routes_ok _ r2) in E2 by done.
      injection E1 as <-. injection E2 as <-.
      assert (Hp : route_list em (@go_range r1 _ _ _ _ im) ≡ₚ route_list em (@go_range r2 _ _ _ _ im)).
      { apply omap_perm. by rewrite (@go_range_perm r1), (@go_range_perm r2). }
      split; [done|]. f_equal. by apply Hash_IngressData_set.
    + apply ingress_routes_panic in E2. by rewrite (proj2 (@ingress_routes_panic _ r1 im em) E2) in E1.
    + apply ingress_routes_panic in E1. by rewrite (proj2 (@ingress_routes_panic _ r2 im em) E1) in E2.
Qed.

(** The upstream endpoints of a list of endpoints, in order: an endpoint counts when
    its address has a host that is not empty and a port that can be read, and then
    with this host and port. *)
Inductive upstreams `{KubeLib} : list BaseEndpointInfo → list UpstreamEndpoint → Prop :=
| upstreams_nil : upstreams [] []
| upstreams_use ep port eps es :
    IPPart (Endpoint ep) ≠ "" → PortPart (Endpoint ep) = Some port → upstreams eps es →
    upstreams (ep :: eps) (mkUpstreamEndpoint (IPPart (Endpoint ep)) port "" :: es)
| upstreams_skip ep eps es :
    IPPart (Endpoint ep) = "" ∨ PortPart (Endpoint ep) = None → upstreams eps es → upstreams (ep :: eps) es.

Lemma upstreams_omap `{KubeLib} eps es : upstreams eps es ↔ es = omap upstream_endpoint eps.
Proof.
  unfold upstream_endpoint, BaseEndpointInfo_IP, BaseEndpointInfo_Port. split.
  - induction 1 as [|ep port eps es Hip Hp _ IH|ep eps es Hs _ IH]; [done|..]; simpl.
    + by rewrite Hp, bool_decide_eq_false_2, IH.
    + destruct Hs as [Hs|Hs]; rewrite Hs; [|done]. by destruct (PortPart _).
  - intros ->. induction eps as [|ep eps IH]; simpl; [constructor|].
    destruct (PortPart (Endpoint ep)) as [port|] eqn:Hp; [|apply upstreams_skip; auto].
    case_bool_decide; [apply upstreams_skip; auto|by apply upstreams_use].
Qed.

Lemma upstreams_usable `{KubeLib} eps es :
  upstreams eps es → es ≠ [] ↔ ∃ ep port, ep ∈ eps ∧ IPPart (Endpoint ep) ≠ "" ∧ PortPart (Endpoint ep) = Some port.
Proof.
  induction 1 as [|ep port eps es Hip Hp _ IH|ep eps es Hs _ IH].
  - split; [done|]. intros (ep & port & Hin & _). by apply elem_of_nil in Hin.
  - split; [|done]. intros _. exists ep, port. by split; [left|].
  - rewrite IH. split; intros (ep' & port & Hin & Hip & Hp).
    + exists ep', port. by split; [right|].
    + exists ep', port. split; [|done]. apply elem_of_cons in Hin as [->|Hin]; [|done].
      destruct Hs; congruence.
Qed.

(** The route of an entry of the ingress map with the upstream settings [u]. *)
Definition route_of `{KubeLib} (em : EndpointsMap) (route : BaseIngressInfo) (u : UpstreamSpec)
    (ir : IngressRouteSpec) : Prop :=
  ∃ eps es, em !! bii_backend route = Some eps ∧ upstreams eps es ∧ es ≠ [] ∧
    ir = mkIngressRoute
      (mkRouter (bii_host route) (bii_path route) (ServicePortName_String (bii_backend route)) (bii_rewrite route))
      (mkBalancer (bii_sessionSticky route) (bii_lbType route)
         (Some (mkUpstream (SSLName u) (SSLCert u) (SSLVerify u) es)))
      (mkTLSSpec (bii_isTLS route) (bii_isWildcardHost route) (bii_verifyClient route)
         (bii_verifyDepth route) (bii_certificate route) (bii_trustedCA route)).

Lemma route_spec_of `{KubeLib} em route u ir : route_spec em route u = Some ir ↔ route_of em route u ir.
Proof.
  unfold route_spec, route_of. split.
  - destruct (em !! bii_backend route) as [eps|]; simpl; [|done].
    destruct (omap upstream_endpoint eps) as [|e l] eqn:He; [done|]. intros [= <-].
    exists eps, (e :: l). by rewrite upstreams_omap, He.
  - intros (eps & es & -> & ->%upstreams_omap & Hne & ->). simpl.
    by destruct (omap upstream_endpoint eps).
Qed.

(** An entry has a route when an endpoint of its backend is usable. *)
Lemma route_of_usable `{KubeLib} em route u :
  (∃ ir, route_of em route u ir) ↔
  ∃ eps ep port, em !! bii_backend route = Some eps ∧ ep ∈ eps ∧
    IPPart (Endpoint ep) ≠ "" ∧ PortPart (Endpoint ep) = Some port.
Proof.
  split.
  - intros (ir & eps & es & He & Hes & Hne & _). destruct (proj1 (upstreams_usable _ _ Hes) Hne) as (ep & port & ?).
    eauto 10.
  - intros (eps & ep & port & He & Hu). eexists _, eps, (omap upstream_endpoint eps).
    assert (Hes : upstreams eps (omap upstream_endpoint eps)) by by apply upstreams_omap.
    split_and!; [done|done| |done]. apply (upstreams_usable _ _ Hes). eauto.
Qed.

(** C14 (functional).  The routes of the ingress configuration are exactly those of the entries of
    the ingress map: an entry has a route when its backend has a usable endpoint
    (whose address has a host and a port), and this route has the host, the path, the
    rewrite, the balancing and the TLS settings of the entry and as upstream endpoints
    the hosts and ports of the usable endpoints of the backend, in order; building the
    configuration panics exactly when some entry has no upstream settings. *)
Theorem ingress_config_exact `{KubeLib} `{MapRange} `{HashStructure} im em :
  match buildIngressConfig im em with
  | Panic => ∃ k route, im !! k = Some route ∧ bii_upstream route = None
  | Ret d =>
    (∀ k route, im !! k = Some route → bii_upstream route ≠ None) ∧
    (∀ ir, ir ∈ id_Routes d ↔
       ∃ k route u, im !! k = Some route ∧ bii_upstream route = Some u ∧ route_of em route u ir) ∧
    (∀ k route u, im !! k = Some route → bii_upstream route = Some u →
       (∃ ir, ir ∈ id_Routes d ∧ route_of em route u ir) ↔
       ∃ eps ep port, em !! bii_backend route = Some eps ∧ ep ∈ eps ∧
         IPPart (Endpoint ep) ≠ "" ∧ PortPart (Endpoint ep) = Some port)
  end.
Proof.
  unfold buildIngressConfig. destruct (decide (map_Forall (fun _ r => bii_upstream r ≠ None) im)) as [Hu|Hu].
  - rewrite ingress_routes_ok by done. simpl.
    assert (Hin : ∀ ir, ir ∈ route_list em (go_range im) ↔ ∃ k route u, im !! k = Some route ∧
              bii_upstream route = Some u ∧ route_of em route u ir).
    { intros ir. unfold route_list. rewrite list_elem_of_omap. split.
      - intros ([k route] & Hk%go_range_elem & (u & Hup & Hs%route_spec_of)%bind_Some). eauto 6.
      - intros (k & route & u & Hk & Hup & Hs%route_spec_of). exists (k, route). rewrite go_range_elem. simpl.
        by rewrite Hup. }
    split_and!; [done|exact Hin|]. intros k route u Hk Hup. rewrite <-(route_of_usable em route u).
    split; [intros (ir & _ & Hr); eauto|intros [ir Hr]]. exists ir. rewrite Hin. eauto 7.
  - rewrite (proj2 (ingress_routes_panic im em)) by done. simpl.
    apply map_not_Forall in Hu as (k & route & Hk & Hn); [|apply _].
    exists k, route. split; [done|]. by apply dec_stable in Hn.
Qed.

(** Of the TLS routes of a host only the first one counts:
    when a second one names another CA for its clients, that CA is left out of
    the trusted CAs that are pushed. *)
Theorem second_tls_route_ca_dropped `{MapRange} mc hash r1 r2 ca :
  rs_Host (irs_Router r1) = rs_Host (irs_Router r2) →
  rs_Host (irs_Router r1) ≠ "" →
  ts_IsTLS (irs_TLS r1) = true → ts_IsTLS (irs_TLS r2) = true →
  ts_TrustedCA (irs_TLS r2) = Some ca → CA ca ≠ "" →
  (∀ c, ts_TrustedCA (irs_TLS r1) = Some c → CA c ≠ CA ca) →
  (∀ c, ts_Certificate (irs_TLS r1) = Some c → CA c ≠ CA ca) →
  ∃ cfg, ingressBatches (mkIngressData hash [r1; r2]) mc =
           Some [mkBatch (GetDefaultIngressPath mc) [mkBatchItem "/config" "ingress.json" (C_IngressConfig cfg)]] ∧
    CA ca ∉ ic_TrustedCAs cfg ∧
    ic_Certificates cfg !! rs_Host (irs_Router r1) = Some (irs_TLS r1).
Proof.
  intros Hhost Hne Ht1 Ht2 Hca Hcane Hc1 Hc2. eexists. split; [done|].
  simpl. unfold ingress_add_tables at 1 3. cbn [it_certificates].
  unfold ingress_add_tables. cbn [it_routes it_services it_certificates it_trustedCAs].
  rewrite <-Hhost, Ht1, Ht2, bool_decide_eq_true_2, lookup_empty by done. simpl.
  rewrite lookup_insert_eq. simpl. split; [|apply lookup_insert_eq].
  unfold getTrustedCAs. rewrite go_range_dom. unfold add_ca.
  assert (Hadd : ∀ o (m : gmap string bool), (∀ c, o = Some c → CA c ≠ CA ca) → m !! CA ca = None →
            add_ca o m !! CA ca = None).
  { intros [c|] m Hc Hm; simpl; [|done]. case_bool_decide; [|done].
    by rewrite lookup_insert_ne by by apply Hc. }
  fold (add_ca (ts_TrustedCA (irs_TLS r1)) ∅).
  fold (add_ca (ts_Certificate (irs_TLS r1)) (add_ca (ts_TrustedCA (irs_TLS r1)) ∅)).
  rewrite Hadd; [by intros [? [=]]|done|]. by rewrite Hadd.
Qed.

(** ** Witnesses *)

(** A hash that does not depend on the order: the number of routes. *)
Definition sample_hash : HashStructure.
Proof.
  refine {| Hash_IngressData := fun d => Ok (N.of_nat (length (id_Routes d)));
            Hash_ServiceRoute := fun d => Ok (N.of_nat (length (sr_Routes d))) |}.
  - intros d d' Hp. by rewrite Hp.
  - intros d d' Hp. by rewrite Hp.
Defined.

(** The other direction of iteration. *)
Definition reverse_range : MapRange :=
  {| go_range := fun K V _ _ m => reverse (map_to_list m);
     go_range_perm := fun K V _ _ m => reverse_Permutation _ |}.

Definition sample_key : ServicePortName := mkSPN (mkNN "ns" "web") "http" "TCP".
Definition sample_service_map : ServiceMap :=
  {[ sample_key := SP_serviceInfo (mkBaseServiceInfo "10.96.0.7" 80 "http" "TCP")
                     (mkNN "ns" "web") ServiceTypeClusterIP ]}.
Definition sample_endpoints_map : EndpointsMap :=
  {[ sample_key := [mkBaseEndpointInfo "10.0.0.1:8080" "n1" "" ""] ]}.

Lemma service_registry_exact_witness :
  ∃ registry,
    serviceBatches (@buildServiceRoutes list_range sample_hash sample_service_map ∅ sample_endpoints_map ∅)
      zeroMeshConfig =
      Some [mkBatch "/local/services" [mkBatchItem "/config" "registry.json" (C_ServiceRegistry registry)]] ∧
    ∃ l, registry !! "ns/web:http" = Some l ∧ "10.0.0.1:8080" ∈ l.
Proof.
  destruct (@service_registry_exact list_range sample_hash sample_service_map ∅ sample_endpoints_map ∅
              zeroMeshConfig) as (registry & Heq & Hreg & _).
  exists registry. split; [exact Heq|]. apply Hreg.
  refine (serves_endpoint _ _ _ _ sample_key (mkBaseServiceInfo "10.96.0.7" 80 "http" "TCP")
           (mkNN "ns" "web") [mkBaseEndpointInfo "10.0.0.1:8080" "n1" "" ""]
           (mkBaseEndpointInfo "10.0.0.1:8080" "n1" "" "") _ _ _);
    [reflexivity|reflexivity|by left].
Defined.

Lemma routes_order_irrelevant_witness :
  sr_Hash (@buildServiceRoutes list_range sample_hash sample_service_map ∅ sample_endpoints_map ∅) =
  sr_Hash (@buildServiceRoutes reverse_range sample_hash sample_service_map ∅ sample_endpoints_map ∅).
Proof.
  exact (proj1 (proj2 (@routes_order_irrelevant sample_lib sample_hash list_range reverse_range
           sample_service_map ∅ sample_endpoints_map ∅ ∅))).
Defined.

Definition sample_route_info (upstream : option UpstreamSpec) : BaseIngressInfo :=
  mkIngressInfo ∅ "a.com" "/x/*" sample_key [] false RoundRobinLoadBalancer upstream None false false false 1 None.

Lemma ingress_config_exact_witness :
  (match @buildIngressConfig sample_lib list_range sample_hash
          {[ sample_route := sample_route_info None ]} sample_endpoints_map with
   | Panic => True
   | Ret _ => False
   end) ∧
  match @buildIngressConfig sample_lib list_range sample_hash
          {[ sample_route := sample_route_info (Some (mkUpstream "" None false [])) ]} sample_endpoints_map with
  | Ret d => ∃ ir, ir ∈ id_Routes d ∧ rs_Host (irs_Router ir) = "a.com" ∧
      us_Endpoints <$> bs_Upstream (irs_Balancer ir) = Some [mkUpstreamEndpoint "10.0.0.1" 8080 ""]
  | Panic => False
  end.
Proof.
  split.
  - pose proof (@ingress_config_exact sample_lib list_range sample_hash
                  {[ sample_route := sample_route_info None ]} sample_endpoints_map) as Hx.
    destruct (buildIngressConfig _ _) as [d|]; [|exact I].
    destruct Hx as (Hu & _). exact (Hu sample_route (sample_route_info None) eq_refl eq_refl).
  - pose proof (@ingress_config_exact sample_lib list_range sample_hash
                  {[ sample_route := sample_route_info (Some (mkUpstream "" None false [])) ]} sample_endpoints_map) as Hx.
    destruct (buildIngressConfig _ _) as [d|] eqn:E; [|vm_compute in E; discriminate E].
    destruct Hx as (_ & _ & Hroute).
    destruct (proj2 (Hroute sample_route (sample_route_info (Some (mkUpstream "" None false [])))
                (mkUpstream "" None false []) eq_refl eq_refl)) as (ir & Hir & eps & es & He & Hes & _ & ->).
    + exists [mkBaseEndpointInfo "10.0.0.1:8080" "n1" "" ""], (mkBaseEndpointInfo "10.0.0.1:8080" "n1" "" ""), 8080%Z.
      split; [reflexivity|]. split; [by left|]. split; [by vm_compute|vm_compute; reflexivity].
    + eexists. split; [exact Hir|]. split; [reflexivity|]. injection He as <-.
      apply (proj1 (upstreams_omap _ _)) in Hes as ->. vm_compute. reflexivity.
Defined.

Definition sample_tls_route (path ca : string) : IngressRouteSpec :=
  mkIngressRoute (mkRouter "a.com" path "ns/web:http" []) (mkBalancer false RoundRobinLoadBalancer None)
    (mkTLSSpec true false true 1 None (Some (mkCert "" "" ca))).

Lemma second_tls_route_ca_dropped_witness :
  ∃ cfg, @ingressBatches list_range (mkIngressData "" [sample_tls_route "/x" "CA1"; sample_tls_route "/y" "CA2"])
           zeroMeshConfig =
           Some [mkBatch "/local/ingress" [mkBatchItem "/config" "ingress.json" (C_IngressConfig cfg)]] ∧
    "CA2" ∉ ic_TrustedCAs cfg ∧
    ic_Certificates cfg !! "a.com" = Some (irs_TLS (sample_tls_route "/x" "CA1")).
Proof.
  apply (@second_tls_route_ca_dropped list_range zeroMeshConfig "" (sample_tls_route "/x" "CA1")
           (sample_tls_route "/y" "CA2") (mkCert "" "" "CA2")); try reflexivity; try done.
  by intros c [= <-].
Defined.
