(* ===== verification/LocalCache.v ===== *)
(** * The cache of the local connector ([pkg/cache/local_cache.go], the event
    handlers of [pkg/cache])

    The handlers run one at a time with respect to the trackers (each tracker has
    a lock), and [syncRoutes] holds the lock of the cache.  The goroutines that
    push batches to the repository are pending pushes, which finish later, in any
    order and with any outcome. *)

From S2P Require Import Prelude GoLib Kube Tracker CacheTypes McsTypes EndpointsCache ServiceCache ServiceImportCache IngressCache Repo Config RouteBuild.

(** Which version a push updates when it succeeds. *)
Inductive push_kind : Type := ServicePush | IngressPush.

Record push : Type := mkPush {
  p_kind : push_kind;
  p_batches : list Batch;
  p_hash : string
}.

Record LocalCache : Type := mkLocalCache {
  lc_serviceChanges : ServiceChangeTracker;
  lc_endpointsChanges : EndpointChangeTracker;
  lc_ingressChanges : IngressChangeTracker;
  lc_serviceImportChanges : ServiceImportChangeTracker;
  lc_serviceMap : ServiceMap;
  lc_endpointsMap : EndpointsMap;
  lc_ingressMap : IngressMap;
  lc_serviceImportMap : ServiceImportMap;
  lc_multiClusterEndpointsMap : MultiClusterEndpointsMap;
  lc_endpointsSynced : bool;
  lc_servicesSynced : bool;
  lc_ingressesSynced : bool;
  lc_ingressClassesSynced : bool;
  lc_serviceImportSynced : bool;
  lc_initialized : Z;
  lc_ingressRoutesVersion : string;
  lc_serviceRoutesVersion : string;
  (** the package variable [ingresspipy.DefaultIngressClass] *)
  lc_DefaultIngressClass : string;
  (** whether [syncRunner.Run] was called since the last sync *)
  lc_syncRequested : bool;
  (** the goroutines of [syncRoutes] that have not finished *)
  lc_pending : list push
}.

Definition newLocalCache : LocalCache :=
  mkLocalCache (NewServiceChangeTracker (Some enrichServiceInfo)) (NewEndpointChangeTracker None)
    NewIngressChangeTracker (NewServiceImportChangeTracker (Some enrichServiceImportInfo) None)
    ∅ ∅ ∅ ∅ ∅ false false false false false 0 "" "" NoDefaultIngressClass false [].

(** ** Field updates *)

(** The maps with their trackers. *)
Record tracked : Type := mkTracked {
  tr_serviceChanges : ServiceChangeTracker;
  tr_endpointsChanges : EndpointChangeTracker;
  tr_ingressChanges : IngressChangeTracker;
  tr_serviceImportChanges : ServiceImportChangeTracker;
  tr_serviceMap : ServiceMap;
  tr_endpointsMap : EndpointsMap;
  tr_ingressMap : IngressMap;
  tr_serviceImportMap : ServiceImportMap;
  tr_multiClusterEndpointsMap : MultiClusterEndpointsMap
}.

Definition get_tracked (c : LocalCache) : tracked :=
  mkTracked (lc_serviceChanges c) (lc_endpointsChanges c) (lc_ingressChanges c)
    (lc_serviceImportChanges c) (lc_serviceMap c) (lc_endpointsMap c) (lc_ingressMap c)
    (lc_serviceImportMap c) (lc_multiClusterEndpointsMap c).

Definition set_tracked (c : LocalCache) (t : tracked) : LocalCache :=
  mkLocalCache (tr_serviceChanges t) (tr_endpointsChanges t) (tr_ingressChanges t)
    (tr_serviceImportChanges t) (tr_serviceMap t) (tr_endpointsMap t) (tr_ingressMap t)
    (tr_serviceImportMap t) (tr_multiClusterEndpointsMap t)
    (lc_endpointsSynced c) (lc_servicesSynced c) (lc_ingressesSynced c) (lc_ingressClassesSynced c)
    (lc_serviceImportSynced c) (lc_initialized c) (lc_ingressRoutesVersion c)
    (lc_serviceRoutesVersion c) (lc_DefaultIngressClass c) (lc_syncRequested c) (lc_pending c).

Definition set_flags (c : LocalCache) (eps svcs ings classes imps : bool) (initialized : Z) : LocalCache :=
  mkLocalCache (lc_serviceChanges c) (lc_endpointsChanges c) (lc_ingressChanges c)
    (lc_serviceImportChanges c) (lc_serviceMap c) (lc_endpointsMap c) (lc_ingressMap c)
    (lc_serviceImportMap c) (lc_multiClusterEndpointsMap c) eps svcs ings classes imps initialized
    (lc_ingressRoutesVersion c) (lc_serviceRoutesVersion c) (lc_DefaultIngressClass c)
    (lc_syncRequested c) (lc_pending c).

Definition set_runtime (c : LocalCache) (ingV svcV class : string) (req : bool) (pending : list push) :
    LocalCache :=
  mkLocalCache (lc_serviceChanges c) (lc_endpointsChanges c) (lc_ingressChanges c)
    (lc_serviceImportChanges c) (lc_serviceMap c) (lc_endpointsMap c) (lc_ingressMap c)
    (lc_serviceImportMap c) (lc_multiClusterEndpointsMap c)
    (lc_endpointsSynced c) (lc_servicesSynced c) (lc_ingressesSynced c) (lc_ingressClassesSynced c)
    (lc_serviceImportSynced c) (lc_initialized c) ingV svcV class req pending.

(** [go func() { ... }()] *)
Definition launch (p : push) (c : LocalCache) : LocalCache :=
  set_runtime c (lc_ingressRoutesVersion c) (lc_serviceRoutesVersion c) (lc_DefaultIngressClass c)
    (lc_syncRequested c) (lc_pending c ++ [p]).

Definition set_syncRequested (b : bool) (c : LocalCache) : LocalCache :=
  set_runtime c (lc_ingressRoutesVersion c) (lc_serviceRoutesVersion c) (lc_DefaultIngressClass c)
    b (lc_pending c).

Definition setInitialized (value : bool) : Z := if value then 1%Z else 0%Z.
Definition isInitialized (c : LocalCache) : bool := (0 <? lc_initialized c)%Z.
Definition Sync (c : LocalCache) : LocalCache := set_syncRequested true c.

(** The informers as the trackers see them, with the current default class. *)
Definition with_class (env : IngressEnv) (c : LocalCache) : IngressEnv :=
  mkIngressEnv (env_ServiceStore env) (env_ServiceAPI env) (env_Secrets env) (lc_DefaultIngressClass c).

Section local_cache.
Context `{KubeLib} `{X509Lib} `{MapRange} `{HashStructure}.
(** What the informers and the API server hold while a handler runs. *)
Context (env : IngressEnv).
Context (svcLister : NamespacedName → result string Service).
(** All ingresses the lister returns. *)
Context (ingresses : result string (list Ingress)).
(** [c.clusterCfg.MeshConfig.GetConfig()] *)
Context (meshConfig : go MeshConfig).

(** ** Synchronisation *)

(** The five [Update] calls at the start of [syncRoutes]. *)
Definition update_maps (t : tracked) : tracked :=
  let '(sm, sct) := ServiceMap_Update (tr_serviceMap t) (tr_serviceChanges t) in
  let '(sim, ict) := ServiceImportMap_Update (tr_serviceImportMap t) (tr_serviceImportChanges t) in
  let '(mem, ict) := MultiClusterEndpointsMap_Update (tr_multiClusterEndpointsMap t) (Some ict) in
  let '(em, ect) := EndpointsMap_Update (tr_endpointsMap t) (Some (tr_endpointsChanges t)) in
  let '(im, igt) := IngressMap_Update (tr_ingressMap t) (Some (tr_ingressChanges t)) in
  mkTracked sct (default (tr_endpointsChanges t) ect) (default (tr_ingressChanges t) igt)
    (default (tr_serviceImportChanges t) ict) sm em im sim mem.

(** Every ingress of the class is recorded again, as if it were new. *)
Definition refreshIngress (c : LocalCache) : go LocalCache :=
  let l := match ingresses with Ok l => l | Err _ => [] end in
  ict ← go_foldl (fun ict ing =>
          if IsValidPipyIngress (lc_DefaultIngressClass c) ing then
            r ← IngressChangeTracker_Update (with_class env c) ict None (Some ing);
            Ret r.2
          else Ret ict) (lc_ingressChanges c) l;
  let '(im, ict') := IngressMap_Update (lc_ingressMap c) (Some ict) in
  let t := get_tracked c in
  Ret (set_tracked c (mkTracked (tr_serviceChanges t) (tr_endpointsChanges t) (default ict ict')
         (tr_serviceImportChanges t) (tr_serviceMap t) (tr_endpointsMap t) im
         (tr_serviceImportMap t) (tr_multiClusterEndpointsMap t))).

Definition sync_services (mc : MeshConfig) (c : LocalCache) : go LocalCache :=
  let serviceRoutes := buildServiceRoutes (lc_serviceMap c) (lc_serviceImportMap c)
                         (lc_endpointsMap c) (lc_multiClusterEndpointsMap c) in
  if bool_decide (lc_serviceRoutesVersion c ≠ sr_Hash serviceRoutes) then
    let c := match serviceBatches serviceRoutes mc with
             | Some batches => launch (mkPush ServicePush batches (sr_Hash serviceRoutes)) c
             | None => c
             end in
    refreshIngress c
  else Ret c.

Definition sync_ingresses (mc : MeshConfig) (c : LocalCache) : go LocalCache :=
  ingressRoutes ← buildIngressConfig (lc_ingressMap c) (lc_endpointsMap c);
  if bool_decide (lc_ingressRoutesVersion c ≠ id_Hash ingressRoutes) then
    Ret (match ingressBatches ingressRoutes mc with
         | Some batches => launch (mkPush IngressPush batches (id_Hash ingressRoutes)) c
         | None => c
         end)
  else Ret c.

Definition syncRoutes (c : LocalCache) : go LocalCache :=
  let c := set_tracked c (update_maps (get_tracked c)) in
  mc ← meshConfig;
  c ← sync_services mc c;
  sync_ingresses mc c.

(** A push finishes: only a success moves the version. *)
Definition finish_push (p : push) (r : result string unit) (c : LocalCache) : LocalCache :=
  match r with
  | Err _ => c
  | Ok _ =>
    match p_kind p with
    | ServicePush => set_runtime c (lc_ingressRoutesVersion c) (p_hash p) (lc_DefaultIngressClass c)
                       (lc_syncRequested c) (lc_pending c)
    | IngressPush => set_runtime c (p_hash p) (lc_serviceRoutesVersion c) (lc_DefaultIngressClass c)
                       (lc_syncRequested c) (lc_pending c)
    end
  end.

(** ** Event handlers *)

(** [if changed && c.isInitialized() { c.Sync() }] *)
Definition maybe_sync (changed : bool) (c : LocalCache) : LocalCache :=
  if changed && isInitialized c then Sync c else c.

Definition OnServiceUpdate (oldService service : option Service) (c : LocalCache) : LocalCache :=
  let '(changed, sct) := ServiceChangeTracker_Update (lc_serviceChanges c) oldService service in
  let t := get_tracked c in
  maybe_sync changed (set_tracked c (mkTracked sct (tr_endpointsChanges t) (tr_ingressChanges t)
    (tr_serviceImportChanges t) (tr_serviceMap t) (tr_endpointsMap t) (tr_ingressMap t)
    (tr_serviceImportMap t) (tr_multiClusterEndpointsMap t))).
Definition OnServiceAdd (service : Service) : LocalCache → LocalCache := OnServiceUpdate None (Some service).
Definition OnServiceDelete (service : Service) : LocalCache → LocalCache := OnServiceUpdate (Some service) None.

Definition OnEndpointsUpdate (oldEndpoints endpoints : option Endpoints) (c : LocalCache) : LocalCache :=
  let '(changed, ect) := EndpointChangeTracker_Update (lc_endpointsChanges c) oldEndpoints endpoints in
  let t := get_tracked c in
  maybe_sync changed (set_tracked c (mkTracked (tr_serviceChanges t) ect (tr_ingressChanges t)
    (tr_serviceImportChanges t) (tr_serviceMap t) (tr_endpointsMap t) (tr_ingressMap t)
    (tr_serviceImportMap t) (tr_multiClusterEndpointsMap t))).
Definition OnEndpointsAdd (e : Endpoints) : LocalCache → LocalCache := OnEndpointsUpdate None (Some e).
Definition OnEndpointsDelete (e : Endpoints) : LocalCache → LocalCache := OnEndpointsUpdate (Some e) None.

Definition OnServiceImportUpdate (old new : option ServiceImport) (c : LocalCache) : LocalCache :=
  let '(changed, ict) := ServiceImportChangeTracker_Update svcLister (lc_serviceImportChanges c) old new in
  let t := get_tracked c in
  maybe_sync changed (set_tracked c (mkTracked (tr_serviceChanges t) (tr_endpointsChanges t)
    (tr_ingressChanges t) ict (tr_serviceMap t) (tr_endpointsMap t) (tr_ingressMap t)
    (tr_serviceImportMap t) (tr_multiClusterEndpointsMap t))).

Definition OnServiceImportAdd (i : ServiceImport) : LocalCache → LocalCache :=
  OnServiceImportUpdate None (Some i).
Definition OnServiceImportDelete (i : ServiceImport) : LocalCache → LocalCache :=
  OnServiceImportUpdate (Some i) None.

Definition onIngressUpdate (oldIngress ingress : option Ingress) (c : LocalCache) : go LocalCache :=
  r ← IngressChangeTracker_Update (with_class env c) (lc_ingressChanges c) oldIngress ingress;
  let t := get_tracked c in
  Ret (maybe_sync r.1 (set_tracked c (mkTracked (tr_serviceChanges t) (tr_endpointsChanges t) r.2
    (tr_serviceImportChanges t) (tr_serviceMap t) (tr_endpointsMap t) (tr_ingressMap t)
    (tr_serviceImportMap t) (tr_multiClusterEndpointsMap t)))).

Definition OnIngressv1Add (i : Ingress) : LocalCache → go LocalCache := onIngressUpdate None (Some i).
Definition OnIngressv1Update (o i : Ingress) : LocalCache → go LocalCache :=
  onIngressUpdate (Some o) (Some i).
Definition OnIngressv1Delete (i : Ingress) : LocalCache → go LocalCache := onIngressUpdate (Some i) None.

Definition updateDefaultIngressClass (class : IngressClass) (className : string) (c : LocalCache) : LocalCache :=
  match gm_val (Annotations (ic_Meta class)) !! IngressClassAnnotationKey with
  | Some isDefault =>
    if bool_decide (isDefault = "true")
    then set_runtime c (lc_ingressRoutesVersion c) (lc_serviceRoutesVersion c) className
           (lc_syncRequested c) (lc_pending c)
    else c
  | None => c
  end.

Definition OnIngressClassv1Add (class : IngressClass) : LocalCache → LocalCache :=
  updateDefaultIngressClass class (Name (ic_Meta class)).
Definition OnIngressClassv1Update (oldClass class : IngressClass) (c : LocalCache) : LocalCache :=
  if bool_decide (ResourceVersion (ic_Meta oldClass) = ResourceVersion (ic_Meta class)) then c
  else updateDefaultIngressClass class (Name (ic_Meta class)) c.
Definition OnIngressClassv1Delete (class : IngressClass) : LocalCache → LocalCache :=
  updateDefaultIngressClass class NoDefaultIngressClass.

(** The five [On...Synced] handlers: mark the resource as synced, recompute
    [initialized] from the four others, and sync at once. *)
Definition OnEndpointsSynced (c : LocalCache) : go LocalCache :=
  syncRoutes (set_flags c true (lc_servicesSynced c) (lc_ingressesSynced c) (lc_ingressClassesSynced c)
    (lc_serviceImportSynced c)
    (setInitialized (lc_servicesSynced c && lc_serviceImportSynced c && lc_ingressesSynced c &&
                     lc_ingressClassesSynced c))).
Definition OnServiceSynced (c : LocalCache) : go LocalCache :=
  syncRoutes (set_flags c (lc_endpointsSynced c) true (lc_ingressesSynced c) (lc_ingressClassesSynced c)
    (lc_serviceImportSynced c)
    (setInitialized (lc_serviceImportSynced c && lc_endpointsSynced c && lc_ingressesSynced c &&
                     lc_ingressClassesSynced c))).
Definition OnIngressv1Synced (c : LocalCache) : go LocalCache :=
  syncRoutes (set_flags c (lc_endpointsSynced c) (lc_servicesSynced c) true (lc_ingressClassesSynced c)
    (lc_serviceImportSynced c)
    (setInitialized (lc_servicesSynced c && lc_endpointsSynced c && lc_serviceImportSynced c &&
                     lc_ingressClassesSynced c))).
Definition OnIngressClassv1Synced (c : LocalCache) : go LocalCache :=
  syncRoutes (set_flags c (lc_endpointsSynced c) (lc_servicesSynced c) (lc_ingressesSynced c) true
    (lc_serviceImportSynced c)
    (setInitialized (lc_ingressesSynced c && lc_servicesSynced c && lc_endpointsSynced c &&
                     lc_serviceImportSynced c))).
Definition OnServiceImportSynced (c : LocalCache) : go LocalCache :=
  syncRoutes (set_flags c (lc_endpointsSynced c) (lc_servicesSynced c) (lc_ingressesSynced c)
    (lc_ingressClassesSynced c) true
    (setInitialized (lc_servicesSynced c && lc_endpointsSynced c && lc_ingressesSynced c &&
                     lc_ingressClassesSynced c))).
End local_cache.

(** ** The cache as a state machine

    Informer notifications in any order, the runs of the sync runner, and the
    ends of the pushes.  The informers' contents and the answers of the API
    server and of the repository are arbitrary at every step; a handler that
    panics ends the process. *)
Section machine.
Context `{KubeLib} `{X509Lib} `{MapRange} `{HashStructure}.

Inductive lc_step : LocalCache → LocalCache → Prop :=
| step_service old new c : lc_step c (OnServiceUpdate old new c)
| step_endpoints old new c : lc_step c (OnEndpointsUpdate old new c)
| step_import lister old new c : lc_step c (OnServiceImportUpdate lister old new c)
| step_ingress env old new c c' :
    onIngressUpdate env old new c = Ret c' → lc_step c c'
| step_class_add class c : lc_step c (OnIngressClassv1Add class c)
| step_class_update oldClass class c : lc_step c (OnIngressClassv1Update oldClass class c)
| step_class_delete class c : lc_step c (OnIngressClassv1Delete class c)
| step_endpoints_synced env ings mc c c' :
    OnEndpointsSynced env ings mc c = Ret c' → lc_step c c'
| step_services_synced env ings mc c c' :
    OnServiceSynced env ings mc c = Ret c' → lc_step c c'
| step_ingresses_synced env ings mc c c' :
    OnIngressv1Synced env ings mc c = Ret c' → lc_step c c'
| step_classes_synced env ings mc c c' :
    OnIngressClassv1Synced env ings mc c = Ret c' → lc_step c c'
| step_imports_synced env ings mc c c' :
    OnServiceImportSynced env ings mc c = Ret c' → lc_step c c'
| step_run env ings mc c c' :
    syncRoutes env ings mc (set_syncRequested false c) = Ret c' → lc_step c c'
| step_push p l1 l2 r c :
    lc_pending c = l1 ++ p :: l2 →
    lc_step c (finish_push p r (set_runtime c (lc_ingressRoutesVersion c) (lc_serviceRoutesVersion c)
                                  (lc_DefaultIngressClass c) (lc_syncRequested c) (l1 ++ l2))).

(** The flags and the sync request, which a sync leaves alone. *)
Definition status (c : LocalCache) : bool * bool * bool * bool * bool * Z * bool :=
  (lc_endpointsSynced c, lc_servicesSynced c, lc_ingressesSynced c, lc_ingressClassesSynced c,
   lc_serviceImportSynced c, lc_initialized c, lc_syncRequested c).

Lemma refreshIngress_status env ings c c' : refreshIngress env ings c = Ret c' → status c' = status c.
Proof.
  unfold refreshIngress. intros (ict & _ & Hr)%go_bind_ret.
  destruct (IngressMap_Update _ _) as [im ict']. by injection Hr as <-.
Qed.

Lemma sync_services_status env ings mc c c' :
  sync_services env ings mc c = Ret c' → status c' = status c.
Proof.
  unfold sync_services. case_bool_decide; [|by intros [= <-]].
  by intros ->%refreshIngress_status.
Qed.

Lemma sync_ingresses_status mc c c' : sync_ingresses mc c = Ret c' → status c' = status c.
Proof.
  unfold sync_ingresses. intros (d & _ & Hr)%go_bind_ret. revert Hr.
  by case_bool_decide; intros [= <-].
Qed.

Lemma syncRoutes_status env ings mc c c' : syncRoutes env ings mc c = Ret c' → status c' = status c.
Proof.
  unfold syncRoutes. intros (m & _ & (c1 & HA & HB)%go_bind_ret)%go_bind_ret.
  by rewrite (sync_ingresses_status _ _ _ HB), (sync_services_status _ _ _ _ _ HA).
Qed.

(** [initialized] is set exactly when all five resources are synced, and a sync
    is requested only then. *)
Definition all_synced (c : LocalCache) : bool :=
  lc_endpointsSynced c && lc_servicesSynced c && lc_ingressesSynced c &&
  lc_ingressClassesSynced c && lc_serviceImportSynced c.

Definition status_ok (c : LocalCache) : Prop :=
  lc_initialized c = setInitialized (all_synced c) ∧
  (lc_syncRequested c = true → all_synced c = true).

Lemma status_ok_eq c c' : status c' = status c → status_ok c → status_ok c'.
Proof. unfold status_ok, all_synced. intros [=]. by repeat match goal with H : _ c' = _ |- _ => rewrite H end. Qed.

Lemma maybe_sync_ok b c : status_ok c → status_ok (maybe_sync b c).
Proof.
  intros [Hi Hr]. unfold maybe_sync. destruct (b && isInitialized c) eqn:Hb; [|done].
  apply andb_true_iff in Hb as [_ Hb]. split; [exact Hi|]. intros _.
  unfold isInitialized in Hb. rewrite Hi in Hb. change (all_synced (Sync c)) with (all_synced c).
  by destruct (all_synced c).
Qed.

Lemma updateDefaultIngressClass_status class n c : status (updateDefaultIngressClass class n c) = status c.
Proof. unfold updateDefaultIngressClass. destruct (_ !! _); [|done]. by case_bool_decide. Qed.

Lemma synced_ok c c0 c' :
  status c' = status c0 → lc_syncRequested c0 = lc_syncRequested c →
  lc_initialized c0 = setInitialized (all_synced c0) →
  (all_synced c = true → all_synced c0 = true) →
  status_ok c → status_ok c'.
Proof. intros Hs Hq Hi Ha [_ Hr]. apply (status_ok_eq c0); [done|]. split; [done|]. rewrite Hq. auto. Qed.

Ltac synced_step c Hr :=
  apply syncRoutes_status in Hr; eapply (synced_ok c); [exact Hr|done|..|done];
  unfold all_synced; simpl;
  destruct (lc_endpointsSynced c), (lc_servicesSynced c), (lc_ingressesSynced c),
    (lc_ingressClassesSynced c), (lc_serviceImportSynced c); done.

Lemma lc_step_status c c' : lc_step c c' → status_ok c → status_ok c'.
Proof.
  intros Hstep Hok. destruct Hstep as
    [old new c|old new c|lister old new c|env old new c c' Hr|class c|oldC class c|class c
    |env ings mc c c' Hr|env ings mc c c' Hr|env ings mc c c' Hr|env ings mc c c' Hr|env ings mc c c' Hr
    |env ings mc c c' Hr|p l1 l2 r c Hp].
  - unfold OnServiceUpdate. destruct (ServiceChangeTracker_Update _ _ _). by apply maybe_sync_ok.
  - unfold OnEndpointsUpdate. destruct (EndpointChangeTracker_Update _ _ _). by apply maybe_sync_ok.
  - unfold OnServiceImportUpdate. destruct (ServiceImportChangeTracker_Update _ _ _ _). by apply maybe_sync_ok.
  - unfold onIngressUpdate in Hr. apply go_bind_ret in Hr as ([b t] & _ & [= <-]). by apply maybe_sync_ok.
  - by eapply status_ok_eq; [apply updateDefaultIngressClass_status|].
  - unfold OnIngressClassv1Update. case_bool_decide; [done|].
    by eapply status_ok_eq; [apply updateDefaultIngressClass_status|].
  - by eapply status_ok_eq; [apply updateDefaultIngressClass_status|].
  - synced_step c Hr.
  - synced_step c Hr.
  - synced_step c Hr.
  - synced_step c Hr.
  - synced_step c Hr.
  - apply syncRoutes_status in Hr. eapply status_ok_eq; [exact Hr|]. destruct Hok as [Hi _]. by split.
  - unfold finish_push. by destruct r; [destruct (p_kind p)|].
Qed.
End machine.

(** ** Properties *)

(** A change of a tracker is answered by a request for a run of the sync runner
    exactly when the cache is initialized. *)
Lemma maybe_sync_requests b c :
  lc_syncRequested (maybe_sync b c) = lc_syncRequested c || (b && isInitialized c).
Proof. unfold maybe_sync. destruct (b && isInitialized c); [by rewrite orb_true_r|by rewrite orb_false_r]. Qed.

(** C17 (invariant).  However notifications, syncs and pushes interleave, the cache counts as
    initialized exactly when the services, endpoints, ingresses, ingress classes and
    service imports have all been synced; a run of the sync runner is requested only
    then; and from then on every change that a tracker reports for services, endpoints or
    service imports requests one. *)
Theorem initialized_iff_all_synced `{KubeLib} `{X509Lib} `{MapRange} `{HashStructure} c :
  rtc lc_step newLocalCache c →
  isInitialized c = (lc_endpointsSynced c && lc_servicesSynced c && lc_ingressesSynced c &&
                     lc_ingressClassesSynced c && lc_serviceImportSynced c) ∧
  (lc_syncRequested c = true → isInitialized c = true) ∧
  (isInitialized c = true →
     (∀ old new, (ServiceChangeTracker_Update (lc_serviceChanges c) old new).1 = true →
        lc_syncRequested (OnServiceUpdate old new c) = true) ∧
     (∀ old new, (EndpointChangeTracker_Update (lc_endpointsChanges c) old new).1 = true →
        lc_syncRequested (OnEndpointsUpdate old new c) = true) ∧
     (∀ lister old new, (ServiceImportChangeTracker_Update lister (lc_serviceImportChanges c) old new).1 = true →
        lc_syncRequested (OnServiceImportUpdate lister old new c) = true)).
Proof.
  intros Hr. assert (status_ok c) as [Hi Hq].
  { revert Hr. apply rtc_invariant; [by split|]. intros s s'. apply lc_step_status. }
  assert (Heq : isInitialized c = all_synced c).
  { unfold isInitialized. rewrite Hi. by destruct (all_synced c). }
  split_and!; [done|by rewrite Heq|]. intros Hinit. split_and!.
  - intros old new. unfold OnServiceUpdate. destruct (ServiceChangeTracker_Update _ _ _) as [b t]. simpl. intros ->.
    rewrite maybe_sync_requests. change (isInitialized (set_tracked c _)) with (isInitialized c).
    by rewrite Hinit, orb_true_r.
  - intros old new. unfold OnEndpointsUpdate. destruct (EndpointChangeTracker_Update _ _ _) as [b t]. simpl. intros ->.
    rewrite maybe_sync_requests. change (isInitialized (set_tracked c _)) with (isInitialized c).
    by rewrite Hinit, orb_true_r.
  - intros lister old new. unfold OnServiceImportUpdate.
    destruct (ServiceImportChangeTracker_Update _ _ _ _) as [b t]. simpl. intros ->.
    rewrite maybe_sync_requests. change (isInitialized (set_tracked c _)) with (isInitialized c).
    by rewrite Hinit, orb_true_r.
Qed.

(** *** A run: the five informers sync, and the first push succeeds *)

Section initialized_run.
#[local] Existing Instances sample_lib sample_x509 list_range sample_hash.

Definition ret_or_new (m : go LocalCache) : LocalCache := match m with Ret c => c | Panic => newLocalCache end.

Lemma ret_or_new_ret m : match m with Ret _ => true | Panic => false end = true → m = Ret (ret_or_new m).
Proof. by destruct m. Qed.

Definition run_mc : go MeshConfig := Ret zeroMeshConfig.
Definition run_cache1 := ret_or_new (OnEndpointsSynced sample_ing_env (Ok []) run_mc newLocalCache).
Definition run_cache2 := ret_or_new (OnServiceSynced sample_ing_env (Ok []) run_mc run_cache1).
Definition run_cache3 := ret_or_new (OnIngressv1Synced sample_ing_env (Ok []) run_mc run_cache2).
Definition run_cache4 := ret_or_new (OnIngressClassv1Synced sample_ing_env (Ok []) run_mc run_cache3).
Definition run_cache5 := ret_or_new (OnServiceImportSynced sample_ing_env (Ok []) run_mc run_cache4).
Definition run_cache : LocalCache :=
  match lc_pending run_cache5 with
  | p :: l => finish_push p (Ok tt) (set_runtime run_cache5 (lc_ingressRoutesVersion run_cache5)
      (lc_serviceRoutesVersion run_cache5) (lc_DefaultIngressClass run_cache5) (lc_syncRequested run_cache5) l)
  | [] => run_cache5
  end.

Lemma run_cache_reachable : rtc lc_step newLocalCache run_cache.
Proof.
  eapply rtc_l; [apply (step_endpoints_synced sample_ing_env (Ok []) run_mc _ run_cache1), ret_or_new_ret; vm_compute; reflexivity|].
  eapply rtc_l; [apply (step_services_synced sample_ing_env (Ok []) run_mc _ run_cache2), ret_or_new_ret; vm_compute; reflexivity|].
  eapply rtc_l; [apply (step_ingresses_synced sample_ing_env (Ok []) run_mc _ run_cache3), ret_or_new_ret; vm_compute; reflexivity|].
  eapply rtc_l; [apply (step_classes_synced sample_ing_env (Ok []) run_mc _ run_cache4), ret_or_new_ret; vm_compute; reflexivity|].
  eapply rtc_l; [apply (step_imports_synced sample_ing_env (Ok []) run_mc _ run_cache5), ret_or_new_ret; vm_compute; reflexivity|].
  unfold run_cache. destruct (lc_pending run_cache5) as [|p l] eqn:E; [done|].
  apply rtc_once. by apply (step_push p [] l).
Qed.

Lemma initialized_iff_all_synced_witness :
  isInitialized run_cache = true ∧ lc_serviceRoutesVersion run_cache ≠ "" ∧
  lc_syncRequested (OnServiceAdd (sample_service "ClusterIP") run_cache) = true.
Proof.
  destruct (initialized_iff_all_synced run_cache run_cache_reachable) as (Hi & _ & Hreq).
  assert (Hinit : isInitialized run_cache = true) by (rewrite Hi; vm_compute; reflexivity).
  split; [exact Hinit|]. split; [vm_compute; discriminate|].
  apply (proj1 (Hreq Hinit)). vm_compute. reflexivity.
Defined.
End initialized_run.

(** The maps the service routes are built from. *)
Definition service_maps (c : LocalCache) :=
  (lc_serviceMap c, lc_serviceImportMap c, lc_endpointsMap c, lc_multiClusterEndpointsMap c).

Section pushes.
Context `{KubeLib} `{X509Lib} `{MapRange} `{HashStructure}.

Definition current_service_routes (c : LocalCache) : ServiceRoute :=
  buildServiceRoutes (lc_serviceMap c) (lc_serviceImportMap c) (lc_endpointsMap c)
    (lc_multiClusterEndpointsMap c).

(** The version of the services is that of the current routes, or a push of the
    current routes is under way. *)
Definition services_covered (mc : MeshConfig) (c : LocalCache) : Prop :=
  lc_serviceRoutesVersion c = sr_Hash (current_service_routes c) ∨
  ∃ p, p ∈ lc_pending c ∧ p_kind p = ServicePush ∧
    p_hash p = sr_Hash (current_service_routes c) ∧
    serviceBatches (current_service_routes c) mc = Some (p_batches p).

Definition ingresses_covered (mc : MeshConfig) (c : LocalCache) : Prop :=
  ∃ d, buildIngressConfig (lc_ingressMap c) (lc_endpointsMap c) = Ret d ∧
    (lc_ingressRoutesVersion c = id_Hash d ∨
     ∃ p, p ∈ lc_pending c ∧ p_kind p = IngressPush ∧ p_hash p = id_Hash d ∧
       ingressBatches d mc = Some (p_batches p)).

(** What [refreshIngress] and [sync_ingresses] leave alone. *)
Lemma refreshIngress_frame env ings c c' :
  refreshIngress env ings c = Ret c' →
  service_maps c' = service_maps c ∧ lc_pending c' = lc_pending c ∧
  lc_serviceRoutesVersion c' = lc_serviceRoutesVersion c.
Proof.
  unfold refreshIngress. intros (ict & _ & Hr)%go_bind_ret.
  destruct (IngressMap_Update _ _) as [im ict']. by injection Hr as <-.
Qed.

Lemma services_covered_frame mc c c' :
  service_maps c' = service_maps c → lc_serviceRoutesVersion c' = lc_serviceRoutesVersion c →
  (∀ p, p ∈ lc_pending c → p ∈ lc_pending c') →
  services_covered mc c → services_covered mc c'.
Proof.
  intros Hm Hv Hp. unfold services_covered, current_service_routes.
  injection Hm as -> -> -> ->. rewrite Hv. intros [?|(p & ? & ?)]; [by left|right; eauto].
Qed.

Lemma sync_services_covered env ings mc c c' :
  sync_services env ings mc c = Ret c' → services_covered mc c'.
Proof.
  unfold sync_services. case_bool_decide as Hv.
  - intros (Hm & Hp & Hv')%refreshIngress_frame.
    eapply services_covered_frame; [exact Hm|exact Hv'|by rewrite Hp|].
    right. eexists. split; [simpl; apply elem_of_app; right; by left|]. done.
  - intros [= <-]. by left.
Qed.

Lemma sync_ingresses_frame mc c c' :
  sync_ingresses mc c = Ret c' →
  service_maps c' = service_maps c ∧ lc_serviceRoutesVersion c' = lc_serviceRoutesVersion c ∧
  lc_ingressMap c' = lc_ingressMap c ∧ (∀ p, p ∈ lc_pending c → p ∈ lc_pending c').
Proof.
  unfold sync_ingresses. intros (d & _ & Hr)%go_bind_ret. revert Hr.
  case_bool_decide; intros [= <-]; [|done]. split_and!; [done..|].
  intros p Hp. simpl. apply elem_of_app. by left.
Qed.

Lemma sync_ingresses_covered mc c c' :
  sync_ingresses mc c = Ret c' → ingresses_covered mc c'.
Proof.
  intros Hs. destruct (sync_ingresses_frame mc c c' Hs) as (Hm & _ & Him & _).
  revert Hs. unfold sync_ingresses. intros (d & Hd & Hr)%go_bind_ret.
  exists d. injection Hm as _ _ Hem _. rewrite Him, Hem. split; [done|]. revert Hr.
  case_bool_decide as Hv; intros [= <-].
  - right. eexists. split; [simpl; apply elem_of_app; right; by left|]. done.
  - by left.
Qed.
End pushes.

Lemma syncRoutes_covered `{KubeLib} `{X509Lib} `{MapRange} `{HashStructure} env ings mc c c' :
  syncRoutes env ings (Ret mc) c = Ret c' → services_covered mc c' ∧ ingresses_covered mc c'.
Proof.
  unfold syncRoutes. simpl. intros (c1 & HA & HB)%go_bind_ret. split; [|by eapply sync_ingresses_covered].
  destruct (sync_ingresses_frame _ _ _ HB) as (Hm & Hv & _ & Hp).
  eapply services_covered_frame; [done..|]. by eapply sync_services_covered.
Qed.

(** *** What a sync launches *)

Section retry.
Context `{KubeLib} `{X509Lib} `{MapRange} `{HashStructure}.

(** No change is pending. *)
Definition settled (t : tracked) : Prop :=
  sct_items (tr_serviceChanges t) = ∅ ∧ ect_items (tr_endpointsChanges t) = ∅ ∧
  ingt_items (tr_ingressChanges t) = ∅ ∧ ict_items (tr_serviceImportChanges t) = ∅ ∧
  ict_endpointItems (tr_serviceImportChanges t) = ∅.

Lemma update_maps_settles t : settled (update_maps t).
Proof. done. Qed.

Lemma settled_update_maps t : settled t → update_maps t = t.
Proof.
  destruct t as [[] [] [] [] sm em im sim mem]. unfold settled. simpl. intros (-> & -> & -> & -> & ->).
  unfold update_maps, ServiceMap_Update, ServiceMap_apply, ServiceImportMap_Update, ServiceImportMap_apply,
    MultiClusterEndpointsMap_Update, MultiClusterEndpointsMap_apply, ServiceImportChangeTracker_checkoutChanges,
    EndpointsMap_Update, EndpointsMap_apply, EndpointChangeTracker_checkoutChanges,
    IngressMap_Update, IngressMap_apply, IngressChangeTracker_checkoutChanges. simpl.
  by rewrite !go_range_empty.
Qed.

Definition versions (c : LocalCache) := (lc_serviceRoutesVersion c, lc_ingressRoutesVersion c).

Lemma refreshIngress_settled env ings c c' :
  refreshIngress env ings c = Ret c' →
  versions c' = versions c ∧ (settled (get_tracked c) → settled (get_tracked c')).
Proof.
  unfold refreshIngress. intros (ict & _ & Hr)%go_bind_ret. revert Hr.
  unfold IngressMap_Update, IngressMap_apply, IngressChangeTracker_checkoutChanges. simpl.
  intros [= <-]. split; [done|]. by intros (? & ? & ? & ? & ?).
Qed.

Lemma sync_services_exact env ings mc c c' :
  sync_services env ings mc c = Ret c' →
  ∃ bs, serviceBatches (current_service_routes c) mc = Some bs ∧
    let sp := mkPush ServicePush bs (sr_Hash (current_service_routes c)) in
    service_maps c' = service_maps c ∧ versions c' = versions c ∧
    (settled (get_tracked c) → settled (get_tracked c')) ∧
    lc_pending c' = lc_pending c ++ (if decide (lc_serviceRoutesVersion c = p_hash sp) then [] else [sp]) ∧
    (lc_serviceRoutesVersion c = p_hash sp → c' = c).
Proof.
  unfold sync_services. fold (current_service_routes c). intros Hs. eexists. split; [done|]. cbn [p_hash]. revert Hs.
  destruct (decide (lc_serviceRoutesVersion c = sr_Hash (current_service_routes c))) as [Hv|Hv];
    [rewrite bool_decide_eq_false_2 by auto|rewrite bool_decide_eq_true_2 by done].
  - intros [= <-]. simpl. by rewrite app_nil_r.
  - intros Hr. destruct (refreshIngress_frame _ _ _ _ Hr) as (Hm & Hp & _).
    destruct (refreshIngress_settled _ _ _ _ Hr) as [Hver Hset]. split_and!; [by rewrite Hm|by rewrite Hver|exact Hset|by rewrite Hp|done].
Qed.

Lemma sync_ingresses_exact mc c c' :
  sync_ingresses mc c = Ret c' →
  ∃ d bi, buildIngressConfig (lc_ingressMap c) (lc_endpointsMap c) = Ret d ∧ ingressBatches d mc = Some bi ∧
    let ip := mkPush IngressPush bi (id_Hash d) in
    get_tracked c' = get_tracked c ∧ versions c' = versions c ∧
    lc_pending c' = lc_pending c ++ (if decide (lc_ingressRoutesVersion c = p_hash ip) then [] else [ip]).
Proof.
  unfold sync_ingresses. intros (d & Hd & Hs)%go_bind_ret. exists d. eexists. split; [done|]. split; [done|]. cbn [p_hash].
  revert Hs. destruct (decide (lc_ingressRoutesVersion c = id_Hash d)) as [Hv|Hv];
    [rewrite bool_decide_eq_false_2 by auto|rewrite bool_decide_eq_true_2 by done]; intros [= <-]; [|done].
  simpl. by rewrite app_nil_r.
Qed.

(** What the routes are built from. *)
Lemma tracked_maps c c' :
  get_tracked c' = get_tracked c →
  service_maps c' = service_maps c ∧ lc_ingressMap c' = lc_ingressMap c ∧ lc_endpointsMap c' = lc_endpointsMap c.
Proof. unfold service_maps. intros [= _ _ _ _ -> -> -> -> ->]. done. Qed.

Lemma service_maps_routes c c' :
  service_maps c' = service_maps c → current_service_routes c' = current_service_routes c.
Proof. unfold current_service_routes. intros [= -> -> -> ->]. done. Qed.

(** A push in flight ends with [r]. *)
Definition push_ends (p : push) (r : result string unit) (c c' : LocalCache) : Prop :=
  ∃ l1 l2, lc_pending c = l1 ++ p :: l2 ∧
    c' = finish_push p r (set_runtime c (lc_ingressRoutesVersion c) (lc_serviceRoutesVersion c)
                            (lc_DefaultIngressClass c) (lc_syncRequested c) (l1 ++ l2)).

Definition push_fails (c c' : LocalCache) : Prop := ∃ p e, push_ends p (Err e) c c'.

Lemma push_ends_tracked p r c c' : push_ends p r c c' → get_tracked c' = get_tracked c.
Proof. intros (l1 & l2 & _ & ->). unfold finish_push. destruct r; [|done]. by destruct (p_kind p). Qed.

Lemma push_fails_frame c c' : rtc push_fails c c' → get_tracked c' = get_tracked c ∧ versions c' = versions c.
Proof.
  induction 1 as [|c1 c2 c3 (p & e & Hp) _ [IH1 IH2]]; [done|].
  rewrite IH1, IH2, (push_ends_tracked _ _ _ _ Hp). by destruct Hp as (l1 & l2 & _ & ->).
Qed.

(** The whole sync: what it launches follows from the versions before it and the
    maps after it. *)
Lemma syncRoutes_exact env ings mc c c' :
  syncRoutes env ings (Ret mc) c = Ret c' →
  ∃ d bs bi, buildIngressConfig (lc_ingressMap c') (lc_endpointsMap c') = Ret d ∧
    serviceBatches (current_service_routes c') mc = Some bs ∧ ingressBatches d mc = Some bi ∧
    let sp := mkPush ServicePush bs (sr_Hash (current_service_routes c')) in
    let ip := mkPush IngressPush bi (id_Hash d) in
    versions c' = versions c ∧ settled (get_tracked c') ∧
    lc_pending c' = lc_pending c ++
      (if decide (lc_serviceRoutesVersion c = p_hash sp) then [] else [sp]) ++
      (if decide (lc_ingressRoutesVersion c = p_hash ip) then [] else [ip]) ∧
    service_maps c' = service_maps (set_tracked c (update_maps (get_tracked c))) ∧
    (lc_serviceRoutesVersion c = p_hash sp → get_tracked c' = update_maps (get_tracked c)).
Proof.
  unfold syncRoutes. cbn [mbind go_bind]. set (t := update_maps (get_tracked c)).
  assert (Hset : settled t) by apply update_maps_settles. clearbody t.
  intros (c1 & (bs & Hbs & Hm & Hv & Hset1 & Hp & Hsame)%sync_services_exact &
    (d & bi & Hd & Hbi & Ht & Hv' & Hp')%sync_ingresses_exact)%go_bind_ret. cbv zeta in *.
  destruct (tracked_maps _ _ Ht) as (Hm' & Hi & He). rewrite Hm in Hm'.
  rewrite <-(service_maps_routes _ _ Hm') in Hbs, Hp, Hsame.
  exists d, bs, bi. split_and!; [by rewrite Hi, He|done|done|by rewrite Hv', Hv| | |done|].
  - rewrite Ht. apply Hset1. by destruct t.
  - rewrite Hp', Hp, <-app_assoc. injection Hv as _ ->. done.
  - intros Heq. rewrite Ht, (Hsame Heq). by destruct t.
Qed.

(** A sync of maps without a pending change builds the same routes again. *)
Lemma resync env ings mc c c2 c3 :
  settled (get_tracked c) → get_tracked c2 = get_tracked c → syncRoutes env ings (Ret mc) c2 = Ret c3 →
  current_service_routes c3 = current_service_routes c ∧
  (lc_serviceRoutesVersion c2 = sr_Hash (current_service_routes c) →
     lc_ingressMap c3 = lc_ingressMap c ∧ lc_endpointsMap c3 = lc_endpointsMap c).
Proof.
  intros Hset Ht (d & bs & bi & _ & _ & _ & _ & _ & _ & Hm & Hsame)%syncRoutes_exact.
  rewrite Ht, settled_update_maps in Hm, Hsame by done.
  assert (Hcur : current_service_routes c3 = current_service_routes c) by by apply service_maps_routes.
  split; [done|]. intros Hv. rewrite Hcur in Hsame. by destruct (tracked_maps _ _ (Hsame Hv)) as (_ & ? & ?).
Qed.
End retry.

(** C16 (liveness).  A sync launches a push of the routes of the current maps exactly when their
    hash is not the version of the last push that succeeded, for the service routes and
    for the ingress routes, and leaves both versions alone.  After any number of failed
    pushes the next sync, no other change having come in, launches the push of the
    service routes again, or, when these are up to date, that of the ingress routes; and
    once the push of the service routes has succeeded the next sync launches none. *)
Theorem sync_covers_current_routes `{KubeLib} `{X509Lib} `{MapRange} `{HashStructure} env ings mc c c' :
  syncRoutes env ings (Ret mc) c = Ret c' →
  ∃ d bs bi, buildIngressConfig (lc_ingressMap c') (lc_endpointsMap c') = Ret d ∧
    serviceBatches (current_service_routes c') mc = Some bs ∧ ingressBatches d mc = Some bi ∧
    let sp := mkPush ServicePush bs (sr_Hash (current_service_routes c')) in
    let ip := mkPush IngressPush bi (id_Hash d) in
    lc_serviceRoutesVersion c' = lc_serviceRoutesVersion c ∧
    lc_ingressRoutesVersion c' = lc_ingressRoutesVersion c ∧
    lc_pending c' = lc_pending c ++
      (if decide (lc_serviceRoutesVersion c = p_hash sp) then [] else [sp]) ++
      (if decide (lc_ingressRoutesVersion c = p_hash ip) then [] else [ip]) ∧
    (∀ c2 env2 ings2 c3, rtc push_fails c' c2 → syncRoutes env2 ings2 (Ret mc) c2 = Ret c3 →
       if decide (lc_serviceRoutesVersion c = p_hash sp)
       then lc_pending c3 = lc_pending c2 ++ (if decide (lc_ingressRoutesVersion c = p_hash ip) then [] else [ip])
       else ∃ l, lc_pending c3 = lc_pending c2 ++ sp :: l) ∧
    (∀ c2 env2 ings2 c3, push_ends sp (Ok tt) c' c2 → syncRoutes env2 ings2 (Ret mc) c2 = Ret c3 →
       lc_pending c3 = lc_pending c2 ++ (if decide (lc_ingressRoutesVersion c = p_hash ip) then [] else [ip])).
Proof.
  intros (d & bs & bi & Hd & Hbs & Hbi & Hv & Hset & Hp & _)%syncRoutes_exact. exists d, bs, bi.
  cbv zeta in *. injection Hv as Hvs Hvi. split_and!; [done..| |].
  - intros c2 env2 ings2 c3 [Ht [= Hvs2 Hvi2]]%push_fails_frame Hs. rewrite Hvs in Hvs2. rewrite Hvi in Hvi2.
    destruct (resync _ _ _ _ _ _ Hset Ht Hs) as [Hcur Hing].
    apply syncRoutes_exact in Hs as (d3 & bs3 & bi3 & Hd3 & Hbs3 & Hbi3 & _ & _ & Hp3 & _).
    rewrite Hcur in *. rewrite Hbs in Hbs3. injection Hbs3 as <-. rewrite Hvs2, Hvi2 in Hp3.
    rewrite Hvs2 in Hing. case_decide as Heq; [|rewrite Hp3; by eexists].
    destruct (Hing Heq) as [Hi He]. rewrite Hi, He, Hd in Hd3. injection Hd3 as <-.
    rewrite Hbi in Hbi3. by injection Hbi3 as <-.
  - intros c2 env2 ings2 c3 Hends Hs.
    destruct (resync _ _ _ _ _ _ Hset (push_ends_tracked _ _ _ _ Hends) Hs) as [Hcur Hing].
    assert (Hv2 : lc_serviceRoutesVersion c2 = sr_Hash (current_service_routes c') ∧
      lc_ingressRoutesVersion c2 = lc_ingressRoutesVersion c) by (by destruct Hends as (l1 & l2 & _ & ->)).
    destruct Hv2 as [Hv2 Hi2]. destruct (Hing Hv2) as [Hi He].
    apply syncRoutes_exact in Hs as (d3 & bs3 & bi3 & Hd3 & Hbs3 & Hbi3 & _ & _ & Hp3 & _).
    rewrite Hcur, Hv2, Hi2, decide_True in Hp3 by done. rewrite Hi, He, Hd in Hd3. injection Hd3 as <-.
    rewrite Hbi in Hbi3. by injection Hbi3 as <-.
Qed.

Definition sample_local_cache : LocalCache :=
  @OnServiceAdd sample_lib (sample_service "ClusterIP") newLocalCache.

Lemma sync_covers_current_routes_witness :
  match @syncRoutes sample_lib sample_x509 list_range sample_hash sample_ing_env (Ok [])
          (Ret zeroMeshConfig) sample_local_cache with
  | Ret c' =>
    ∀ c2 c3, rtc push_fails c' c2 →
      @syncRoutes sample_lib sample_x509 list_range sample_hash sample_ing_env (Ok []) (Ret zeroMeshConfig) c2 = Ret c3 →
      ∃ p, p ∈ lc_pending c3 ∧ p_kind p = ServicePush
  | Panic => False
  end.
Proof.
  destruct (@syncRoutes sample_lib sample_x509 list_range sample_hash sample_ing_env (Ok [])
              (Ret zeroMeshConfig) sample_local_cache) as [c'|] eqn:E; [|vm_compute in E; discriminate E].
  intros c2 c3 Hf Hs.
  destruct (@sync_covers_current_routes sample_lib sample_x509 list_range sample_hash
             sample_ing_env (Ok []) zeroMeshConfig sample_local_cache c' E) as (d & bs & bi & _ & _ & _ & _ & _ & _ & Hretry & _).
  specialize (Hretry c2 sample_ing_env (Ok []) c3 Hf Hs). cbv zeta in Hretry.
  destruct (decide _) as [Heq|_].
  - exfalso. vm_compute in E. injection E as <-. vm_compute in Heq. discriminate Heq.
  - destruct Hretry as [l ->]. eexists. split; [apply elem_of_app; right; by left|reflexivity].
Defined.

#[local] Arguments IngressMap_Update : simpl never.
#[local] Arguments update_maps : simpl never.

Section crash.
Context `{KubeLib} `{X509Lib} `{MapRange} `{HashStructure}.

Lemma refresh_one env c ing :
  ingt_items (lc_ingressChanges c) = ∅ → paths_typed ing →
  IsValidPipyIngress (lc_DefaultIngressClass c) ing = true →
  ∃ c', refreshIngress env (Ok [ing]) c = Ret c' ∧
    ∀ k v, ingress_entry (with_class env c) ing k = Some v → lc_ingressMap c' !! k = Some v.
Proof.
  intros Hnone Ht Hv. unfold refreshIngress. simpl. rewrite Hv.
  rewrite fresh_ingress_tracked by done. simpl.
  eexists. split; [done|]. intros k v Hentry.
  etrans; [exact (IngressMap_Update_singleton (lc_ingressMap c) (meta_nn (ing_Meta ing))
    (mkChange None (ingress_map (with_class env c) ing)) k)|].
  simpl. by rewrite ingress_map_lookup, Hentry.
Qed.

Lemma buildIngressConfig_panic im em k route :
  im !! k = Some route → bii_upstream route = None → buildIngressConfig im em = Panic.
Proof.
  intros Hk Hn. unfold buildIngressConfig. rewrite (proj2 (ingress_routes_panic im em)); [done|].
  intros Hu. by apply (Hu k route).
Qed.

Lemma update_maps_ingress t k v nn ch :
  tr_ingressChanges t = mkIngressChangeTracker {[ nn := ch ]} →
  gm_val (current ch) !! k = Some v →
  tr_ingressMap (update_maps t) !! k = Some v ∧ ingt_items (tr_ingressChanges (update_maps t)) = ∅.
Proof.
  intros Ht Hk. unfold update_maps.
  destruct (ServiceMap_Update _ _), (ServiceImportMap_Update _ _), (MultiClusterEndpointsMap_Update _ _),
    (EndpointsMap_Update _ _).
  pose proof (IngressMap_Update_singleton (tr_ingressMap t) nn ch k) as Hs. rewrite Hk in Hs.
  rewrite Ht. split; [exact Hs|done].
Qed.
End crash.

(** An ingress of this controller's class without an annotation map
    takes the process down: its routes have no upstream settings, and the next
    sync dereferences them. *)
Theorem unannotated_ingress_crashes_sync `{KubeLib} `{X509Lib} `{MapRange} `{HashStructure}
    env ing mc c c' k v :
  Annotations (ing_Meta ing) = None →
  paths_typed ing →
  ingt_items (lc_ingressChanges c) = ∅ →
  ingress_entry (with_class env c) ing k = Some v →
  OnIngressv1Add env ing c = Ret c' →
  syncRoutes env (Ok [ing]) (Ret mc) c' = Panic.
Proof.
  intros Hann Ht Hnone Hentry Hadd.
  assert (Hv : IsValidPipyIngress (lc_DefaultIngressClass c) ing = true).
  { unfold ingress_entry in Hentry. simpl in Hentry. by destruct (IsValidPipyIngress _ ing). }
  assert (Hup : bii_upstream v = None).
  { unfold ingress_entry in Hentry. simpl in Hentry. rewrite Hv in Hentry.
    apply head_Some_elem_of, vals_at_elem in Hentry. by eapply entry_upstream. }
  set (ch := mkChange None (ingress_map (with_class env c) ing)).
  assert (Hc' : lc_ingressChanges c' = mkIngressChangeTracker {[ meta_nn (ing_Meta ing) := ch ]} ∧
                lc_DefaultIngressClass c' = lc_DefaultIngressClass c).
  { unfold OnIngressv1Add, onIngressUpdate in Hadd. rewrite fresh_ingress_tracked in Hadd by done.
    injection Hadd as <-. unfold maybe_sync. by destruct (_ && _). }
  destruct Hc' as [Htr Hcl].
  destruct (update_maps_ingress (get_tracked c') k v _ ch Htr) as [Hk Hempty].
  { simpl. by rewrite ingress_map_lookup. }
  unfold syncRoutes. simpl. unfold sync_services at 1.
  set (c1 := set_tracked c' (update_maps (get_tracked c'))).
  case_bool_decide; simpl.
  - set (c2 := launch _ c1).
    destruct (refresh_one env c2 ing) as (c3 & -> & Hk3); [done|done|by simpl; rewrite Hcl|].
    simpl. unfold sync_ingresses. erewrite buildIngressConfig_panic; [done| |exact Hup].
    apply (Hk3 k v). rewrite <-Hentry. unfold ingress_entry, with_class. simpl. by rewrite Hcl.
  - unfold sync_ingresses. by erewrite buildIngressConfig_panic.
Qed.

Definition sample_crash_cache : LocalCache :=
  match @OnIngressv1Add sample_lib sample_x509 sample_ing_env (sample_ingress "pipy" "one") newLocalCache with
  | Ret c => c
  | Panic => newLocalCache
  end.

Lemma unannotated_ingress_crashes_sync_witness :
  @syncRoutes sample_lib sample_x509 list_range sample_hash sample_ing_env
    (Ok [sample_ingress "pipy" "one"]) (Ret zeroMeshConfig) sample_crash_cache = Panic.
Proof.
  eapply (@unannotated_ingress_crashes_sync sample_lib sample_x509 list_range sample_hash sample_ing_env
            (sample_ingress "pipy" "one") zeroMeshConfig newLocalCache sample_crash_cache sample_route);
    [reflexivity|apply sample_ingress_ok|reflexivity|vm_compute; reflexivity|reflexivity].
Defined.

Section refresh.
Context `{KubeLib} `{X509Lib} `{MapRange}.

(** Changes that remember nothing to remove. *)
Definition only_additions (items : gmap NamespacedName ingressChange) : Prop :=
  ∀ nn ch, items !! nn = Some ch → previous ch = None.

Lemma Update_new_only_additions env ict ing b ict' :
  IngressChangeTracker_Update env ict None (Some ing) = Ret (b, ict') →
  only_additions (ingt_items ict) → only_additions (ingt_items ict').
Proof.
  unfold IngressChangeTracker_Update. cbn [event_obj].
  destruct (negb _); [by intros [= _ <-]|].
  intros (p & Hp & (cur & _ & [= _ <-])%go_bind_ret)%go_bind_ret Hadd nn ch. simpl.
  assert (p = None) as ->.
  { destruct (ingt_items ict !! _) as [ch'|] eqn:E; [|by injection Hp as <-].
    injection Hp as <-. by eapply Hadd. }
  case_decide; [rewrite lookup_delete|rewrite lookup_insert]; case_decide; try done; try apply Hadd.
  by intros [= <-].
Qed.

Lemma apply_additions_keep im (l : list (NamespacedName * ingressChange)) k :
  (∀ nn ch, (nn, ch) ∈ l → previous ch = None) →
  is_Some (im !! k) → is_Some (apply_changes IngressMap_step im l !! k).
Proof.
  revert im. induction l as [|[nn ch] l IH]; intros im Hl Hk; [done|]. simpl.
  apply IH; [intros; eapply Hl; by right|].
  rewrite (apply_step_lookup (ApplyStep := ingress_apply_step)), (Hl nn ch) by by left. simpl.
  destruct (gm_val (current ch) !! k); [by eexists|]. by rewrite lookup_empty.
Qed.

Lemma refresh_only_additions env ings c ict :
  go_foldl (fun ict ing =>
     if IsValidPipyIngress (lc_DefaultIngressClass c) ing then
       r ← IngressChangeTracker_Update (with_class env c) ict None (Some ing); Ret r.2
     else Ret ict) (lc_ingressChanges c) ings = Ret ict →
  only_additions (ingt_items (lc_ingressChanges c)) → only_additions (ingt_items ict).
Proof.
  generalize (lc_ingressChanges c). induction ings as [|ing ings IH]; intros ict0; [by intros [= <-]|].
  simpl. intros (ict1 & Hone & Hrest)%go_bind_ret Hadd. apply (IH ict1); [done|].
  destruct (IsValidPipyIngress _ ing); [|by injection Hone as <-].
  apply go_bind_ret in Hone as ([b ict2] & Hup & [= <-]). by eapply Update_new_only_additions.
Qed.
End refresh.

(** The refresh after a change of the services only adds
    routes: as every ingress is recorded as if it were new, a route that was in
    the map stays there even when no ingress declares it any more, for instance
    because the service port it was resolved to has been renamed. *)
Theorem refresh_keeps_stale_routes `{KubeLib} `{X509Lib} `{MapRange} env ings c c' k :
  refreshIngress env ings c = Ret c' →
  ingt_items (lc_ingressChanges c) = ∅ →
  is_Some (lc_ingressMap c !! k) → is_Some (lc_ingressMap c' !! k).
Proof.
  unfold refreshIngress. intros (ict & Hf & Hr)%go_bind_ret Hnone Hk.
  rewrite IngressMap_Update_changes in Hr. injection Hr as <-. simpl.
  apply refresh_only_additions in Hf; [|by rewrite Hnone].
  apply apply_additions_keep; [|done]. intros nn ch Hin%go_range_elem. by eapply Hf.
Qed.

Definition sample_stale_cache : LocalCache :=
  set_tracked newLocalCache (mkTracked (lc_serviceChanges newLocalCache) (lc_endpointsChanges newLocalCache)
    (lc_ingressChanges newLocalCache) (lc_serviceImportChanges newLocalCache) ∅ ∅
    {[ sample_route := sample_route_info None ]} ∅ ∅).

Lemma refresh_keeps_stale_routes_witness :
  match @refreshIngress sample_lib sample_x509 list_range sample_ing_env (Ok []) sample_stale_cache with
  | Ret c' => is_Some (lc_ingressMap c' !! sample_route)
  | Panic => False
  end.
Proof.
  destruct (@refreshIngress sample_lib sample_x509 list_range sample_ing_env (Ok []) sample_stale_cache)
    as [c'|] eqn:E; [|vm_compute in E; discriminate E].
  apply (@refresh_keeps_stale_routes sample_lib sample_x509 list_range sample_ing_env (Ok [])
           sample_stale_cache c' sample_route E); [reflexivity|]. by eexists.
Defined.
