(* ===== verification/RemoteConnector.v ===== *)
(** * The connector of a remote cluster ([pkg/cluster/remote.go], [pkg/event],
    [pkg/cache/serviceexport_eventhandler.go])

    A connector watches the exports of its cluster and, when another cluster's
    export is accepted, writes the imports of its own cluster.  The API server of
    the cluster is a parameter: a world and the calls on it. *)

From S2P Require Import Prelude GoLib Kube CacheTypes McsTypes Config.

(** ** Events ([pkg/event/events.go]) *)

Inductive EventType : Type :=
| ServiceExportCreated | ServiceExportDeleted | ServiceExportAccepted | ServiceExportRejected.
#[export] Instance EventType_eq_dec : EqDecision EventType.
Proof. solve_decision. Defined.

Record ServiceExportEvent : Type := mkExportEvent {
  ev_Geo : ConnectorConfig;
  ev_ServiceExport : ServiceExport;
  ev_Service : Service;
  ev_Error : string
}.

Definition ev_ClusterKey (e : ServiceExportEvent) : string := cc_key (ev_Geo e).

(** The objects of a message are nil or an export event. *)
Record Message : Type := mkMessage {
  msg_Kind : EventType;
  msg_OldObj : option ServiceExportEvent;
  msg_NewObj : option ServiceExportEvent
}.

(** ** The API server of the cluster *)

Class ClusterAPI : Type := {
  kworld : Type;
  ns_Create : string → kworld → result kerror unit * kworld;
  imp_Create : ServiceImport → kworld → result kerror ServiceImport * kworld;
  imp_Get : NamespacedName → kworld → result kerror ServiceImport * kworld;
  imp_Update : ServiceImport → kworld → result kerror ServiceImport * kworld;
  imp_Delete : NamespacedName → kworld → result kerror unit * kworld;
  svc_Get : NamespacedName → kworld → result kerror Service * kworld;
  exp_Get : NamespacedName → kworld → result kerror ServiceExport * kworld;
  exp_UpdateStatus : ServiceExport → kworld → result kerror ServiceExport * kworld
}.

(** [metautil.SetStatusCondition] *)
Class MetaLib : Type := {
  SetStatusCondition : list Condition → Condition → list Condition
}.

(** ** Building imports *)

Definition newEndpoint (export : ServiceExportEvent) (r : ServiceExportRule) (host : string)
    (ip : option IP) (port : Z) : ImportEndpoint :=
  mkImportEndpoint (mkImportTarget host (IP_String ip) port (er_Path r)) (ev_ClusterKey export).

(** The endpoint with the gateway of the exporting cluster. *)
Definition export_endpoint (export : ServiceExportEvent) (r : ServiceExportRule) : ImportEndpoint :=
  newEndpoint export r (GatewayHost (ev_Geo export)) (GatewayIP (ev_Geo export))
    (GatewayPort (ev_Geo export)).

Definition ev_Rules (export : ServiceExportEvent) : list ServiceExportRule :=
  ses_Rules (se_Spec (ev_ServiceExport export)).
Definition ev_nn (export : ServiceExportEvent) : NamespacedName :=
  meta_nn (se_Meta (ev_ServiceExport export)).

(** One port for each pair of a rule and a service port with its number. *)
Definition newServiceImport (export : ServiceExportEvent) : ServiceImport :=
  let svcExp := ev_ServiceExport export in
  let ports :=
    ev_Rules export ≫= fun r =>
      omap (fun p =>
        if (er_PortNumber r =? sp_Port p)%Z
        then Some (mkImportPort (sp_Name p) (sp_Protocol p) (sp_AppProtocol p) (sp_Port p)
                     [export_endpoint export r])
        else None) (svc_Ports (ev_Service export)) in
  mkServiceImport (named (Namespace (se_Meta svcExp)) (Name (se_Meta svcExp))) ports ClusterSetIP
    (ses_ServiceAccountName (se_Spec svcExp)).

Definition set_port_endpoints (p : ImportServicePort) (eps : list ImportEndpoint) : ImportServicePort :=
  mkImportPort (ip_Name p) (ip_Protocol p) (ip_AppProtocol p) (ip_Port p) eps.

Definition set_ports (imp : ServiceImport) (ports : list ImportServicePort) (sa : string) : ServiceImport :=
  mkServiceImport (si_Meta imp) ports (si_Type imp) sa.

(** The rules of the export for a port number, in order. *)
Definition rules_for (export : ServiceExportEvent) (port : Z) : list ServiceExportRule :=
  List.filter (fun r => er_PortNumber r =? port)%Z (ev_Rules export).

(** The map a port with endpoints goes through: for every rule of the port, the
    endpoints there are and then the exporter's own, keyed by cluster. *)
Definition upsert_epMap (export : ServiceExportEvent) (p : ImportServicePort) :
    gmap string ImportEndpoint :=
  foldl (fun epMap r =>
    if (er_PortNumber r =? ip_Port p)%Z then
      <[ev_ClusterKey export := export_endpoint export r]>
        (foldl (fun m ep => <[ie_ClusterKey ep := ep]> m) epMap (ip_Endpoints p))
    else epMap) ∅ (ev_Rules export).

Definition upsert_endpoints `{MapRange} (export : ServiceExportEvent) (p : ImportServicePort) :
    list ImportEndpoint :=
  match ip_Endpoints p with
  | [] => omap (fun r => if (er_PortNumber r =? ip_Port p)%Z
                         then Some (export_endpoint export r) else None) (ev_Rules export)
  | _ :: _ => (go_range (upsert_epMap export p)).*2
  end.

Definition upsert_import `{MapRange} (export : ServiceExportEvent) (imp : ServiceImport) : ServiceImport :=
  set_ports imp ((fun p => set_port_endpoints p (upsert_endpoints export p)) <$> si_Ports imp)
    (ses_ServiceAccountName (se_Spec (ev_ServiceExport export))).

(** What is left of the ports when an export is deleted: for every rule and every
    port with its number, the endpoints of the other clusters, if any. *)
Definition remaining_ports (export : ServiceExportEvent) (imp : ServiceImport) : list ImportServicePort :=
  ev_Rules export ≫= fun r =>
    omap (fun p =>
      if (er_PortNumber r =? ip_Port p)%Z then
        match List.filter (fun ep => negb (bool_decide (ie_ClusterKey ep = ev_ClusterKey export)))
                (ip_Endpoints p) with
        | [] => None
        | endpoints => Some (set_port_endpoints p endpoints)
        end
      else None) (si_Ports imp).

(** ** Operations *)

Section connector.
Context `{ClusterAPI} `{MetaLib} `{MapRange}.
(** [ctx.ClusterKey]: the cluster of this connector. *)
Context (ClusterKey : string).

Definition kube (A : Type) : Type := kworld → A * kworld.
#[export] Instance kube_ret : MRet kube := fun A a w => (a, w).
#[export] Instance kube_bind : MBind kube := fun A B f m w => let '(a, w') := m w in f a w'.

(** Any other error than "not found" counts as "exists". *)
Definition ServiceImportExists (svcExp : ServiceExport) : kube bool :=
  r ← imp_Get (meta_nn (se_Meta svcExp));
  match r with
  | Err NotFound => mret false
  | Err _ => mret true
  | Ok _ => mret true
  end.

Definition ValidateServiceExport (svcExp : ServiceExport) (service : Service) :
    kube (result string unit) :=
  r ← svc_Get (meta_nn (se_Meta svcExp));
  match r with
  | Err NotFound => mret (Ok tt)
  | Err _ => mret (Err "Failed get Service")
  | Ok localSvc =>
    if bool_decide (svc_Type service ≠ svc_Type localSvc)
    then mret (Err "service type doesn't match")
    else if bool_decide (svc_Ports service ≠ svc_Ports localSvc)
    then mret (Err "spec.ports conflict, please check service spec")
    else mret (Ok tt)
  end.

(** Create the import, or read the one there is. *)
Definition createOrGet (export : ServiceExportEvent) : kube (result kerror ServiceImport) :=
  r ← imp_Create (newServiceImport export);
  match r with
  | Ok imp => mret (Ok imp)
  | Err AlreadyExists => imp_Get (ev_nn export)
  | Err e => mret (Err e)
  end.

Definition getOrCreateServiceImport (export : ServiceExportEvent) : kube (result kerror ServiceImport) :=
  r ← ns_Create (Namespace (se_Meta (ev_ServiceExport export)));
  match r with
  | Ok _ => createOrGet export
  | Err AlreadyExists => createOrGet export
  | Err e => mret (Err e)
  end.

Definition upsertServiceImport (export : ServiceExportEvent) : kube (result kerror unit) :=
  if bool_decide (ev_ClusterKey export = ClusterKey) then mret (Ok tt)
  else
    r ← getOrCreateServiceImport export;
    match r with
    | Err e => mret (Err e)
    | Ok imp =>
      r ← imp_Update (upsert_import export imp);
      match r with Ok _ => mret (Ok tt) | Err e => mret (Err e) end
    end.

Definition deleteServiceImport (export : ServiceExportEvent) : kube (result kerror unit) :=
  if bool_decide (ev_ClusterKey export = ClusterKey) then mret (Ok tt)
  else
    r ← imp_Get (ev_nn export);
    match r with
    | Err NotFound => mret (Ok tt)
    | Err e => mret (Err e)
    | Ok imp =>
      match DeletionTimestamp (si_Meta imp) with
      | Some _ => mret (Ok tt)
      | None =>
        match remaining_ports export imp with
        | [] => imp_Delete (ev_nn export)
        | ports =>
          r ← imp_Update (set_ports imp ports (si_ServiceAccountName imp));
          match r with Ok _ => mret (Ok tt) | Err e => mret (Err e) end
        end
      end
    end.

Definition rejectServiceExport (svcExportEvt : ServiceExportEvent) : kube (result kerror unit) :=
  if bool_decide (ClusterKey = ev_ClusterKey svcExportEvt) then
    r ← exp_Get (ev_nn svcExportEvt);
    match r with
    | Err e => mret (Err e)
    | Ok exp =>
      let cond := mkCondition ServiceExportConflict ConditionTrue (Generation (se_Meta exp)) "Conflict"
        ("ServiceExport " +:+ Namespace (se_Meta exp) +:+ "/" +:+ Name (se_Meta exp) +:+
         " conflicts, " +:+ ev_Error svcExportEvt) in
      r ← exp_UpdateStatus (mkServiceExport (se_Meta exp) (se_Spec exp)
            (Some (SetStatusCondition (default [] (se_Conditions exp)) cond)));
      match r with Ok _ => mret (Ok tt) | Err e => mret (Err e) end
    end
  else mret (Ok tt).

(** What [processEvent] starts for a message of one of its three channels. *)
Definition remote_handle (msg : Message) : option (kube (result kerror unit)) :=
  match msg_Kind msg with
  | ServiceExportDeleted => deleteServiceImport <$> msg_OldObj msg
  | ServiceExportAccepted => upsertServiceImport <$> msg_NewObj msg
  | ServiceExportRejected => rejectServiceExport <$> msg_NewObj msg
  | ServiceExportCreated => None
  end.

(** ** The watcher of the exports ([RemoteCache]) *)

Definition getService (export : ServiceExport) : kube (result string Service) :=
  r ← svc_Get (meta_nn (se_Meta export));
  match r with
  | Err _ => mret (Err "Failed to get Service")
  | Ok svc =>
    if bool_decide (svc_Type svc = ServiceTypeExternalName)
    then mret (Err "ExternalName service cannot be exported")
    else mret (Ok svc)
  end.

(** The message that is enqueued, if any; [mc] is the mesh configuration of the
    cluster. *)
Definition RemoteCache_OnUpdate (geo : ConnectorConfig) (mc : MeshConfig) (export : ServiceExport) :
    kube (option Message) :=
  if negb (mc_IsManaged mc) then mret None
  else
    r ← getService export;
    match r with
    | Err _ => mret None
    | Ok svc => mret (Some (mkMessage ServiceExportCreated None (Some (mkExportEvent geo export svc ""))))
    end.

Definition OnServiceExportAdd (geo : ConnectorConfig) (mc : MeshConfig) (export : ServiceExport) :
    kube (option Message) := RemoteCache_OnUpdate geo mc export.

Definition OnServiceExportUpdate (geo : ConnectorConfig) (mc : MeshConfig)
    (oldExport export : ServiceExport) : kube (option Message) :=
  if bool_decide (ResourceVersion (se_Meta oldExport) = ResourceVersion (se_Meta export)) then mret None
  else RemoteCache_OnUpdate geo mc export.

Definition OnServiceExportDelete (geo : ConnectorConfig) (mc : MeshConfig) (export : ServiceExport) :
    kube (option Message) :=
  if negb (mc_IsManaged mc) then mret None
  else
    r ← getService export;
    match r with
    | Err _ => mret None
    | Ok svc => mret (Some (mkMessage ServiceExportDeleted (Some (mkExportEvent geo export svc "")) None))
    end.
End connector.

(** ** Joining the cluster set *)

(** The configuration with the membership of the connector. *)
Definition joined_config (c : ConnectorConfig) (mc : MeshConfig) : MeshConfig :=
  mkMeshConfig true (mc_Repo_RootURL mc) (mc_Images mc) (mc_Webhook_ServiceName mc) (mc_Ingress mc)
    (mc_GatewayApi_Enabled mc) (mc_Certificate mc)
    (mkClusterSettings (cl_UID (mc_Cluster mc)) (cc_region c) (cc_zone c) (cc_group c) (cc_name c)
       (cc_controlPlaneUID c))
    (mc_ServiceLB_Enabled mc).

Definition updateConfigsOfManagedCluster `{ConfigLib} (md : ErieCanalMetadata)
    (apiUpdate : ConfigMap → result string ConfigMap) (c : ConnectorConfig) (w : cfg_world) :
    go (result string unit * cfg_world) :=
  if cc_inCluster c then Ret (Ok tt, w)
  else
    mc ← GetConfig md w;
    if mc_IsManaged mc && bool_decide (cl_ControlPlaneUID (mc_Cluster mc) ≠ "") then
      if bool_decide (cl_ControlPlaneUID (mc_Cluster mc) ≠ cc_controlPlaneUID c)
      then Ret (Err ("cluster " +:+ cc_key c +:+ " is already managed, cannot join the MultiCluster"), w)
      else Ret (Ok tt, w)
    else
      r ← UpdateConfig md apiUpdate (Some (joined_config c mc)) w;
      Ret (match r.1 with Ok _ => Ok tt | Err e => Err e end, r.2).

(** ** Merging endpoints: lemmas *)

Definition by_cluster (eps : list ImportEndpoint) : list (string * ImportEndpoint) :=
  (fun ep => (ie_ClusterKey ep, ep)) <$> eps.

Lemma copy_endpoints (m : gmap string ImportEndpoint) eps k :
  foldl (fun m ep => <[ie_ClusterKey ep := ep]> m) m eps !! k =
    match last (vals_at k (by_cluster eps)) with Some e => Some e | None => m !! k end.
Proof.
  rewrite <-(foldl_insert_last (by_cluster eps) m k). unfold by_cluster.
  by rewrite foldl_fmap.
Qed.

Lemma export_endpoint_key export r : ie_ClusterKey (export_endpoint export r) = ev_ClusterKey export.
Proof. done. Qed.

(** The last rule for the port decides the exporter's endpoint; the endpoints of
    the other clusters are copied. *)
Lemma upsert_epMap_lookup export p k :
  upsert_epMap export p !! k =
    match last (rules_for export (ip_Port p)) with
    | None => None
    | Some r =>
      if decide (k = ev_ClusterKey export) then Some (export_endpoint export r)
      else last (vals_at k (by_cluster (ip_Endpoints p)))
    end.
Proof.
  unfold upsert_epMap, rules_for. induction (ev_Rules export) as [|r rs IH] using rev_ind; [done|].
  rewrite foldl_app, List.filter_app, last_app. simpl. destruct (er_PortNumber r =? ip_Port p)%Z; simpl.
  - destruct (decide (k = ev_ClusterKey export)) as [->|Hk]; [by rewrite lookup_insert_eq|].
    rewrite lookup_insert_ne, copy_endpoints, IH by done.
    destruct (last (vals_at k _)); [done|]. by destruct (last (List.filter _ rs)).
  - rewrite IH. by destruct (last (List.filter _ rs)).
Qed.

(** ** The imports stored by the API server

    What the connector relies on: reads see the stored object, a successful
    write stores the object it was given (the server may complete its metadata),
    a call that fails or that is about something else stores nothing. *)
Class ClusterAPILaws `{ClusterAPI} : Type := {
  imports : kworld → gmap NamespacedName ServiceImport;
  ns_Create_imports : ∀ n w r w', ns_Create n w = (r, w') → imports w' = imports w;
  imp_Get_imports : ∀ nn w r w', imp_Get nn w = (r, w') → imports w' = imports w ∧
    match r with
    | Ok i => imports w !! nn = Some i
    | Err NotFound => imports w !! nn = None
    | Err _ => True
    end;
  imp_Create_imports : ∀ i w r w', imp_Create i w = (r, w') →
    match r with
    | Ok i' => imports w !! meta_nn (si_Meta i) = None ∧
        imports w' = <[meta_nn (si_Meta i) := i']> (imports w) ∧
        meta_nn (si_Meta i') = meta_nn (si_Meta i) ∧ si_Ports i' = si_Ports i
    | Err e => imports w' = imports w ∧
        (e = AlreadyExists → is_Some (imports w !! meta_nn (si_Meta i)))
    end;
  imp_Update_imports : ∀ i w r w', imp_Update i w = (r, w') →
    match r with
    | Ok i' => imports w' = <[meta_nn (si_Meta i) := i']> (imports w) ∧ si_Ports i' = si_Ports i
    | Err _ => imports w' = imports w
    end;
  imp_Delete_imports : ∀ nn w r w', imp_Delete nn w = (r, w') →
    match r with
    | Ok _ => imports w' = delete nn (imports w)
    | Err _ => imports w' = imports w
    end;
  (** objects are stored under their names *)
  imports_named : ∀ w nn i, imports w !! nn = Some i → meta_nn (si_Meta i) = nn
}.

Section laws.
Context `{ClusterAPILaws} `{MapRange}.

(** The import the upsert starts from. *)
Definition base_import (export : ServiceExportEvent) (w : kworld) : ServiceImport :=
  default (newServiceImport export) (imports w !! ev_nn export).

Lemma createOrGet_ok export w imp w' :
  createOrGet export w = (Ok imp, w') →
  si_Ports imp = si_Ports (base_import export w) ∧ meta_nn (si_Meta imp) = ev_nn export ∧
  ∀ nn, nn ≠ ev_nn export → imports w' !! nn = imports w !! nn.
Proof.
  unfold createOrGet, mbind, kube_bind, base_import.
  destruct (imp_Create (newServiceImport export) w) as [r1 w1] eqn:E1.
  apply imp_Create_imports in E1. destruct r1 as [i|e].
  - intros [= -> ->]. destruct E1 as (Hn & Hi & Hm & Hp).
    change (meta_nn (si_Meta (newServiceImport export))) with (ev_nn export) in *.
    split_and!; [by rewrite Hn|done|]. intros nn Hne. rewrite Hi. by rewrite lookup_insert_ne.
  - destruct E1 as [Hw _]. destruct e; try by intros [=].
    intros Hg. apply imp_Get_imports in Hg as [Hw' Hi]. rewrite Hw in *.
    split_and!; [by rewrite Hi|by eapply imports_named; rewrite Hw|]. by intros; rewrite Hw'.
Qed.

Lemma getOrCreateServiceImport_ok export w imp w' :
  getOrCreateServiceImport export w = (Ok imp, w') →
  si_Ports imp = si_Ports (base_import export w) ∧ meta_nn (si_Meta imp) = ev_nn export ∧
  ∀ nn, nn ≠ ev_nn export → imports w' !! nn = imports w !! nn.
Proof.
  unfold getOrCreateServiceImport, mbind, kube_bind.
  destruct (ns_Create _ w) as [r0 w0] eqn:E0. apply ns_Create_imports in E0.
  assert (Hc : createOrGet export w0 = (Ok imp, w') → si_Ports imp = si_Ports (base_import export w) ∧
    meta_nn (si_Meta imp) = ev_nn export ∧
    ∀ nn, nn ≠ ev_nn export → imports w' !! nn = imports w !! nn).
  { intros Hok%createOrGet_ok. unfold base_import in *. by rewrite E0 in Hok. }
  destruct r0 as [u|[]]; try done; by intros [=].
Qed.

(** What a successful upsert stores. *)
Lemma upsertServiceImport_stores ClusterKey export w w' :
  ev_ClusterKey export ≠ ClusterKey →
  upsertServiceImport ClusterKey export w = (Ok tt, w') →
  ∃ imp', imports w' !! ev_nn export = Some imp' ∧
    si_Ports imp' = (fun p => set_port_endpoints p (upsert_endpoints export p)) <$>
                      si_Ports (base_import export w) ∧
    ∀ nn, nn ≠ ev_nn export → imports w' !! nn = imports w !! nn.
Proof.
  intros Hne. unfold upsertServiceImport. rewrite bool_decide_eq_false_2 by done.
  unfold mbind, kube_bind. destruct (getOrCreateServiceImport export w) as [[imp|e] w1] eqn:Eg; [|by intros [=]].
  apply getOrCreateServiceImport_ok in Eg as (Hp & Hm & Hother).
  destruct (imp_Update _ w1) as [[i|e] w2] eqn:Eu; [|by intros [=]]. intros [= ->].
  apply imp_Update_imports in Eu as [Hi Hpi]. simpl in Hi. rewrite Hm in Hi.
  exists i. rewrite Hi. split_and!; [apply lookup_insert_eq|by rewrite Hpi; simpl; rewrite Hp|].
  intros nn Hnn. rewrite lookup_insert_ne by done. auto.
Qed.

(** What a successful deletion stores. *)
Lemma deleteServiceImport_stores ClusterKey export w w' imp :
  ev_ClusterKey export ≠ ClusterKey →
  imports w !! ev_nn export = Some imp → DeletionTimestamp (si_Meta imp) = None →
  deleteServiceImport ClusterKey export w = (Ok tt, w') →
  match remaining_ports export imp with
  | [] => imports w' = delete (ev_nn export) (imports w)
  | ports => ∃ imp', imports w' = <[ev_nn export := imp']> (imports w) ∧ si_Ports imp' = ports
  end.
Proof.
  intros Hne Himp Hdel. unfold deleteServiceImport. rewrite bool_decide_eq_false_2 by done.
  unfold mbind, kube_bind. destruct (imp_Get (ev_nn export) w) as [r w1] eqn:Eg.
  apply imp_Get_imports in Eg as [Hw Hr].
  destruct r as [i|e]; [|by destruct e; [congruence|intros [=]..]].
  rewrite Himp in Hr. injection Hr as <-. rewrite Hdel.
  destruct (remaining_ports export imp) as [|p ports] eqn:Hports.
  - intros Hd. apply imp_Delete_imports in Hd. by rewrite Hd, Hw.
  - destruct (imp_Update _ w1) as [[i|e] w2] eqn:Eu; [|by intros [=]]. intros [= ->].
    apply imp_Update_imports in Eu as [Hi Hpi]. simpl in Hi.
    rewrite (imports_named _ _ _ Himp) in Hi. exists i. by rewrite Hi, Hw.
Qed.
End laws.

(** ** Properties *)

Lemma elem_of_range_values `{MapRange} {K V} `{Countable K} (m : gmap K V) v :
  v ∈ (go_range m).*2 ↔ ∃ k, m !! k = Some v.
Proof.
  rewrite list_elem_of_fmap. split.
  - intros ([k v'] & -> & Hin%go_range_elem). eauto.
  - intros [k Hk]. exists (k, v). by rewrite go_range_elem.
Qed.

(** A port without endpoints gets one endpoint per rule. *)
Lemma upsert_endpoints_empty `{MapRange} export p :
  ip_Endpoints p = [] →
  upsert_endpoints export p = export_endpoint export <$> rules_for export (ip_Port p).
Proof.
  intros Hp. unfold upsert_endpoints, rules_for. rewrite Hp.
  induction (ev_Rules export) as [|r rs IH]; [done|]. cbn [omap list_omap List.filter].
  destruct (er_PortNumber r =? ip_Port p)%Z; [|exact IH].
  cbn [fmap list_fmap]. by f_equal.
Qed.

(** *** What an upsert has to make of the ports *)

(** The endpoint at which the exporter serves a rule. *)
Definition gateway_endpoint (export : ServiceExportEvent) (r : ServiceExportRule) : ImportEndpoint :=
  let geo := ev_Geo export in
  mkImportEndpoint (mkImportTarget (GatewayHost geo) (IP_String (GatewayIP geo)) (GatewayPort geo) (er_Path r)) (cc_key geo).

Definition rules_on (export : ServiceExportEvent) (port : Z) : list ServiceExportRule :=
  filter (fun r => er_PortNumber r = port) (ses_Rules (se_Spec (ev_ServiceExport export))).

(** The last endpoint of a cluster in a list. *)
Definition last_of (key : string) (eps : list ImportEndpoint) : option ImportEndpoint :=
  last (filter (fun e => ie_ClusterKey e = key) eps).

(** The port [q] is the port [p] with the endpoints of the export merged in. *)
Definition merged_port (export : ServiceExportEvent) (p q : ImportServicePort) : Prop :=
  (ip_Name q, ip_Protocol q, ip_AppProtocol q, ip_Port q) = (ip_Name p, ip_Protocol p, ip_AppProtocol p, ip_Port p) ∧
  match last (rules_on export (ip_Port p)) with
  | None => ip_Endpoints q = []
  | Some r =>
    (∀ e, ie_ClusterKey e ≠ ev_ClusterKey export →
       e ∈ ip_Endpoints q ↔ last_of (ie_ClusterKey e) (ip_Endpoints p) = Some e) ∧
    (∀ e, ie_ClusterKey e = ev_ClusterKey export →
       e ∈ ip_Endpoints q ↔
       if decide (ip_Endpoints p = [])
       then ∃ r', r' ∈ rules_on export (ip_Port p) ∧ e = gateway_endpoint export r'
       else e = gateway_endpoint export r)
  end.

(** The ports of a new import: one for every rule and service port with its number. *)
Definition new_ports (export : ServiceExportEvent) : list ImportServicePort :=
  ses_Rules (se_Spec (ev_ServiceExport export)) ≫= fun r =>
    (fun sp => mkImportPort (sp_Name sp) (sp_Protocol sp) (sp_AppProtocol sp) (sp_Port sp)
       [gateway_endpoint export (default r (last (rules_on export (sp_Port sp))))]) <$>
    filter (fun sp => sp_Port sp = er_PortNumber r) (svc_Ports (ev_Service export)).

Lemma rules_on_for export port : rules_for export port = rules_on export port.
Proof.
  unfold rules_for, rules_on, ev_Rules. induction (ses_Rules _) as [|r rs IH]; [done|].
  simpl. rewrite filter_cons, IH. by destruct (Z.eqb_spec (er_PortNumber r) port); case_decide.
Qed.

Lemma last_of_vals key eps : last (vals_at key (by_cluster eps)) = last_of key eps.
Proof.
  unfold last_of. f_equal. unfold vals_at, by_cluster.
  induction eps as [|e eps IH]; [done|]. simpl. rewrite !filter_cons. simpl. case_decide; [|done].
  simpl. by f_equal.
Qed.

Lemma upsert_epMap_last export p k :
  upsert_epMap export p !! k =
    match last (rules_for export (ip_Port p)) with
    | None => None
    | Some r => if decide (k = ev_ClusterKey export) then Some (export_endpoint export r) else last_of k (ip_Endpoints p)
    end.
Proof. rewrite upsert_epMap_lookup. destruct (last _); [|done]. by rewrite last_of_vals. Qed.

(** What the code does to one port is that. *)
Lemma upsert_endpoints_merged `{MapRange} export p :
  merged_port export p (set_port_endpoints p (upsert_endpoints export p)).
Proof.
  unfold merged_port. split; [done|]. rewrite <-rules_on_for. unfold set_port_endpoints. cbn [ip_Endpoints].
  destruct (decide (ip_Endpoints p = [])) as [Hp|Hp].
  - rewrite upsert_endpoints_empty by done. destruct (last (rules_for _ _)) as [r|] eqn:Hr.
    + setoid_rewrite list_elem_of_fmap. rewrite Hp. split; [|naive_solver].
      intros e Hk. split; [|done]. intros (r' & -> & _). done.
    + apply last_None in Hr. by rewrite Hr.
  - assert (Hin : ∀ e, e ∈ upsert_endpoints export p ↔ ∃ k, upsert_epMap export p !! k = Some e).
    { intros e. unfold upsert_endpoints. destruct (ip_Endpoints p); [done|]. apply elem_of_range_values. }
    assert (Hkey : ∀ k e, last_of k (ip_Endpoints p) = Some e → ie_ClusterKey e = k).
    { intros k e He. apply last_Some_elem_of, list_elem_of_filter in He as [? _]. done. }
    setoid_rewrite upsert_epMap_last in Hin.
    destruct (last (rules_for _ _)) as [r|] eqn:Hr.
    + split; intros e Hk; rewrite Hin; split.
      * intros (k & He). case_decide; [by simplify_eq|]. by rewrite (Hkey _ _ He).
      * intros He. exists (ie_ClusterKey e). by rewrite decide_False.
      * intros (k & He). case_decide as Hd; [by injection He as <-|]. rewrite (Hkey _ _ He) in Hk. done.
      * intros ->. exists (ev_ClusterKey export). by rewrite decide_True.
    + apply elem_of_nil_inv. intros e (k & He)%Hin. done.
Qed.

Lemma fmap_omap_filter {A B} (f : A → B) (g : CoreServicePort → A) (n : Z) (l : list CoreServicePort) :
  f <$> omap (fun p => if (n =? sp_Port p)%Z then Some (g p) else None) l =
    (fun p => f (g p)) <$> filter (fun p => sp_Port p = n) l.
Proof.
  induction l as [|p l IH]; [done|]. rewrite filter_cons. cbn [omap list_omap].
  destruct (Z.eqb_spec n (sp_Port p)).
  - rewrite decide_True by done. cbn [fmap list_fmap]. f_equal. exact IH.
  - rewrite decide_False by congruence. exact IH.
Qed.

Lemma list_fmap_ext_elem {A B} (f g : A → B) (l : list A) : (∀ x, x ∈ l → f x = g x) → f <$> l = g <$> l.
Proof. intros Hfg. apply list_fmap_ext. intros i x Hx. by apply Hfg, (list_elem_of_lookup_2 _ i). Qed.

(** The import that was created, after the merge. *)
Lemma new_ports_merged `{MapRange} export :
  (fun p => set_port_endpoints p (upsert_endpoints export p)) <$> si_Ports (newServiceImport export) = new_ports export.
Proof.
  unfold newServiceImport, new_ports, ev_Rules. simpl.
  assert (Hport : ∀ r sp, er_PortNumber r = sp_Port sp → r ∈ ev_Rules export →
    upsert_endpoints export (mkImportPort (sp_Name sp) (sp_Protocol sp) (sp_AppProtocol sp) (sp_Port sp)
      [export_endpoint export r]) = [gateway_endpoint export (default r (last (rules_on export (sp_Port sp))))]).
  { intros r sp Heq Hr. unfold upsert_endpoints. cbn [ip_Endpoints].
    assert (upsert_epMap export (mkImportPort (sp_Name sp) (sp_Protocol sp) (sp_AppProtocol sp) (sp_Port sp)
      [export_endpoint export r]) =
      {[ ev_ClusterKey export := gateway_endpoint export (default r (last (rules_on export (sp_Port sp)))) ]}) as ->.
    { apply map_eq. intros k. rewrite upsert_epMap_last, <-rules_on_for. cbn [ip_Port ip_Endpoints].
      destruct (last (rules_for export (sp_Port sp))) as [r'|] eqn:Hl.
      - case_decide as Hk; [by rewrite Hk, lookup_singleton_eq|]. rewrite lookup_singleton_ne by done.
        unfold last_of. rewrite filter_cons. case_decide as Hk'; [|done]. by rewrite export_endpoint_key in Hk'.
      - apply last_None in Hl. assert (r ∈ rules_for export (sp_Port sp)) as Hin.
        { rewrite rules_on_for. apply list_elem_of_filter. done. }
        rewrite Hl in Hin. by apply elem_of_nil in Hin. }
    by rewrite go_range_singleton. }
  unfold ev_Rules in Hport. revert Hport. generalize (ses_Rules (se_Spec (ev_ServiceExport export))) as rules.
  induction rules as [|r rules IH]; intros Hport; [done|]. cbn [mbind list_bind]. rewrite fmap_app. f_equal.
  - rewrite fmap_omap_filter. apply list_fmap_ext_elem. intros sp [Heq _]%list_elem_of_filter.
    unfold set_port_endpoints. cbn [ip_Name ip_Protocol ip_AppProtocol ip_Port]. by rewrite Hport by (done || by left).
  - apply IH. intros r' sp Heq Hr. apply Hport; [done|]. by right.
Qed.

(** C21 (refinement).  A successful upsert of another cluster's export changes no other import.
    When there was no import of the name, the one stored has one port for every rule of
    the export and service port with the rule's number, named and numbered as the service
    port, whose only endpoint is the gateway of the exporter with the path of the last rule
    for that port.  When there was one, it keeps its ports: on a port for which the export
    has rules the other clusters keep their last endpoint each (the only one, as long as
    they have one, see C18) and the exporter has the gateway endpoint of the last rule, or
    of every rule when the port had no endpoint; a port without a rule is left without
    endpoints. *)
Theorem upsert_merges_clusters `{ClusterAPILaws} `{MapRange} ClusterKey export w w' :
  ev_ClusterKey export ≠ ClusterKey →
  upsertServiceImport ClusterKey export w = (Ok tt, w') →
  (∀ nn, nn ≠ ev_nn export → imports w' !! nn = imports w !! nn) ∧
  ∃ imp', imports w' !! ev_nn export = Some imp' ∧
    match imports w !! ev_nn export with
    | None => si_Ports imp' = new_ports export
    | Some imp => Forall2 (merged_port export) (si_Ports imp) (si_Ports imp')
    end.
Proof.
  intros Hne Hup. destruct (upsertServiceImport_stores _ _ _ _ Hne Hup) as (imp' & Hi & Hp & Hother).
  split; [done|]. exists imp'. split; [done|]. rewrite Hp. unfold base_import.
  destruct (imports w !! ev_nn export) as [imp|]; simpl; [|apply new_ports_merged].
  apply Forall2_fmap_r, Forall_Forall2_diag, Forall_true. intros p. apply upsert_endpoints_merged.
Qed.

(** A port that no rule of the export covers loses all its
    endpoints in the upsert, those of the other clusters included. *)
Theorem upsert_wipes_uncovered_port `{ClusterAPILaws} `{MapRange} ClusterKey export w w' i p :
  ev_ClusterKey export ≠ ClusterKey →
  upsertServiceImport ClusterKey export w = (Ok tt, w') →
  si_Ports (base_import export w) !! i = Some p →
  rules_for export (ip_Port p) = [] →
  ∃ imp', imports w' !! ev_nn export = Some imp' ∧ si_Ports imp' !! i = Some (set_port_endpoints p []).
Proof.
  intros Hne Hup Hi Hr. destruct (upsertServiceImport_stores _ _ _ _ Hne Hup) as (imp' & Hs & Hp & _).
  exists imp'. split; [done|]. rewrite Hp, list_lookup_fmap, Hi. simpl. do 2 f_equal.
  destruct (ip_Endpoints p) as [|e0 eps] eqn:He; [by rewrite upsert_endpoints_empty, Hr|].
  unfold upsert_endpoints. rewrite He.
  assert (upsert_epMap export p = ∅) as ->.
  { apply map_eq. intros k. by rewrite upsert_epMap_lookup, Hr, lookup_empty. }
  assert (go_range (∅ : gmap string ImportEndpoint) = []) as ->; [|done].
  apply Permutation_nil_r. by rewrite go_range_perm, map_to_list_empty.
Qed.

Lemma elem_of_remaining_ports export imp p' :
  p' ∈ remaining_ports export imp ↔
  ∃ r p, r ∈ ev_Rules export ∧ p ∈ si_Ports imp ∧ er_PortNumber r = ip_Port p ∧
    let eps := List.filter (fun ep => negb (bool_decide (ie_ClusterKey ep = ev_ClusterKey export)))
                 (ip_Endpoints p) in
    eps ≠ [] ∧ p' = set_port_endpoints p eps.
Proof.
  unfold remaining_ports. rewrite list_elem_of_bind. setoid_rewrite list_elem_of_omap. split.
  - intros (r & (p & Hp & Hm) & Hr). exists r, p. destruct (Z.eqb_spec (er_PortNumber r) (ip_Port p)); [|done].
    cbv zeta. destruct (List.filter _ (ip_Endpoints p)); [done|]. naive_solver.
  - intros (r & p & Hr & Hp & Heq & Hne & ->). exists r. split; [|done]. exists p. split; [done|].
    rewrite Heq, Z.eqb_refl. by destruct (List.filter _ (ip_Endpoints p)).
Qed.

Lemma elem_of_others key eps (e : ImportEndpoint) :
  e ∈ List.filter (fun ep => negb (bool_decide (ie_ClusterKey ep = key))) eps ↔
  e ∈ eps ∧ ie_ClusterKey e ≠ key.
Proof.
  rewrite !list_elem_of_In, List.filter_In, negb_true_iff, bool_decide_eq_false. done.
Qed.

(** The ports stored after a deletion are the remaining ones. *)
Lemma delete_stored_ports `{ClusterAPILaws} ClusterKey export w w' imp :
  ev_ClusterKey export ≠ ClusterKey →
  imports w !! ev_nn export = Some imp → DeletionTimestamp (si_Meta imp) = None →
  deleteServiceImport ClusterKey export w = (Ok tt, w') →
  (∀ nn, nn ≠ ev_nn export → imports w' !! nn = imports w !! nn) ∧
  (∀ imp', imports w' !! ev_nn export = Some imp' → si_Ports imp' = remaining_ports export imp) ∧
  (∀ p', p' ∈ remaining_ports export imp → is_Some (imports w' !! ev_nn export)).
Proof.
  intros Hne Hi Hd Hdel. pose proof (deleteServiceImport_stores _ _ _ _ _ Hne Hi Hd Hdel) as Hs.
  destruct (remaining_ports export imp) as [|p ports].
  - rewrite Hs. split_and!.
    + intros nn Hnn. by rewrite lookup_delete_ne.
    + intros imp'. by rewrite lookup_delete_eq.
    + by intros p' ?%elem_of_nil.
  - destruct Hs as (imp' & Hs & Hp). rewrite Hs. split_and!.
    + intros nn Hnn. by rewrite lookup_insert_ne.
    + intros imp''. rewrite lookup_insert_eq. by intros [= <-].
    + intros p' _. rewrite lookup_insert_eq. by eexists.
Qed.

Lemma rules_for_elem export port r :
  r ∈ rules_for export port ↔ r ∈ ev_Rules export ∧ er_PortNumber r = port.
Proof. unfold rules_for. rewrite !list_elem_of_In, List.filter_In, Z.eqb_eq. done. Qed.

(** A successful deletion of another cluster's export leaves no
    endpoint of that cluster in the import, adds none, and keeps, on the ports
    its rules cover, every endpoint of the other clusters; no other import is
    touched. *)
Theorem delete_removes_exporter `{ClusterAPILaws} ClusterKey export w w' imp :
  ev_ClusterKey export ≠ ClusterKey →
  imports w !! ev_nn export = Some imp → DeletionTimestamp (si_Meta imp) = None →
  deleteServiceImport ClusterKey export w = (Ok tt, w') →
  (∀ nn, nn ≠ ev_nn export → imports w' !! nn = imports w !! nn) ∧
  (∀ imp' p' e, imports w' !! ev_nn export = Some imp' → p' ∈ si_Ports imp' → e ∈ ip_Endpoints p' →
     ie_ClusterKey e ≠ ev_ClusterKey export ∧
     ∃ p, p ∈ si_Ports imp ∧ ip_Port p = ip_Port p' ∧ e ∈ ip_Endpoints p) ∧
  (∀ p e, p ∈ si_Ports imp → rules_for export (ip_Port p) ≠ [] →
     e ∈ ip_Endpoints p → ie_ClusterKey e ≠ ev_ClusterKey export →
     ∃ imp' p', imports w' !! ev_nn export = Some imp' ∧ p' ∈ si_Ports imp' ∧
       ip_Port p' = ip_Port p ∧ e ∈ ip_Endpoints p').
Proof.
  intros Hne Hi Hd Hdel. destruct (delete_stored_ports _ _ _ _ _ Hne Hi Hd Hdel) as (Hother & Hports & Hsome).
  split_and!; [done|..].
  - intros imp' p' e Hi' Hp' He. rewrite (Hports _ Hi') in Hp'.
    apply elem_of_remaining_ports in Hp' as (r & p & _ & Hp & _ & _ & ->). simpl in He.
    apply elem_of_others in He as [He Hk]. eauto 6.
  - intros p e Hp Hr He Hk.
    destruct (rules_for export (ip_Port p)) as [|r rs] eqn:Hrs; [done|].
    assert (r ∈ rules_for export (ip_Port p)) as [Hrin Hport]%rules_for_elem by (rewrite Hrs; by left).
    set (eps := List.filter (fun ep => negb (bool_decide (ie_ClusterKey ep = ev_ClusterKey export))) (ip_Endpoints p)).
    assert (Hin : e ∈ eps) by by apply elem_of_others.
    assert (Hrem : set_port_endpoints p eps ∈ remaining_ports export imp).
    { apply elem_of_remaining_ports. exists r, p. split_and!; [done..|].
      split; [|done]. intros Hnil. fold eps in Hnil. rewrite Hnil in Hin. by apply elem_of_nil in Hin. }
    destruct (Hsome _ Hrem) as [imp' Himp']. exists imp', (set_port_endpoints p eps).
    rewrite (Hports _ Himp'). done.
Qed.

(** The deletion of an export drops every port that its rules
    do not cover, whatever endpoints other clusters have there, and deletes the
    whole import when on every port either no rule applies or all endpoints are
    the exporter's. *)
Theorem delete_drops_uncovered_port `{ClusterAPILaws} ClusterKey export w w' imp :
  ev_ClusterKey export ≠ ClusterKey →
  imports w !! ev_nn export = Some imp → DeletionTimestamp (si_Meta imp) = None →
  deleteServiceImport ClusterKey export w = (Ok tt, w') →
  (∀ port, rules_for export port = [] →
     ∀ imp' p', imports w' !! ev_nn export = Some imp' → p' ∈ si_Ports imp' → ip_Port p' ≠ port) ∧
  ((∀ p, p ∈ si_Ports imp → rules_for export (ip_Port p) = [] ∨
      ∀ e, e ∈ ip_Endpoints p → ie_ClusterKey e = ev_ClusterKey export) →
   imports w' !! ev_nn export = None).
Proof.
  intros Hne Hi Hd Hdel. split.
  - intros port Hr imp' p' Hi' Hp' Heq.
    destruct (delete_stored_ports _ _ _ _ _ Hne Hi Hd Hdel) as (_ & Hports & _).
    rewrite (Hports _ Hi') in Hp'.
    apply elem_of_remaining_ports in Hp' as (r & p0 & Hrin & _ & Hport & _ & ->). simpl in Heq.
    assert (Hin : r ∈ rules_for export port) by (apply rules_for_elem; by rewrite Hport, Heq).
    rewrite Hr in Hin. by apply elem_of_nil in Hin.
  - intros Hall. pose proof (deleteServiceImport_stores _ _ _ _ _ Hne Hi Hd Hdel) as Hs.
    destruct (remaining_ports export imp) as [|p' ports] eqn:Hrem; [by rewrite Hs, lookup_delete_eq|].
    assert (Hp' : p' ∈ remaining_ports export imp) by (rewrite Hrem; by left).
    apply elem_of_remaining_ports in Hp' as (r & p & Hrin & Hp & Hport & Hnil & _).
    destruct (Hall _ Hp) as [Hr|He].
    + assert (Hin : r ∈ rules_for export (ip_Port p)) by by apply rules_for_elem.
      rewrite Hr in Hin. by apply elem_of_nil in Hin.
    + destruct Hnil. apply elem_of_nil_inv. intros e [Hin Hk]%elem_of_others. by apply Hk, He.
Qed.

(** C22 (safety).  A cluster managed by one control plane is not taken over by another: the join
    is refused and nothing is written; a cluster that is already managed by the connector's
    control plane joins without a write; a cluster that is not managed yet has the client
    update its configuration to one that is managed, with the region, zone, group, name and
    control plane of the connector and the cluster's UID and every other setting as they
    were, and the join succeeds exactly when that update does. *)
Theorem join_respects_control_plane `{ConfigLib} md apiUpdate c w mc :
  cc_inCluster c = false →
  GetConfig md w = Ret mc →
  let managed := mc_IsManaged mc && bool_decide (cl_ControlPlaneUID (mc_Cluster mc) ≠ "") in
  (managed = true → cl_ControlPlaneUID (mc_Cluster mc) ≠ cc_controlPlaneUID c →
     ∃ e, updateConfigsOfManagedCluster md apiUpdate c w = Ret (Err e, w)) ∧
  (managed = true → cl_ControlPlaneUID (mc_Cluster mc) = cc_controlPlaneUID c →
     updateConfigsOfManagedCluster md apiUpdate c w = Ret (Ok tt, w)) ∧
  (managed = false → ∀ r w', updateConfigsOfManagedCluster md apiUpdate c w = Ret (r, w') →
     ∃ mc' r', UpdateConfig md apiUpdate (Some mc') w = Ret (r', w') ∧
       (r = Ok tt ↔ ∃ cfg, r' = Ok cfg) ∧
       mc_IsManaged mc' = true ∧
       cl_Region (mc_Cluster mc') = cc_region c ∧ cl_Zone (mc_Cluster mc') = cc_zone c ∧
       cl_Group (mc_Cluster mc') = cc_group c ∧ cl_Name (mc_Cluster mc') = cc_name c ∧
       cl_ControlPlaneUID (mc_Cluster mc') = cc_controlPlaneUID c ∧
       cl_UID (mc_Cluster mc') = cl_UID (mc_Cluster mc) ∧
       mc_Repo_RootURL mc' = mc_Repo_RootURL mc ∧ mc_Images mc' = mc_Images mc ∧
       mc_Webhook_ServiceName mc' = mc_Webhook_ServiceName mc ∧ mc_Ingress mc' = mc_Ingress mc ∧
       mc_GatewayApi_Enabled mc' = mc_GatewayApi_Enabled mc ∧ mc_Certificate mc' = mc_Certificate mc ∧
       mc_ServiceLB_Enabled mc' = mc_ServiceLB_Enabled mc).
Proof.
  intros Hin Hmc managed. unfold updateConfigsOfManagedCluster. rewrite Hin, Hmc. cbn [mbind go_bind].
  fold managed. split_and!.
  - intros -> Hne. rewrite bool_decide_eq_true_2 by done. eauto.
  - intros -> Heq. by rewrite bool_decide_eq_false_2 by (intros Hn; by apply Hn).
  - intros -> r w' ([r' w''] & Hu & [= <- <-])%go_bind_ret. exists (joined_config c mc), r'. split; [done|].
    split_and!; [|done..]. simpl. destruct r'; naive_solver.
Qed.

(** ** Witnesses: an API server that stores the imports in a map *)

Definition filed (w : gmap NamespacedName ServiceImport) : gmap NamespacedName ServiceImport :=
  filter (fun kv => meta_nn (si_Meta kv.2) = kv.1) w.

Definition sample_cluster_api : ClusterAPI := {|
  kworld := gmap NamespacedName ServiceImport;
  ns_Create := fun _ w => (Err AlreadyExists, w);
  imp_Create := fun i w =>
    match filed w !! meta_nn (si_Meta i) with
    | Some _ => (Err AlreadyExists, w)
    | None => (Ok i, <[meta_nn (si_Meta i) := i]> w)
    end;
  imp_Get := fun nn w => (match filed w !! nn with Some i => Ok i | None => Err NotFound end, w);
  imp_Update := fun i w => (Ok i, <[meta_nn (si_Meta i) := i]> w);
  imp_Delete := fun nn w => (Ok tt, delete nn w);
  svc_Get := fun _ w => (Err NotFound, w);
  exp_Get := fun _ w => (Err NotFound, w);
  exp_UpdateStatus := fun e w => (Ok e, w)
|}.

Lemma filed_insert i w :
  filed (<[meta_nn (si_Meta i) := i]> w) = <[meta_nn (si_Meta i) := i]> (filed w).
Proof. unfold filed. by rewrite map_filter_insert_True. Qed.

Definition sample_cluster_laws : @ClusterAPILaws sample_cluster_api.
Proof.
  refine {| imports := (filed : @kworld sample_cluster_api → _) |}; simpl.
  - by intros n w r w' [= _ <-].
  - intros nn w r w' [= <- <-]. split; [done|]. by destruct (filed w !! nn).
  - intros i w r w'. destruct (filed w !! meta_nn (si_Meta i)) eqn:E; intros [= <- <-].
    + split; [done|]. intros _. by eexists.
    + by rewrite filed_insert.
  - intros i w r w' [= <- <-]. by rewrite filed_insert.
  - intros nn w r w' [= <- <-]. unfold filed. by rewrite map_filter_delete.
  - intros w nn i. unfold filed. by intros [_ ?]%map_lookup_filter_Some.
Defined.

Definition sample_geo : ConnectorConfig :=
  mkConnectorConfig "b" "r" "z" "g" false "r/z/g/b" "gw.b" (Some [10; 0; 0; 9]%Z) 8080 "u".

Definition sample_export_event : ServiceExportEvent :=
  mkExportEvent sample_geo
    (mkServiceExport (named "ns" "web")
       (mkExportSpec None false "" [mkExportRule 80 "/b" None] [] "") None)
    (mkService (named "ns" "web") "ClusterIP" [mkSvcPort "http" "TCP" None 80 (IntVal 80) 0]
       "" [] "" None [] []) "".

Definition cluster_a_endpoint : ImportEndpoint :=
  mkImportEndpoint (mkImportTarget "gw.a" "10.0.0.8" 80 "/a") "r/z/g/a".

(** Cluster a serves the ports 80 and 81. *)
Definition sample_stored_import : ServiceImport :=
  mkServiceImport (named "ns" "web")
    [mkImportPort "http" "TCP" None 80 [cluster_a_endpoint];
     mkImportPort "adm" "TCP" None 81 [cluster_a_endpoint]] ClusterSetIP "".

Definition sample_kworld : @kworld sample_cluster_api :=
  ({[ mkNN "ns" "web" := sample_stored_import ]} : gmap NamespacedName ServiceImport).

Definition sample_upserted : @kworld sample_cluster_api :=
  (@upsertServiceImport sample_cluster_api list_range "r/z/g/c" sample_export_event sample_kworld).2.

Lemma sample_upsert_ok :
  @upsertServiceImport sample_cluster_api list_range "r/z/g/c" sample_export_event sample_kworld =
    (Ok tt, sample_upserted).
Proof. vm_compute. reflexivity. Qed.

Lemma sample_import_stored :
  imports (ClusterAPILaws := sample_cluster_laws) sample_kworld !! mkNN "ns" "web" = Some sample_stored_import.
Proof. vm_compute. reflexivity. Qed.

Lemma upsert_merges_clusters_witness :
  ∃ imp', imports (ClusterAPILaws := sample_cluster_laws) sample_upserted !! mkNN "ns" "web" = Some imp' ∧
    ∃ q, si_Ports imp' !! 0%nat = Some q ∧ ip_Port q = 80%Z ∧
      cluster_a_endpoint ∈ ip_Endpoints q ∧
      mkImportEndpoint (mkImportTarget "gw.b" "10.0.0.9" 8080 "/b") "r/z/g/b" ∈ ip_Endpoints q.
Proof.
  destruct (@upsert_merges_clusters sample_cluster_api sample_cluster_laws list_range "r/z/g/c"
              sample_export_event sample_kworld sample_upserted) as (_ & imp' & Hi & Hp);
    [done|exact sample_upsert_ok|].
  exists imp'. split; [exact Hi|]. change (ev_nn sample_export_event) with (mkNN "ns" "web") in Hp.
  rewrite sample_import_stored in Hp.
  destruct (Forall2_lookup_l _ _ _ 0%nat _ Hp eq_refl) as (q & Hq & [= _ _ _ Hport] & Ho & He).
  exists q. split; [exact Hq|]. split; [exact Hport|]. split.
  - apply Ho; [discriminate|reflexivity].
  - apply He; [reflexivity|]. vm_compute. reflexivity.
Defined.

Lemma upsert_wipes_uncovered_port_witness :
  ∃ imp', imports (ClusterAPILaws := sample_cluster_laws) sample_upserted !! mkNN "ns" "web" = Some imp' ∧
    si_Ports imp' !! 1 = Some (mkImportPort "adm" "TCP" None 81 []).
Proof.
  apply (@upsert_wipes_uncovered_port sample_cluster_api sample_cluster_laws list_range "r/z/g/c"
           sample_export_event sample_kworld sample_upserted 1
           (mkImportPort "adm" "TCP" None 81 [cluster_a_endpoint]));
    [done|exact sample_upsert_ok|reflexivity|reflexivity].
Defined.

Definition sample_deleted : @kworld sample_cluster_api :=
  (@deleteServiceImport sample_cluster_api "r/z/g/c" sample_export_event sample_kworld).2.

Lemma sample_delete_ok :
  @deleteServiceImport sample_cluster_api "r/z/g/c" sample_export_event sample_kworld =
    (Ok tt, sample_deleted).
Proof. vm_compute. reflexivity. Qed.

Lemma delete_removes_exporter_witness :
  ∃ imp' p', imports (ClusterAPILaws := sample_cluster_laws) sample_deleted !! mkNN "ns" "web" = Some imp' ∧
    p' ∈ si_Ports imp' ∧ ip_Port p' = 80%Z ∧ cluster_a_endpoint ∈ ip_Endpoints p'.
Proof.
  destruct (@delete_removes_exporter sample_cluster_api sample_cluster_laws "r/z/g/c"
              sample_export_event sample_kworld sample_deleted sample_stored_import) as (_ & _ & Hk);
    [done|exact sample_import_stored|reflexivity|exact sample_delete_ok|].
  apply (Hk (mkImportPort "http" "TCP" None 80 [cluster_a_endpoint]) cluster_a_endpoint);
    [by left|done|by left|done].
Defined.

Lemma delete_drops_uncovered_port_witness :
  ∃ imp', imports (ClusterAPILaws := sample_cluster_laws) sample_deleted !! mkNN "ns" "web" = Some imp' ∧
    ∀ p', p' ∈ si_Ports imp' → ip_Port p' ≠ 81%Z.
Proof.
  eexists. split; [reflexivity|].
  intros p'. apply (proj1 (@delete_drops_uncovered_port sample_cluster_api sample_cluster_laws "r/z/g/c"
           sample_export_event sample_kworld sample_deleted sample_stored_import
           ltac:(done) sample_import_stored ltac:(reflexivity) sample_delete_ok) 81%Z);
    [reflexivity|vm_compute; reflexivity].
Defined.

(** The sample configuration is managed but has no control plane yet. *)
Definition sample_join_world : cfg_world :=
  mkCfgWorld (Ok (mkConfigMap (named "erie-canal" MeshConfigName) (Some {[ MeshConfigJsonName := "{}" ]})))
    (Err NotFound).

Lemma join_respects_control_plane_witness :
  ∃ r w', @updateConfigsOfManagedCluster sample_config_lib sample_md Ok sample_geo sample_join_world =
            Ret (r, w') ∧
    ∃ mc' r', @UpdateConfig sample_config_lib sample_md Ok (Some mc') sample_join_world = Ret (r', w') ∧
      (r = Ok tt ↔ ∃ cfg, r' = Ok cfg) ∧ cl_Name (mc_Cluster mc') = "b" ∧ mc_IsManaged mc' = true.
Proof.
  eexists _, _. split; [reflexivity|].
  destruct (proj2 (proj2 (@join_respects_control_plane sample_config_lib sample_md Ok sample_geo
    sample_join_world sample_mesh_config eq_refl eq_refl)) eq_refl _ _ eq_refl)
    as (mc' & r' & Hu & Hr & Hm & _ & _ & _ & Hn & _).
  exists mc', r'. split; [exact Hu|]. split; [exact Hr|]. split; [exact Hn|exact Hm].
Defined.
