(* ===== verification/ServiceExport.v ===== *)
(** * The reconciler of service exports
    ([controllers/serviceexport/v1alpha1/serviceexport_controller.go])

    One reconciliation reads the export, its service, all ingresses and the
    ingress of the export, and then writes.  What it reads is a parameter, what
    it writes is a log, and the outcome of each write is a parameter. *)

From S2P Require Import Prelude GoLib Kube CacheTypes McsTypes ServiceCache IngressCache RouteBuild RemoteConnector.

(** ** The ingress of an export *)

Definition export_ingress_name (export : ServiceExport) : string :=
  "svcexp-ing-" +:+ Name (se_Meta export).

(** Three optional groups of annotations. *)
Definition ingressAnnotations (export : ServiceExport) : gmap string string :=
  let spec := se_Spec export in
  let annos : gmap string string := ∅ in
  let annos :=
    match ses_PathRewrite spec with
    | Some rw =>
      if bool_decide (pr_From rw ≠ "") && bool_decide (pr_To rw ≠ "")
      then <[PipyIngressAnnotationRewriteTo := pr_To rw]>
             (<[PipyIngressAnnotationRewriteFrom := pr_From rw]> annos)
      else annos
    | None => annos
    end in
  let annos := if ses_SessionSticky spec
               then <[PipyIngressAnnotationSessionSticky := "true"]> annos else annos in
  if bool_decide (ses_LoadBalancer spec ≠ "")
  then <[PipyIngressAnnotationLoadBalancer := ses_LoadBalancer spec]> annos else annos.

Definition ingressPaths (export : ServiceExport) : list HTTPIngressPath :=
  (fun rule => mkPath (er_Path rule) (er_PathType rule)
     (Some (mkBackend (Name (se_Meta export)) (mkBackendPort "" (er_PortNumber rule)))))
  <$> ses_Rules (se_Spec export).

Definition export_rules (export : ServiceExport) : list IngressRule :=
  [mkRule "" (Some (ingressPaths export))].

Definition with_annotations (m : ObjectMeta) (annos : gomap string string) : ObjectMeta :=
  mkMeta (Namespace m) (Name m) (UID m) (ResourceVersion m) (Generation m) (DeletionTimestamp m)
    (Labels m) annos (Finalizers m) (ControllerUID m).

Definition newIngress (export : ServiceExport) : Ingress :=
  mkIngress (with_annotations (named (Namespace (se_Meta export)) (export_ingress_name export))
               (Some (ingressAnnotations export)))
    (Some "pipy") [] (export_rules export).

(** The ingress with the rules of the export; the annotations of the export are
    added to the ones it has. *)
Definition updated_ingress `{MapRange} (export : ServiceExport) (ing : Ingress) : Ingress :=
  let annos :=
    match Annotations (ing_Meta ing) with
    | None => Some (ingressAnnotations export)
    | Some m => Some (gomap_merge m (Some (ingressAnnotations export)))
    end in
  mkIngress (with_annotations (ing_Meta ing) annos) (ing_ClassName ing) (ing_TLS ing) (export_rules export).

(** ** The environment of one reconciliation *)

Record export_reads : Type := mkExportReads {
  rd_export : result kerror ServiceExport;
  rd_service : result kerror Service;
  (** all ingresses of all namespaces *)
  rd_ingresses : result kerror (list Ingress);
  (** the ingress of the export *)
  rd_ingress : result kerror Ingress
}.

(** A write, and for a status update the condition that was set. *)
Inductive export_write : Type :=
| UpdateStatus (export : ServiceExport) (cond : Condition)
| UpdateExport (export : ServiceExport)
| CreateIngress (ing : Ingress)
| UpdateIngress (ing : Ingress).

(** Library functions of controller-runtime and apimachinery, and the hash of the
    spec of an export. *)
Class ExportLib : Type := {
  (** ctrl.SetControllerReference: the metadata with the owner *)
  SetControllerReference : ObjectMeta → ObjectMeta → result kerror ObjectMeta;
  (** metav1.IsControlledBy *)
  IsControlledBy : ObjectMeta → ObjectMeta → bool;
  (** hashstructure.Hash of export.Spec *)
  Hash_ExportSpec : ServiceExportSpec → result string N
}.

Definition MultiClustersServiceExportHash : string := "multicluster.flomesh.io/export-hash".

Section reconcile.
Context `{MetaLib} `{ExportLib} `{MapRange}.
(** The outcome of a write: nil or an error. *)
Context (outcome : export_write → option kerror).

(** The writes made and the error returned. *)
Definition reconciled : Type := list export_write * option kerror.

(** [if err := write; err != nil { return err }] and then the rest. *)
Definition write_then (w : export_write) (k : go reconciled) : go reconciled :=
  match outcome w with
  | Some e => Ret ([w], Some e)
  | None => r ← k; Ret (w :: r.1, r.2)
  end.

Definition set_condition (export : ServiceExport) (cond : Condition) : ServiceExport :=
  mkServiceExport (se_Meta export) (se_Spec export)
    (Some (SetStatusCondition (default [] (se_Conditions export)) cond)).

(** The condition of the given status, reason and message. *)
Definition valid_condition (export : ServiceExport) (status reason msg : string) : Condition :=
  mkCondition ServiceExportValid status (Generation (se_Meta export)) reason msg.

(** Set the condition, update the status, and return [ret]. *)
Definition update_status (export : ServiceExport) (status reason msg : string) (ret : option kerror) :
    go reconciled :=
  let cond := valid_condition export status reason msg in
  write_then (UpdateStatus (set_condition export cond) cond) (Ret ([], ret)).

Definition nonexistService (nn : NamespacedName) (export : ServiceExport) : go reconciled :=
  update_status export ConditionFalse "Failed" ("Service " +:+ NamespacedName_String nn +:+ " not found") None.
Definition failedGetService (nn : NamespacedName) (export : ServiceExport) (err : kerror) : go reconciled :=
  update_status export ConditionFalse "Failed" ("Get Service " +:+ NamespacedName_String nn +:+ " error") None.
Definition deletedService (nn : NamespacedName) (export : ServiceExport) : go reconciled :=
  update_status export ConditionFalse "Failed"
    ("Service " +:+ NamespacedName_String nn +:+ " is being deleted.") None.
Definition unsupportedServiceType (nn : NamespacedName) (export : ServiceExport) : go reconciled :=
  update_status export ConditionFalse "Failed"
    ("Type of Service " +:+ NamespacedName_String nn +:+ " is ExternalName, cannot be exported.") None.
Definition failedListIngresses (export : ServiceExport) (err : kerror) : go reconciled :=
  update_status export ConditionFalse "Failed" "Get Ingress List error" (Some err).
Definition pathConflicts (export : ServiceExport) (path : HTTPIngressPath) (ing : Ingress) : go reconciled :=
  update_status export ConditionFalse "Failed"
    ("The path " +:+ hp_Path path +:+ " has been defined in Ingress " +:+
     Namespace (ing_Meta ing) +:+ "/" +:+ Name (ing_Meta ing)) None.
Definition successExport (nn : NamespacedName) (export : ServiceExport) : go reconciled :=
  update_status export ConditionTrue "Success"
    ("Service " +:+ NamespacedName_String nn +:+ " is exported successfully.") None.

(** The first path of an ingress that equals the path of a rule; a rule without
    HTTP part and, when the paths are equal, a missing path type panic. *)
Fixpoint find_path (er : ServiceExportRule) (paths : list HTTPIngressPath) : go (option HTTPIngressPath) :=
  match paths with
  | [] => Ret None
  | path :: paths =>
    if bool_decide (hp_Path path = er_Path er) then
      pt ← deref (hp_PathType path);
      et ← deref (er_PathType er);
      if bool_decide (pt = et) then Ret (Some path) else find_path er paths
    else find_path er paths
  end.

Fixpoint find_rule (er : ServiceExportRule) (rules : list IngressRule) : go (option HTTPIngressPath) :=
  match rules with
  | [] => Ret None
  | rule :: rules =>
    paths ← deref (ir_HTTP rule);
    r ← find_path er paths;
    match r with Some p => Ret (Some p) | None => find_rule er rules end
  end.

Fixpoint find_ingress (export : ServiceExport) (er : ServiceExportRule) (ings : list Ingress) :
    go (option (HTTPIngressPath * Ingress)) :=
  match ings with
  | [] => Ret None
  | ing :: ings =>
    if IsControlledBy (ing_Meta ing) (se_Meta export) then find_ingress export er ings
    else
      r ← find_rule er (ing_Rules ing);
      match r with Some p => Ret (Some (p, ing)) | None => find_ingress export er ings end
  end.

Fixpoint find_conflict (export : ServiceExport) (ers : list ServiceExportRule) (ings : list Ingress) :
    go (option (HTTPIngressPath * Ingress)) :=
  match ers with
  | [] => Ret None
  | er :: ers =>
    r ← find_ingress export er ings;
    match r with Some c => Ret (Some c) | None => find_conflict export ers ings end
  end.

(** Create or update the ingress of the export, and report success. *)
Definition reconcile_ingress (nn : NamespacedName) (export : ServiceExport)
    (ingress : result kerror Ingress) : go reconciled :=
  match ingress with
  | Err NotFound =>
    let ing := newIngress export in
    match SetControllerReference (se_Meta export) (ing_Meta ing) with
    | Err e => Ret ([], Some e)
    | Ok meta =>
      let ing := mkIngress meta (ing_ClassName ing) (ing_TLS ing) (ing_Rules ing) in
      write_then (CreateIngress ing) (successExport nn export)
    end
  | Err e => Ret ([], Some e)
  | Ok ing =>
    let annos := gm_val (Annotations (se_Meta export)) in
    let export := mkServiceExport (with_annotations (se_Meta export) (Some annos))
                    (se_Spec export) (se_Conditions export) in
    let oldHash := default "" (annos !! MultiClustersServiceExportHash) in
    let hash := SimpleHash (Hash_ExportSpec (se_Spec export)) in
    if bool_decide (oldHash ≠ hash) then
      let export := mkServiceExport
        (with_annotations (se_Meta export) (Some (<[MultiClustersServiceExportHash := hash]> annos)))
        (se_Spec export) (se_Conditions export) in
      write_then (UpdateExport export)
        (write_then (UpdateIngress (updated_ingress export ing)) (successExport nn export))
    else successExport nn export
  end.

Definition Reconcile (nn : NamespacedName) (rd : export_reads) : go reconciled :=
  match rd_export rd with
  | Err NotFound => Ret ([], None)
  | Err e => Ret ([], Some e)
  | Ok export =>
    let export := mkServiceExport (se_Meta export) (se_Spec export)
                    (Some (default [] (se_Conditions export))) in
    match rd_service rd with
    | Err NotFound => nonexistService nn export
    | Err e => failedGetService nn export e
    | Ok svc =>
      if bool_decide (is_Some (DeletionTimestamp (svc_Meta svc))) then deletedService nn export
      else if bool_decide (svc_Type svc = ServiceTypeExternalName) then unsupportedServiceType nn export
      else
        match rd_ingresses rd with
        | Err e => failedListIngresses export e
        | Ok ings =>
          r ← find_conflict export (ses_Rules (se_Spec export)) ings;
          match r with
          | Some (path, ing) => pathConflicts export path ing
          | None => reconcile_ingress nn export (rd_ingress rd)
          end
        end
    end
  end.
End reconcile.

(** ** Properties *)

(** The annotations of an export, key by key. *)
Lemma export_annotations_lookup export :
  let spec := se_Spec export in
  let annos := ingressAnnotations export in
  annos !! IngressAnnotationKey = None ∧
  annos !! PipyIngressAnnotationSessionSticky = (if ses_SessionSticky spec then Some "true" else None) ∧
  (annos !! PipyIngressAnnotationLoadBalancer : option string) =
    (if bool_decide (ses_LoadBalancer spec ≠ "") then Some (ses_LoadBalancer spec) else None) ∧
  match ses_PathRewrite spec with
  | Some rw =>
    if bool_decide (pr_From rw ≠ "") && bool_decide (pr_To rw ≠ "")
    then annos !! PipyIngressAnnotationRewriteFrom = Some (pr_From rw) ∧
         annos !! PipyIngressAnnotationRewriteTo = Some (pr_To rw)
    else annos !! PipyIngressAnnotationRewriteFrom = None ∧ annos !! PipyIngressAnnotationRewriteTo = None
  | None => annos !! PipyIngressAnnotationRewriteFrom = None ∧ annos !! PipyIngressAnnotationRewriteTo = None
  end.
Proof.
  unfold ingressAnnotations. cbv zeta.
  destruct (ses_PathRewrite (se_Spec export)) as [rw|];
    [destruct (bool_decide (pr_From rw ≠ "") && bool_decide (pr_To rw ≠ ""))|];
    destruct (ses_SessionSticky (se_Spec export)), (bool_decide (ses_LoadBalancer (se_Spec export) ≠ ""));
    repeat split; rewrite ?lookup_insert_eq; try done;
    repeat (rewrite lookup_insert_ne by done); rewrite ?lookup_insert_eq, ?lookup_empty; done.
Qed.

(** The routes an export asks for. *)
Definition export_rewrite (spec : ServiceExportSpec) : list string :=
  match ses_PathRewrite spec with
  | Some rw => if bool_decide (pr_From rw ≠ "") && bool_decide (pr_To rw ≠ "")
               then [pr_From rw; pr_To rw] else []
  | None => []
  end.

Lemma servicePortName_nn `{KubeLib} env ns service spn :
  ingress_servicePortName env ns (Some service) = Some spn →
  spn_NamespacedName spn = mkNN ns (isb_Name service).
Proof.
  unfold ingress_servicePortName, createSvcPortNameInstance. intros Hs.
  case_all; naive_solver.
Qed.

(** The routes of an export lead to its own service, on any host. *)
Lemma export_entry_backend `{KubeLib} `{X509Lib} env export k info :
  (k, info) ∈ ingress_entries env (newIngress export) →
  rk_Host k = "" ∧ spn_NamespacedName (rk_ServicePortName k) = meta_nn (se_Meta export).
Proof.
  intros (rule & Hin & Hrule)%list_elem_of_bind. simpl in Hrule.
  apply list_elem_of_singleton in Hrule as ->. simpl in Hin.
  apply list_elem_of_omap in Hin as (p & Hp & Hentry).
  apply list_elem_of_fmap in Hp as (er & -> & _). unfold path_entry in Hentry.
  apply bind_Some in Hentry as (service & [= <-] & Hentry).
  apply bind_Some in Hentry as (spn & Hspn & Hentry).
  apply bind_Some in Hentry as (pt & _ & Hentry).
  apply bind_Some in Hentry as (hostPath & _ & [= <- _]).
  apply servicePortName_nn in Hspn. simpl. by rewrite Hspn.
Qed.

(** C26 (roundtrip).  What an export asks for is what its routes do: the ingress
    created for it belongs to this controller whatever the default class, and
    every route the cache derives from it has the session stickiness, the load
    balancer (round-robin when none or an unknown one is given) and the path
    rewrite of the export, and upstream settings that are set. *)
Theorem export_settings_reach_routes `{KubeLib} `{X509Lib} env export k info :
  (k, info) ∈ ingress_entries env (newIngress export) →
  IsValidPipyIngress (env_DefaultIngressClass env) (newIngress export) = true ∧
  bii_sessionSticky info = ses_SessionSticky (se_Spec export) ∧
  bii_lbType info = ingressLBType (ses_LoadBalancer (se_Spec export)) ∧
  bii_rewrite info = export_rewrite (se_Spec export) ∧
  bii_upstream info ≠ None ∧
  rk_Host k = "" ∧
  spn_NamespacedName (rk_ServicePortName k) = meta_nn (se_Meta export).
Proof.
  intros Hin. pose proof (export_annotations_lookup export) as (Hc & Hs & Hl & Hr).
  pose proof (export_entry_backend env export k info Hin) as [Hhost Hnn].
  apply entry_enriched in Hin as (rule & base & -> & _ & _ & Hb).
  unfold enrichIngressInfo, newIngress. cbn [ing_Meta with_annotations Annotations bii_sessionSticky
    bii_lbType bii_rewrite bii_upstream].
  split_and!; [|..|done|done|done].
  - unfold IsValidPipyIngress. cbn [ing_Meta with_annotations Annotations ing_ClassName].
    unfold gm_val. cbn [from_option id]. rewrite Hc. by vm_compute.
  - unfold smap_get, gm_val. cbn [from_option id]. rewrite Hs. by destruct (ses_SessionSticky _).
  - change (smap_get (Some ?m) ?key) with (default "" (m !! key)). rewrite Hl. case_bool_decide as Hb'; [done|].
    by rewrite Hb'.
  - unfold smap_get, gm_val, export_rewrite. cbn [from_option id]. rewrite Hb.
    destruct (ses_PathRewrite (se_Spec export)) as [rw|]; [|by destruct Hr as [-> ->]].
    destruct (bool_decide (pr_From rw ≠ "") && bool_decide (pr_To rw ≠ "")) eqn:E;
      destruct Hr as [-> ->]; [cbn [from_option id]; by rewrite E|done].
Qed.

(** A path of another ingress equals the path of a rule, with the same type. *)
Definition conflict `{ExportLib} (export : ServiceExport) (ings : list Ingress)
    (er : ServiceExportRule) (ing : Ingress) (p : HTTPIngressPath) : Prop :=
  er ∈ ses_Rules (se_Spec export) ∧ ing ∈ ings ∧
  IsControlledBy (ing_Meta ing) (se_Meta export) = false ∧
  ∃ rule paths, rule ∈ ing_Rules ing ∧ ir_HTTP rule = Some paths ∧ p ∈ paths ∧
    hp_Path p = er_Path er ∧ hp_PathType p = er_PathType er.

Lemma find_path_spec er paths r :
  find_path er paths = Ret r →
  match r with
  | Some p => p ∈ paths ∧ hp_Path p = er_Path er ∧ hp_PathType p = er_PathType er
  | None => ∀ p, p ∈ paths → hp_Path p = er_Path er → hp_PathType p ≠ er_PathType er
  end.
Proof.
  induction paths as [|path paths IH]; simpl; [by intros [= <-] p ?%elem_of_nil|].
  case_bool_decide as Hpath.
  - intros (pt & Hpt & (et & Het & Hr)%go_bind_ret)%go_bind_ret.
    destruct (hp_PathType path) as [pt'|] eqn:Ep; [injection Hpt as ->|done].
    destruct (er_PathType er) as [et'|] eqn:Ee; [injection Het as ->|done].
    revert Hr. case_bool_decide as Hty.
    + intros [= <-]. subst. split_and!; [by left|done|done].
    + intros Hr. specialize (IH Hr). destruct r as [p|].
      * destruct IH as (? & ? & ?). split_and!; [by right|done|done].
      * intros p [->|Hp]%elem_of_cons Hpp; [congruence|]. by apply IH.
  - intros Hr. specialize (IH Hr). destruct r as [p|].
    + destruct IH as (? & ? & ?). split_and!; [by right|done|done].
    + intros p [->|Hp]%elem_of_cons Hpp; [done|]. by apply IH.
Qed.

Lemma find_rule_spec er rules r :
  find_rule er rules = Ret r →
  match r with
  | Some p => ∃ rule paths, rule ∈ rules ∧ ir_HTTP rule = Some paths ∧ p ∈ paths ∧
      hp_Path p = er_Path er ∧ hp_PathType p = er_PathType er
  | None => ∀ rule paths p, rule ∈ rules → ir_HTTP rule = Some paths → p ∈ paths →
      hp_Path p = er_Path er → hp_PathType p ≠ er_PathType er
  end.
Proof.
  induction rules as [|rule rules IH]; simpl; [by intros [= <-] ??? ?%elem_of_nil|].
  intros (paths & Hh & (o & Ho%find_path_spec & Hr)%go_bind_ret)%go_bind_ret.
  destruct (ir_HTTP rule) as [paths'|] eqn:Eh; [injection Hh as ->|done].
  destruct o as [p|].
  - injection Hr as <-. exists rule, paths. destruct Ho as (? & ? & ?). split_and!; [by left|done..].
  - specialize (IH Hr). destruct r as [p|].
    + destruct IH as (rule' & paths' & ? & ?). exists rule', paths'. split; [by right|done].
    + intros rule' paths' p [->|Hin]%elem_of_cons Hh' Hp; [|by eapply IH].
      rewrite Eh in Hh'. injection Hh' as <-. by apply Ho.
Qed.

Section conflicts.
Context `{ExportLib}.

Lemma find_ingress_spec export er ings r :
  er ∈ ses_Rules (se_Spec export) →
  find_ingress export er ings = Ret r →
  match r with
  | Some (p, ing) => conflict export ings er ing p
  | None => ∀ ing p, ¬ conflict export ings er ing p
  end.
Proof.
  intros Her. induction ings as [|ing ings IH]; simpl.
  - intros [= <-] ing p (_ & Hin & _). by apply elem_of_nil in Hin.
  - assert (Hmono : ∀ ing' p, conflict export ings er ing' p → conflict export (ing :: ings) er ing' p).
    { intros ing' p (? & ? & ?). split_and!; [done|by right|naive_solver..]. }
    destruct (IsControlledBy (ing_Meta ing) (se_Meta export)) eqn:Hctl.
    + intros Hr. specialize (IH Hr). destruct r as [[p ing']|]; [by apply Hmono|].
      intros ing' p (Hr' & [->|Hin]%elem_of_cons & Hnc & Hrest); [congruence|]. by apply (IH ing' p).
    + intros (o & Ho%find_rule_spec & Hr)%go_bind_ret. destruct o as [p|].
      * injection Hr as <-. split_and!; [done|by left|done|done].
      * specialize (IH Hr). destruct r as [[p ing']|]; [by apply Hmono|].
        intros ing' p (Hr' & [->|Hin]%elem_of_cons & Hnc & Hrest); [|by apply (IH ing' p)].
        destruct Hrest as (rule & paths & Hrule & Hh & Hp & Hpath & Hty). by eapply Ho.
Qed.

Lemma find_conflict_spec export ers ings r :
  (∀ er, er ∈ ers → er ∈ ses_Rules (se_Spec export)) →
  find_conflict export ers ings = Ret r →
  match r with
  | Some (p, ing) => ∃ er, conflict export ings er ing p
  | None => ∀ er ing p, er ∈ ers → ¬ conflict export ings er ing p
  end.
Proof.
  induction ers as [|er ers IH]; simpl; intros Hsub; [by intros [= <-] ??? ?%elem_of_nil|].
  intros (o & Ho & Hr)%go_bind_ret. apply find_ingress_spec in Ho; [|apply Hsub; by left].
  destruct o as [[p ing]|].
  - injection Hr as <-. by exists er.
  - apply IH in Hr; [|intros; apply Hsub; by right]. destruct r as [[p ing]|]; [done|].
    intros er' ing p [->|Hin]%elem_of_cons; [apply Ho|by apply Hr].
Qed.
End conflicts.

(** What has to hold for an export to take effect. *)
Definition exportable `{ExportLib} (rd : export_reads) : Prop :=
  ∃ export svc ings, rd_export rd = Ok export ∧ rd_service rd = Ok svc ∧
    DeletionTimestamp (svc_Meta svc) = None ∧ svc_Type svc ≠ ServiceTypeExternalName ∧
    rd_ingresses rd = Ok ings ∧ ∀ er ing p, ¬ conflict export ings er ing p.

(** A write that only reports the export as invalid. *)
Definition reports_invalid (w : export_write) : Prop :=
  ∃ e cond, w = UpdateStatus e cond ∧ cond_Type cond = ServiceExportValid ∧ cond_Status cond = ConditionFalse.

Lemma update_status_writes `{MetaLib} outcome export status reason msg ret ws r :
  update_status outcome export status reason msg ret = Ret (ws, r) →
  ∃ e cond, ws = [UpdateStatus e cond] ∧ cond_Type cond = ServiceExportValid ∧ cond_Status cond = status.
Proof.
  unfold update_status, write_then. destruct (outcome _); intros [= <- <-]; by eexists _, _.
Qed.

(** C25 (safety).  Whatever is written for an export that cannot take effect only
    says so: an ingress is created or updated, the export changed or the export
    reported as valid only if the service exists, is not being deleted, is not an
    ExternalName service, and no ingress of someone else has one of its paths. *)
Theorem only_exportable_takes_effect `{MetaLib} `{ExportLib} `{MapRange} outcome nn rd ws r w :
  Reconcile outcome nn rd = Ret (ws, r) → w ∈ ws → reports_invalid w ∨ exportable rd.
Proof.
  unfold Reconcile. intros Hrec Hw.
  assert (Hinv : ∀ export reason msg ret,
    update_status outcome export ConditionFalse reason msg ret = Ret (ws, r) → reports_invalid w).
  { intros * Hu. apply update_status_writes in Hu as (e & cond & -> & Ht & Hs).
    apply list_elem_of_singleton in Hw as ->. by exists e, cond. }
  destruct (rd_export rd) as [export|[]] eqn:He;
    try (injection Hrec as <- <-; by apply elem_of_nil in Hw).
  destruct (rd_service rd) as [svc|[]] eqn:Hs; try (left; by eapply Hinv).
  case_bool_decide as Hdel; [left; by eapply Hinv|].
  case_bool_decide as Hty; [left; by eapply Hinv|].
  destruct (rd_ingresses rd) as [ings|e] eqn:Hi; [|left; by eapply Hinv].
  apply go_bind_ret in Hrec as (o & Ho & Hrec).
  apply find_conflict_spec in Ho; [|done].
  destruct o as [[p ing]|]; [left; by eapply Hinv|].
  right. exists export, svc, ings. split_and!; [done|done| |done|done|].
  - by apply eq_None_not_Some.
  - intros er ing p Hc. pose proof Hc as (Her & _). by eapply (Ho er ing p).
Qed.

(** The annotations of an export are only ever added to its
    ingress: when an export stops asking for sticky sessions, the update keeps
    the annotation and the routes stay sticky. *)
Theorem dropped_stickiness_survives `{KubeLib} `{X509Lib} `{MapRange} env export ing m k info :
  Annotations (ing_Meta ing) = Some m →
  m !! PipyIngressAnnotationSessionSticky = Some "true" →
  ses_SessionSticky (se_Spec export) = false →
  (k, info) ∈ ingress_entries env (updated_ingress export ing) →
  bii_sessionSticky info = true.
Proof.
  intros Hm Hsticky Hoff Hin.
  pose proof (export_annotations_lookup export) as (_ & Hs & _). rewrite Hoff in Hs.
  apply entry_enriched in Hin as (rule & base & -> & _).
  unfold enrichIngressInfo, updated_ingress. rewrite Hm. simpl.
  unfold smap_get. simpl. unfold gm_val. cbn [from_option id].
  rewrite lookup_gomap_merge. unfold gm_val. cbn [from_option id]. rewrite Hs, Hsticky. done.
Qed.

(** ** Witnesses *)

Definition sample_meta_lib : MetaLib := {| SetStatusCondition := fun l c => l ++ [c] |}.

Definition sample_export_lib : ExportLib := {|
  SetControllerReference := fun owner m => Ok m;
  IsControlledBy := fun m owner => bool_decide (ControllerUID m = Some (UID owner));
  Hash_ExportSpec := fun _ => Ok 10%N
|}.

Definition sample_export (sticky : bool) : ServiceExport :=
  mkServiceExport (named "ns" "web")
    (mkExportSpec (Some (mkPathRewrite "^/web" "/")) sticky "hashing"
       [mkExportRule 80 "/web" (Some "Prefix")] [] "") None.

Definition sample_export_env : IngressEnv :=
  mkIngressEnv (fun _ => Ok (Some (sample_service "ClusterIP"))) (fun _ => Err "not found")
    (fun _ => Err "not found") "".

Definition sample_export_route : RouteKey :=
  mkRouteKey (mkSPN (mkNN "ns" "web") "http" "TCP") "" "/web/*".

Lemma export_settings_reach_routes_witness :
  ∃ info, (sample_export_route, info) ∈
    @ingress_entries sample_lib sample_x509 sample_export_env (newIngress (sample_export true)) ∧
    bii_sessionSticky info = true ∧ bii_lbType info = "hashing" ∧ bii_rewrite info = ["^/web"; "/"].
Proof.
  assert (∃ info, (sample_export_route, info) ∈
    @ingress_entries sample_lib sample_x509 sample_export_env (newIngress (sample_export true))) as [info Hin].
  { eexists. left. }
  exists info. destruct (@export_settings_reach_routes sample_lib sample_x509 sample_export_env
    (sample_export true) sample_export_route info Hin) as (_ & Hs & Hl & Hr & _).
  split_and!; [exact Hin|exact Hs|exact Hl|exact Hr].
Defined.

Definition sample_export_reads : export_reads :=
  mkExportReads (Ok (sample_export true)) (Ok (sample_service "ClusterIP")) (Ok []) (Err NotFound).

Definition sample_export_writes : list export_write :=
  match @Reconcile sample_meta_lib sample_export_lib list_range (fun _ => None) (mkNN "ns" "web")
          sample_export_reads with
  | Ret r => r.1
  | Panic => []
  end.

Lemma only_exportable_takes_effect_witness :
  CreateIngress (newIngress (sample_export true)) ∈ sample_export_writes ∧
  (reports_invalid (CreateIngress (newIngress (sample_export true))) ∨
   exportable (H := sample_export_lib) sample_export_reads).
Proof.
  assert (Hin : CreateIngress (newIngress (sample_export true)) ∈ sample_export_writes) by left.
  split; [exact Hin|].
  eapply (@only_exportable_takes_effect sample_meta_lib sample_export_lib list_range (fun _ => None)
            (mkNN "ns" "web") sample_export_reads sample_export_writes None); [reflexivity|exact Hin].
Defined.

Lemma dropped_stickiness_survives_witness :
  ∃ info, (sample_export_route, info) ∈ @ingress_entries sample_lib sample_x509 sample_export_env
      (@updated_ingress list_range (sample_export false) (newIngress (sample_export true))) ∧
    bii_sessionSticky info = true.
Proof.
  assert (∃ info, (sample_export_route, info) ∈
    @ingress_entries sample_lib sample_x509 sample_export_env
      (@updated_ingress list_range (sample_export false) (newIngress (sample_export true)))) as [info Hin].
  { eexists. left. }
  exists info. split; [exact Hin|].
  eapply (@dropped_stickiness_survives sample_lib sample_x509 list_range sample_export_env
            (sample_export false) (newIngress (sample_export true))); [reflexivity..|exact Hin].
Defined.
