(* ===== verification/ClusterReconciler.v ===== *)
(** * The reconciler of clusters ([controllers/cluster/v1alpha1/cluster_controller.go])

    The reconciler keeps a connector for every cluster it knows and decides, on
    the control plane, which service exports are accepted.  The connectors'
    answers come from [RemoteConnector], each in the world of its own cluster. *)

From S2P Require Import Prelude GoLib Kube CacheTypes McsTypes Repo Config RouteBuild RemoteConnector.

(** ** Data *)

Record ClusterSpec : Type := mkClusterSpec {
  csp_IsInCluster : bool;
  csp_Region : string;
  csp_Zone : string;
  csp_Group : string;
  csp_GatewayHost : string;
  csp_GatewayPort : Z;
  csp_Kubeconfig : string
}.

Record Cluster : Type := mkCluster {
  cluster_Meta : ObjectMeta;
  cluster_Spec : ClusterSpec;
  cluster_Conditions : option (list Condition)
}.

(** [&clusterv1alpha1.Cluster{}] *)
Definition zeroCluster : Cluster :=
  mkCluster (named "" "") (mkClusterSpec false "" "" "" "" 0 "") None.

Definition ClusterManaged : string := "Managed".

Definition Cluster_Key (c : Cluster) : string :=
  clusterKey (csp_Region (cluster_Spec c)) (csp_Zone (cluster_Spec c)) (csp_Group (cluster_Spec c))
    (Name (cluster_Meta c)).

(** A running connector, with the identity of its stop channel. *)
Record connectorBackground : Type := mkBackground {
  bg_isInCluster : bool;
  bg_ClusterKey : string;
  bg_SpecHash : string;
  bg_ConnectorConfig : ConnectorConfig;
  bg_StopCh : nat
}.

(** The reconciler with the stop channels closed so far, the next fresh channel
    and the messages handed to the broker. *)
Record ClusterReconciler : Type := mkReconciler {
  cr_backgrounds : gmap string connectorBackground;
  cr_closed : list nat;
  cr_next : nat;
  cr_queue : list Message
}.

(** [close(ch)] panics on a closed channel. *)
Definition close_channel (ch : nat) (r : ClusterReconciler) : go ClusterReconciler :=
  if bool_decide (ch ∈ cr_closed r) then Panic
  else Ret (mkReconciler (cr_backgrounds r) (cr_closed r ++ [ch]) (cr_next r) (cr_queue r)).

Definition delete_background (key : string) (r : ClusterReconciler) : ClusterReconciler :=
  mkReconciler (delete key (cr_backgrounds r)) (cr_closed r) (cr_next r) (cr_queue r).

(** [close(bg.context.StopCh)] and [delete(r.backgrounds, key)] *)
Definition close_and_delete (key : string) (bg : connectorBackground) (r : ClusterReconciler) :
    go ClusterReconciler :=
  r ← close_channel (bg_StopCh bg) r; Ret (delete_background key r).

Definition Enqueue (msg : Message) (r : ClusterReconciler) : ClusterReconciler :=
  mkReconciler (cr_backgrounds r) (cr_closed r) (cr_next r) (cr_queue r ++ [msg]).

Definition destroyConnector (cluster : Cluster) (r : ClusterReconciler) : go ClusterReconciler :=
  let key := Cluster_Key cluster in
  match cr_backgrounds r !! key with
  | Some bg => close_and_delete key bg r
  | None => Ret r
  end.

Definition connectorConfig `{KubeLib} `{NetLib} (cluster : Cluster) (mc : MeshConfig) :
    result string ConnectorConfig :=
  let spec := cluster_Spec cluster in
  if csp_IsInCluster spec
  then NewConnectorConfig (cl_Region (mc_Cluster mc)) (cl_Zone (mc_Cluster mc)) (cl_Group (mc_Cluster mc))
         (cl_Name (mc_Cluster mc)) (csp_GatewayHost spec) (csp_GatewayPort spec) (csp_IsInCluster spec) ""
  else NewConnectorConfig (csp_Region spec) (csp_Zone spec) (csp_Group spec) (Name (cluster_Meta cluster))
         (csp_GatewayHost spec) (csp_GatewayPort spec) (csp_IsInCluster spec) (cl_UID (mc_Cluster mc)).

(** What the outside answers while a connector is created. *)
Record connector_env : Type := mkConnectorEnv {
  (** rest.InClusterConfig *)
  ce_InClusterConfig : result string unit;
  (** clientcmd.Load, and clientcmd.BuildConfigFromKubeconfigGetter on what it loads *)
  ce_Load : string → result string string;
  ce_BuildConfig : string → result string unit;
  (** conn.NewConnector *)
  ce_NewConnector : ConnectorConfig → result string unit;
  (** hashstructure.Hash of cluster.Spec *)
  ce_HashSpec : ClusterSpec → result string N;
  (** what the connector's goroutine has written to [success] and [errorMsg] when
      they are read: nil while it runs *)
  ce_RunFailed : option string;
  (** the update of the status of the cluster *)
  ce_StatusUpdate : Cluster → option string
}.

Definition DefaultServiceBasePath : string := "/base/services".

Section reconcile.
Context `{KubeLib} `{NetLib} `{MetaLib} `{Resty}.
Context (env : connector_env).

Definition joinCondition (cluster : Cluster) (status reason msg : string) : Cluster :=
  mkCluster (cluster_Meta cluster) (cluster_Spec cluster)
    (Some (SetStatusCondition (default [] (cluster_Conditions cluster))
             (mkCondition ClusterManaged status (Generation (cluster_Meta cluster)) reason msg))).

Definition successJoinClusterSet (cluster : Cluster) : option string :=
  ce_StatusUpdate env (joinCondition cluster ConditionTrue "Success"
    ("Cluster " +:+ Cluster_Key cluster +:+ " joined ClusterSet successfully.")).

Definition failedJoinClusterSet (cluster : Cluster) (err : string) : option string :=
  ce_StatusUpdate env (joinCondition cluster ConditionFalse "Failed"
    ("Cluster " +:+ Cluster_Key cluster +:+ " failed to join ClusterSet: " +:+ err +:+ ".")).

Definition SpecHash (cluster : Cluster) : string := SimpleHash (ce_HashSpec env (cluster_Spec cluster)).

Definition remoteKubeConfig (cluster : Cluster) : result string unit :=
  match ce_Load env (csp_Kubeconfig (cluster_Spec cluster)) with
  | Err e => Err e
  | Ok cfg => ce_BuildConfig env cfg
  end.

Definition getKubeConfig (cluster : Cluster) : result string unit :=
  if csp_IsInCluster (cluster_Spec cluster) then ce_InClusterConfig env else remoteKubeConfig cluster.

(** The error returned, and the reconciler after. *)
Definition newConnector (cluster : Cluster) (mc : MeshConfig) (r : ClusterReconciler) :
    option string * ClusterReconciler :=
  let key := Cluster_Key cluster in
  match getKubeConfig cluster with
  | Err e => (Some e, r)
  | Ok _ =>
    match connectorConfig cluster mc with
    | Err e => (Some e, r)
    | Ok connCfg =>
      match ce_NewConnector env connCfg with
      | Err e => (Some e, r)
      | Ok _ =>
        let bg := mkBackground (csp_IsInCluster (cluster_Spec cluster)) key
                    (SpecHash cluster) connCfg (cr_next r) in
        let r := mkReconciler (<[key := bg]> (cr_backgrounds r)) (cr_closed r) (S (cr_next r)) (cr_queue r) in
        if csp_IsInCluster (cluster_Spec cluster) then (None, r)
        else match ce_RunFailed env with
             | None => (successJoinClusterSet cluster, r)
             | Some msg => (failedJoinClusterSet cluster msg, r)
             end
      end
    end
  end.

(** The end of the goroutine of a connector whose [Run] returned an error: it closes
    the stop channel and then, in a second step and without the lock of the
    reconciler, takes the connector out of the registry. *)
Definition connector_failed (bg : connectorBackground) (r : ClusterReconciler) : go ClusterReconciler :=
  close_channel (bg_StopCh bg) r.
Definition connector_forgotten (key : string) (r : ClusterReconciler) : ClusterReconciler :=
  delete_background key r.

Definition createConnector (cluster : Cluster) (mc : MeshConfig) (r : ClusterReconciler) :
    option string * ClusterReconciler := newConnector cluster mc r.

Definition recreateConnector (bg : connectorBackground) (cluster : Cluster) (mc : MeshConfig)
    (r : ClusterReconciler) : go (option string * ClusterReconciler) :=
  r ← close_and_delete (Cluster_Key cluster) bg r; Ret (newConnector cluster mc r).

(** Create the connector, replace it when the spec changed, or leave it. *)
Definition reconcileConnector (cluster : Cluster) (mc : MeshConfig) (r : ClusterReconciler) :
    go (option string * ClusterReconciler) :=
  match cr_backgrounds r !! Cluster_Key cluster with
  | Some bg =>
    if bool_decide (bg_SpecHash bg ≠ SpecHash cluster)
    then recreateConnector bg cluster mc r
    else Ret (None, r)
  | None => Ret (createConnector cluster mc r)
  end.

(** The codebases of the control plane. *)
Definition deriveCodebases (mc : MeshConfig) : http (result string unit) :=
  _ ←? DeriveCodebase (GetDefaultServicesPath mc) DefaultServiceBasePath;
  DeriveCodebase (GetDefaultIngressPath mc) DefaultIngressBasePath.

Definition Reconcile (read : result kerror Cluster) (mc : MeshConfig) (r : ClusterReconciler) :
    http (go (option string * ClusterReconciler)) :=
  match read with
  | Err NotFound => mret (r ← destroyConnector zeroCluster r; Ret (None, r))
  | Err _ => mret (Ret (Some "Failed to get Cluster", r))
  | Ok cluster =>
    d ← deriveCodebases mc;
    match d with
    | Err e => mret (Ret (Some e, r))
    | Ok _ => mret (reconcileConnector cluster mc r)
    end
  end.
End reconcile.

(** ** Federation of exports *)

Class CondLib : Type := {
  IsStatusConditionTrue : list Condition → string → bool;
  IsStatusConditionFalse : list Condition → string → bool
}.

Section federation.
Context `{MapRange} `{CondLib}.
(** The API server of each connected cluster, as it is when the event is
    processed. *)
Context (api : string → ClusterAPI) (world : ∀ key, @kworld (api key)).

Definition importExists (key : string) (export : ServiceExport) : bool :=
  (@ServiceImportExists (api key) export (world key)).1.

Definition validate (key : string) (e : ServiceExportEvent) : result string unit :=
  (@ValidateServiceExport (api key) (ev_ServiceExport e) (ev_Service e) (world key)).1.

(** No remote connector knows an import of the name. *)
Definition isFirstTimeExport (e : ServiceExportEvent) (r : ClusterReconciler) : bool :=
  negb (existsb (fun bg => negb (bg_isInCluster bg) && importExists (bg_ClusterKey bg) (ev_ServiceExport e))
          (go_range (cr_backgrounds r)).*2).

(** The first conflict in a remote cluster other than the exporter's own. *)
Fixpoint first_conflict (e : ServiceExportEvent) (bgs : list connectorBackground) : option string :=
  match bgs with
  | [] => None
  | bg :: bgs =>
    if bg_isInCluster bg then first_conflict e bgs
    else if bool_decide (bg_ClusterKey bg = ev_ClusterKey e) then first_conflict e bgs
    else match validate (bg_ClusterKey bg) e with
         | Err err => Some err
         | Ok _ => first_conflict e bgs
         end
  end.

Definition isValidServiceExport (e : ServiceExportEvent) (r : ClusterReconciler) : option string :=
  first_conflict e (go_range (cr_backgrounds r)).*2.

Definition acceptServiceExport (e : ServiceExportEvent) : ClusterReconciler → ClusterReconciler :=
  Enqueue (mkMessage ServiceExportAccepted None (Some e)).

Definition rejectExport (e : ServiceExportEvent) (err : string) : ClusterReconciler → ClusterReconciler :=
  Enqueue (mkMessage ServiceExportRejected None
             (Some (mkExportEvent (ev_Geo e) (ev_ServiceExport e) (ev_Service e) err))).

Definition processServiceExportCreatedEvent (e : ServiceExportEvent) (r : ClusterReconciler) :
    ClusterReconciler :=
  if isFirstTimeExport e r then acceptServiceExport e r
  else match isValidServiceExport e r with
       | None => acceptServiceExport e r
       | Some err => rejectExport e err r
       end.

(** One message of the created channel. *)
Definition processEvent (mc : MeshConfig) (msg : Message) (r : ClusterReconciler) : ClusterReconciler :=
  if mc_IsManaged mc && bool_decide (cl_ControlPlaneUID (mc_Cluster mc) ≠ "") &&
     bool_decide (cl_UID (mc_Cluster mc) ≠ cl_ControlPlaneUID (mc_Cluster mc)) then r
  else
    match msg_NewObj msg with
    | None => r
    | Some e =>
      let conds := default [] (se_Conditions (ev_ServiceExport e)) in
      if IsStatusConditionFalse conds ServiceExportValid then r
      else if IsStatusConditionTrue conds ServiceExportConflict then r
      else processServiceExportCreatedEvent e r
    end.
End federation.

(** ** The registry of connectors: invariant

    The reconciler's own steps: a reconciliation, the two steps with which the
    goroutine of a registered connector ends when it failed (a registered connector
    has a closed channel only between them), and an event of the created channel. *)

Definition initial : ClusterReconciler := mkReconciler ∅ [] 0 [].

(** Objects of the API server have a name. *)
Definition has_name (read : result kerror Cluster) : Prop :=
  match read with Ok c => Name (cluster_Meta c) ≠ "" | Err _ => True end.

Inductive cluster_step `{KubeLib} `{NetLib} `{MetaLib} `{Resty} :
  ClusterReconciler → ClusterReconciler → Prop :=
| step_reconcile env read mc s s' e r r' :
    has_name read → Reconcile env read mc r s = (Ret (e, r'), s') → cluster_step r r'
| step_failed key bg r r' :
    cr_backgrounds r !! key = Some bg → connector_failed bg r = Ret r' → cluster_step r r'
| step_forgotten key bg r :
    cr_backgrounds r !! key = Some bg → bg_StopCh bg ∈ cr_closed r → cluster_step r (connector_forgotten key r)
| step_enqueue msg r : cluster_step r (Enqueue msg r).

Record registry_ok (r : ClusterReconciler) : Prop := {
  (** a registered connector's channel was made and is nobody else's *)
  reg_chan : ∀ k bg, cr_backgrounds r !! k = Some bg → bg_StopCh bg < cr_next r;
  reg_inj : ∀ k k' bg bg', cr_backgrounds r !! k = Some bg → cr_backgrounds r !! k' = Some bg' →
    bg_StopCh bg = bg_StopCh bg' → k = k';
  (** channels are closed at most once *)
  reg_closed : NoDup (cr_closed r);
  reg_made : ∀ ch, ch ∈ cr_closed r → ch < cr_next r;
  (** the key is the one of a named cluster, and the connector knows it *)
  reg_key : ∀ k bg, cr_backgrounds r !! k = Some bg → bg_ClusterKey bg = k ∧
    ∃ c, Name (cluster_Meta c) ≠ "" ∧ k = Cluster_Key c
}.

Lemma initial_ok : registry_ok initial.
Proof. split; simpl; intros; try by simplify_map_eq. constructor. by set_solver. Qed.

Lemma close_channel_ok ch r :
  registry_ok r → ch < cr_next r → ch ∉ cr_closed r →
  ∃ r', close_channel ch r = Ret r' ∧ registry_ok r' ∧
    cr_backgrounds r' = cr_backgrounds r ∧ cr_closed r' = cr_closed r ++ [ch] ∧ cr_next r' = cr_next r.
Proof.
  intros [Ho Hi Hc Hm Hk] Hlt Hni. unfold close_channel. rewrite bool_decide_false by done.
  eexists. split; [done|]. split; [|done]. split; simpl; [done|done| | |done].
  - apply NoDup_app. split; [done|]. split; [set_solver|]. apply NoDup_singleton.
  - intros c. rewrite elem_of_app, list_elem_of_singleton. intros [?| ->]; eauto.
Qed.

Lemma delete_background_ok key r : registry_ok r → registry_ok (delete_background key r).
Proof.
  intros [Ho Hi Hc Hm Hk]. split; simpl; [| |done|done|].
  - intros k bg [_ Hl]%lookup_delete_Some. by eapply Ho.
  - intros k k' bg1 bg2 [_ H1]%lookup_delete_Some [_ H2]%lookup_delete_Some. by apply Hi.
  - intros k bg [_ Hl]%lookup_delete_Some. by apply Hk.
Qed.

Lemma close_and_delete_ok key bg r :
  registry_ok r → cr_backgrounds r !! key = Some bg → bg_StopCh bg ∉ cr_closed r →
  ∃ r', close_and_delete key bg r = Ret r' ∧ registry_ok r' ∧
    cr_backgrounds r' = delete key (cr_backgrounds r) ∧ cr_closed r' = cr_closed r ++ [bg_StopCh bg] ∧
    cr_next r' = cr_next r.
Proof.
  intros Hok Hbg Hni. unfold close_and_delete.
  destruct (close_channel_ok (bg_StopCh bg) r Hok (reg_chan _ Hok _ _ Hbg) Hni) as (r1 & -> & Hok1 & Hb & Hc & Hn).
  simpl. eexists. split; [done|]. split; [by apply delete_background_ok|]. simpl. by rewrite Hb.
Qed.

Lemma newConnector_ok `{KubeLib} `{NetLib} `{MetaLib} env c mc r :
  registry_ok r → Name (cluster_Meta c) ≠ "" → cr_backgrounds r !! Cluster_Key c = None →
  registry_ok (newConnector env c mc r).2 ∧ cr_closed (newConnector env c mc r).2 = cr_closed r ∧
  (∀ k, k ≠ Cluster_Key c → cr_backgrounds (newConnector env c mc r).2 !! k = cr_backgrounds r !! k) ∧
  ∀ bg, cr_backgrounds (newConnector env c mc r).2 !! Cluster_Key c = Some bg → bg_StopCh bg ∉ cr_closed r.
Proof.
  intros [Ho Hi Hc Hm Hk] Hname Hnone. unfold newConnector.
  destruct (getKubeConfig env c); [|by split_and!; try (intros bg; simpl; rewrite Hnone)].
  destruct (connectorConfig c mc) as [cfg|]; [|by split_and!; try (intros bg; simpl; rewrite Hnone)].
  destruct (ce_NewConnector env cfg); [|by split_and!; try (intros bg; simpl; rewrite Hnone)].
  match goal with |- context [mkReconciler (<[_ := ?b]> _) _ _ _] => set (bg := b) end.
  assert (Hr : registry_ok (mkReconciler (<[Cluster_Key c := bg]> (cr_backgrounds r)) (cr_closed r)
                              (S (cr_next r)) (cr_queue r))).
  { split; simpl.
    - intros k bg' [[<- <-]|[Hne Hl]]%lookup_insert_Some; simpl.
      + lia.
      + apply Ho in Hl. lia.
    - intros k k' b1 b2 [[<- <-]|[Hn1 H1']]%lookup_insert_Some [[<- <-]|[Hn2 H2']]%lookup_insert_Some;
        simpl; intros Heq; [done| | |by eapply Hi].
      + apply Ho in H2'. lia.
      + apply Ho in H1'. lia.
    - done.
    - intros ch Hin%Hm. lia.
    - intros k bg' [[<- <-]|[Hne Hl]]%lookup_insert_Some; [by eauto|by apply Hk]. }
  destruct (csp_IsInCluster (cluster_Spec c)); [|destruct (ce_RunFailed env)]; simpl;
    (split; [done|]; split; [done|]; split; [intros; by rewrite lookup_insert_ne|]);
    (intros bg'; rewrite lookup_insert_eq; intros [= <-] Hin%Hm; simpl in Hin; lia).
Qed.

(** What a reconciliation may do to the registry: nothing to the other connectors;
    it stops at most the connector registered under the key, and the one that is
    registered under it afterwards is that one or has an open channel. *)
Definition touches_only (key : string) (r r' : ClusterReconciler) : Prop :=
  (∀ k, k ≠ key → cr_backgrounds r' !! k = cr_backgrounds r !! k) ∧
  (∀ ch, ch ∈ cr_closed r' → ch ∈ cr_closed r ∨
     ∃ bg, cr_backgrounds r !! key = Some bg ∧ ch = bg_StopCh bg) ∧
  (∀ bg, cr_backgrounds r' !! key = Some bg →
     cr_backgrounds r !! key = Some bg ∧ cr_closed r' = cr_closed r ∨ bg_StopCh bg ∉ cr_closed r').

Lemma touches_only_refl key r : touches_only key r r.
Proof. split_and!; [done|by left|by left]. Qed.

(** The part of the connectors returns, keeps the registry sound and touches no
    other connector; it panics when it stops a connector whose channel is closed. *)
Lemma reconcileConnector_ok `{KubeLib} `{NetLib} `{MetaLib} env c mc r :
  registry_ok r → Name (cluster_Meta c) ≠ "" →
  (∃ e r', reconcileConnector env c mc r = Ret (e, r') ∧ registry_ok r' ∧ touches_only (Cluster_Key c) r r') ∨
  (reconcileConnector env c mc r = Panic ∧
   ∃ bg, cr_backgrounds r !! Cluster_Key c = Some bg ∧ bg_StopCh bg ∈ cr_closed r ∧ bg_SpecHash bg ≠ SpecHash env c).
Proof.
  intros Hok Hname. unfold reconcileConnector.
  destruct (cr_backgrounds r !! Cluster_Key c) as [bg|] eqn:Hbg.
  - case_bool_decide as Hhash; [|left; eauto using touches_only_refl]. unfold recreateConnector.
    destruct (decide (bg_StopCh bg ∈ cr_closed r)) as [Hin|Hni].
    { right. unfold close_and_delete, close_channel. rewrite bool_decide_true by done. eauto. }
    left. destruct (close_and_delete_ok _ _ _ Hok Hbg Hni) as (r1 & -> & Hok1 & Hb1 & Hc1 & _). simpl.
    destruct (newConnector_ok env c mc r1) as (Hok2 & Hc2 & Hb2 & Hnew); [done|done|by rewrite Hb1, lookup_delete_eq|].
    destruct (newConnector env c mc r1) as [e r2]. exists e, r2. simpl in *. unfold touches_only. split_and!; [done|done| | |].
    + intros k Hk. rewrite Hb2, Hb1 by done. by rewrite lookup_delete_ne.
    + intros ch. rewrite Hc2, Hc1, elem_of_app, list_elem_of_singleton. intros [?| ->]; eauto.
    + intros bg' Hbg'. right. rewrite Hc2. by apply Hnew.
  - left. destruct (newConnector_ok env c mc r) as (Hok2 & Hc2 & Hb2 & Hnew); [done..|]. unfold createConnector.
    destruct (newConnector env c mc r) as [e r2]. exists e, r2. simpl in *. unfold touches_only. split_and!; [done|done|done| |].
    + intros ch. rewrite Hc2. eauto.
    + intros bg' Hbg'. right. rewrite Hc2. by apply Hnew.
Qed.

Lemma Reconcile_found `{KubeLib} `{NetLib} `{MetaLib} `{Resty} env c mc r s :
  (∃ e, (Reconcile env (Ok c) mc r s).1 = Ret (Some e, r)) ∨
  ((deriveCodebases mc s).1 = Ok tt ∧ (Reconcile env (Ok c) mc r s).1 = reconcileConnector env c mc r).
Proof.
  unfold Reconcile, mbind, http_bind. destruct (deriveCodebases mc s) as [[[]|e] s']; [by right|left; eauto].
Qed.

Lemma Reconcile_ok `{KubeLib} `{NetLib} `{MetaLib} `{Resty} env c mc r s :
  registry_ok r → Name (cluster_Meta c) ≠ "" →
  (∃ e r', (Reconcile env (Ok c) mc r s).1 = Ret (e, r') ∧ registry_ok r' ∧ touches_only (Cluster_Key c) r r') ∨
  ((Reconcile env (Ok c) mc r s).1 = Panic ∧
   ∃ bg, cr_backgrounds r !! Cluster_Key c = Some bg ∧ bg_StopCh bg ∈ cr_closed r ∧ bg_SpecHash bg ≠ SpecHash env c).
Proof.
  intros Hok Hname. destruct (Reconcile_found env c mc r s) as [[e ->]|[_ ->]];
    [left; eauto using touches_only_refl|by apply reconcileConnector_ok].
Qed.

(** The key of the empty object is shorter than any key of a named cluster. *)
Lemma named_key_not_zero c : Name (cluster_Meta c) ≠ "" → Cluster_Key c ≠ Cluster_Key zeroCluster.
Proof.
  intros Hname Heq. apply (f_equal String.length) in Heq. revert Heq.
  unfold Cluster_Key, clusterKey. rewrite !length_sapp. simpl.
  destruct (Name (cluster_Meta c)); [done|]. simpl. lia.
Qed.

Lemma NotFound_noop `{KubeLib} `{NetLib} `{MetaLib} `{Resty} env mc r s :
  registry_ok r → Reconcile env (Err NotFound) mc r s = (Ret (None, r), s).
Proof.
  intros Hok. unfold Reconcile, destroyConnector.
  destruct (cr_backgrounds r !! Cluster_Key zeroCluster) as [bg|] eqn:Hbg; [|done].
  destruct (reg_key _ Hok _ _ Hbg) as (_ & c & Hname & Heq). by destruct (named_key_not_zero c).
Qed.

Lemma registry_reachable `{KubeLib} `{NetLib} `{MetaLib} `{Resty} r :
  rtc cluster_step initial r → registry_ok r.
Proof.
  apply rtc_invariant; [apply initial_ok|].
  intros _ _ [env read mc s s' e r0 r' Hn HR|key bg r0 r' Hbg HF|key bg r0 Hbg Hcl|msg r0] Hok.
  - destruct read as [c|[]].
    + destruct (Reconcile_ok env c mc r0 s Hok Hn) as [(e' & r1 & Heq & Hok1 & _)|[Heq _]];
        rewrite HR in Heq; simpl in Heq; congruence.
    + rewrite NotFound_noop in HR by done. by simplify_eq.
    + by injection HR as <- <-.
    + by injection HR as <- <-.
  - unfold connector_failed in HF. destruct (decide (bg_StopCh bg ∈ cr_closed r0)) as [Hin|Hni].
    { unfold close_channel in HF. by rewrite bool_decide_true in HF. }
    destruct (close_channel_ok _ _ Hok (reg_chan _ Hok _ _ Hbg) Hni) as (r1 & Heq & Hok1 & _). congruence.
  - by apply delete_background_ok.
  - destruct Hok as [Ho Hi Hc Hm Hk]. by split.
Qed.

Section registry_claims.
Context `{KubeLib} `{NetLib} `{MetaLib} `{Resty}.

(** C24 (safety).  In every state the reconciler can reach, a reconciliation of a cluster leaves
    the connectors of other clusters registered and running, stops at most the connector
    registered for this very cluster, and keeps the registry sound: every registered
    connector has a stop channel of its own, no channel is closed twice, and it is filed
    under its cluster's key; a connector it registers has an open channel.  It does not
    panic but in one situation: the connector of this cluster failed, its goroutine has
    closed the channel and not yet taken it out of the registry, and the cluster's spec has
    changed (see [half_failed_connector_panics]). *)
Theorem reconcile_stops_only_its_own env c mc r s :
  rtc cluster_step initial r → Name (cluster_Meta c) ≠ "" →
  (∃ e r', (Reconcile env (Ok c) mc r s).1 = Ret (e, r') ∧ registry_ok r' ∧
    (∀ k, k ≠ Cluster_Key c → cr_backgrounds r' !! k = cr_backgrounds r !! k) ∧
    (∀ ch, ch ∈ cr_closed r' → ch ∈ cr_closed r ∨
       ∃ bg, cr_backgrounds r !! Cluster_Key c = Some bg ∧ ch = bg_StopCh bg) ∧
    (∀ bg, cr_backgrounds r' !! Cluster_Key c = Some bg →
       cr_backgrounds r !! Cluster_Key c = Some bg ∧ cr_closed r' = cr_closed r ∨ bg_StopCh bg ∉ cr_closed r')) ∨
  ((Reconcile env (Ok c) mc r s).1 = Panic ∧
   ∃ bg, cr_backgrounds r !! Cluster_Key c = Some bg ∧ bg_StopCh bg ∈ cr_closed r ∧ bg_SpecHash bg ≠ SpecHash env c).
Proof. intros Hr Hname. apply Reconcile_ok; [by apply registry_reachable|done]. Qed.

(** Between the two steps of the goroutine of a failed connector, a reconciliation
    of its cluster after a change of the spec closes the channel a second time: the
    process panics. *)
Theorem half_failed_connector_panics env c mc r bg r' s :
  cr_backgrounds r !! Cluster_Key c = Some bg → connector_failed bg r = Ret r' →
  bg_SpecHash bg ≠ SpecHash env c → (deriveCodebases mc s).1 = Ok tt →
  cluster_step r r' ∧ (Reconcile env (Ok c) mc r' s).1 = Panic.
Proof.
  intros Hbg Hf Hhash Hd. split; [by eapply step_failed|].
  destruct (Reconcile_found env c mc r' s) as [[e He]|[_ ->]].
  { revert He. unfold Reconcile, mbind, http_bind. destruct (deriveCodebases mc s) as [[[]|] s']; [|done].
    simpl. unfold reconcileConnector, recreateConnector. unfold connector_failed, close_channel in Hf.
    revert Hf. case_bool_decide; [done|]. intros [= <-]. simpl. rewrite Hbg, bool_decide_true by done.
    unfold close_and_delete, close_channel. simpl. rewrite bool_decide_true; [done|]. set_solver. }
  unfold connector_failed, close_channel in Hf. revert Hf. case_bool_decide; [done|]. intros [= <-].
  unfold reconcileConnector, recreateConnector. simpl. rewrite Hbg, bool_decide_true by done.
  unfold close_and_delete, close_channel. simpl. rewrite bool_decide_true; [done|]. set_solver.
Qed.

(** When the reconciler finds that a cluster is gone it stops nothing: the key
    it looks up is the one of the empty object it read into, under which no
    connector is ever registered. *)
Theorem deleted_cluster_keeps_connector env mc r s :
  rtc cluster_step initial r → Reconcile env (Err NotFound) mc r s = (Ret (None, r), s).
Proof. intros Hr. by apply NotFound_noop, registry_reachable. Qed.

(** A connector whose [Run] fails only after it was replaced closes its stop
    channel a second time: the process panics. *)
Theorem late_failure_panics env c mc r bg e r' s :
  rtc cluster_step initial r → cr_backgrounds r !! Cluster_Key c = Some bg → bg_StopCh bg ∉ cr_closed r →
  bg_SpecHash bg ≠ SpecHash env c → Name (cluster_Meta c) ≠ "" →
  (deriveCodebases mc s).1 = Ok tt →
  (Reconcile env (Ok c) mc r s).1 = Ret (e, r') →
  connector_failed bg r' = Panic.
Proof.
  intros Hr%registry_reachable Hbg Hopen Hhash Hname Hd.
  assert ((Reconcile env (Ok c) mc r s).1 = reconcileConnector env c mc r) as ->.
  { unfold Reconcile, mbind, http_bind. destruct (deriveCodebases mc s) as [[[]|] s']; done. }
  unfold reconcileConnector, recreateConnector. rewrite Hbg, bool_decide_true by done.
  destruct (close_and_delete_ok _ _ _ Hr Hbg Hopen) as (r1 & -> & Hok & Hb1 & Hc1 & _). simpl.
  destruct (newConnector_ok env c mc r1) as (_ & Hc2 & _); [done|done|by rewrite Hb1, lookup_delete_eq|].
  intros [= Heq]. rewrite Heq in Hc2. simpl in Hc2.
  unfold connector_failed, close_channel.
  rewrite bool_decide_true; [done|]. rewrite Hc2, Hc1. set_solver.
Qed.
End registry_claims.

(** ** Federation: the decision *)

Section decision.
Context `{MapRange} `{CondLib}.
Context (api : string → ClusterAPI) (world : ∀ key, @kworld (api key)).

(** A connector of a remote cluster. *)
Definition remote_bg (r : ClusterReconciler) (bg : connectorBackground) : Prop :=
  ∃ k, cr_backgrounds r !! k = Some bg ∧ bg_isInCluster bg = false.

(** Nobody imports the service yet. *)
Definition not_imported (e : ServiceExportEvent) (r : ClusterReconciler) : Prop :=
  ∀ bg, remote_bg r bg → importExists api world (bg_ClusterKey bg) (ev_ServiceExport e) = false.

(** A remote cluster other than the exporter objects. *)
Definition objection (e : ServiceExportEvent) (r : ClusterReconciler) (err : string) : Prop :=
  ∃ bg, remote_bg r bg ∧ bg_ClusterKey bg ≠ ev_ClusterKey e ∧
    validate api world (bg_ClusterKey bg) e = Err err.

Lemma in_backgrounds r bg : bg ∈ (go_range (cr_backgrounds r)).*2 ↔ ∃ k, cr_backgrounds r !! k = Some bg.
Proof.
  rewrite list_elem_of_fmap. split.
  - intros ([k b] & -> & Hin%go_range_elem). by exists k.
  - intros [k Hk]. exists (k, bg). by rewrite go_range_elem.
Qed.

Lemma isFirstTimeExport_spec e r : isFirstTimeExport api world e r = true ↔ not_imported e r.
Proof.
  unfold isFirstTimeExport, not_imported, remote_bg.
  rewrite negb_true_iff, <-not_true_iff_false, existsb_exists. split.
  - intros Hno bg (k & Hk & Hin). apply not_true_iff_false. intros Himp. apply Hno.
    exists bg. rewrite <-list_elem_of_In, in_backgrounds, Hin, Himp. eauto.
  - intros Hall (bg & Hin & Hb). rewrite <-list_elem_of_In, in_backgrounds in Hin.
    apply andb_true_iff in Hb as [Hf%negb_true_iff Himp]. destruct Hin as [k Hk].
    rewrite Hall in Himp; [done|by eauto].
Qed.

Lemma first_conflict_spec e bgs :
  match first_conflict api world e bgs with
  | Some err => ∃ bg, bg ∈ bgs ∧ bg_isInCluster bg = false ∧ bg_ClusterKey bg ≠ ev_ClusterKey e ∧
      validate api world (bg_ClusterKey bg) e = Err err
  | None => ∀ bg err, bg ∈ bgs → bg_isInCluster bg = false → bg_ClusterKey bg ≠ ev_ClusterKey e →
      validate api world (bg_ClusterKey bg) e ≠ Err err
  end.
Proof.
  induction bgs as [|bg bgs IH]; simpl; [set_solver|].
  destruct (bg_isInCluster bg) eqn:Hin; [|case_bool_decide as Hk; [|destruct (validate _ _ _ _) eqn:Hv]].
  4: { exists bg. set_solver. }
  all: destruct (first_conflict api world e bgs) as [err|]; [set_solver|];
    intros b err' [->|Hb]%elem_of_cons; [congruence|by apply IH].
Qed.

Lemma isValidServiceExport_spec e r :
  match isValidServiceExport api world e r with
  | Some err => objection e r err
  | None => ∀ err, ¬ objection e r err
  end.
Proof.
  unfold isValidServiceExport. pose proof (first_conflict_spec e (go_range (cr_backgrounds r)).*2) as Hs.
  destruct (first_conflict _ _ _ _) as [err|].
  - destruct Hs as (bg & [k Hk]%in_backgrounds & ?). exists bg. unfold remote_bg. naive_solver.
  - intros err (bg & (k & Hk & Hf) & Hne & Hv). eapply Hs; eauto. apply in_backgrounds. eauto.
Qed.

(** The clusters that decide: not one that is managed by another control plane. *)
Definition decides (mc : MeshConfig) : Prop :=
  mc_IsManaged mc = true → cl_ControlPlaneUID (mc_Cluster mc) ≠ "" →
  cl_UID (mc_Cluster mc) = cl_ControlPlaneUID (mc_Cluster mc).

Lemma not_deciding_false mc :
  mc_IsManaged mc && bool_decide (cl_ControlPlaneUID (mc_Cluster mc) ≠ "") &&
    bool_decide (cl_UID (mc_Cluster mc) ≠ cl_ControlPlaneUID (mc_Cluster mc)) = false ↔ decides mc.
Proof.
  unfold decides. rewrite !andb_false_iff, !bool_decide_eq_false.
  destruct (mc_IsManaged mc), (decide (cl_ControlPlaneUID (mc_Cluster mc) = "")),
    (decide (cl_UID (mc_Cluster mc) = cl_ControlPlaneUID (mc_Cluster mc))); naive_solver.
Qed.

(** An export already marked invalid or in conflict is left alone. *)
Definition admissible (export : ServiceExport) : Prop :=
  IsStatusConditionFalse (default [] (se_Conditions export)) ServiceExportValid = false ∧
  IsStatusConditionTrue (default [] (se_Conditions export)) ServiceExportConflict = false.

(** C23 (functional).  On a deciding cluster an admissible export gets exactly one answer: it is
    accepted if no remote cluster imports the service yet or no remote cluster
    other than the exporter objects, and otherwise rejected with the objection of
    such a cluster, whatever the order in which the connectors are visited.
    Nothing else of the reconciler changes; any other export gets no answer. *)
Theorem export_gets_one_answer mc e kind old r :
  (decides mc → admissible (ev_ServiceExport e) →
   ((not_imported e r ∨ ∀ err, ¬ objection e r err) ∧
    processEvent api world mc (mkMessage kind old (Some e)) r =
      Enqueue (mkMessage ServiceExportAccepted None (Some e)) r) ∨
   (¬ not_imported e r ∧ ∃ err, objection e r err ∧
    processEvent api world mc (mkMessage kind old (Some e)) r =
      Enqueue (mkMessage ServiceExportRejected None
        (Some (mkExportEvent (ev_Geo e) (ev_ServiceExport e) (ev_Service e) err))) r)) ∧
  (¬ (decides mc ∧ admissible (ev_ServiceExport e)) →
   processEvent api world mc (mkMessage kind old (Some e)) r = r).
Proof.
  unfold processEvent. simpl. split.
  - intros Hd [-> ->]. rewrite (proj2 (not_deciding_false mc) Hd).
    unfold processServiceExportCreatedEvent. destruct (isFirstTimeExport api world e r) eqn:Hf.
    + left. apply isFirstTimeExport_spec in Hf. auto.
    + pose proof (isValidServiceExport_spec e r) as Hs.
      destruct (isValidServiceExport api world e r) as [err|]; [right|by left; auto].
      split; [|by eauto]. rewrite <-isFirstTimeExport_spec. congruence.
  - intros Hno. destruct (_ && _ && _) eqn:Hm; [done|]. apply not_deciding_false in Hm.
    destruct (IsStatusConditionFalse _ _) eqn:Hv; [done|].
    destruct (IsStatusConditionTrue _ _) eqn:Hc; [done|]. by destruct Hno.
Qed.
End decision.

(** ** Witnesses *)

Definition sample_connector_env : connector_env := {|
  ce_InClusterConfig := Ok tt;
  ce_Load := Ok;
  ce_BuildConfig := fun _ => Ok tt;
  ce_NewConnector := fun _ => Ok tt;
  ce_HashSpec := fun spec => Ok (Z.to_N (csp_GatewayPort spec));
  ce_RunFailed := None;
  ce_StatusUpdate := fun _ => None
|}.

Definition sample_cluster (port : Z) : Cluster :=
  mkCluster (named "" "c") (mkClusterSpec true "r" "z" "g" "" port "") None.

Definition sample_cond_lib : CondLib := {|
  IsStatusConditionTrue := fun conds t =>
    existsb (fun c => bool_decide (cond_Type c = t) && bool_decide (cond_Status c = ConditionTrue)) conds;
  IsStatusConditionFalse := fun conds t =>
    existsb (fun c => bool_decide (cond_Type c = t) && bool_decide (cond_Status c = ConditionFalse)) conds
|}.

Definition sample_status_lib : MetaLib := {| SetStatusCondition := fun l c => l ++ [c] |}.

(** A connector runs for the cluster. *)
Definition sample_bg : connectorBackground :=
  mkBackground true "r/z/g/c" "50" (mkConnectorConfig "" "" "" "" true "///" "" None 0 "") 0.
Definition sample_registry : ClusterReconciler := mkReconciler {[ "r/z/g/c" := sample_bg ]} [] 1 [].

(** Both codebases exist. *)
Definition sample_session : session (H := sample_resty) :=
  mkSession (H := sample_resty)
    {[ fullRepoApiPath "/local/services" := 3%Z; fullRepoApiPath "/local/ingress" := 3%Z ]} [].

Definition sample_step : ClusterReconciler → ClusterReconciler → Prop :=
  @cluster_step sample_lib sample_net_lib sample_status_lib sample_resty.

Definition sample_reconcile (read : result kerror Cluster) :=
  @Reconcile sample_lib sample_net_lib sample_status_lib sample_resty sample_connector_env
    read zeroMeshConfig sample_registry sample_session.

Lemma sample_derived : (@deriveCodebases sample_resty zeroMeshConfig sample_session).1 = Ok tt.
Proof. vm_compute. reflexivity. Qed.

Lemma sample_reachable : rtc sample_step initial sample_registry.
Proof.
  apply rtc_once. unfold sample_step.
  destruct (@Reconcile sample_lib sample_net_lib sample_status_lib sample_resty sample_connector_env
              (Ok (sample_cluster 80)) zeroMeshConfig initial sample_session) as [o s'] eqn:E.
  pose proof sample_derived as Hd. revert E. unfold Reconcile, mbind, http_bind.
  destruct (deriveCodebases zeroMeshConfig sample_session) as [d s1] eqn:Ed. simpl in Hd. subst d.
  intros [= <- <-]. eapply (step_reconcile sample_connector_env (Ok (sample_cluster 80)) zeroMeshConfig
    sample_session s1); [done|].
  unfold Reconcile, mbind, http_bind. rewrite Ed. reflexivity.
Qed.

Lemma reconcile_stops_only_its_own_witness :
  ∃ e r', (sample_reconcile (Ok (sample_cluster 81))).1 = Ret (e, r') ∧
    registry_ok r' ∧ cr_backgrounds r' !! "r/z/g/d" = None.
Proof.
  destruct (@reconcile_stops_only_its_own sample_lib sample_net_lib sample_status_lib sample_resty
              sample_connector_env (sample_cluster 81) zeroMeshConfig sample_registry sample_session
              sample_reachable) as [(e & r' & HR & Hok & Hb & _)|(_ & bg & Hbg & Hcl & _)];
    [discriminate| |by apply elem_of_nil in Hcl].
  exists e, r'. split; [exact HR|]. split; [exact Hok|]. rewrite (Hb "r/z/g/d"); [reflexivity|discriminate].
Defined.

Lemma deleted_cluster_keeps_connector_witness :
  sample_reconcile (Err NotFound) = (Ret (None, sample_registry), sample_session) ∧
  cr_backgrounds sample_registry !! "r/z/g/c" = Some sample_bg.
Proof.
  split; [|reflexivity].
  exact (@deleted_cluster_keeps_connector sample_lib sample_net_lib sample_status_lib sample_resty
           sample_connector_env zeroMeshConfig sample_registry sample_session sample_reachable).
Defined.

Lemma late_failure_panics_witness :
  ∃ e r', (sample_reconcile (Ok (sample_cluster 81))).1 = Ret (e, r') ∧
    connector_failed sample_bg r' = Panic.
Proof.
  destruct (@Reconcile_ok sample_lib sample_net_lib sample_status_lib sample_resty sample_connector_env (sample_cluster 81)
              zeroMeshConfig sample_registry sample_session) as [(e & r' & HR & _)|(_ & bg & Hbg & Hcl & _)];
    [exact (registry_reachable _ sample_reachable)|discriminate| |by apply elem_of_nil in Hcl].
  exists e, r'. split; [exact HR|].
  eapply (@late_failure_panics sample_lib sample_net_lib sample_status_lib sample_resty sample_connector_env
            (sample_cluster 81) zeroMeshConfig sample_registry sample_bg e r' sample_session);
    [exact sample_reachable|reflexivity|apply not_elem_of_nil|discriminate|discriminate|exact sample_derived|exact HR].
Defined.

Lemma half_failed_connector_panics_witness :
  ∃ r', sample_step sample_registry r' ∧
    (@Reconcile sample_lib sample_net_lib sample_status_lib sample_resty sample_connector_env
       (Ok (sample_cluster 81)) zeroMeshConfig r' sample_session).1 = Panic.
Proof.
  eexists. apply (@half_failed_connector_panics sample_lib sample_net_lib sample_status_lib sample_resty
    sample_connector_env (sample_cluster 81) zeroMeshConfig sample_registry sample_bg);
    [reflexivity|reflexivity|discriminate|exact sample_derived].
Defined.

(** A remote cluster, where the service is imported from a third one. *)
Definition sample_remote : ClusterReconciler :=
  mkReconciler {[ "r/z/g/c" := mkBackground false "r/z/g/c" "50" sample_geo 0 ]} [] 1 [].

Lemma export_gets_one_answer_witness :
  @processEvent list_range sample_cond_lib (fun _ => sample_cluster_api) (fun _ => sample_kworld)
    zeroMeshConfig (mkMessage ServiceExportCreated None (Some sample_export_event)) sample_remote =
    Enqueue (mkMessage ServiceExportAccepted None (Some sample_export_event)) sample_remote ∧
  ¬ @not_imported (fun _ => sample_cluster_api) (fun _ => sample_kworld) sample_export_event sample_remote.
Proof.
  assert (Hni : ¬ @not_imported (fun _ => sample_cluster_api) (fun _ => sample_kworld)
                    sample_export_event sample_remote).
  { intros Hn. assert (Hb := Hn (mkBackground false "r/z/g/c" "50" sample_geo 0)).
    apply diff_true_false. rewrite <-Hb; [vm_compute; reflexivity|].
    exists "r/z/g/c". split; reflexivity. }
  split; [|exact Hni].
  destruct (@export_gets_one_answer list_range sample_cond_lib (fun _ => sample_cluster_api)
              (fun _ => sample_kworld) zeroMeshConfig sample_export_event ServiceExportCreated None
              sample_remote) as [Hd _].
  destruct Hd as [[_ Ha]|(_ & err & (bg & _ & _ & Hv) & _)];
    [intros; discriminate|split; reflexivity|exact Ha|discriminate Hv].
Defined.
