(* ===== verification/Federation.v ===== *)
(** * The federation of clusters ([pkg/cluster/remote.go],
    [controllers/cluster/v1alpha1/cluster_controller.go], [pkg/event])

    A control plane and the connectors of its clusters run concurrently.  The
    connectors enqueue the exports they see, the reconciler decides on them, and
    every connector starts a goroutine per answer, which calls the API server of
    its cluster several times and starts over when a call fails.  Here these
    goroutines are programs whose steps are single API calls, interleaved with one
    another, with the watchers, with the reconciler and with other writers.  The
    API server offers optimistic concurrency: an update must name the version it
    replaces.

    The goroutines are shown to refine a machine in which a message takes effect
    on the imports of a cluster in one step; the invariants of the imports are
    proved there. *)

From stdpp Require Import functions.
From S2P Require Import Prelude GoLib Kube CacheTypes McsTypes Repo Config RouteBuild RemoteConnector ClusterReconciler.

(** ** Requests to the API server and programs of requests *)

Inductive Req : Type → Type :=
| NsCreate (n : string) : Req (result kerror unit)
| ImpCreate (i : ServiceImport) : Req (result kerror ServiceImport)
| ImpGet (nn : NamespacedName) : Req (result kerror ServiceImport)
| ImpUpdate (i : ServiceImport) : Req (result kerror ServiceImport)
| ImpDelete (nn : NamespacedName) : Req (result kerror unit)
| ExpGet (nn : NamespacedName) : Req (result kerror ServiceExport)
| ExpUpdateStatus (e : ServiceExport) : Req (result kerror ServiceExport).

Definition serve `{ClusterAPI} {R} (q : Req R) : kworld → R * kworld :=
  match q with
  | NsCreate n => ns_Create n
  | ImpCreate i => imp_Create i
  | ImpGet nn => imp_Get nn
  | ImpUpdate i => imp_Update i
  | ImpDelete nn => imp_Delete nn
  | ExpGet nn => exp_Get nn
  | ExpUpdateStatus e => exp_UpdateStatus e
  end.

Inductive prog : Type :=
| Return (r : result kerror unit)
| Call {R} (q : Req R) (k : R → prog).

(** The program run without interference. *)
Fixpoint run_prog `{ClusterAPI} (p : prog) : kube (result kerror unit) :=
  match p with
  | Return r => mret r
  | Call q k => r ← serve q; run_prog (k r)
  end.

(** ** The goroutines of a connector *)

Section programs.
Context `{MetaLib} `{MapRange}.
Context (ClusterKey : string).

Definition update_import (imp : ServiceImport) : prog :=
  Call (ImpUpdate imp) (fun r => Return (match r with Ok _ => Ok tt | Err e => Err e end)).

Definition upsert_rest (export : ServiceExportEvent) (r : result kerror ServiceImport) : prog :=
  match r with
  | Err e => Return (Err e)
  | Ok imp => update_import (upsert_import export imp)
  end.

Definition createOrGet_prog (export : ServiceExportEvent) : prog :=
  Call (ImpCreate (newServiceImport export)) (fun r =>
    match r with
    | Err AlreadyExists => Call (ImpGet (ev_nn export)) (upsert_rest export)
    | r => upsert_rest export r
    end).

Definition upsert_prog (export : ServiceExportEvent) : prog :=
  if bool_decide (ev_ClusterKey export = ClusterKey) then Return (Ok tt)
  else
    Call (NsCreate (Namespace (se_Meta (ev_ServiceExport export)))) (fun r =>
      match r with
      | Ok _ => createOrGet_prog export
      | Err AlreadyExists => createOrGet_prog export
      | Err e => Return (Err e)
      end).

(** What the deletion does with the import it read. *)
Definition delete_rest (export : ServiceExportEvent) (r : result kerror ServiceImport) : prog :=
  match r with
  | Err NotFound => Return (Ok tt)
  | Err e => Return (Err e)
  | Ok imp =>
    match DeletionTimestamp (si_Meta imp) with
    | Some _ => Return (Ok tt)
    | None =>
      match remaining_ports export imp with
      | [] => Call (ImpDelete (ev_nn export)) Return
      | ports => update_import (set_ports imp ports (si_ServiceAccountName imp))
      end
    end
  end.

Definition delete_prog (export : ServiceExportEvent) : prog :=
  if bool_decide (ev_ClusterKey export = ClusterKey) then Return (Ok tt)
  else Call (ImpGet (ev_nn export)) (delete_rest export).

Definition reject_prog (evt : ServiceExportEvent) : prog :=
  if bool_decide (ClusterKey = ev_ClusterKey evt) then
    Call (ExpGet (ev_nn evt)) (fun r =>
      match r with
      | Err e => Return (Err e)
      | Ok exp =>
        let cond := mkCondition ServiceExportConflict ConditionTrue (Generation (se_Meta exp)) "Conflict"
          ("ServiceExport " +:+ Namespace (se_Meta exp) +:+ "/" +:+ Name (se_Meta exp) +:+
           " conflicts, " +:+ ev_Error evt) in
        Call (ExpUpdateStatus (mkServiceExport (se_Meta exp) (se_Spec exp)
                (Some (SetStatusCondition (default [] (se_Conditions exp)) cond))))
          (fun r => Return (match r with Ok _ => Ok tt | Err e => Err e end))
      end)
  else Return (Ok tt).

(** What [processEvent] starts for a message. *)
Definition goroutine_prog (msg : Message) : option prog :=
  match msg_Kind msg with
  | ServiceExportDeleted => delete_prog <$> msg_OldObj msg
  | ServiceExportAccepted => upsert_prog <$> msg_NewObj msg
  | ServiceExportRejected => reject_prog <$> msg_NewObj msg
  | ServiceExportCreated => None
  end.
End programs.

(** Without interference a goroutine is the handler of the connector. *)
Lemma kube_bind_eq `{ClusterAPI} {A B} (m : kube A) (f : A → kube B) w :
  (m ≫= f) w = let '(a, w') := m w in f a w'.
Proof. done. Qed.

Lemma run_update_import `{ClusterAPI} imp w :
  run_prog (update_import imp) w =
    (r ← imp_Update imp; match r with Ok _ => mret (Ok tt) | Err e => mret (Err e) end) w.
Proof. unfold update_import. simpl. unfold mbind, kube_bind. by destruct (imp_Update imp w) as [[] w']. Qed.

Lemma run_upsert_rest `{ClusterAPI} `{MapRange} export (m : kube (result kerror ServiceImport)) w :
  (r ← m; run_prog (upsert_rest export r)) w =
  (r ← m; match r with
          | Err e => mret (Err e)
          | Ok imp => r ← imp_Update (upsert_import export imp);
                      match r with Ok _ => mret (Ok tt) | Err e => mret (Err e) end
          end) w.
Proof.
  unfold mbind, kube_bind. destruct (m w) as [[imp|e] w1]; [|done]. exact (run_update_import _ w1).
Qed.

Lemma run_upsert_prog `{ClusterAPI} `{MapRange} ClusterKey export w :
  run_prog (upsert_prog ClusterKey export) w = upsertServiceImport ClusterKey export w.
Proof.
  unfold upsert_prog, upsertServiceImport. case_bool_decide; [done|].
  unfold getOrCreateServiceImport. cbn [run_prog serve]. rewrite !kube_bind_eq.
  destruct (ns_Create _ w) as [r0 w0].
  assert (Hc : run_prog (createOrGet_prog export) w0 =
    (r ← createOrGet export; match r with
       | Err e => mret (Err e)
       | Ok imp => r ← imp_Update (upsert_import export imp);
                   match r with Ok _ => mret (Ok tt) | Err e => mret (Err e) end
       end) w0).
  { unfold createOrGet_prog, createOrGet. cbn [run_prog serve].
    rewrite !kube_bind_eq.
    destruct (imp_Create (newServiceImport export) w0) as [[imp|e] w1];
      [exact (run_update_import _ w1)|].
    destruct e; [done| |done]. exact (run_upsert_rest export (imp_Get (ev_nn export)) w1). }
  destruct r0 as [u|[]]; done.
Qed.

Lemma run_delete_prog `{ClusterAPI} ClusterKey export w :
  run_prog (delete_prog ClusterKey export) w = deleteServiceImport ClusterKey export w.
Proof.
  unfold delete_prog, deleteServiceImport. case_bool_decide; [done|]. cbn [run_prog serve].
  rewrite !kube_bind_eq. destruct (imp_Get (ev_nn export) w) as [[imp|[]] w1]; try done.
  unfold delete_rest. destruct (DeletionTimestamp (si_Meta imp)); [done|].
  destruct (remaining_ports export imp) as [|p ps].
  - cbn [run_prog serve]. unfold mbind, kube_bind. by destruct (imp_Delete _ w1).
  - exact (run_update_import _ w1).
Qed.

Lemma run_reject_prog `{ClusterAPI} `{MetaLib} ClusterKey evt w :
  run_prog (reject_prog ClusterKey evt) w = rejectServiceExport ClusterKey evt w.
Proof.
  unfold reject_prog, rejectServiceExport. case_bool_decide; [|done]. cbn [run_prog serve].
  rewrite !kube_bind_eq. destruct (exp_Get (ev_nn evt) w) as [[exp|e] w1]; [|done].
  cbn [run_prog serve]. unfold mbind, kube_bind. by destruct (exp_UpdateStatus _ w1) as [[] w2].
Qed.

Lemma run_goroutine `{ClusterAPI} `{MetaLib} `{MapRange} ClusterKey msg :
  match goroutine_prog ClusterKey msg, remote_handle ClusterKey msg with
  | Some p, Some h => ∀ w, run_prog p w = h w
  | None, None => True
  | _, _ => False
  end.
Proof.
  unfold goroutine_prog, remote_handle. destruct (msg_Kind msg); [done|..].
  - destruct (msg_OldObj msg); [|done]. simpl. intros w. apply run_delete_prog.
  - destruct (msg_NewObj msg); [|done]. simpl. intros w. apply run_upsert_prog.
  - destruct (msg_NewObj msg); [|done]. simpl. intros w. apply run_reject_prog.
Qed.

(** ** Optimistic concurrency

    What Kubernetes documents of resource versions: the version of an object
    identifies what was stored, versions are never reused, and an update succeeds
    only when it names the version that is stored now. *)
Class VersionedLaws `{ClusterAPILaws} : Type := {
  was_stored : kworld → ServiceImport → Prop;
  stored_now : ∀ w nn i, imports w !! nn = Some i → was_stored w i;
  version_unique : ∀ w i j, was_stored w i → was_stored w j →
    meta_nn (si_Meta i) = meta_nn (si_Meta j) →
    ResourceVersion (si_Meta i) = ResourceVersion (si_Meta j) → i = j;
  serve_keeps_versions : ∀ R (q : Req R) w r w' i, serve q w = (r, w') → was_stored w i → was_stored w' i;
  svc_Get_keeps : ∀ nn w r w', svc_Get nn w = (r, w') →
    imports w' = imports w ∧ ∀ i, was_stored w i → was_stored w' i;
  imp_Update_current : ∀ i w i' w', imp_Update i w = (Ok i', w') →
    ∃ cur, imports w !! meta_nn (si_Meta i) = Some cur ∧
      ResourceVersion (si_Meta cur) = ResourceVersion (si_Meta i);
  exp_Get_imports : ∀ nn w r w', exp_Get nn w = (r, w') → imports w' = imports w;
  exp_UpdateStatus_imports : ∀ e w r w', exp_UpdateStatus e w = (r, w') → imports w' = imports w
}.

(** ** Effects of a message on the imports of a cluster *)

Inductive effect : Type :=
| Nothing     (** a read, a failed call, a call about something else *)
| Created     (** the import is created with the ports of the export *)
| Merged      (** the endpoints of the exporter are merged into the import there is *)
| Removed     (** the endpoints of the exporter are removed from the import there is *)
| Dropped     (** the import is deleted *)
| Absent.     (** there is no import to remove endpoints from *)

(** The effects that are the answer to the message. *)
Definition answers (ef : effect) : bool :=
  match ef with Nothing | Created => false | Merged | Removed | Dropped | Absent => true end.

(** The export that the message tells a cluster to import, or to forget. *)
Definition to_import (key : string) (msg : Message) (e : ServiceExportEvent) : Prop :=
  msg_Kind msg = ServiceExportAccepted ∧ msg_NewObj msg = Some e ∧ ev_ClusterKey e ≠ key.
Definition to_forget (key : string) (msg : Message) (e : ServiceExportEvent) : Prop :=
  msg_Kind msg = ServiceExportDeleted ∧ msg_OldObj msg = Some e ∧ ev_ClusterKey e ≠ key.
Definition concerns (key : string) (msg : Message) : Prop :=
  ∃ e, to_import key msg e ∨ to_forget key msg e.

Section atomic.
Context `{VersionedLaws} `{MapRange}.
Context (key : string) (msg : Message).

(** One step on the imports.  The merge and the removal start from the import
    that is stored at that moment; the deletion from one that was. *)
Inductive atomic_step : effect → kworld → kworld → Prop :=
| at_nothing w w' : imports w' = imports w → atomic_step Nothing w w'
| at_created e i w w' :
    to_import key msg e → imports w !! ev_nn e = None →
    imports w' = <[ev_nn e := i]> (imports w) → si_Ports i = si_Ports (newServiceImport e) →
    atomic_step Created w w'
| at_merged e cur i w w' :
    to_import key msg e → imports w !! ev_nn e = Some cur →
    imports w' = <[ev_nn e := i]> (imports w) → si_Ports i = si_Ports (upsert_import e cur) →
    atomic_step Merged w w'
| at_removed e cur i w w' :
    to_forget key msg e → imports w !! ev_nn e = Some cur → remaining_ports e cur ≠ [] →
    imports w' = <[ev_nn e := i]> (imports w) → si_Ports i = remaining_ports e cur →
    atomic_step Removed w w'
| at_dropped e seen w w' :
    to_forget key msg e → was_stored w seen → meta_nn (si_Meta seen) = ev_nn e →
    remaining_ports e seen = [] → imports w' = delete (ev_nn e) (imports w) →
    atomic_step Dropped w w'
| at_absent e w w' :
    to_forget key msg e → imports w' = imports w →
    match imports w !! ev_nn e with None => True | Some i => is_Some (DeletionTimestamp (si_Meta i)) end →
    atomic_step Absent w w'.

Definition evolves (w w' : kworld) : Prop := ∀ i, was_stored w i → was_stored w' i.

#[export] Instance evolves_preorder : PreOrder evolves.
Proof. split; [intros w i; auto|]. intros w1 w2 w3 H12 H23 i ?. auto. Qed.

(** A program guarantees that, whatever others write between its calls, each of
    its calls is an atomic step, that it answers the message at most once, and
    that it has answered when it succeeds and has not when it fails. *)
Fixpoint guarantees (p : prog) (w : kworld) (done : bool) : Prop :=
  match p with
  | Return (Ok _) => concerns key msg → done = true
  | Return (Err _) => done = false
  | Call q k =>
    ∀ w1 r w2, evolves w w1 → serve q w1 = (r, w2) →
      ∃ ef, atomic_step ef w1 w2 ∧ (answers ef = true → done = false) ∧
        guarantees (k r) w2 (done || answers ef)
  end.

Lemma guarantees_evolves p w w' done : evolves w w' → guarantees p w done → guarantees p w' done.
Proof. destruct p as [[]|R q k]; [done..|]. intros He Hg w1 r w2 Hw1. apply Hg. by transitivity w'. Qed.

Lemma serve_evolves {R} (q : Req R) w r w' : serve q w = (r, w') → evolves w w'.
Proof. intros Hs i. by eapply serve_keeps_versions. Qed.

(** A call that leaves the imports alone. *)
Lemma guarantees_nothing {R} (q : Req R) k w :
  (∀ w1 r w2, evolves w w1 → serve q w1 = (r, w2) → imports w2 = imports w1 ∧ guarantees (k r) w2 false) →
  guarantees (Call q k) w false.
Proof.
  intros Hk w1 r w2 Hw1 Hs. destruct (Hk _ _ _ Hw1 Hs) as [Hi Hg]. exists Nothing. by split; [constructor|].
Qed.

(** An update of the import that was read: when it succeeds, that import is still
    the one stored. *)
Lemma guarantees_update base ports sa w ef :
  was_stored w base → answers ef = true →
  (∀ w1 w2 i, imports w1 !! meta_nn (si_Meta base) = Some base →
     imports w2 = <[meta_nn (si_Meta base) := i]> (imports w1) → si_Ports i = ports →
     atomic_step ef w1 w2) →
  guarantees (update_import (set_ports base ports sa)) w false.
Proof.
  intros Hseen Hans Hef w1 r w2 Hw1 Hs. cbn [serve] in Hs. pose proof (imp_Update_imports _ _ _ _ Hs) as Hi.
  destruct r as [i'|e].
  - destruct Hi as [Hi Hp]. apply imp_Update_current in Hs as (cur & Hcur & Hv). simpl in Hcur, Hv, Hi, Hp.
    assert (cur = base) as ->.
    { eapply version_unique; [by eapply stored_now|by apply Hw1| |done]. by eapply imports_named. }
    exists ef. split; [by eapply Hef|]. rewrite Hans. by split.
  - exists Nothing. by split; [constructor|].
Qed.

Lemma guarantees_upsert_rest e imp w :
  to_import key msg e → was_stored w imp → meta_nn (si_Meta imp) = ev_nn e →
  guarantees (upsert_rest e (Ok imp)) w false.
Proof.
  intros Hto Hseen Hm. apply (guarantees_update _ _ _ _ Merged); [done..|].
  intros w1 w2 i. rewrite Hm. by apply at_merged.
Qed.

Lemma guarantees_createOrGet e w : to_import key msg e → guarantees (createOrGet_prog e) w false.
Proof.
  intros Hto w1 r w2 Hw1 Hs. pose proof (serve_evolves _ _ _ _ Hs) as Hev. cbn [serve] in Hs.
  apply imp_Create_imports in Hs. change (meta_nn (si_Meta (newServiceImport e))) with (ev_nn e) in Hs.
  destruct r as [imp|err].
  - destruct Hs as (Hnone & Hi & Hm & Hp). exists Created. split; [by eapply at_created|]. split; [done|].
    apply guarantees_upsert_rest; [done| |done]. apply (stored_now _ (ev_nn e)). by rewrite Hi, lookup_insert_eq.
  - destruct Hs as [Hi _]. exists Nothing. split; [by constructor|]. split; [done|].
    destruct err; [done| |done]. apply guarantees_nothing. intros w3 r w4 Hw3 Hs.
    pose proof (serve_evolves _ _ _ _ Hs) as Hev4. cbn [serve] in Hs.
    apply imp_Get_imports in Hs as [Hi4 Hr]. split; [done|]. destruct r as [imp|err]; [|done].
    apply guarantees_upsert_rest; [done|by eapply Hev4, stored_now|by eapply imports_named].
Qed.

Lemma guarantees_upsert e w :
  msg_Kind msg = ServiceExportAccepted → msg_NewObj msg = Some e → guarantees (upsert_prog key e) w false.
Proof.
  intros Hk Ho. unfold upsert_prog. case_bool_decide as Hkey.
  - intros (e' & [(_ & Ho' & ?)|(Hk' & _)]); congruence.
  - apply guarantees_nothing. intros w1 r w2 _ Hs. split; [by eapply ns_Create_imports|].
    destruct r as [u|[]]; try done; by apply guarantees_createOrGet.
Qed.

Lemma guarantees_delete e w :
  msg_Kind msg = ServiceExportDeleted → msg_OldObj msg = Some e → guarantees (delete_prog key e) w false.
Proof.
  intros Hk Ho. unfold delete_prog. case_bool_decide as Hkey.
  { intros (e' & [(Hk' & _)|(_ & Ho' & ?)]); congruence. }
  assert (Hto : to_forget key msg e) by done.
  intros w1 r w2 _ Hs. pose proof (serve_evolves _ _ _ _ Hs) as Hev. cbn [serve] in Hs.
  apply imp_Get_imports in Hs as [Hi Hr]. destruct r as [imp|[]].
  - pose proof (imports_named _ _ _ Hr) as Hm. cbn [delete_rest].
    destruct (DeletionTimestamp (si_Meta imp)) eqn:Hd.
    { exists Absent. split; [eapply at_absent; [done..|]; rewrite Hr; by eexists|done]. }
    exists Nothing. split; [by constructor|]. split; [done|]. simpl.
    assert (Hseen : was_stored w2 imp) by by eapply Hev, stored_now.
    destruct (remaining_ports e imp) as [|p ps] eqn:Hrem.
    + intros w3 r w4 Hw3 Hs. apply imp_Delete_imports in Hs.
      destruct r as [u|err]; [|by exists Nothing; split; [constructor|]].
      exists Dropped. split; [by eapply at_dropped; [|apply Hw3| | |]|done].
    + apply (guarantees_update _ _ _ _ Removed); [done..|].
      intros w3 w4 i Hcur Hst Hp. rewrite Hm in Hcur, Hst. eapply at_removed; [done|done|by rewrite Hrem|done|by rewrite Hrem].
  - exists Absent. split; [eapply at_absent; [done..|]; by rewrite Hr|done].
  - exists Nothing. by split; [constructor|].
  - exists Nothing. by split; [constructor|].
Qed.

Lemma guarantees_reject `{MetaLib} e w :
  msg_Kind msg = ServiceExportRejected → guarantees (reject_prog key e) w false.
Proof.
  intros Hk. assert (Hno : ¬ concerns key msg).
  { intros (e' & [(? & _)|(? & _)]); congruence. }
  unfold reject_prog. case_bool_decide; [|by intros ?%Hno]. apply guarantees_nothing. intros w1 r w2 _ Hs.
  split; [by eapply exp_Get_imports|]. destruct r as [exp|]; [|done].
  apply guarantees_nothing. intros w3 r w4 _ Hs'. split; [by eapply exp_UpdateStatus_imports|].
  destruct r; [by intros ?%Hno|done].
Qed.

(** Every goroutine of a connector gives the guarantee. *)
Lemma goroutine_guarantees `{MetaLib} p w :
  goroutine_prog key msg = Some p → guarantees p w false.
Proof.
  unfold goroutine_prog. destruct (msg_Kind msg) eqn:Hk; [done|..].
  - destruct (msg_OldObj msg) eqn:Ho; intros [= <-]. by apply guarantees_delete.
  - destruct (msg_NewObj msg) eqn:Ho; intros [= <-]. by apply guarantees_upsert.
  - destruct (msg_NewObj msg) eqn:Ho; intros [= <-]. by apply guarantees_reject.
Qed.
End atomic.

(** ** The federation *)

(** A goroutine of the connector of the cluster [tk_key]. *)
Record task : Type := mkTask { tk_key : string; tk_msg : Message; tk_prog : prog }.

(** What happened: the connector of a cluster enqueued a message about an export it saw, the
    reconciler enqueued its answer. *)
Inductive log_entry : Type := Watched (key : string) (msg : Message) | Answered (msg : Message).

(** What an informer delivers to the watcher of a connector. *)
Inductive watch_event : Type :=
| ExportAdded (export : ServiceExport)
| ExportUpdated (oldExport export : ServiceExport)
| ExportGone (export : ServiceExport).

Definition watcher `{ClusterAPI} (geo : ConnectorConfig) (mc : MeshConfig) (ev : watch_event) :
    kube (option Message) :=
  match ev with
  | ExportAdded export => OnServiceExportAdd geo mc export
  | ExportUpdated oldExport export => OnServiceExportUpdate geo mc oldExport export
  | ExportGone export => OnServiceExportDelete geo mc export
  end.

Definition with_queue (q : list Message) (r : ClusterReconciler) : ClusterReconciler :=
  mkReconciler (cr_backgrounds r) (cr_closed r) (cr_next r) q.

(** A connector of a remote cluster runs for the key. *)
Definition connected (r : ClusterReconciler) (key : string) (geo : ConnectorConfig) : Prop :=
  ∃ bg, cr_backgrounds r !! key = Some bg ∧ bg_isInCluster bg = false ∧ bg_ConnectorConfig bg = geo.

(** The messages of a watcher: about an export of its own cluster that has a
    service, which is no external name. *)
Definition watch_message (geo : ConnectorConfig) (msg : Message) : Prop :=
  ∃ export svc, svc_Type svc ≠ ServiceTypeExternalName ∧
    let e := mkExportEvent geo export svc "" in
    (msg = mkMessage ServiceExportCreated None (Some e) ∨ msg = mkMessage ServiceExportDeleted (Some e) None).

Lemma getService_spec `{VersionedLaws} export w r w' :
  getService export w = (r, w') → imports w' = imports w ∧ evolves w w' ∧
    match r with Ok svc => svc_Type svc ≠ ServiceTypeExternalName | Err _ => True end.
Proof.
  unfold getService. rewrite kube_bind_eq. destruct (svc_Get _ w) as [[svc|e] w1] eqn:Hg;
    apply svc_Get_keeps in Hg as [Hi He].
  - case_bool_decide; by intros [= <- <-].
  - by intros [= <- <-].
Qed.

Lemma watcher_spec `{VersionedLaws} geo mc ev w o w' :
  watcher geo mc ev w = (o, w') → imports w' = imports w ∧ evolves w w' ∧
    match o with Some msg => watch_message geo msg | None => True end.
Proof.
  assert (Hid : imports w = imports w ∧ evolves w w ∧ True) by by split_and!.
  assert (Hup : ∀ export, RemoteCache_OnUpdate geo mc export w = (o, w') →
    imports w' = imports w ∧ evolves w w' ∧ match o with Some msg => watch_message geo msg | None => True end).
  { intros export. unfold RemoteCache_OnUpdate. destruct (negb (mc_IsManaged mc)); [by intros [= <- <-]|].
    rewrite kube_bind_eq. destruct (getService export w) as [[svc|e] w1] eqn:Hg;
      apply getService_spec in Hg as (Hi & He & Hs); intros [= <- <-]; split_and!; try done.
    exists export, svc. auto. }
  destruct ev as [export|oldExport export|export]; cbn [watcher]; [apply Hup|..].
  - unfold OnServiceExportUpdate. case_bool_decide; [by intros [= <- <-]|apply Hup].
  - unfold OnServiceExportDelete. destruct (negb (mc_IsManaged mc)); [by intros [= <- <-]|].
    rewrite kube_bind_eq. destruct (getService export w) as [[svc|e] w1] eqn:Hg;
      apply getService_spec in Hg as (Hi & He & Hs); intros [= <- <-]; split_and!; try done.
    exists export, svc. auto.
Qed.

Section federation.
Context `{VersionedLaws} `{MapRange} `{MetaLib} `{CondLib} `{KubeLib} `{NetLib} `{Resty}.

Record federation : Type := mkFederation {
  fd_world : string → kworld;
  fd_reconciler : ClusterReconciler;
  fd_tasks : list task;
  fd_log : list log_entry
}.

(** The goroutines that the connectors of the clusters [ks] start for a message. *)
Definition spawn (msg : Message) (ks : list string) : list task :=
  omap (fun k => mkTask k msg <$> goroutine_prog k msg) ks.

Inductive fed_step : federation → federation → Prop :=
(** the watcher of a connector enqueues what it saw *)
| fs_watch key geo mc ev msg W w' r ts log :
    connected r key geo → watcher geo mc ev (W key) = (Some msg, w') →
    fed_step (mkFederation W r ts log)
             (mkFederation (<[key := w']> W) (Enqueue msg r) ts (log ++ [Watched key msg]))
(** the reconciler takes a message of the created channel *)
| fs_decide mc msg W r r' ts log q1 q2 new :
    cr_queue r = q1 ++ msg :: q2 → msg_Kind msg = ServiceExportCreated →
    processEvent (fun _ => _) W mc msg (with_queue (q1 ++ q2) r) = r' → cr_queue r' = (q1 ++ q2) ++ new →
    fed_step (mkFederation W r ts log) (mkFederation W r' ts (log ++ (Answered <$> new)))
(** the broker hands a message to connectors, each of which starts a goroutine *)
| fs_publish msg ks W r ts log q1 q2 :
    cr_queue r = q1 ++ msg :: q2 → NoDup ks → Forall (fun k => ∃ geo, connected r k geo) ks →
    fed_step (mkFederation W r ts log) (mkFederation W (with_queue (q1 ++ q2) r) (ts ++ spawn msg ks) log)
(** a goroutine calls the API server of its cluster *)
| fs_call i t R (q : Req R) k a w' W r ts log :
    ts !! i = Some t → tk_prog t = Call q k → serve q (W (tk_key t)) = (a, w') →
    fed_step (mkFederation W r ts log)
             (mkFederation (<[tk_key t := w']> W) r (<[i := mkTask (tk_key t) (tk_msg t) (k a)]> ts) log)
(** a goroutine that failed starts over *)
| fs_retry i t err p W r ts log :
    ts !! i = Some t → tk_prog t = Return (Err err) → goroutine_prog (tk_key t) (tk_msg t) = Some p →
    fed_step (mkFederation W r ts log) (mkFederation W r (<[i := mkTask (tk_key t) (tk_msg t) p]> ts) log)
(** others write to the API server, but no imports *)
| fs_other key w' W r ts log :
    imports w' = imports (W key) → evolves (W key) w' →
    fed_step (mkFederation W r ts log) (mkFederation (<[key := w']> W) r ts log)
(** clusters join, change and fail *)
| fs_reconcile env read mc s e r' W r ts log :
    (Reconcile env read mc r s).1 = Ret (e, r') →
    fed_step (mkFederation W r ts log) (mkFederation W r' ts log)
| fs_failed key bg r' W r ts log :
    cr_backgrounds r !! key = Some bg → connector_failed bg r = Ret r' →
    fed_step (mkFederation W r ts log) (mkFederation W r' ts log)
| fs_forgotten key bg W r ts log :
    cr_backgrounds r !! key = Some bg → bg_StopCh bg ∈ cr_closed r →
    fed_step (mkFederation W r ts log) (mkFederation W (connector_forgotten key r) ts log).

(** ** The abstract federation: messages take effect in one step *)

Record spec_state : Type := mkSpec {
  sp_world : string → kworld;
  (** cluster, message and whether it has been answered *)
  sp_tasks : list (string * Message * bool)
}.

Inductive spec_step : spec_state → spec_state → Prop :=
| ss_start new W ts :
    (∀ t, t ∈ new → t.2 = false) → spec_step (mkSpec W ts) (mkSpec W (ts ++ new))
| ss_atomic i key msg done ef w' W ts :
    ts !! i = Some (key, msg, done) → atomic_step key msg ef (W key) w' →
    (answers ef = true → done = false) →
    spec_step (mkSpec W ts) (mkSpec (<[key := w']> W) (<[i := (key, msg, done || answers ef)]> ts))
| ss_other key w' W ts :
    imports w' = imports (W key) → spec_step (mkSpec W ts) (mkSpec (<[key := w']> W) ts).

(** A task of the federation and its abstraction. *)
Definition task_refines (W : string → kworld) (t : task) (a : string * Message * bool) : Prop :=
  let '(key, msg, done) := a in
  key = tk_key t ∧ msg = tk_msg t ∧ guarantees key msg (tk_prog t) (W key) done.

Definition refines (s : federation) (a : spec_state) : Prop :=
  sp_world a = fd_world s ∧ Forall2 (task_refines (fd_world s)) (fd_tasks s) (sp_tasks a).

Lemma fn_insert_evolves (W : string → kworld) key w' k :
  evolves (W key) w' → evolves (W k) (<[key := w']> W k).
Proof.
  intros He. destruct (decide (key = k)) as [->|Hk]; [by rewrite fn_lookup_insert|].
  by rewrite fn_lookup_insert_ne.
Qed.

Lemma tasks_refine_evolves (W : string → kworld) key w' ts als :
  evolves (W key) w' → Forall2 (task_refines W) ts als → Forall2 (task_refines (<[key := w']> W)) ts als.
Proof.
  intros He Ht. eapply Forall2_impl; [exact Ht|]. intros t [[k m] d] (Hk & Hm & Hg). split_and!; [done..|].
  eapply guarantees_evolves; [|done]. by apply fn_insert_evolves.
Qed.

Definition started (ts : list task) : list (string * Message * bool) :=
  (fun t => (tk_key t, tk_msg t, false)) <$> ts.

Lemma spawn_refines W msg ks : Forall2 (task_refines W) (spawn msg ks) (started (spawn msg ks)).
Proof.
  unfold started. apply Forall2_fmap_r, Forall_Forall2_diag, Forall_forall.
  unfold spawn. intros t (k & _ & Ht)%list_elem_of_omap.
  apply fmap_Some in Ht as (p & Hp & ->). split_and!; [done..|]. simpl. by eapply goroutine_guarantees.
Qed.

(** The forward simulation. *)
Lemma fed_step_simulated s s' a :
  fed_step s s' → refines s a → ∃ a', rtc spec_step a a' ∧ refines s' a'.
Proof.
  intros Hstep [HW Ht]. destruct a as [W0 als]. simpl in HW, Ht. subst W0.
  destruct Hstep as [key geo mc ev msg W w' r ts log Hc Hw|mc msg W r r' ts log q1 q2 new Hq Hk Hp Hn
    |msg ks W r ts log q1 q2 Hq Hnd Hks|i t R q k x w' W r ts log Hi Hp Hs
    |i t err p W r ts log Hi Hp Hg|key w' W r ts log Himp Hev|env read mc s e r' W r ts log HR
    |key bg r' W r ts log Hbg HF|key bg W r ts log Hbg Hcl]; simpl in Ht.
  - exists (mkSpec (<[key := w']> W) als).
    destruct (watcher_spec _ _ _ _ _ _ Hw) as (Hi & He & _). split; [by apply rtc_once, ss_other|]. split; [done|].
    by apply tasks_refine_evolves.
  - exists (mkSpec W als). by split; [|split].
  - exists (mkSpec W (als ++ started (spawn msg ks))). split.
    + apply rtc_once, ss_start. unfold started. by intros x (t & -> & _)%list_elem_of_fmap.
    + split; [done|]. apply Forall2_app; [done|]. apply spawn_refines.
  - destruct (Forall2_lookup_l _ _ _ _ _ Ht Hi) as ([[key msg] done] & Ha & -> & -> & Hg).
    rewrite Hp in Hg. destruct (Hg (W (tk_key t)) x w') as (ef & Hat & Hans & Hg'); [done|done|].
    exists (mkSpec (<[tk_key t := w']> W) (<[i := (tk_key t, tk_msg t, done || answers ef)]> als)). split.
    + by eapply rtc_once, ss_atomic.
    + split; [done|]. apply Forall2_insert.
      * eapply tasks_refine_evolves; [|done]. by eapply serve_evolves.
      * split_and!; [done..|]. simpl. by rewrite fn_lookup_insert.
  - destruct (Forall2_lookup_l _ _ _ _ _ Ht Hi) as ([[key msg] done] & Ha & -> & -> & Hgg).
    rewrite Hp in Hgg. simpl in Hgg. subst done.
    exists (mkSpec W als). split; [done|]. split; [done|]. simpl.
    rewrite <-(list_insert_id als i _ Ha). apply Forall2_insert; [done|].
    split_and!; [done..|]. by eapply goroutine_guarantees.
  - exists (mkSpec (<[key := w']> W) als). split; [by apply rtc_once, ss_other|]. split; [done|].
    by apply tasks_refine_evolves.
  - exists (mkSpec W als). by split; [|split].
  - exists (mkSpec W als). by split; [|split].
  - exists (mkSpec W als). by split; [|split].
Qed.
End federation.

(** ** The registry of connectors: keys and gateways *)

(** The gateway of a connector has an IPv4 address that others can reach. *)
Definition usable_gateway (geo : ConnectorConfig) : Prop :=
  ∃ ip, GatewayIP geo = Some ip ∧ length ip = 4%nat ∧ ip !! 0%nat ≠ Some 127%Z ∧ ip ≠ [0; 0; 0; 0]%Z.

(** A remote connector runs under the key of its configuration. *)
Definition keyed (r : ClusterReconciler) : Prop :=
  ∀ key geo, connected r key geo → cc_key geo = key ∧ usable_gateway geo.

Lemma keyed_subset r r' : cr_backgrounds r' ⊆ cr_backgrounds r → keyed r → keyed r'.
Proof. intros Hs Hk key geo (bg & Hbg & Hrest). apply Hk. exists bg. split; [by eapply lookup_weaken|done]. Qed.

Lemma close_channel_keeps ch r r' :
  close_channel ch r = Ret r' → cr_queue r' = cr_queue r ∧ (keyed r → keyed r').
Proof. unfold close_channel. case_bool_decide; [done|]. intros [= <-]. split; [done|]. by apply keyed_subset. Qed.

Lemma delete_background_keeps key r :
  cr_queue (delete_background key r) = cr_queue r ∧ (keyed r → keyed (delete_background key r)).
Proof. split; [done|]. apply keyed_subset. simpl. apply delete_subseteq. Qed.

Lemma close_and_delete_keeps key bg r r' :
  close_and_delete key bg r = Ret r' → cr_queue r' = cr_queue r ∧ (keyed r → keyed r').
Proof.
  unfold close_and_delete. intros (r1 & [Hq Hk]%close_channel_keeps & [= <-])%go_bind_ret.
  destruct (delete_background_keeps key r1) as [Hq' Hk']. split; [by rewrite Hq'|auto].
Qed.

Lemma newConnector_keeps `{KubeLib} `{NetLib} `{MetaLib} env c mc r :
  cr_queue (newConnector env c mc r).2 = cr_queue r ∧ (keyed r → keyed (newConnector env c mc r).2).
Proof.
  unfold newConnector. destruct (getKubeConfig env c); [|by split].
  destruct (connectorConfig c mc) as [cfg|] eqn:Hcfg; [|by split].
  destruct (ce_NewConnector env cfg); [|by split].
  match goal with |- context [mkReconciler (<[_ := ?b]> _) _ _ _] => set (bg := b) end.
  set (r' := mkReconciler _ _ _ _).
  assert (Hr' : cr_queue r' = cr_queue r ∧ (keyed r → keyed r')).
  { split; [done|]. intros Hk key geo (bg' & Hbg & Hrem & <-).
    unfold r' in Hbg. simpl in Hbg. apply lookup_insert_Some in Hbg as [[<- <-]|[Hne Hbg]]; [|by apply Hk; exists bg'].
    unfold connectorConfig in Hcfg. simpl in Hrem. rewrite Hrem in Hcfg.
    apply NewConnectorConfig_usable in Hcfg as (Hkey & _ & _ & _ & Hgw). done. }
  destruct (csp_IsInCluster (cluster_Spec c)); [done|]. by destruct (ce_RunFailed env).
Qed.

Lemma Reconcile_keeps `{KubeLib} `{NetLib} `{MetaLib} `{Resty} env read mc r s e r' :
  (Reconcile env read mc r s).1 = Ret (e, r') → cr_queue r' = cr_queue r ∧ (keyed r → keyed r').
Proof.
  destruct read as [c|err].
  - destruct (Reconcile_found env c mc r s) as [[e' ->]|[_ ->]]; [by intros [= <- <-]|].
    unfold reconcileConnector. destruct (cr_backgrounds r !! Cluster_Key c) as [bg|].
    + case_bool_decide; [|by intros [= <- <-]]. unfold recreateConnector.
      destruct (close_and_delete (Cluster_Key c) bg r) as [r1|] eqn:Hcl; [|done].
      apply close_and_delete_keeps in Hcl as [Hq1 Hk1]. intros [= Hn].
      destruct (newConnector_keeps env c mc r1) as [Hq2 Hk2]. rewrite Hn in Hq2, Hk2. simpl in *.
      split; [congruence|auto].
    + intros [= Hn]. destruct (newConnector_keeps env c mc r) as [Hq2 Hk2]. unfold createConnector in Hn.
      by rewrite Hn in Hq2, Hk2.
  - destruct err; [|by intros [= <- <-]..]. simpl. unfold destroyConnector.
    destruct (cr_backgrounds r !! Cluster_Key zeroCluster) as [bg|]; [|by intros [= <- <-]].
    destruct (close_and_delete _ bg r) as [r1|] eqn:Hcl; [|done].
    apply close_and_delete_keeps in Hcl. by intros [= <- <-].
Qed.

(** The answer to a message, if there is one, is about the export of the message. *)
Lemma processEvent_answers `{MapRange} `{CondLib} api world mc msg r :
  processEvent api world mc msg r = r ∨
  ∃ e, msg_NewObj msg = Some e ∧
    (processEvent api world mc msg r = Enqueue (mkMessage ServiceExportAccepted None (Some e)) r ∨
     ∃ err, processEvent api world mc msg r = Enqueue (mkMessage ServiceExportRejected None
              (Some (mkExportEvent (ev_Geo e) (ev_ServiceExport e) (ev_Service e) err))) r).
Proof.
  unfold processEvent. destruct (_ && _ && _); [by left|]. destruct (msg_NewObj msg) as [e|]; [|by left].
  destruct (IsStatusConditionFalse _ _); [by left|]. destruct (IsStatusConditionTrue _ _); [by left|].
  right. exists e. split; [done|]. unfold processServiceExportCreatedEvent.
  destruct (isFirstTimeExport _ _ _ _); [by left|].
  destruct (isValidServiceExport _ _ _ _) as [err|]; [right; by exists err|by left].
Qed.

(** ** Where messages come from *)

Definition issued (log : list log_entry) (msg : Message) : Prop :=
  (∃ key, Watched key msg ∈ log) ∨ Answered msg ∈ log.

(** An event that the watcher of the cluster [key] made. *)
Definition exported_by (key : string) (e : ServiceExportEvent) : Prop :=
  cc_key (ev_Geo e) = key ∧ usable_gateway (ev_Geo e) ∧ svc_Type (ev_Service e) ≠ ServiceTypeExternalName.

Definition sound_entry (log : list log_entry) (x : log_entry) : Prop :=
  match x with
  | Watched key msg => ∃ e, exported_by key e ∧
      (msg = mkMessage ServiceExportCreated None (Some e) ∨ msg = mkMessage ServiceExportDeleted (Some e) None)
  | Answered msg => ∃ key e, Watched key (mkMessage ServiceExportCreated None (Some e)) ∈ log ∧
      (msg = mkMessage ServiceExportAccepted None (Some e) ∨
       ∃ err, msg = mkMessage ServiceExportRejected None
                (Some (mkExportEvent (ev_Geo e) (ev_ServiceExport e) (ev_Service e) err)))
  end.

Lemma sound_entry_app log log' x : sound_entry log x → sound_entry (log ++ log') x.
Proof.
  destruct x; [done|]. intros (key & e & Hin & Hm). exists key, e. split; [|done]. apply elem_of_app. by left.
Qed.

Lemma issued_app log log' msg : issued log msg → issued (log ++ log') msg.
Proof.
  intros [[key Hin]|Hin]; [left; exists key|right]; apply elem_of_app; by left.
Qed.

Lemma filter_sublist_List {A} (f : A → bool) (l : list A) : sublist (List.filter f l) l.
Proof. induction l as [|x l IH]; simpl; [constructor|]. destruct (f x); by constructor. Qed.

Lemma elem_of_insert_inv {A} (l : list A) i x y : y ∈ <[i := x]> l → y = x ∨ y ∈ l.
Proof.
  intros [j Hj]%list_elem_of_lookup. apply list_lookup_insert_Some in Hj as [(_ & -> & _)|[_ Hj]]; [by left|right].
  by eapply list_elem_of_lookup_2.
Qed.

Section system.
Context `{VersionedLaws} `{MapRange} `{MetaLib} `{CondLib} `{KubeLib} `{NetLib} `{Resty}.

(** The start: nothing is connected, enqueued or running. *)
Definition fed_start (W : string → kworld) : federation := mkFederation W initial [] [].

Record log_inv (s : federation) : Prop := {
  li_keyed : keyed (fd_reconciler s);
  li_queue : ∀ msg, msg ∈ cr_queue (fd_reconciler s) → issued (fd_log s) msg;
  li_tasks : ∀ t, t ∈ fd_tasks s → issued (fd_log s) (tk_msg t);
  li_log : ∀ x, x ∈ fd_log s → sound_entry (fd_log s) x
}.

Lemma log_inv_start W : log_inv (fed_start W).
Proof.
  split; simpl; [|by intros ? ?%elem_of_nil..]. intros key geo (bg & Hbg & _). simpl in Hbg. by rewrite lookup_empty in Hbg.
Qed.

(** The log grows by entries that are sound. *)
Lemma log_grows log new :
  (∀ x, x ∈ log → sound_entry log x) → (∀ x, x ∈ new → sound_entry (log ++ new) x) →
  ∀ x, x ∈ log ++ new → sound_entry (log ++ new) x.
Proof. intros Hold Hnew x [Hx|Hx]%elem_of_app; [by apply sound_entry_app, Hold|by apply Hnew]. Qed.

Lemma log_inv_watch key geo mc ev msg W w' r ts log :
  connected r key geo → watcher geo mc ev (W key) = (Some msg, w') →
  log_inv (mkFederation W r ts log) →
  log_inv (mkFederation (<[key := w']> W) (Enqueue msg r) ts (log ++ [Watched key msg])).
Proof.
  intros Hc (_ & _ & export & svc & Hsvc & Hmsg)%watcher_spec [Hk Hq Ht Hl]. simpl in *.
  destruct (Hk _ _ Hc) as [Hkey Hgw]. split; simpl.
  - done.
  - intros m [Hm|Hm]%elem_of_app; [by apply issued_app, Hq|]. apply list_elem_of_singleton in Hm as ->.
    left. exists key. apply elem_of_app. right. by left.
  - intros t Hin. by apply issued_app, Ht.
  - apply log_grows; [done|]. intros x ->%list_elem_of_singleton.
    exists (mkExportEvent geo export svc ""). by split.
Qed.

Lemma log_inv_decide mc msg W r r' ts log q1 q2 new :
  cr_queue r = q1 ++ msg :: q2 → msg_Kind msg = ServiceExportCreated →
  processEvent (fun _ => _) W mc msg (with_queue (q1 ++ q2) r) = r' → cr_queue r' = (q1 ++ q2) ++ new →
  log_inv (mkFederation W r ts log) → log_inv (mkFederation W r' ts (log ++ (Answered <$> new))).
Proof.
  intros Hqr Hkind Hp Hnew [Hk Hq Ht Hl]. simpl in *.
  assert (Hin : msg ∈ cr_queue r) by (rewrite Hqr; apply elem_of_app; right; by left).
  assert (Hold : ∀ m, m ∈ q1 ++ q2 → issued log m).
  { intros m Hm. apply Hq. rewrite Hqr. apply elem_of_app in Hm as [?|?]; apply elem_of_app; [by left|right].
    by right. }
  assert (Hsplit : keyed r' ∧ ∀ m, m ∈ new → sound_entry log (Answered m)).
  { destruct (processEvent_answers (fun _ => _) W mc msg (with_queue (q1 ++ q2) r)) as [He|(e & Hobj & Hans)].
    - rewrite Hp in He. clear Hp. subst r'. split; [exact Hk|]. simpl in Hnew.
      rewrite <-(app_nil_r (q1 ++ q2)) in Hnew at 1.
      apply app_inv_head in Hnew as <-. by intros m ?%elem_of_nil.
    - assert (Hw : ∃ key, Watched key (mkMessage ServiceExportCreated None (Some e)) ∈ log).
      { destruct (Hq _ Hin) as [[key Hw]|Ha].
        - exists key. destruct (Hl _ Hw) as (e' & _ & [-> | ->]); [|done]. simpl in Hobj. by injection Hobj as ->.
        - destruct (Hl _ Ha) as (key & e' & _ & [->|[err ->]]); done. }
      destruct Hw as [key Hw]. rewrite Hp in Hans. clear Hp.
      destruct Hans as [->|[err ->]]; (split; [exact Hk|]); simpl in Hnew; apply app_inv_head in Hnew as <-;
        intros m ->%list_elem_of_singleton; exists key, e; eauto. }
  destruct Hsplit as [Hk' Hs]. split; simpl.
  - done.
  - intros m. rewrite Hnew. intros [Hm|Hm]%elem_of_app; [by apply issued_app, Hold|].
    right. apply elem_of_app. right. by apply list_elem_of_fmap_2.
  - intros t Hin'. by apply issued_app, Ht.
  - apply log_grows; [done|]. intros x (m & -> & Hm)%list_elem_of_fmap. by apply sound_entry_app, Hs.
Qed.

Lemma spawn_msg msg ks t : t ∈ spawn msg ks → tk_msg t = msg.
Proof. unfold spawn. intros (k & _ & (p & _ & ->)%fmap_Some)%list_elem_of_omap. done. Qed.

Lemma log_inv_step s s' : fed_step s s' → log_inv s → log_inv s'.
Proof.
  intros [key geo mc ev msg W w' r ts log Hc Hw|mc msg W r r' ts log q1 q2 new Hq Hk Hp Hn
    |msg ks W r ts log q1 q2 Hq Hnd Hks|i t R q k x w' W r ts log Hi Hp Hs
    |i t err p W r ts log Hi Hp Hg|key w' W r ts log Himp Hev|env read mc s0 e r' W r ts log HR
    |key bg r' W r ts log Hbg HF|key bg W r ts log Hbg Hcl] Hinv.
  - by eapply log_inv_watch.
  - by eapply log_inv_decide.
  - destruct Hinv as [Hk' Hq' Ht Hl]. simpl in *. rewrite Hq in Hq'. split; simpl; [done| | |done].
    + intros m [?|?]%elem_of_app; apply Hq', elem_of_app; [by left|right; by right].
    + intros t [Hin|Hin]%elem_of_app; [by apply Ht|]. rewrite (spawn_msg _ _ _ Hin).
      apply Hq', elem_of_app. right. by left.
  - destruct Hinv as [Hk' Hq' Ht Hl]. split; simpl in *; [done|done| |done].
    intros t' [->|Hin]%elem_of_insert_inv; [|by apply Ht]. simpl. by apply Ht, (list_elem_of_lookup_2 _ i).
  - destruct Hinv as [Hk' Hq' Ht Hl]. split; simpl in *; [done|done| |done].
    intros t' [->|Hin]%elem_of_insert_inv; [|by apply Ht]. simpl. by apply Ht, (list_elem_of_lookup_2 _ i).
  - by destruct Hinv.
  - destruct Hinv as [Hk' Hq' Ht Hl]. simpl in *. apply Reconcile_keeps in HR as [Hqe Hke].
    split; simpl; [by apply Hke|by rewrite Hqe|done..].
  - destruct Hinv as [Hk' Hq' Ht Hl]. simpl in *. apply close_channel_keeps in HF as [Hqe Hke].
    split; simpl; [by apply Hke|by rewrite Hqe|done..].
  - destruct Hinv as [Hk' Hq' Ht Hl]. simpl in *. destruct (delete_background_keeps key r) as [Hqe Hke].
    split; simpl; [by apply Hke|exact Hq'|done..].
Qed.

Lemma log_inv_reachable W s : rtc fed_step (fed_start W) s → log_inv s.
Proof. apply rtc_invariant; [apply log_inv_start|]. intros. by eapply log_inv_step. Qed.

Lemma refined_reachable W s :
  rtc fed_step (fed_start W) s → ∃ a, rtc spec_step (mkSpec W []) a ∧ refines s a.
Proof.
  intros Hr. apply (rtc_invariant fed_step (fun s => ∃ a, rtc spec_step (mkSpec W []) a ∧ refines s a)
    (fed_start W)); [..|done].
  - exists (mkSpec W []). by split; [|split; [|constructor]].
  - intros s1 s2 Hstep (a & Ha & Href). destruct (fed_step_simulated _ _ _ Hstep Href) as (a' & Ha' & Href').
    exists a'. split; [by etrans|done].
Qed.

(** ** Invariants of the imports *)

(** A property of all endpoints: of the name of the import, the number of the port
    and the endpoint. *)
Definition all_endpoints (P : NamespacedName → Z → ImportEndpoint → Prop) (w : kworld) : Prop :=
  ∀ nn imp p ep, imports w !! nn = Some imp → p ∈ si_Ports imp → ep ∈ ip_Endpoints p → P nn (ip_Port p) ep.

Lemma elem_of_new_ports e p :
  p ∈ si_Ports (newServiceImport e) →
  ∃ r, r ∈ rules_for e (ip_Port p) ∧ ip_Endpoints p = [export_endpoint e r].
Proof.
  unfold newServiceImport. simpl. intros (r & Hp & Hr)%list_elem_of_bind.
  apply list_elem_of_omap in Hp as (sp & _ & Hp). destruct (Z.eqb_spec (er_PortNumber r) (sp_Port sp)); [|done].
  injection Hp as <-. exists r. rewrite rules_for_elem. done.
Qed.

(** A merge adds only endpoints of the export, whatever the port had. *)
Lemma upsert_endpoints_elem e p ep :
  ep ∈ upsert_endpoints e p →
  ep ∈ ip_Endpoints p ∨ ∃ r, r ∈ rules_for e (ip_Port p) ∧ ep = export_endpoint e r.
Proof.
  destruct (ip_Endpoints p) as [|e0 eps] eqn:Hp.
  - rewrite upsert_endpoints_empty by done. intros (r & -> & Hr)%list_elem_of_fmap. eauto.
  - unfold upsert_endpoints. rewrite Hp. intros (k & Hk)%elem_of_range_values.
    rewrite upsert_epMap_lookup in Hk. destruct (last (rules_for e (ip_Port p))) as [r|] eqn:Hr; [|done].
    case_decide.
    + injection Hk as <-. right. exists r. split; [by apply last_Some_elem_of|done].
    + left. apply last_Some_elem_of, vals_at_elem, list_elem_of_fmap in Hk as (x & [= -> ->] & Hx).
      by rewrite Hp in Hx.
Qed.

Lemma elem_of_upsert_ports e imp p' :
  p' ∈ si_Ports (upsert_import e imp) ↔
  ∃ p, p ∈ si_Ports imp ∧ p' = set_port_endpoints p (upsert_endpoints e p).
Proof. unfold upsert_import. simpl. rewrite list_elem_of_fmap. naive_solver. Qed.

Lemma atomic_step_endpoints P key msg ef w w' :
  atomic_step key msg ef w w' → all_endpoints P w →
  (∀ e r port, to_import key msg e → r ∈ rules_for e port → P (ev_nn e) port (export_endpoint e r)) →
  all_endpoints P w'.
Proof.
  intros Hat Hw Hnew nn imp p ep. destruct Hat as [w w' Hi|e i w w' Hto Hno Hi Hp|e cur i w w' Hto Hc Hi Hp
    |e cur i w w' Hto Hc Hne Hi Hp|e seen w w' Hto Hs Hm Hr Hi|e w w' Hto Hi Ha]; rewrite Hi.
  - apply Hw.
  - intros [[<- ->]|[Hne Hl]]%lookup_insert_Some; [|by apply (Hw nn)].
    rewrite Hp. intros (r & Hr & ->)%elem_of_new_ports ->%list_elem_of_singleton. by apply Hnew.
  - intros [[<- ->]|[Hne Hl]]%lookup_insert_Some; [|by apply (Hw nn)].
    rewrite Hp. intros (p0 & Hp0 & ->)%elem_of_upsert_ports. simpl.
    intros [Hin|(r & Hr & ->)]%upsert_endpoints_elem; [by eapply Hw|by apply Hnew].
  - intros [[<- ->]|[Hne' Hl]]%lookup_insert_Some; [|by apply (Hw nn)].
    rewrite Hp. intros (r & p0 & _ & Hp0 & _ & _ & ->)%elem_of_remaining_ports. simpl.
    intros [Hin _]%elem_of_others. by eapply Hw.
  - intros [_ Hl]%lookup_delete_Some. by apply (Hw nn).
  - apply Hw.
Qed.

(** Every endpoint comes from a message the cluster was told to import. *)
Definition explains (ts : list (string * Message * bool)) (key : string) (nn : NamespacedName) (port : Z)
    (ep : ImportEndpoint) : Prop :=
  ∃ msg done e r, (key, msg, done) ∈ ts ∧ to_import key msg e ∧ ev_nn e = nn ∧
    r ∈ rules_for e port ∧ ep = export_endpoint e r.

Definition same_messages (ts ts' : list (string * Message * bool)) : Prop :=
  ∀ key msg done, (key, msg, done) ∈ ts → ∃ done', (key, msg, done') ∈ ts'.

Lemma explains_mono ts ts' key nn port ep :
  same_messages ts ts' → explains ts key nn port ep → explains ts' key nn port ep.
Proof.
  intros Hsub (msg & done & e & r & Hin & Hrest). destruct (Hsub _ _ _ Hin) as [done' Hin'].
  by exists msg, done', e, r.
Qed.

Lemma same_messages_insert ts i key msg done done' :
  ts !! i = Some (key, msg, done) → same_messages ts (<[i := (key, msg, done')]> ts).
Proof.
  intros Hi k m d [j Hj]%list_elem_of_lookup. destruct (decide (i = j)) as [->|Hne].
  - rewrite Hi in Hj. injection Hj as <- <- <-. exists done'.
    apply (list_elem_of_lookup_2 _ j), list_lookup_insert_eq. by eapply lookup_lt_Some.
  - exists d. apply (list_elem_of_lookup_2 _ j). by rewrite list_lookup_insert_ne.
Qed.

Definition explained (a : spec_state) : Prop :=
  ∀ key, all_endpoints (explains (sp_tasks a) key) (sp_world a key).

Lemma explained_step a a' : spec_step a a' → explained a → explained a'.
Proof.
  intros [new W ts Hnew|i key msg done ef w' W ts Hi Hat Hans|key w' W ts Hi] Hex k; simpl in *.
  - intros nn imp p ep Hl Hp He. eapply explains_mono; [|by eapply (Hex k)]. simpl.
    intros k' m d Hin. exists d. apply elem_of_app. by left.
  - assert (Hmono : all_endpoints (explains (<[i := (key, msg, done || answers ef)]> ts) k) (W k)).
    { intros nn imp p ep Hl Hp He. eapply explains_mono; [by eapply same_messages_insert|by eapply (Hex k)]. }
    destruct (decide (key = k)) as [->|Hk]; [|by rewrite fn_lookup_insert_ne].
    rewrite fn_lookup_insert. eapply atomic_step_endpoints; [done..|].
    intros e r port Hto Hr. exists msg, (done || answers ef), e, r. split_and!; [|done..].
    apply (list_elem_of_lookup_2 _ i), list_lookup_insert_eq. by eapply lookup_lt_Some.
  - destruct (decide (key = k)) as [->|Hk]; [|by rewrite fn_lookup_insert_ne; [apply (Hex k)|]].
    rewrite fn_lookup_insert. intros nn imp p ep. rewrite Hi. apply (Hex k).
Qed.

Lemma explained_reachable W a :
  (∀ key, imports (W key) = ∅) → rtc spec_step (mkSpec W []) a → explained a.
Proof.
  intros Hempty. apply rtc_invariant; [|by intros; eapply explained_step].
  intros key nn imp p ep. simpl. by rewrite Hempty, lookup_empty.
Qed.

(** The tasks of the two machines. *)
Lemma refines_task s a key msg done :
  refines s a → (key, msg, done) ∈ sp_tasks a → ∃ t, t ∈ fd_tasks s ∧ tk_key t = key ∧ tk_msg t = msg.
Proof.
  intros [_ Ht] [i Hi]%list_elem_of_lookup. destruct (Forall2_lookup_r _ _ _ _ _ Ht Hi) as (t & Hti & Hk & Hm & _).
  exists t. split; [by eapply list_elem_of_lookup_2|by simplify_eq].
Qed.

(** The tasks of a run only grow. *)
Lemma spec_step_messages a a' : spec_step a a' → same_messages (sp_tasks a) (sp_tasks a').
Proof.
  intros [new W ts Hnew|i key msg done ef w' W ts Hi Hat Hans|key w' W ts Hi]; simpl.
  - intros k m d Hin. exists d. apply elem_of_app. by left.
  - by eapply same_messages_insert.
  - intros k m d Hin. by exists d.
Qed.

(** An invariant that holds as long as all messages the clusters got satisfy a
    condition. *)
Lemma spec_invariant (C : string → Message → Prop) (I : spec_state → Prop) W a :
  I (mkSpec W []) →
  (∀ a a', spec_step a a' → (∀ key msg done, (key, msg, done) ∈ sp_tasks a' → C key msg) → I a → I a') →
  rtc spec_step (mkSpec W []) a →
  (∀ key msg done, (key, msg, done) ∈ sp_tasks a → C key msg) → I a.
Proof.
  intros Hstart Hstep. revert a.
  apply (rtc_ind_r (fun a => (∀ key msg done, (key, msg, done) ∈ sp_tasks a → C key msg) → I a)); [done|].
  intros a1 a2 _ Hs IH HC. eapply Hstep; [done|done|]. apply IH. intros key msg done Hin.
  destruct (spec_step_messages _ _ Hs _ _ _ Hin) as [done' Hin']. by eapply HC.
Qed.

(** *** One endpoint per cluster *)

Definition one_rule_per_port (e : ServiceExportEvent) : Prop := ∀ port, (length (rules_for e port) ≤ 1)%nat.

Definition one_endpoint_per_port (w : kworld) : Prop :=
  ∀ nn imp p, imports w !! nn = Some imp → p ∈ si_Ports imp → NoDup (ie_ClusterKey <$> ip_Endpoints p).

Lemma upsert_endpoints_nodup e p :
  one_rule_per_port e → NoDup (ie_ClusterKey <$> upsert_endpoints e p).
Proof.
  intros Hone. destruct (ip_Endpoints p) as [|e0 eps] eqn:Hp.
  - rewrite upsert_endpoints_empty by done. specialize (Hone (ip_Port p)).
    destruct (rules_for e (ip_Port p)) as [|r [|r' rs]]; simpl in *; [constructor|apply NoDup_singleton|lia].
  - unfold upsert_endpoints. rewrite Hp.
    assert (Hkeys : ie_ClusterKey <$> (go_range (upsert_epMap e p)).*2 = (go_range (upsert_epMap e p)).*1).
    { rewrite <-list_fmap_compose. apply list_fmap_ext. intros i [k ep] Hi%list_elem_of_lookup_2. simpl.
      apply go_range_elem in Hi. rewrite upsert_epMap_lookup in Hi.
      destruct (last (rules_for e (ip_Port p))); [|done]. case_decide as Hd; [by injection Hi as <-|].
      by apply last_Some_elem_of, vals_at_elem, list_elem_of_fmap in Hi as (x & [= -> ->] & _). }
    rewrite Hkeys, go_range_perm. apply NoDup_fst_map_to_list.
Qed.

Lemma atomic_step_nodup key msg ef w w' :
  atomic_step key msg ef w w' → (∀ e, to_import key msg e → one_rule_per_port e) →
  one_endpoint_per_port w → one_endpoint_per_port w'.
Proof.
  intros Hat Hone Hw nn imp p. destruct Hat as [w w' Hi|e i w w' Hto Hno Hi Hp|e cur i w w' Hto Hc Hi Hp
    |e cur i w w' Hto Hc Hne Hi Hp|e seen w w' Hto Hs Hm Hr Hi|e w w' Hto Hi Ha]; rewrite Hi.
  - apply Hw.
  - intros [[<- ->]|[Hne Hl]]%lookup_insert_Some; [|by apply (Hw nn)].
    rewrite Hp. intros (r & _ & ->)%elem_of_new_ports. apply NoDup_singleton.
  - intros [[<- ->]|[Hne Hl]]%lookup_insert_Some; [|by apply (Hw nn)].
    rewrite Hp. intros (p0 & _ & ->)%elem_of_upsert_ports. by apply upsert_endpoints_nodup, Hone.
  - intros [[<- ->]|[Hne' Hl]]%lookup_insert_Some; [|by apply (Hw nn)].
    rewrite Hp. intros (r & p0 & _ & Hp0 & _ & _ & ->)%elem_of_remaining_ports. simpl.
    eapply sublist_NoDup; [by eapply Hw|]. apply fmap_sublist, filter_sublist_List.
  - intros [_ Hl]%lookup_delete_Some. by apply (Hw nn).
  - apply Hw.
Qed.

Lemma nodup_step a a' :
  spec_step a a' →
  (∀ key msg done, (key, msg, done) ∈ sp_tasks a' → ∀ e, to_import key msg e → one_rule_per_port e) →
  (∀ key, one_endpoint_per_port (sp_world a key)) → ∀ key, one_endpoint_per_port (sp_world a' key).
Proof.
  intros Hs HC Hw k. pose proof (spec_step_messages _ _ Hs) as Hsame.
  destruct Hs as [new W ts Hnew|i key msg d ef w' W ts Hi Hat Hans|key w' W ts Hi]; simpl in *; [done|..].
  - destruct (decide (key = k)) as [->|Hk]; [|by rewrite fn_lookup_insert_ne].
    rewrite fn_lookup_insert. eapply atomic_step_nodup; [done| |done].
    destruct (Hsame k msg d) as [d' Hin]; [by eapply list_elem_of_lookup_2|]. by eapply HC.
  - destruct (decide (key = k)) as [->|Hk]; [|by rewrite fn_lookup_insert_ne].
    rewrite fn_lookup_insert. intros nn imp p. rewrite Hi. apply Hw.
Qed.

(** *** Answered imports stay in force *)

(** What a step does to the import of a name. *)
Lemma atomic_step_at nn key msg ef w w' :
  atomic_step key msg ef w w' →
  (imports w' !! nn = imports w !! nn ∧ (answers ef = true → ∀ e, to_import key msg e → ev_nn e ≠ nn)) ∨
  (∃ e i, to_import key msg e ∧ ev_nn e = nn ∧ imports w' !! nn = Some i ∧
     ((answers ef = false ∧ imports w !! nn = None ∧ si_Ports i = si_Ports (newServiceImport e)) ∨
      ∃ cur, imports w !! nn = Some cur ∧ si_Ports i = si_Ports (upsert_import e cur))) ∨
  (∃ e, to_forget key msg e ∧ ev_nn e = nn).
Proof.
  assert (Hone : ∀ e e', to_import key msg e → to_import key msg e' → e = e').
  { intros e e' (_ & He & _) (_ & He' & _). congruence. }
  assert (Hno : ∀ e e', to_forget key msg e → ¬ to_import key msg e').
  { intros e e' (He & _) (He' & _). congruence. }
  intros [w1 w2 Hi|e i w1 w2 Hto Hnone Hi Hp|e cur i w1 w2 Hto Hc Hi Hp
    |e cur i w1 w2 Hto Hc Hne Hi Hp|e seen w1 w2 Hto Hs Hm Hr Hi|e w1 w2 Hto Hi Ha]; rewrite Hi.
  - by left.
  - destruct (decide (ev_nn e = nn)) as [<-|Hnn]; [|left; by rewrite lookup_insert_ne].
    right; left. exists e, i. rewrite lookup_insert_eq. split_and!; [done..|]. by left.
  - destruct (decide (ev_nn e = nn)) as [<-|Hnn].
    + right; left. exists e, i. rewrite lookup_insert_eq. split_and!; [done..|]. right. by exists cur.
    + left. rewrite lookup_insert_ne by done. split; [done|]. intros _ e' He'. by rewrite (Hone _ _ He' Hto).
  - destruct (decide (ev_nn e = nn)) as [Hnn|Hnn]; [right; right; by exists e|].
    left. rewrite lookup_insert_ne by done. split; [done|]. intros _ e' []%(Hno _ _ Hto).
  - destruct (decide (ev_nn e = nn)) as [Hnn|Hnn]; [right; right; by exists e|].
    left. rewrite lookup_delete_ne by done. split; [done|]. intros _ e' []%(Hno _ _ Hto).
  - left. split; [done|]. intros _ e' []%(Hno _ _ Hto).
Qed.

(** An export merged on a port the merging export covers: its cluster and the
    clusters that were there. *)
Lemma upsert_keeps_cluster e p k :
  rules_for e (ip_Port p) ≠ [] → k = ev_ClusterKey e ∨ k ∈ ie_ClusterKey <$> ip_Endpoints p →
  k ∈ ie_ClusterKey <$> upsert_endpoints e p.
Proof.
  intros Hcov Hk. apply list_elem_of_fmap.
  destruct (last (rules_for e (ip_Port p))) as [r|] eqn:Hr; [|by apply last_None in Hr].
  destruct (ip_Endpoints p) as [|e0 eps] eqn:Hp.
  - rewrite upsert_endpoints_empty by done. destruct Hk as [->|Hk%elem_of_nil]; [|done].
    exists (export_endpoint e r). split; [done|]. by apply list_elem_of_fmap_2, last_Some_elem_of.
  - unfold upsert_endpoints. rewrite Hp. setoid_rewrite elem_of_range_values.
    setoid_rewrite upsert_epMap_lookup. rewrite Hr, Hp.
    destruct (decide (k = ev_ClusterKey e)) as [->|Hne].
    + exists (export_endpoint e r). split; [done|]. exists (ev_ClusterKey e). by rewrite decide_True.
    + destruct Hk as [Hk|Hk]; [done|]. apply list_elem_of_fmap in Hk as (ep & -> & Hep).
      assert (Hin : ep ∈ vals_at (ie_ClusterKey ep) (by_cluster (e0 :: eps))).
      { apply vals_at_elem. by apply (list_elem_of_fmap_2 (fun ep => (ie_ClusterKey ep, ep))). }
      destruct (last (vals_at (ie_ClusterKey ep) (by_cluster (e0 :: eps)))) as [x|] eqn:Hl.
      * exists x. split; [|exists (ie_ClusterKey ep); by rewrite decide_False].
        by apply last_Some_elem_of, vals_at_elem, list_elem_of_fmap in Hl as (y & [= -> ->] & _).
      * apply last_None in Hl. rewrite Hl in Hin. by apply elem_of_nil in Hin.
Qed.

(** The exports of a name that a cluster is told to import have rules for the same
    ports, and it is not told to forget any. *)
Definition undisputed (key : string) (nn : NamespacedName) (ports : Z → Prop) (key' : string) (msg : Message) :
    Prop :=
  key' = key →
  (∀ e, to_import key msg e → ev_nn e = nn → ∀ port, rules_for e port ≠ [] ↔ ports port) ∧
  (∀ e, to_forget key msg e → ev_nn e ≠ nn).

(** Every answered import has an endpoint of its cluster on every port. *)
Record in_force (key : string) (nn : NamespacedName) (ports : Z → Prop) (a : spec_state) : Prop := {
  if_ports : ∀ imp p, imports (sp_world a key) !! nn = Some imp → p ∈ si_Ports imp → ports (ip_Port p);
  if_done : ∀ msg e, (key, msg, true) ∈ sp_tasks a → to_import key msg e → ev_nn e = nn →
    ∃ imp, imports (sp_world a key) !! nn = Some imp ∧
      ∀ p, p ∈ si_Ports imp → ev_ClusterKey e ∈ ie_ClusterKey <$> ip_Endpoints p
}.

(** The atomic step of a task of the cluster. *)
Lemma in_force_atomic key nn ports i msg d ef w' W ts :
  ts !! i = Some (key, msg, d) → atomic_step key msg ef (W key) w' → (answers ef = true → d = false) →
  undisputed key nn ports key msg →
  in_force key nn ports (mkSpec W ts) →
  in_force key nn ports (mkSpec (<[key := w']> W) (<[i := (key, msg, d || answers ef)]> ts)).
Proof.
  intros Hi Hat Hans Hund [Hports Hdone]. destruct (Hund eq_refl) as [Hcov Hforget]. simpl in *.
  assert (Hother : ∀ msg', (key, msg', true) ∈ <[i := (key, msg, d || answers ef)]> ts →
    (key, msg', true) ∈ ts ∨ (msg' = msg ∧ answers ef = true)).
  { intros msg' [Heq|Hin]%elem_of_insert_inv; [|by left]. injection Heq as -> Heq.
    symmetry in Heq. apply orb_true_iff in Heq as [->|Ha]; [left; by eapply list_elem_of_lookup_2|by right]. }
  split; simpl; rewrite fn_lookup_insert;
    destruct (atomic_step_at nn _ _ _ _ _ Hat) as [[Hsame Hnot]|[(e0 & i0 & Hto & Hnn & Hl & Hcase)|(e0 & Hto & Hnn)]].
  - rewrite Hsame. apply Hports.
  - intros imp p. rewrite Hl. intros [= <-]. destruct Hcase as [(_ & _ & ->)|(cur & Hcur & ->)].
    + intros (r & Hr & _)%elem_of_new_ports. apply (Hcov e0 Hto Hnn). intros Hnil. rewrite Hnil in Hr.
      by apply elem_of_nil in Hr.
    + intros (p0 & Hp0 & ->)%elem_of_upsert_ports. by apply (Hports cur p0).
  - by destruct (Hforget e0 Hto).
  - intros msg' e Hin Hto' Hnn'. rewrite Hsame. destruct (Hother msg' Hin) as [Hin'|[-> Ha]]; [by eapply Hdone|].
    by destruct (Hnot Ha e Hto').
  - intros msg' e Hin Hto' Hnn'. exists i0. split; [done|].
    destruct Hcase as [(Ha & Hnone & _)|(cur & Hcur & ->)].
    { destruct (Hother msg' Hin) as [Hin'|[_ Ha']]; [|congruence].
      destruct (Hdone msg' e Hin' Hto' Hnn') as (imp & Himp & _). congruence. }
    intros p (p0 & Hp0 & ->)%elem_of_upsert_ports. simpl. apply upsert_keeps_cluster.
    { apply (Hcov e0 Hto Hnn). by eapply Hports. }
    destruct (Hother msg' Hin) as [Hin'|[-> _]].
    + right. destruct (Hdone msg' e Hin' Hto' Hnn') as (imp & Himp & Hall). rewrite Hcur in Himp.
      injection Himp as <-. by apply Hall.
    + left. destruct Hto as (_ & Ho & _), Hto' as (_ & Ho' & _). congruence.
  - by destruct (Hforget e0 Hto).
Qed.

Lemma in_force_step key nn ports a a' :
  spec_step a a' → (∀ key' msg d, (key', msg, d) ∈ sp_tasks a' → undisputed key nn ports key' msg) →
  in_force key nn ports a → in_force key nn ports a'.
Proof.
  intros Hs HC Hinv. pose proof (spec_step_messages _ _ Hs) as Hsame.
  destruct Hs as [new W ts Hnew|i k msg d ef w' W ts Hi Hat Hans|k w' W ts Hi]; simpl in *.
  - destruct Hinv as [Hp Hd]. split; simpl in *; [done|]. intros msg e [Hin|Hin]%elem_of_app; [by eapply Hd|].
    by apply Hnew in Hin.
  - destruct (Hsame k msg d) as [d' Hin]; [by eapply list_elem_of_lookup_2|].
    destruct (decide (k = key)) as [->|Hne]; [by apply in_force_atomic; [..|by eapply HC|]|].
    destruct Hinv as [Hp Hd]. split; simpl in *; rewrite fn_lookup_insert_ne by done; [done|].
    intros msg' e [Heq|Hin']%elem_of_insert_inv; [congruence|by eapply Hd].
  - destruct Hinv as [Hp Hd]. destruct (decide (k = key)) as [->|Hne];
      (split; simpl in *; [rewrite ?fn_lookup_insert, ?fn_lookup_insert_ne, ?Hi by done..]); done.
Qed.

(** ** Properties of the federation *)

Lemma issued_accepted s key msg e :
  log_inv s → issued (fd_log s) msg → to_import key msg e →
  Answered (mkMessage ServiceExportAccepted None (Some e)) ∈ fd_log s ∧
  ∃ from, Watched from (mkMessage ServiceExportCreated None (Some e)) ∈ fd_log s ∧ exported_by from e.
Proof.
  intros Hinv Hiss (Hk & Ho & _).
  destruct Hiss as [[from Hw]|Ha].
  - destruct (li_log _ Hinv _ Hw) as (e' & _ & [-> | ->]); done.
  - destruct (li_log _ Hinv _ Ha) as (from & e' & Hw & [->|[err ->]]); [|done].
    simpl in Ho. injection Ho as ->. split; [done|]. exists from. split; [done|].
    destruct (li_log _ Hinv _ Hw) as (e1 & Hex & [[= ->]|[=]]). done.
Qed.

Lemma issued_withdrawn s key msg e :
  log_inv s → issued (fd_log s) msg → to_forget key msg e →
  ∃ from, Watched from (mkMessage ServiceExportDeleted (Some e) None) ∈ fd_log s.
Proof.
  intros Hinv Hiss (Hk & Ho & _). destruct Hiss as [[from Hw]|Ha].
  - exists from. destruct (li_log _ Hinv _ Hw) as (e' & _ & [-> | ->]); [done|].
    simpl in Ho. by injection Ho as ->.
  - destruct (li_log _ Hinv _ Ha) as (from & e' & Hw & [->|[err ->]]); done.
Qed.


(** Where an endpoint comes from. *)
Lemma provenance W s key nn imp p ep :
  (∀ key, imports (W key) = ∅) → rtc fed_step (fed_start W) s →
  imports (fd_world s key) !! nn = Some imp → p ∈ si_Ports imp → ep ∈ ip_Endpoints p →
  ∃ e r, ie_ClusterKey ep ≠ key ∧ exported_by (ie_ClusterKey ep) e ∧
    Watched (ie_ClusterKey ep) (mkMessage ServiceExportCreated None (Some e)) ∈ fd_log s ∧
    Answered (mkMessage ServiceExportAccepted None (Some e)) ∈ fd_log s ∧
    ev_nn e = nn ∧ r ∈ rules_for e (ip_Port p) ∧ ep = export_endpoint e r.
Proof.
  intros Hempty Hr Hl Hp He. pose proof (log_inv_reachable _ _ Hr) as Hinv.
  destruct (refined_reachable _ _ Hr) as (a & Ha & Href).
  destruct (explained_reachable _ _ Hempty Ha key nn imp p ep) as (msg & d & e & r & Hin & Hto & Hnn & Hrule & ->);
    [by destruct Href as [-> _]|done|done|].
  destruct (refines_task _ _ _ _ _ Href Hin) as (t & Ht & _ & Hm).
  destruct (issued_accepted s key msg e) as (Hacc & from & Hw & Hex); [done|by rewrite <-Hm; apply (li_tasks _ Hinv)|done|].
  assert (Hfrom : ie_ClusterKey (export_endpoint e r) = from) by apply Hex.
  exists e, r. rewrite Hfrom. split_and!; try done. destruct Hto as (_ & _ & Hne). rewrite <-Hfrom. exact Hne.
Qed.

(** C3 (safety).  In a federation that started without imports, every endpoint in an import of
    a cluster belongs to another cluster, whose connector saw an export of that
    very name with a service that is no external name, on which the reconciler
    answered that it is accepted; the endpoint is the one of a rule of that export
    for the port it is on, at the gateway of the exporting cluster, which has a
    reachable IPv4 address. *)
Theorem endpoints_have_provenance W s key nn imp p ep :
  (∀ key, imports (W key) = ∅) → rtc fed_step (fed_start W) s →
  imports (fd_world s key) !! nn = Some imp → p ∈ si_Ports imp → ep ∈ ip_Endpoints p →
  ∃ e r, ie_ClusterKey ep ≠ key ∧ exported_by (ie_ClusterKey ep) e ∧
    Watched (ie_ClusterKey ep) (mkMessage ServiceExportCreated None (Some e)) ∈ fd_log s ∧
    Answered (mkMessage ServiceExportAccepted None (Some e)) ∈ fd_log s ∧
    ev_nn e = nn ∧ r ∈ rules_for e (ip_Port p) ∧ ep = export_endpoint e r.
Proof. apply provenance. Qed.

(** C18 (invariant).  When every accepted export has at most one rule per port, no port of an
    import ever has two endpoints of the same cluster. *)
Theorem cluster_has_one_endpoint W s key nn imp p :
  (∀ key, imports (W key) = ∅) → rtc fed_step (fed_start W) s →
  (∀ e, Answered (mkMessage ServiceExportAccepted None (Some e)) ∈ fd_log s → one_rule_per_port e) →
  imports (fd_world s key) !! nn = Some imp → p ∈ si_Ports imp →
  NoDup (ie_ClusterKey <$> ip_Endpoints p).
Proof.
  intros Hempty Hr Hrules. pose proof (log_inv_reachable _ _ Hr) as Hinv.
  destruct (refined_reachable _ _ Hr) as (a & Ha & Href).
  assert (Hone : ∀ key, one_endpoint_per_port (sp_world a key)).
  { apply (spec_invariant (fun key msg => ∀ e, to_import key msg e → one_rule_per_port e)
      (fun a => ∀ key, one_endpoint_per_port (sp_world a key)) W a); [..|done|].
    - intros k n i q. simpl. by rewrite Hempty, lookup_empty.
    - intros a1 a2 Hs HC Hw. by eapply nodup_step.
    - intros k msg d Hin e Hto. destruct (refines_task _ _ _ _ _ Href Hin) as (t & Ht & _ & Hm).
      apply Hrules. eapply issued_accepted; [done| |done]. rewrite <-Hm. by apply (li_tasks _ Hinv). }
  destruct Href as [<- _]. apply Hone.
Qed.

(** An import in force. *)
Lemma accepted_in_force W s nn ports t e :
  (∀ key, imports (W key) = ∅) → rtc fed_step (fed_start W) s →
  (∀ e', Answered (mkMessage ServiceExportAccepted None (Some e')) ∈ fd_log s → ev_nn e' = nn →
     ∀ port, rules_for e' port ≠ [] ↔ ports port) →
  (∀ from e', Watched from (mkMessage ServiceExportDeleted (Some e') None) ∈ fd_log s → ev_nn e' ≠ nn) →
  t ∈ fd_tasks s → tk_prog t = Return (Ok tt) → to_import (tk_key t) (tk_msg t) e → ev_nn e = nn →
  ∃ imp, imports (fd_world s (tk_key t)) !! nn = Some imp ∧
    ∀ p, p ∈ si_Ports imp → ev_ClusterKey e ∈ ie_ClusterKey <$> ip_Endpoints p.
Proof.
  intros Hempty Hr Hsame Hkept Ht Hp Hto Hnn. pose proof (log_inv_reachable _ _ Hr) as Hinv.
  destruct (refined_reachable _ _ Hr) as (a & Ha & Href). set (key := tk_key t) in *.
  assert (Hforce : in_force key nn ports a).
  { apply (spec_invariant (undisputed key nn ports) (in_force key nn ports) W a); [..|done|].
    - split; simpl; [by intros imp q; rewrite Hempty, lookup_empty|by intros ? ? ?%elem_of_nil].
    - intros a1 a2. apply in_force_step.
    - intros k msg d Hin _. destruct (refines_task _ _ _ _ _ Href Hin) as (t' & Ht' & _ & <-).
      pose proof (li_tasks _ Hinv _ Ht') as Hiss. split; intros e' Hto'.
      + apply Hsame. by eapply issued_accepted.
      + destruct (issued_withdrawn _ _ _ _ Hinv Hiss Hto') as [from Hw]. by eapply Hkept. }
  destruct Href as [<- Htasks]. apply list_elem_of_lookup in Ht as [i Hi].
  destruct (Forall2_lookup_l _ _ _ _ _ Htasks Hi) as ([[k m] d] & Hl & -> & -> & Hg).
  rewrite Hp in Hg. simpl in Hg. rewrite Hg in Hl by (exists e; by left).
  eapply (if_done _ _ _ _ Hforce); [by eapply list_elem_of_lookup_2|done|done].
Qed.

(** C19 (functional).  When the accepted exports of a name have rules for the same ports and none
    of them is withdrawn, every goroutine that has succeeded in importing one has
    had a lasting effect: in the import of that name every port has an endpoint of
    its exporter, whatever the other goroutines did since. *)
Theorem accepted_exports_in_force W s nn ports t e :
  (∀ key, imports (W key) = ∅) → rtc fed_step (fed_start W) s →
  (∀ e', Answered (mkMessage ServiceExportAccepted None (Some e')) ∈ fd_log s → ev_nn e' = nn →
     ∀ port, rules_for e' port ≠ [] ↔ ports port) →
  (∀ from e', Watched from (mkMessage ServiceExportDeleted (Some e') None) ∈ fd_log s → ev_nn e' ≠ nn) →
  t ∈ fd_tasks s → tk_prog t = Return (Ok tt) → to_import (tk_key t) (tk_msg t) e → ev_nn e = nn →
  ∃ imp, imports (fd_world s (tk_key t)) !! nn = Some imp ∧
    ∀ p, p ∈ si_Ports imp → ev_ClusterKey e ∈ ie_ClusterKey <$> ip_Endpoints p.
Proof. apply accepted_in_force. Qed.

(** ** Running the federation

    A schedule of actions, and that its execution is a run of the federation. *)
Inductive action : Type :=
| AWatch (key : string) (mc : MeshConfig) (ev : watch_event)
| ADecide (mc : MeshConfig) (n : nat)
| APublish (n : nat) (ks : list string)
| ACall (i : nat)
| ARetry (i : nat)
| AReconcile (env : connector_env) (cluster : Cluster) (mc : MeshConfig) (s : session).

Definition remote_geo (r : ClusterReconciler) (key : string) : option ConnectorConfig :=
  bg ← cr_backgrounds r !! key; if bg_isInCluster bg then None else Some (bg_ConnectorConfig bg).

Definition drop_message (n : nat) (q : list Message) : list Message := take n q ++ drop (S n) q.

Definition perform (a : action) (s : federation) : option federation :=
  let 'mkFederation W r ts log := s in
  match a with
  | AWatch key mc ev =>
    geo ← remote_geo r key;
    let '(o, w') := watcher geo mc ev (W key) in
    msg ← o;
    Some (mkFederation (<[key := w']> W) (Enqueue msg r) ts (log ++ [Watched key msg]))
  | ADecide mc n =>
    msg ← cr_queue r !! n;
    guard (msg_Kind msg = ServiceExportCreated);;
    let q := drop_message n (cr_queue r) in
    let r' := processEvent (fun _ => _) W mc msg (with_queue q r) in
    Some (mkFederation W r' ts (log ++ (Answered <$> drop (length q) (cr_queue r'))))
  | APublish n ks =>
    msg ← cr_queue r !! n;
    guard (NoDup ks);; guard (Forall (fun k => is_Some (remote_geo r k)) ks);;
    Some (mkFederation W (with_queue (drop_message n (cr_queue r)) r) (ts ++ spawn msg ks) log)
  | ACall i =>
    t ← ts !! i;
    match tk_prog t with
    | Return _ => None
    | Call q k =>
      let '(a, w') := serve q (W (tk_key t)) in
      Some (mkFederation (<[tk_key t := w']> W) r (<[i := mkTask (tk_key t) (tk_msg t) (k a)]> ts) log)
    end
  | ARetry i =>
    t ← ts !! i;
    match tk_prog t with
    | Return (Err _) =>
      p ← goroutine_prog (tk_key t) (tk_msg t);
      Some (mkFederation W r (<[i := mkTask (tk_key t) (tk_msg t) p]> ts) log)
    | _ => None
    end
  | AReconcile env cluster mc sess =>
    match (Reconcile env (Ok cluster) mc r sess).1 with
    | Ret (_, r') => Some (mkFederation W r' ts log)
    | Panic => None
    end
  end.

Fixpoint perform_all (l : list action) (s : federation) : option federation :=
  match l with
  | [] => Some s
  | a :: l => s' ← perform a s; perform_all l s'
  end.

Lemma remote_geo_connected r key geo : remote_geo r key = Some geo → connected r key geo.
Proof.
  unfold remote_geo. intros (bg & Hbg & Hg)%bind_Some. destruct (bg_isInCluster bg) eqn:Hin; [done|].
  injection Hg as <-. by exists bg.
Qed.

Lemma drop_message_split n (q : list Message) msg : q !! n = Some msg → q = take n q ++ msg :: drop (S n) q.
Proof. intros Hn. by rewrite take_drop_middle. Qed.

Lemma perform_sound a s s' : perform a s = Some s' → fed_step s s'.
Proof.
  destruct s as [W r ts log]. destruct a as [key mc ev|mc n|n ks|i|i|env c mc sess]; cbn [perform].
  - intros (geo & Hgeo%remote_geo_connected & Hs)%bind_Some.
    destruct (watcher geo mc ev (W key)) as [[msg|] w'] eqn:Hw; [|done]. injection Hs as <-. by eapply fs_watch.
  - intros (msg & Hn & Hs)%bind_Some. case_guard as Hk; [|done]. injection Hs as <-.
    eapply (fs_decide mc msg W r _ ts log (take n (cr_queue r)) (drop (S n) (cr_queue r)));
      [by apply drop_message_split|done|reflexivity|]. fold (drop_message n (cr_queue r)).
    set (q := drop_message n (cr_queue r)).
    destruct (processEvent_answers (fun _ => _) W mc msg (with_queue q r)) as [->|(e & _ & [->|[err ->]])];
      simpl; [by rewrite drop_all, app_nil_r|by rewrite drop_app_length..].
  - intros (msg & Hn & Hs)%bind_Some. simplify_option_eq.
    eapply fs_publish; [by apply drop_message_split|done|]. eapply Forall_impl; [done|].
    intros k [geo Hgeo%remote_geo_connected]. by exists geo.
  - intros (t & Hi & Hs)%bind_Some. destruct (tk_prog t) as [res|R q k] eqn:Hp; [done|].
    destruct (serve q (W (tk_key t))) as [a w'] eqn:Hq. injection Hs as <-. by eapply fs_call.
  - intros (t & Hi & Hs)%bind_Some. destruct (tk_prog t) as [[u|err]|R q k] eqn:Hp; [done| |done].
    apply bind_Some in Hs as (p & Hg & [= <-]). by eapply fs_retry.
  - destruct ((Reconcile env (Ok c) mc r sess).1) as [[e r']|] eqn:HR; [|done]. intros [= <-].
    by eapply fs_reconcile.
Qed.

Lemma perform_all_sound l s s' : perform_all l s = Some s' → rtc fed_step s s'.
Proof.
  revert s. induction l as [|a l IH]; simpl; intros s; [by intros [= ->]|].
  intros (s1 & Hp%perform_sound & Hl)%bind_Some. eapply rtc_l; [done|]. by apply IH.
Qed.
End system.

(** ** An API server with versions

    It keeps every version of the imports, in order; the version of an object is
    its position. *)
Record vworld : Type := mkVWorld {
  vw_history : list ServiceImport;
  vw_now : gmap NamespacedName nat;
  vw_services : gmap NamespacedName Service
}.

Definition with_version (n : nat) (i : ServiceImport) : ServiceImport :=
  let m := si_Meta i in
  mkServiceImport (mkMeta (Namespace m) (Name m) (UID m) (pretty n) (Generation m) (DeletionTimestamp m)
                     (Labels m) (Annotations m) (Finalizers m) (ControllerUID m))
    (si_Ports i) (si_Type i) (si_ServiceAccountName i).

Definition vimport (w : vworld) (nn : NamespacedName) (n : nat) : option ServiceImport :=
  i ← vw_history w !! n;
  if decide (meta_nn (si_Meta i) = nn) then Some (with_version n i) else None.

Definition vimports (w : vworld) : gmap NamespacedName ServiceImport :=
  map_imap (vimport w) (vw_now w).

Definition vput (i : ServiceImport) (w : vworld) : vworld :=
  mkVWorld (vw_history w ++ [i])
    (<[meta_nn (si_Meta i) := length (vw_history w)]>
       (filter (fun kv => (kv.2 < length (vw_history w))%nat) (vw_now w)))
    (vw_services w).

Definition vdelete (nn : NamespacedName) (w : vworld) : vworld :=
  mkVWorld (vw_history w) (delete nn (vw_now w)) (vw_services w).

Definition versioned_api : ClusterAPI := {|
  kworld := vworld;
  ns_Create := fun _ w => (Err AlreadyExists, w);
  imp_Create := fun i w =>
    match vimports w !! meta_nn (si_Meta i) with
    | Some _ => (Err AlreadyExists, w)
    | None => (Ok (with_version (length (vw_history w)) i), vput i w)
    end;
  imp_Get := fun nn w => (match vimports w !! nn with Some i => Ok i | None => Err NotFound end, w);
  imp_Update := fun i w =>
    match vimports w !! meta_nn (si_Meta i) with
    | Some cur =>
      if decide (ResourceVersion (si_Meta cur) = ResourceVersion (si_Meta i))
      then (Ok (with_version (length (vw_history w)) i), vput i w)
      else (Err (OtherError "Conflict"), w)
    | None => (Err NotFound, w)
    end;
  imp_Delete := fun nn w =>
    match vimports w !! nn with Some _ => (Ok tt, vdelete nn w) | None => (Err NotFound, w) end;
  svc_Get := fun nn w => (match vw_services w !! nn with Some s => Ok s | None => Err NotFound end, w);
  exp_Get := fun _ w => (Err NotFound, w);
  exp_UpdateStatus := fun e w => (Ok e, w)
|}.

Definition was_version (w : vworld) (i : ServiceImport) : Prop :=
  ∃ n i0, vw_history w !! n = Some i0 ∧ i = with_version n i0.

Lemma vimports_lookup w nn :
  vimports w !! nn = n ← vw_now w !! nn; vimport w nn n.
Proof. apply map_lookup_imap. Qed.

Lemma vimports_put i w :
  vimports (vput i w) = <[meta_nn (si_Meta i) := with_version (length (vw_history w)) i]> (vimports w).
Proof.
  apply map_eq. intros nn. rewrite vimports_lookup. unfold vput, vimport. simpl.
  destruct (decide (nn = meta_nn (si_Meta i))) as [->|Hne].
  - rewrite !lookup_insert_eq. simpl. rewrite list_lookup_middle by done. simpl. by rewrite decide_True.
  - rewrite !lookup_insert_ne, vimports_lookup, map_lookup_filter by done. unfold vimport.
    destruct (vw_now w !! nn) as [n|]; [|done]. simpl. case_guard as Hlt; simpl.
    + by rewrite lookup_app_l.
    + by rewrite lookup_ge_None_2 by lia.
Qed.

Lemma vimports_delete nn w : vimports (vdelete nn w) = delete nn (vimports w).
Proof. unfold vimports, vdelete. simpl. by rewrite map_imap_delete. Qed.

Lemma vimports_named w nn i : vimports w !! nn = Some i → meta_nn (si_Meta i) = nn ∧ was_version w i.
Proof.
  rewrite vimports_lookup. intros (n & _ & Hv)%bind_Some. unfold vimport in Hv.
  apply bind_Some in Hv as (i0 & Hn & Hv). case_decide as Hd; [|done]. injection Hv as <-.
  split; [done|]. by exists n, i0.
Qed.

Lemma was_version_put i w j : was_version w j → was_version (vput i w) j.
Proof. intros (n & i0 & Hn & ->). exists n, i0. split; [|done]. simpl. by apply lookup_app_l_Some. Qed.

Definition versioned_api_laws : @ClusterAPILaws versioned_api.
Proof.
  refine {| imports := (vimports : @kworld versioned_api → _) |}; simpl.
  - by intros n w r w' [= _ <-].
  - intros nn w r w' [= <- <-]. split; [done|]. by destruct (vimports w !! nn).
  - intros i w r w'. destruct (vimports w !! meta_nn (si_Meta i)) eqn:E; intros [= <- <-].
    + split; [done|]. intros _. by eexists.
    + by rewrite vimports_put.
  - intros i w r w'. destruct (vimports w !! meta_nn (si_Meta i)); [|by intros [= <- <-]].
    case_decide; intros [= <- <-]; [|done]. by rewrite vimports_put.
  - intros nn w r w'. destruct (vimports w !! nn) eqn:E; intros [= <- <-]; [by rewrite vimports_delete|done].
  - intros w nn i. by intros [? _]%vimports_named.
Defined.

Definition versioned_laws : @VersionedLaws versioned_api versioned_api_laws.
Proof.
  refine {| was_stored := (was_version : @kworld versioned_api → _) |}; simpl.
  - intros w nn i. by intros [_ ?]%vimports_named.
  - intros w i j (n & i0 & Hn & ->) (m & j0 & Hm & ->) _ Hv. simpl in Hv. apply (inj pretty) in Hv as ->.
    rewrite Hm in Hn. by injection Hn as ->.
  - intros R q w r w' i Hs Hw. destruct q; simpl in Hs; repeat case_match; simplify_eq/=;
      first [done|by apply was_version_put|by destruct Hw as (n & i0 & ?); exists n, i0].
  - by intros nn w r w' [= _ <-].
  - intros i w i' w'. destruct (vimports w !! meta_nn (si_Meta i)) as [cur|] eqn:E; [|done].
    case_decide; [|done]. intros _. by exists cur.
  - by intros nn w r w' [= _ <-].
  - by intros e w r w' [= _ <-].
Defined.

(** ** Runs *)

Section runs.
#[local] Existing Instances versioned_api versioned_api_laws versioned_laws list_range sample_status_lib
  sample_cond_lib sample_lib sample_net_lib sample_resty.

Definition join (name : string) : action :=
  AReconcile sample_connector_env
    (mkCluster (named "" name) (mkClusterSpec false "r" "z" "g" "gw.example.com" 8080 "") None)
    zeroMeshConfig sample_session.

Definition web_service : Service :=
  mkService (named "ns" "web") "ClusterIP" [mkSvcPort "http" "TCP" None 80 (IntVal 80) 0] "" [] "" None [] [].

Definition web_export : ServiceExport :=
  mkServiceExport (named "ns" "web") (mkExportSpec None false "" [mkExportRule 80 "/" None] [] "") None.

(** The clusters have the service where they export it, and no imports. *)
Definition run_world (key : string) : @kworld versioned_api :=
  mkVWorld [] ∅ (if decide (key = "r/z/g/c") then ∅ else {[ mkNN "ns" "web" := web_service ]}).

Definition run_geo (name : string) : ConnectorConfig :=
  mkConnectorConfig name "r" "z" "g" false ("r/z/g/" +:+ name) "gw.example.com" (Some [10; 0; 0; 9]%Z) 8080 "".

Definition run_event (name : string) : ServiceExportEvent :=
  mkExportEvent (run_geo name) web_export web_service "".

(** Cluster [a] exports, the export is accepted, and cluster [c] starts to import it. *)
Definition export_from (name : string) : list action :=
  [AWatch ("r/z/g/" +:+ name) sample_mesh_config (ExportAdded web_export); ADecide zeroMeshConfig 0; APublish 0 ["r/z/g/c"]].
Definition withdraw_from (name : string) : list action :=
  [AWatch ("r/z/g/" +:+ name) sample_mesh_config (ExportGone web_export); APublish 0 ["r/z/g/c"]].

Definition perform_run (l : list action) : federation :=
  default (fed_start run_world) (perform_all l (fed_start run_world)).

Definition performed (l : list action) : bool :=
  match perform_all l (fed_start run_world) with Some _ => true | None => false end.

Lemma perform_run_reachable l :
  performed l = true → rtc fed_step (fed_start run_world) (perform_run l).
Proof.
  unfold performed, perform_run. destruct (perform_all l (fed_start run_world)) as [s|] eqn:Hs; [|done].
  intros _. simpl. by eapply perform_all_sound.
Qed.

Lemma run_world_empty key : imports (run_world key) = ∅.
Proof. apply map_eq. intros nn. simpl. rewrite vimports_lookup. simpl. by rewrite !lookup_empty. Qed.

Definition import_run : list action := [join "a"; join "b"; join "c"] ++ export_from "a" ++ [ACall 0; ACall 0; ACall 0].

Example import_run_ok : performed import_run = true.
Proof. vm_compute. reflexivity. Qed.

Definition import_state : federation := perform_run import_run.

(** What a state stores for a cluster, and whether all goroutines are done. *)
Definition stored_ports (s : federation) (key : string) : option (list ImportServicePort) :=
  si_Ports <$> vimports (fd_world s key) !! mkNN "ns" "web".
Definition all_succeeded (s : federation) : bool :=
  forallb (fun t => match tk_prog t with Return (Ok _) => true | _ => false end) (fd_tasks s).
Definition run_port (eps : list ImportEndpoint) : ImportServicePort := mkImportPort "http" "TCP" None 80 eps.
Definition run_endpoint (name : string) : ImportEndpoint :=
  export_endpoint (run_event name) (mkExportRule 80 "/" None).
Definition created_msg (name : string) : Message := mkMessage ServiceExportCreated None (Some (run_event name)).
Definition accepted_msg (name : string) : Message := mkMessage ServiceExportAccepted None (Some (run_event name)).
Definition deleted_msg (name : string) : Message := mkMessage ServiceExportDeleted (Some (run_event name)) None.

Example import_state_ports : stored_ports import_state "r/z/g/c" = Some [run_port [run_endpoint "a"]].
Proof. vm_compute. reflexivity. Qed.

Lemma import_state_reachable : rtc fed_step (fed_start run_world) import_state.
Proof. apply perform_run_reachable, import_run_ok. Qed.

Example import_state_log :
  fd_log import_state = [Watched "r/z/g/a" (created_msg "a"); Answered (accepted_msg "a")].
Proof. vm_compute. reflexivity. Qed.

#[local] Opaque import_state.

(** A withdrawal may delete the import right after another cluster merged its
    endpoint into it: the deletion names no version.  Cluster [b] exports the
    service, its export is accepted and imported by cluster [c], and is never
    withdrawn; all goroutines succeed, but in the end cluster [c] has no import. *)
Definition delete_race : list action :=
  import_run ++ withdraw_from "a" ++ [ACall 1] ++ export_from "b" ++
  [ACall 2; ACall 2; ACall 2; ACall 2] ++ [ACall 1].

Theorem delete_race_loses_endpoint :
  ∃ s, rtc fed_step (fed_start run_world) s ∧ all_succeeded s = true ∧
    fd_log s = [Watched "r/z/g/a" (created_msg "a"); Answered (accepted_msg "a");
                Watched "r/z/g/a" (deleted_msg "a");
                Watched "r/z/g/b" (created_msg "b"); Answered (accepted_msg "b")] ∧
    tk_msg <$> fd_tasks s = [accepted_msg "a"; deleted_msg "a"; accepted_msg "b"] ∧
    imports (fd_world s "r/z/g/c") !! mkNN "ns" "web" = None.
Proof.
  exists (perform_run delete_race). split; [by apply perform_run_reachable; vm_compute|].
  split_and!; vm_compute; reflexivity.
Qed.

(** The goroutine of an acceptance may run after the one of the withdrawal: the
    endpoint of a withdrawn export is imported and stays. *)
Definition late_acceptance : list action :=
  [join "a"; join "b"; join "c"] ++ export_from "a" ++ withdraw_from "a" ++ [ACall 1; ACall 0; ACall 0; ACall 0].

Theorem late_acceptance_imports_withdrawn :
  ∃ s, rtc fed_step (fed_start run_world) s ∧ all_succeeded s = true ∧ cr_queue (fd_reconciler s) = [] ∧
    fd_log s = [Watched "r/z/g/a" (created_msg "a"); Answered (accepted_msg "a");
                Watched "r/z/g/a" (deleted_msg "a")] ∧
    stored_ports s "r/z/g/c" = Some [run_port [run_endpoint "a"]].
Proof.
  exists (perform_run late_acceptance). split; [by apply perform_run_reachable; vm_compute|].
  split_and!; vm_compute; reflexivity.
Qed.

(** *** Witnesses: the run in which cluster [c] imports the export of cluster [a] *)

Lemma import_state_stored :
  ∃ imp, imports (fd_world import_state "r/z/g/c") !! mkNN "ns" "web" = Some imp ∧
    si_Ports imp = [run_port [run_endpoint "a"]].
Proof.
  pose proof import_state_ports as Hp. unfold stored_ports in Hp. apply fmap_Some in Hp as (imp & Hi & Hp).
  exists imp. split; [exact Hi|symmetry; exact Hp].
Qed.

Lemma import_state_accepted e :
  Answered (mkMessage ServiceExportAccepted None (Some e)) ∈ fd_log import_state → e = run_event "a".
Proof.
  rewrite import_state_log. unfold accepted_msg.
  intros [[=]|[[= ->]| []%elem_of_nil]%elem_of_cons]%elem_of_cons; done.
Qed.

Lemma import_state_task :
  ∃ t, t ∈ fd_tasks import_state ∧ tk_key t = "r/z/g/c" ∧ tk_msg t = accepted_msg "a" ∧ tk_prog t = Return (Ok tt).
Proof.
  assert (Hl : (fun t => (tk_key t, tk_msg t, tk_prog t)) <$> fd_tasks import_state !! 0%nat =
    Some ("r/z/g/c", accepted_msg "a", Return (Ok tt))) by (vm_compute; reflexivity).
  apply fmap_Some in Hl as (t & Ht & [= Hk Hm Hp]). exists t.
  split; [exact (list_elem_of_lookup_2 _ _ _ Ht)|]. split; [exact (eq_sym Hk)|].
  split; [exact (eq_sym Hm)|exact (eq_sym Hp)].
Qed.

Lemma run_event_rules name port :
  rules_for (run_event name) port = if (80 =? port)%Z then [mkExportRule 80 "/" None] else [].
Proof. done. Qed.

Lemma run_to_import : to_import "r/z/g/c" (accepted_msg "a") (run_event "a").
Proof. by split_and!. Qed.


Lemma endpoints_have_provenance_witness :
  ∃ e r, exported_by "r/z/g/a" e ∧ Answered (mkMessage ServiceExportAccepted None (Some e)) ∈ fd_log import_state ∧
    r ∈ rules_for e 80 ∧ run_endpoint "a" = export_endpoint e r.
Proof.
  destruct import_state_stored as (imp & Hi & Hp).
  destruct (endpoints_have_provenance run_world import_state "r/z/g/c" (mkNN "ns" "web") imp
    (run_port [run_endpoint "a"]) (run_endpoint "a") run_world_empty import_state_reachable Hi)
    as (e & r & _ & Hex & _ & Ha & _ & Hr & He); [rewrite Hp; by left|by left|].
  exists e, r. split; [exact Hex|]. split; [exact Ha|]. split; [exact Hr|exact He].
Defined.

Lemma cluster_has_one_endpoint_witness : NoDup (ie_ClusterKey <$> ip_Endpoints (run_port [run_endpoint "a"])).
Proof.
  destruct import_state_stored as (imp & Hi & Hp).
  apply (cluster_has_one_endpoint run_world import_state "r/z/g/c" (mkNN "ns" "web") imp _
    run_world_empty import_state_reachable); [|exact Hi|rewrite Hp; by left].
  intros e ->%import_state_accepted port. rewrite run_event_rules. destruct (80 =? port)%Z; simpl; lia.
Defined.

Lemma accepted_exports_in_force_witness :
  ∃ imp, imports (fd_world import_state "r/z/g/c") !! mkNN "ns" "web" = Some imp ∧
    ∀ p, p ∈ si_Ports imp → "r/z/g/a" ∈ ie_ClusterKey <$> ip_Endpoints p.
Proof.
  destruct import_state_task as (t & Ht & Hk & Hm & Hp). rewrite <-Hk.
  apply (accepted_exports_in_force run_world import_state (mkNN "ns" "web") (fun port => port = 80%Z) t
    (run_event "a") run_world_empty import_state_reachable); [| |exact Ht|exact Hp| |reflexivity].
  - intros e ->%import_state_accepted _ port. rewrite run_event_rules.
    destruct (Z.eqb_spec 80 port); split; congruence.
  - intros from e'. rewrite import_state_log.
    by intros [[=]|[[=]| []%elem_of_nil]%elem_of_cons]%elem_of_cons.
  - rewrite Hk, Hm. exact run_to_import.
Defined.
End runs.
