(* ===== verification/Progress.v ===== *)
(** * Progress of the federation ([pkg/cluster/remote.go])

    The connectors start a goroutine for every message and let it start over until
    it succeeds ([retry.Fibonacci]).  Several goroutines work on the same import
    with optimistic concurrency, so that one can make another one fail.  Here it is
    shown that they do not do so forever: once no more messages are published, a
    fair run comes to a state from which on all goroutines that import or withdraw
    exports have succeeded.  The measure is lexicographic: the goroutines that have
    not succeeded, those of them that still have to create their import, and the
    calls they have left while the imports stay as they are. *)

From Stdlib Require Import Relation_Operators Lexicographic_Product Wf_nat.
From stdpp Require Import functions.
From S2P Require Import Prelude GoLib Kube CacheTypes McsTypes Repo Config RouteBuild RemoteConnector ClusterReconciler Federation.

(** ** An API server that is available

    Requests are answered, and fail only for the documented reasons: what is to be
    created exists, what is asked for does not, what is updated was changed. *)
Class ReliableLaws `{VersionedLaws} : Type := {
  ns_Create_fails : ∀ n w e w', ns_Create n w = (Err e, w') → e = AlreadyExists;
  imp_Create_fails : ∀ i w e w', imp_Create i w = (Err e, w') → e = AlreadyExists;
  imp_Get_fails : ∀ nn w e w', imp_Get nn w = (Err e, w') → e = NotFound;
  imp_Update_fails : ∀ i w e w', imp_Update i w = (Err e, w') →
    ∀ cur, imports w !! meta_nn (si_Meta i) = Some cur →
      ResourceVersion (si_Meta cur) ≠ ResourceVersion (si_Meta i);
  imp_Delete_fails : ∀ nn w e w', imp_Delete nn w = (Err e, w') → imports w !! nn = None
}.

(** ** One goroutine *)

Section settling.
Context `{ReliableLaws} `{MapRange}.

Abbreviation import_map := (gmap NamespacedName ServiceImport).

(** While the imports are [m], the program, which starts over as [p0] when it
    fails, succeeds within [n] steps, or changes the imports. *)
Fixpoint settles (p0 : prog) (m : import_map) (n : nat) (p : prog) : Prop :=
  match p, n with
  | Return (Ok _), _ => True
  | _, O => False
  | Return (Err _), S n => settles p0 m n p0
  | Call q k, S n => ∀ w r w', imports w = m → serve q w = (r, w') → imports w' = m → settles p0 m n (k r)
  end.

(** A call that changes the imports is the last one of the goroutine, or creates
    the import it needs. *)
Definition harmless (key : string) (msg : Message) (w w' : kworld) (p : prog) : Prop :=
  imports w' = imports w ∨ p = Return (Ok tt) ∨
  ∃ e i, to_import key msg e ∧ imports w !! ev_nn e = None ∧ imports w' = <[ev_nn e := i]> (imports w).

Fixpoint tame (key : string) (msg : Message) (p0 p : prog) : Prop :=
  (∀ m, ∃ n, settles p0 m n p) ∧
  match p with
  | Return _ => True
  | Call q k => ∀ w r w', serve q w = (r, w') → harmless key msg w w' (k r) ∧ tame key msg p0 (k r)
  end.

Lemma tame_settles key msg p0 p m : tame key msg p0 p → ∃ n, settles p0 m n p.
Proof. destruct p; intros [Hs _]; apply Hs. Qed.

Lemma tame_call key msg p0 {R} (q : Req R) k w r w' :
  tame key msg p0 (Call q k) → serve q w = (r, w') → harmless key msg w w' (k r) ∧ tame key msg p0 (k r).
Proof. intros [_ Hk]. apply Hk. Qed.

(** A program that fails has the steps of the restarted one left. *)
Lemma tame_return key msg p0 r : (∀ m, ∃ n, settles p0 m n p0) → tame key msg p0 (Return r).
Proof.
  intros Hp0. split; [|done]. intros m. destruct r as [u|e]; [by exists O|].
  destruct (Hp0 m) as [n Hn]. by exists (S n).
Qed.

(** *** The update at the end of a goroutine *)

(** An update that may be stale: when it fails, the goroutine starts over. *)
Lemma tame_update key msg p0 i :
  (∀ m, ∃ n, settles p0 m n p0) → tame key msg p0 (update_import i).
Proof.
  intros Hp0. split.
  - intros m. destruct (Hp0 m) as [n Hn]. exists (S (S n)). intros w r w' _ _ _. by destruct r.
  - intros w r w' Hs. cbn [serve] in Hs. pose proof (imp_Update_imports _ _ _ _ Hs) as Hi. split.
    + destruct r; [right; by left|by left].
    + apply (tame_return key msg p0). exact Hp0.
Qed.

(** An update of the import that is stored succeeds. *)
Lemma settles_update p0 m n base ports sa :
  m !! meta_nn (si_Meta base) = Some base → settles p0 m (S n) (update_import (set_ports base ports sa)).
Proof.
  intros Hm w r w' Hw Hs _. cbn [serve] in Hs. destruct r as [i|e]; [by destruct n|].
  destruct (imp_Update_fails _ _ _ _ Hs base); [|done]. by rewrite Hw.
Qed.

(** *** Importing *)

Section upsert.
Context (key : string) (msg : Message) (e : ServiceExportEvent).
Context (Hto : to_import key msg e).
Let p0 := upsert_prog key e.

Lemma settles_upsert_rest m n i :
  m !! ev_nn e = Some i → meta_nn (si_Meta i) = ev_nn e → settles p0 m (S n) (upsert_rest e (Ok i)).
Proof. intros Hm Hnn. apply settles_update. by rewrite Hnn. Qed.

Lemma settles_get m n i :
  m !! ev_nn e = Some i → settles p0 m (S (S n)) (Call (ImpGet (ev_nn e)) (upsert_rest e)).
Proof.
  intros Hm w r w' Hw Hs _. cbn [serve] in Hs. destruct r as [j|err].
  - apply imp_Get_imports in Hs as [Hw' Hj]. pose proof (imports_named _ _ _ Hj) as Hnn.
    apply settles_upsert_rest; [by rewrite <-Hw|done].
  - pose proof (imp_Get_fails _ _ _ _ Hs) as ->. apply imp_Get_imports in Hs as [_ Hnone]. congruence.
Qed.

Lemma settles_createOrGet m n : settles p0 m (S (S (S n))) (createOrGet_prog e).
Proof.
  intros w r w' Hw Hs Hw'. cbn [serve] in Hs. destruct r as [i|err].
  - apply imp_Create_imports in Hs as (Hnone & Hi & _). exfalso. revert Hnone.
    change (meta_nn (si_Meta (newServiceImport e))) with (ev_nn e) in *.
    rewrite Hw, <-Hw', Hi, lookup_insert_eq. done.
  - pose proof (imp_Create_fails _ _ _ _ Hs) as ->. apply imp_Create_imports in Hs as [_ Hsome].
    destruct (Hsome eq_refl) as [i Hi]. apply (settles_get _ _ i). by rewrite <-Hw.
Qed.

Lemma settles_upsert m : settles p0 m 4 p0.
Proof.
  unfold p0 at 2. unfold upsert_prog. case_bool_decide; [done|]. intros w r w' Hw Hs Hw'. cbn [serve] in Hs.
  destruct r as [u|err]; [apply settles_createOrGet|].
  rewrite (ns_Create_fails _ _ _ _ Hs). apply settles_createOrGet.
Qed.

Lemma upsert_restarts m : ∃ n, settles p0 m n p0.
Proof. exists 4%nat. apply settles_upsert. Qed.

Lemma tame_upsert_rest r : tame key msg p0 (upsert_rest e r).
Proof. destruct r; [apply tame_update|apply tame_return]; apply upsert_restarts. Qed.

Lemma tame_get : tame key msg p0 (Call (ImpGet (ev_nn e)) (upsert_rest e)).
Proof.
  split.
  - intros m. destruct (m !! ev_nn e) as [i|] eqn:Hm; [exists 2%nat; by eapply settles_get|].
    exists 6%nat. intros w r w' Hw Hs _. cbn [serve] in Hs. destruct r as [j|err].
    + apply imp_Get_imports in Hs as [_ Hj]. congruence.
    + exact (settles_upsert m).
  - intros w r w' Hs. cbn [serve] in Hs. split; [left; by apply imp_Get_imports in Hs as [? _]|].
    apply tame_upsert_rest.
Qed.

Lemma tame_createOrGet : tame key msg p0 (createOrGet_prog e).
Proof.
  split; [intros m; exists 3%nat; apply settles_createOrGet|].
  intros w r w' Hs. cbn [serve] in Hs. apply imp_Create_imports in Hs. destruct r as [i|err].
  - destruct Hs as (Hnone & Hi & _). split; [right; right; by exists e, i|apply (tame_upsert_rest (Ok i))].
  - destruct Hs as [Hi _]. split; [by left|]. destruct err; [apply (tame_upsert_rest (Err _))|apply tame_get|].
    apply (tame_upsert_rest (Err _)).
Qed.

Lemma tame_upsert : tame key msg p0 p0.
Proof.
  unfold p0 at 2. unfold upsert_prog. case_bool_decide as Hkey; [apply tame_return, upsert_restarts|].
  split; [intros m; exists 4%nat; pose proof (settles_upsert m) as Hs; unfold p0 at 2 in Hs;
          unfold upsert_prog in Hs; by rewrite bool_decide_eq_false_2 in Hs|].
  intros w r w' Hs. cbn [serve] in Hs. split; [left; by eapply ns_Create_imports|].
  destruct r as [u|err]; [apply tame_createOrGet|].
  rewrite (ns_Create_fails _ _ _ _ Hs). apply tame_createOrGet.
Qed.
End upsert.

(** *** Withdrawing *)

Section delete.
Context (key : string) (msg : Message) (e : ServiceExportEvent).
Let p0 := delete_prog key e.

(** What is left after the import [imp] was read. *)
Lemma settles_delete_rest m n imp :
  m !! ev_nn e = Some imp → meta_nn (si_Meta imp) = ev_nn e → settles p0 m (S n) (delete_rest e (Ok imp)).
Proof.
  intros Hm Hnn. cbn [delete_rest]. destruct (DeletionTimestamp (si_Meta imp)); [done|].
  destruct (remaining_ports e imp) as [|p ps].
  - intros w r w' Hw Hs _. cbn [serve] in Hs. destruct r as [u|err]; [by destruct n|].
    apply imp_Delete_fails in Hs. rewrite Hw in Hs. congruence.
  - apply settles_update. by rewrite Hnn.
Qed.

Lemma settles_delete m : settles p0 m 2 p0.
Proof.
  unfold p0 at 2, delete_prog. case_bool_decide; [done|]. intros w r w' Hw Hs _. cbn [serve] in Hs.
  destruct r as [imp|err].
  - apply imp_Get_imports in Hs as [_ Hi]. pose proof (imports_named _ _ _ Hi) as Hnn.
    apply settles_delete_rest; [by rewrite <-Hw|done].
  - by rewrite (imp_Get_fails _ _ _ _ Hs).
Qed.

Lemma delete_restarts m : ∃ n, settles p0 m n p0.
Proof. exists 2%nat. apply settles_delete. Qed.

(** The deletion of an import that is gone fails; the goroutine then starts over. *)
Lemma tame_delete_call nn : tame key msg p0 (Call (ImpDelete nn) Return).
Proof.
  split.
  - intros m. exists 4%nat. intros w r w' _ _ _. destruct r as [u|err]; [done|]. exact (settles_delete m).
  - intros w r w' Hs. cbn [serve] in Hs. apply imp_Delete_imports in Hs. split.
    + destruct r as [[]|err]; [right; by left|by left].
    + apply tame_return, delete_restarts.
Qed.

Lemma tame_delete_rest r : tame key msg p0 (delete_rest e r).
Proof.
  pose proof delete_restarts as Hp0. destruct r as [imp|[]]; cbn [delete_rest]; try by apply tame_return.
  destruct (DeletionTimestamp (si_Meta imp)); [by apply tame_return|].
  destruct (remaining_ports e imp); [apply tame_delete_call|by apply tame_update].
Qed.

Lemma tame_delete : tame key msg p0 p0.
Proof.
  unfold p0 at 2. unfold delete_prog. case_bool_decide as Hkey; [apply tame_return, delete_restarts|].
  split.
  - intros m. exists 2%nat. pose proof (settles_delete m) as Hs. unfold p0 at 2 in Hs.
    unfold delete_prog in Hs. by rewrite bool_decide_eq_false_2 in Hs.
  - intros w r w' Hs. cbn [serve] in Hs. split; [left; by apply imp_Get_imports in Hs as [? _]|].
    apply tame_delete_rest.
Qed.
End delete.

(** A program that writes no imports. *)
Fixpoint aside (p : prog) : Prop :=
  match p with
  | Return _ => True
  | Call q k => ∀ w r w', serve q w = (r, w') → imports w' = imports w ∧ aside (k r)
  end.

Lemma goroutine_aside `{MetaLib} key msg p :
  goroutine_prog key msg = Some p → msg_Kind msg = ServiceExportRejected → aside p.
Proof.
  unfold goroutine_prog. intros Hg Hk. rewrite Hk in Hg. destruct (msg_NewObj msg) as [e|]; [|done].
  injection Hg as <-. unfold reject_prog. case_bool_decide; [|done].
  intros w r w' Hs. cbn [serve] in Hs. split; [by eapply exp_Get_imports|]. destruct r as [exp|err]; [|done].
  intros w1 r1 w2 Hs1. cbn [serve] in Hs1. split; [by eapply exp_UpdateStatus_imports|done].
Qed.

(** The goroutines that import or withdraw exports. *)
Lemma goroutine_tame `{MetaLib} key msg p0 :
  goroutine_prog key msg = Some p0 → msg_Kind msg ≠ ServiceExportRejected → tame key msg p0 p0.
Proof.
  unfold goroutine_prog. destruct (msg_Kind msg) eqn:Hk; [done|..|done].
  - destruct (msg_OldObj msg) as [e|] eqn:Ho; [|done]. intros [= <-] _. apply tame_delete.
  - destruct (msg_NewObj msg) as [e|] eqn:Ho; [|done]. intros [= <-] _.
    destruct (decide (ev_ClusterKey e = key)) as [Hkey|Hkey]; [|by apply tame_upsert].
    unfold upsert_prog. rewrite bool_decide_eq_true_2 by done. apply tame_return. intros m. by exists O.
Qed.
End settling.

(** ** Sums over the goroutines *)

Lemma sum_list_with_insert {A} (f : A → nat) l i x y :
  l !! i = Some x → (sum_list_with f (<[i := y]> l) + f x = sum_list_with f l + f y)%nat.
Proof.
  revert i. induction l as [|z l IH]; intros [|i] Hi; simplify_eq/=; [lia|]. specialize (IH _ Hi). lia.
Qed.

Lemma sum_list_with_le {A} (f g : A → nat) l :
  (∀ x, x ∈ l → (f x ≤ g x)%nat) → (sum_list_with f l ≤ sum_list_with g l)%nat.
Proof.
  induction l as [|x l IH]; intros Hle; simpl; [lia|].
  apply Nat.add_le_mono; [apply Hle; by left|]. apply IH. intros y Hy. apply Hle. by right.
Qed.

Lemma sum_list_with_lt {A} (f g : A → nat) l x :
  (∀ x, x ∈ l → (f x ≤ g x)%nat) → x ∈ l → (f x < g x)%nat → (sum_list_with f l < sum_list_with g l)%nat.
Proof.
  intros Hle Hx Hlt. induction Hx as [x l|x y l Hx IH]; simpl.
  - pose proof (sum_list_with_le f g l (fun y Hy => Hle y (list_elem_of_further _ _ _ Hy))). lia.
  - pose proof (Hle y (list_elem_of_here _ _)). assert (sum_list_with f l < sum_list_with g l)%nat; [|lia].
    apply IH; [|done]. intros z Hz. apply Hle. by right.
Qed.

Lemma sum_list_with_zero {A} (f : A → nat) l x : sum_list_with f l = O → x ∈ l → f x = O.
Proof. induction 2; simpl in *; [lia|]. apply IHlist_elem_of. lia. Qed.

(** ** The goroutines of a federation *)

Section progress.
Context `{ReliableLaws} `{MapRange} `{MetaLib} `{CondLib} `{KubeLib} `{NetLib} `{Resty}.

Definition succeeded (p : prog) : bool := match p with Return (Ok _) => true | _ => false end.

(** The goroutine imports or withdraws an export. *)
Definition importing (t : task) : bool := negb (bool_decide (msg_Kind (tk_msg t) = ServiceExportRejected)).

Definition pending (t : task) : nat := if importing t && negb (succeeded (tk_prog t)) then 1 else 0.

(** The import that the goroutine merges into does not exist. *)
Definition lacks_import (W : string → kworld) (t : task) : bool :=
  match msg_Kind (tk_msg t), msg_NewObj (tk_msg t) with
  | ServiceExportAccepted, Some e => bool_decide (imports (W (tk_key t)) !! ev_nn e = None)
  | _, _ => false
  end.

Definition to_create (W : string → kworld) (t : task) : nat := if lacks_import W t then pending t else 0.

(** A goroutine makes a step: a call, or it starts over. *)
Inductive moves (i : nat) : federation → federation → Prop :=
| mv_call t R (q : Req R) k a w' W r ts log :
    ts !! i = Some t → tk_prog t = Call q k → serve q (W (tk_key t)) = (a, w') →
    moves i (mkFederation W r ts log)
      (mkFederation (<[tk_key t := w']> W) r (<[i := mkTask (tk_key t) (tk_msg t) (k a)]> ts) log)
| mv_retry t err p W r ts log :
    ts !! i = Some t → tk_prog t = Return (Err err) → goroutine_prog (tk_key t) (tk_msg t) = Some p →
    moves i (mkFederation W r ts log) (mkFederation W r (<[i := mkTask (tk_key t) (tk_msg t) p]> ts) log).

(** A step that starts no goroutine, makes none move and writes no import. *)
Definition background (s s' : federation) : Prop :=
  fd_tasks s' = fd_tasks s ∧ ∀ key, imports (fd_world s' key) = imports (fd_world s key).

Lemma fn_insert_imports (W : string → kworld) key w' k :
  imports w' = imports (W key) → imports (<[key := w']> W k) = imports (W k).
Proof.
  intros Hi. destruct (decide (key = k)) as [->|Hne]; [by rewrite fn_lookup_insert|by rewrite fn_lookup_insert_ne].
Qed.

(** Every step of the federation starts goroutines, makes one move, or is in the background. *)
Lemma fed_step_cases s s' :
  fed_step s s' →
  (∃ msg ks, fd_tasks s' = fd_tasks s ++ spawn msg ks ∧ fd_world s' = fd_world s) ∨
  (∃ i, moves i s s') ∨ background s s'.
Proof.
  intros [key geo mc ev msg W w' r ts log Hc Hw|mc msg W r r' ts log q1 q2 new Hq Hk Hp Hn
    |msg ks W r ts log q1 q2 Hq Hnd Hks|i t R q k x w' W r ts log Hi Hp Hs
    |i t err p W r ts log Hi Hp Hg|key w' W r ts log Himp Hev|env read mc s0 e r' W r ts log HR
    |key bg r' W r ts log Hbg HF|key bg W r ts log Hbg Hcl].
  - right; right. split; [done|]. intros k. apply fn_insert_imports. by apply watcher_spec in Hw as (? & _).
  - right; right. by split.
  - left. by exists msg, ks.
  - right; left. exists i. by eapply mv_call.
  - right; left. exists i. by eapply mv_retry.
  - right; right. split; [done|]. intros k. by apply fn_insert_imports.
  - right; right. by split.
  - right; right. by split.
  - right; right. by split.
Qed.

(** *** The programs of the goroutines are tame *)

Definition tame_task (t : task) : Prop :=
  ∃ p0, goroutine_prog (tk_key t) (tk_msg t) = Some p0 ∧
    if importing t then tame (tk_key t) (tk_msg t) p0 (tk_prog t) else aside (tk_prog t).

Definition tame_tasks (s : federation) : Prop := ∀ t, t ∈ fd_tasks s → tame_task t.

Lemma importing_kind t : importing t = true ↔ msg_Kind (tk_msg t) ≠ ServiceExportRejected.
Proof. unfold importing. rewrite negb_true_iff. apply bool_decide_eq_false. Qed.

Lemma goroutine_starts key msg p :
  goroutine_prog key msg = Some p → tame_task (mkTask key msg p).
Proof.
  intros Hp. exists p. split; [done|]. unfold importing. simpl. case_bool_decide; simpl.
  - by eapply goroutine_aside.
  - by apply goroutine_tame.
Qed.

Lemma tame_spawn msg ks t : t ∈ spawn msg ks → tame_task t.
Proof.
  unfold spawn. intros (k & _ & (p & Hp & ->)%fmap_Some)%list_elem_of_omap. by apply goroutine_starts.
Qed.

Lemma tame_moves i s s' : moves i s s' → tame_tasks s → tame_tasks s'.
Proof.
  intros [t R q k a w' W r ts log Hi Hp Hs|t err p W r ts log Hi Hp Hg] Ht t' [->|Hin]%elem_of_insert_inv;
    try by apply Ht.
  - destruct (Ht t) as (p0 & Hg & Htame); [by eapply list_elem_of_lookup_2|]. exists p0. split; [done|].
    change (importing (mkTask _ _ _)) with (importing t). rewrite Hp in Htame. destruct (importing t).
    + by apply (tame_call _ _ _ _ _ _ _ _ Htame Hs).
    + by apply Htame in Hs as [_ ?].
  - by apply goroutine_starts.
Qed.

Lemma tame_step s s' : fed_step s s' → tame_tasks s → tame_tasks s'.
Proof.
  intros [(msg & ks & Hts & _)|[[i Hm]|[Hts _]]]%fed_step_cases Ht.
  - intros t. rewrite Hts. intros [Hin|Hin]%elem_of_app; [by apply Ht|by eapply tame_spawn].
  - by eapply tame_moves.
  - intros t. rewrite Hts. apply Ht.
Qed.

Lemma tame_reachable W s : rtc fed_step (fed_start W) s → tame_tasks s.
Proof. apply rtc_invariant; [by intros ? ?%elem_of_nil|]. intros. by eapply tame_step. Qed.

(** A goroutine that has not succeeded can move. *)
Lemma pending_moves s i t :
  tame_tasks s → fd_tasks s !! i = Some t → succeeded (tk_prog t) = false → ∃ s', moves i s s'.
Proof.
  intros Ht Hi Hs. destruct (Ht t) as (p0 & Hg & _); [by eapply list_elem_of_lookup_2|].
  destruct s as [W r ts log]. simpl in Hi. destruct (tk_prog t) as [[u|err]|R q k] eqn:Hp; [done| |].
  - eexists. by eapply mv_retry.
  - destruct (serve q (W (tk_key t))) as [a w'] eqn:Hq. eexists. by eapply mv_call.
Qed.

(** *** The measure *)

(** The goroutine needs at most [n] more steps while the imports stay. *)
Definition within (W : string → kworld) (t : task) (n : nat) : Prop :=
  importing t = true →
  ∃ p0, goroutine_prog (tk_key t) (tk_msg t) = Some p0 ∧ settles p0 (imports (W (tk_key t))) n (tk_prog t).

Definition measure : Type := nat * nat * nat.
Definition smaller : measure → measure → Prop := slexprod _ _ (slexprod _ _ lt lt) lt.
Definition no_larger (m' m : measure) : Prop := m' = m ∨ smaller m' m.

Lemma smaller_wf : well_founded smaller.
Proof. apply wf_slexprod; [apply wf_slexprod|]; apply lt_wf. Qed.

Lemma smaller_no_larger m1 m2 m3 : smaller m1 m2 → no_larger m2 m3 → smaller m1 m3.
Proof.
  intros H12 [->|H23]; [done|]. destruct m1 as [[a1 b1] n1], m2 as [[a2 b2] n2], m3 as [[a3 b3] n3].
  inversion H12 as [? ? ? ? Hl|? ? ? Hr]; inversion H23 as [? ? ? ? Hl'|? ? ? Hr']; subst; [left|by left|by left|right; lia].
  inversion Hl as [? ? ? ? Ha|? ? ? Hb]; inversion Hl' as [? ? ? ? Ha'|? ? ? Hb']; subst;
    [left; lia|by left|by left|right; lia].
Qed.

Lemma smaller_pending a' a b' b n' n : (a' < a)%nat → smaller (a', b', n') (a, b, n).
Proof. intros. by left; left. Qed.
Lemma smaller_create a' a b' b n' n : (a' ≤ a)%nat → (b' < b)%nat → smaller (a', b', n') (a, b, n).
Proof. intros Ha Hb. left. destruct (decide (a' = a)) as [->|]; [by right|left; lia]. Qed.
Lemma smaller_steps a' a b' b n' n : (a' ≤ a)%nat → (b' ≤ b)%nat → (n' < n)%nat → smaller (a', b', n') (a, b, n).
Proof.
  intros Ha Hb Hn. destruct (decide (a' = a)) as [->|]; [|by left; left; lia].
  destruct (decide (b' = b)) as [->|]; [by right|left; right; lia].
Qed.

Definition measured (s : federation) (m : measure) : Prop :=
  ∃ ns, Forall2 (within (fd_world s)) (fd_tasks s) ns ∧
    m = (sum_list_with pending (fd_tasks s), sum_list_with (to_create (fd_world s)) (fd_tasks s), sum_list ns).

Lemma tame_within W t : tame_task t → ∃ n, within W t n.
Proof.
  intros (p0 & Hg & Ht). unfold within. destruct (importing t); [|by exists O].
  destruct (tame_settles _ _ _ _ (imports (W (tk_key t))) Ht) as [n Hn]. by exists n; exists p0.
Qed.

Lemma tame_bounds W ts : (∀ t, t ∈ ts → tame_task t) → ∃ ns, Forall2 (within W) ts ns.
Proof.
  induction ts as [|t ts IH]; intros Ht; [by exists []|].
  destruct (tame_within W t) as [n Hn]; [apply Ht; by left|].
  destruct IH as [ns Hns]; [intros; apply Ht; by right|]. exists (n :: ns). by constructor.
Qed.

Lemma measured_tame s : tame_tasks s → ∃ n, measured s
  (sum_list_with pending (fd_tasks s), sum_list_with (to_create (fd_world s)) (fd_tasks s), n).
Proof.
  intros (ns & Hns)%(tame_bounds (fd_world s)). by exists (sum_list ns), ns.
Qed.

(** The measure depends on the imports only. *)
Lemma within_imports W W' t n :
  (∀ key, imports (W' key) = imports (W key)) → within W t n → within W' t n.
Proof. intros Hi Hw Himp. rewrite Hi. by apply Hw. Qed.

Lemma to_create_imports W W' t :
  (∀ key, imports (W' key) = imports (W key)) → to_create W' t = to_create W t.
Proof. intros Hi. unfold to_create, lacks_import. by destruct (msg_NewObj (tk_msg t)); rewrite ?Hi. Qed.

Lemma to_create_sum W W' ts :
  (∀ key, imports (W' key) = imports (W key)) →
  sum_list_with (to_create W') ts = sum_list_with (to_create W) ts.
Proof.
  intros Hi. apply Nat.le_antisymm; apply sum_list_with_le; intros t _; by rewrite (to_create_imports W W').
Qed.

Lemma measured_background s s' m : background s s' → measured s m → measured s' m.
Proof.
  intros [Hts Hi] (ns & Hns & ->). exists ns. rewrite Hts. split.
  - eapply Forall2_impl; [done|]. intros t n. by apply within_imports.
  - by rewrite (to_create_sum _ _ _ Hi).
Qed.

Lemma moves_task i s s' : moves i s s' → ∃ t p', fd_tasks s !! i = Some t ∧ succeeded (tk_prog t) = false ∧
  fd_tasks s' = <[i := mkTask (tk_key t) (tk_msg t) p']> (fd_tasks s).
Proof.
  intros [t R q k a w' W r ts log Hi Hp Hs|t err p W r ts log Hi Hp Hg]; exists t; eexists;
    (split; [done|]); by rewrite Hp.
Qed.

(** A move of a goroutine does not make others pending. *)
Lemma pending_moved i t p' ts :
  ts !! i = Some t → succeeded (tk_prog t) = false →
  (sum_list_with pending (<[i := mkTask (tk_key t) (tk_msg t) p']> ts) ≤ sum_list_with pending ts)%nat ∧
  (importing t = true → succeeded p' = true →
   sum_list_with pending (<[i := mkTask (tk_key t) (tk_msg t) p']> ts) < sum_list_with pending ts)%nat.
Proof.
  intros Hi Hs. pose proof (sum_list_with_insert pending ts i t (mkTask (tk_key t) (tk_msg t) p') Hi) as Hsum.
  assert (Ht : pending t = if importing t then 1%nat else 0%nat)
    by (unfold pending; rewrite Hs; by destruct (importing t)).
  assert (Ht' : pending (mkTask (tk_key t) (tk_msg t) p') = if importing t && negb (succeeded p') then 1%nat else 0%nat)
    by done.
  rewrite Ht, Ht' in Hsum.
  split; [|intros Himp Hp'; rewrite Himp, Hp' in Hsum; simpl in Hsum; lia].
  destruct (importing t), (succeeded p'); simpl in Hsum; lia.
Qed.

Lemma to_create_moved W W' i t p' ts :
  ts !! i = Some t → succeeded (tk_prog t) = false →
  (∀ t, t ∈ ts → (lacks_import W' t → lacks_import W t)) →
  (sum_list_with (to_create W') (<[i := mkTask (tk_key t) (tk_msg t) p']> ts) ≤ sum_list_with (to_create W) ts)%nat ∧
  (lacks_import W' t = false → lacks_import W t = true → importing t = true →
   sum_list_with (to_create W') (<[i := mkTask (tk_key t) (tk_msg t) p']> ts) < sum_list_with (to_create W) ts)%nat.
Proof.
  intros Hi Hs Hlack. set (t' := mkTask (tk_key t) (tk_msg t) p').
  assert (Hle : ∀ x, x ∈ ts → (to_create W' x ≤ to_create W x)%nat).
  { intros x Hx. unfold to_create. specialize (Hlack x Hx). destruct (lacks_import W' x), (lacks_import W x); [lia|by destruct Hlack|lia..]. }
  pose proof (sum_list_with_le _ _ _ Hle) as Hsum_le.
  pose proof (sum_list_with_insert (to_create W') ts i t t' Hi) as Hsum.
  assert (Ht : pending t = if importing t then 1%nat else 0%nat)
    by (unfold pending; rewrite Hs; by destruct (importing t)).
  assert (Ht' : (pending t' ≤ pending t)%nat).
  { rewrite Ht. unfold pending. change (importing t') with (importing t). by destruct (importing t), (succeeded (tk_prog t')); simpl; lia. }
  assert (Hc : to_create W' t' = if lacks_import W' t then pending t' else 0%nat) by done.
  assert (Hc0 : to_create W' t = if lacks_import W' t then pending t else 0%nat) by done.
  split.
  - rewrite Hc, Hc0 in Hsum. destruct (lacks_import W' t); lia.
  - intros Hl' Hl Himp. rewrite Hc, Hc0, Hl' in Hsum.
    assert (Hlt : (sum_list_with (to_create W') ts < sum_list_with (to_create W) ts)%nat).
    { apply (sum_list_with_lt _ _ _ t Hle); [by eapply list_elem_of_lookup_2|].
      unfold to_create. rewrite Hl', Hl, Ht, Himp. lia. }
    lia.
Qed.

(** A goroutine that imports moves, and the imports stay. *)
Lemma measured_stay W W' r' ts ns log' i t n p' :
  Forall2 (within W) ts ns → (∀ key, imports (W' key) = imports (W key)) →
  ts !! i = Some t → succeeded (tk_prog t) = false → ns !! i = Some (S n) →
  within W (mkTask (tk_key t) (tk_msg t) p') n →
  ∃ m', measured (mkFederation W' r' (<[i := mkTask (tk_key t) (tk_msg t) p']> ts) log') m' ∧
    smaller m' (sum_list_with pending ts, sum_list_with (to_create W) ts, sum_list ns).
Proof.
  intros Hns Hi Ht Hs Hn Hw. eexists. split.
  - exists (<[i := n]> ns). split; [|reflexivity]. simpl. apply Forall2_insert.
    + eapply Forall2_impl; [done|]. intros x y. by apply within_imports.
    + by eapply within_imports.
  - simpl. apply smaller_steps.
    + by apply pending_moved.
    + apply to_create_moved; [done..|]. intros x _. unfold lacks_import.
      destruct (msg_Kind (tk_msg x)), (msg_NewObj (tk_msg x)); by rewrite ?Hi.
    + pose proof (sum_list_with_insert id ns i (S n) n Hn) as Hsum. unfold id in *. lia.
Qed.

(** Another goroutine moves. *)
Lemma measured_other W W' r r' ts log log' i t p' m :
  (∀ key, imports (W' key) = imports (W key)) → ts !! i = Some t → importing t = false →
  measured (mkFederation W r ts log) m →
  measured (mkFederation W' r' (<[i := mkTask (tk_key t) (tk_msg t) p']> ts) log') m.
Proof.
  intros Hi Ht Himp (ns & Hns & ->). simpl in *. destruct (Forall2_lookup_l _ _ _ _ _ Hns Ht) as (n & Hn & _).
  set (t' := mkTask (tk_key t) (tk_msg t) p'). assert (Himp' : importing t' = false) by done.
  exists ns. simpl. split.
  - rewrite <-(list_insert_id ns i n Hn). apply Forall2_insert; [|by intros ?; congruence].
    eapply Forall2_impl; [done|]. intros x y. by apply within_imports.
  - rewrite (to_create_sum _ _ _ Hi).
    pose proof (sum_list_with_insert pending ts i t t' Ht) as Hp.
    pose proof (sum_list_with_insert (to_create W) ts i t t' Ht) as Hc.
    assert (Hz : ∀ x, importing x = false → pending x = O ∧ to_create W x = O).
    { intros x Hx. unfold to_create, pending. rewrite Hx. by destruct (lacks_import W x). }
    destruct (Hz t Himp) as [Hz1 Hz2], (Hz t' Himp') as [Hz3 Hz4]. rewrite Hz1, Hz3 in Hp. rewrite Hz2, Hz4 in Hc.
    f_equal. f_equal; lia.
Qed.

Lemma to_import_importing t key e : to_import key (tk_msg t) e → importing t = true.
Proof. intros (Hk & _). apply negb_true_iff, bool_decide_eq_false. congruence. Qed.

(** The calls of a goroutine that imports. *)
Lemma measured_call i t R (q : Req R) k a w' W r ts log m :
  tame_tasks (mkFederation W r ts log) → ts !! i = Some t → importing t = true →
  tk_prog t = Call q k → serve q (W (tk_key t)) = (a, w') → measured (mkFederation W r ts log) m →
  ∃ m', measured (mkFederation (<[tk_key t := w']> W) r (<[i := mkTask (tk_key t) (tk_msg t) (k a)]> ts) log) m' ∧
    smaller m' m.
Proof.
  intros Htame Hi Himp Hp Hs (ns & Hns & ->). simpl in *.
  assert (Hpend : succeeded (tk_prog t) = false) by by rewrite Hp.
  assert (Htame' : tame_tasks (mkFederation (<[tk_key t := w']> W) r (<[i := mkTask (tk_key t) (tk_msg t) (k a)]> ts) log))
    by (eapply tame_moves, Htame; by eapply mv_call).
  destruct (Htame t) as (p0 & Hg & Ht); [by eapply list_elem_of_lookup_2|]. rewrite Himp, Hp in Ht.
  destruct (tame_call _ _ _ _ _ _ _ _ Ht Hs) as [[Hsame|[Hok|(e & imp & Hto & Hnone & Hnew)]] _].
  - destruct (Forall2_lookup_l _ _ _ _ _ Hns Hi) as (n & Hn & Hw).
    destruct (Hw Himp) as (p1 & Hg1 & Hset). rewrite Hp in Hset. destruct n as [|n]; [done|].
    eapply measured_stay; [done|intros; by apply fn_insert_imports|done..|].
    intros _. exists p1. split; [done|]. exact (Hset _ _ _ eq_refl Hs Hsame).
  - destruct (measured_tame _ Htame') as [n Hn]. eexists. split; [exact Hn|]. apply smaller_pending. simpl.
    apply pending_moved; [done..|]. by rewrite Hok.
  - destruct (measured_tame _ Htame') as [n Hn]. eexists. split; [exact Hn|].
    pose proof Hto as (Hkind & Hobj & _). apply smaller_create; simpl; [by apply pending_moved|].
    apply to_create_moved; try done.
    + intros x _. unfold lacks_import. destruct (msg_Kind (tk_msg x)), (msg_NewObj (tk_msg x)) as [e'|]; try done.
      rewrite !bool_decide_spec. destruct (decide (tk_key t = tk_key x)) as [Hkey|Hkey];
        [|by rewrite fn_lookup_insert_ne].
      rewrite <-Hkey, fn_lookup_insert, Hnew. by intros [? _]%lookup_insert_None.
    + unfold lacks_import. rewrite Hkind, Hobj, fn_lookup_insert, Hnew. apply bool_decide_eq_false.
      by rewrite lookup_insert_eq.
    + unfold lacks_import. rewrite Hkind, Hobj. by apply bool_decide_eq_true.
Qed.

Lemma measured_moves i s s' t m :
  tame_tasks s → moves i s s' → fd_tasks s !! i = Some t → measured s m →
  ∃ m', measured s' m' ∧ if importing t then smaller m' m else no_larger m' m.
Proof.
  intros Htame Hm Hi Hmeas. destruct (importing t) eqn:Himp.
  - destruct Hm as [t' R q k a w' W r ts log Hi' Hp Hs|t' err p W r ts log Hi' Hp Hg]; simpl in Hi; simplify_eq.
    + by eapply measured_call.
    + destruct Hmeas as (ns & Hns & ->). simpl in *. destruct (Forall2_lookup_l _ _ _ _ _ Hns Hi') as (n & Hn & Hw).
      destruct (Hw Himp) as (p1 & Hg1 & Hset). rewrite Hp in Hset. destruct n as [|n]; [done|].
      eapply measured_stay; [done..|by rewrite Hp|done|]. intros _. exists p1. split; [done|].
      simpl. simpl in Hset. congruence.
  - exists m. split; [|by left].
    destruct Hm as [t' R q k a w' W r ts log Hi' Hp Hs|t' err p W r ts log Hi' Hp Hg]; simpl in Hi; simplify_eq.
    + eapply measured_other; [|done..]. intros key. apply fn_insert_imports.
      destruct (Htame t') as (p0 & _ & Ht); [by eapply list_elem_of_lookup_2|]. rewrite Himp, Hp in Ht.
      by apply Ht in Hs as [? _].
    + by eapply measured_other.
Qed.

(** ** Runs

    An infinite run of the federation, in which no goroutine starts after the step
    [N], and every goroutine that has not succeeded moves sometime. *)

Lemma no_larger_trans m1 m2 m3 : no_larger m1 m2 → no_larger m2 m3 → no_larger m1 m3.
Proof. intros [->|H12] H23; [done|right]. by eapply smaller_no_larger. Qed.

Lemma no_larger_pending a' b' n' a b n : no_larger (a', b', n') (a, b, n) → (a' ≤ a)%nat.
Proof.
  intros [[= -> _ _]|Hs]; [lia|]. inversion Hs as [? ? ? ? Hl|]; subst; [|lia]. inversion Hl; subst; lia.
Qed.

Definition settled (s : federation) : Prop := sum_list_with pending (fd_tasks s) = O.

Lemma settled_succeeded s t :
  settled s → t ∈ fd_tasks s → msg_Kind (tk_msg t) ≠ ServiceExportRejected → tk_prog t = Return (Ok tt).
Proof.
  intros Hs Ht Hk%importing_kind. pose proof (sum_list_with_zero _ _ _ Hs Ht) as Hz.
  unfold pending in Hz. rewrite Hk in Hz. by destruct (tk_prog t) as [[[]|]|].
Qed.

Lemma unsettled_pending s :
  ¬ settled s → ∃ i t, fd_tasks s !! i = Some t ∧ importing t = true ∧ succeeded (tk_prog t) = false.
Proof.
  unfold settled. induction (fd_tasks s) as [|t ts IH]; simpl; [done|]. intros Hs.
  destruct (decide (pending t = O)) as [Hz|Hz].
  - destruct IH as (i & t' & Hi & Hrest); [lia|]. by exists (S i), t'.
  - exists O, t. unfold pending in Hz. by destruct (importing t), (succeeded (tk_prog t)).
Qed.

Lemma measured_step s s' m :
  tame_tasks s → fed_step s s' → length (fd_tasks s') = length (fd_tasks s) → measured s m →
  ∃ m', measured s' m' ∧ no_larger m' m.
Proof.
  intros Htame [(msg & ks & Hts & HW)|[[i Hm]|Hb]]%fed_step_cases Hlen Hmeas.
  - rewrite Hts, length_app in Hlen. assert (Hnil : spawn msg ks = []) by (apply nil_length_inv; lia).
    exists m. split; [|by left]. apply (measured_background s); [|done].
    split; [by rewrite Hts, Hnil, app_nil_r|by rewrite HW].
  - destruct (moves_task _ _ _ Hm) as (t & p' & Hi & _ & _).
    destruct (measured_moves _ _ _ _ _ Htame Hm Hi Hmeas) as (m' & Hm' & Hle). exists m'. split; [done|].
    destruct (importing t); [by right|done].
  - exists m. split; [by eapply measured_background|by left].
Qed.

Definition fair (run : nat → federation) : Prop :=
  ∀ n i t, fd_tasks (run n) !! i = Some t → importing t = true → succeeded (tk_prog t) = false →
    ∃ n', (n ≤ n')%nat ∧ moves i (run n') (run (S n')).

Section run.
Context (run : nat → federation) (W : string → kworld) (N : nat).
Context (Hstart : rtc fed_step (fed_start W) (run 0%nat)).
Context (Hstep : ∀ n, fed_step (run n) (run (S n))).
Context (Hquiet : ∀ n, (N ≤ n)%nat → length (fd_tasks (run (S n))) = length (fd_tasks (run n))).

Lemma run_reachable n : rtc fed_step (fed_start W) (run n).
Proof. induction n as [|n IH]; [done|]. by eapply rtc_r. Qed.

Lemma run_measured n n' m :
  (N ≤ n)%nat → (n ≤ n')%nat → measured (run n) m → ∃ m', measured (run n') m' ∧ no_larger m' m.
Proof.
  intros HN Hle Hm. induction Hle as [|n' Hle IH]; [by exists m; split; [|left]|].
  destruct IH as (m1 & Hm1 & Hle1).
  destruct (measured_step (run n') (run (S n')) m1) as (m2 & Hm2 & Hle2);
    [eapply tame_reachable, run_reachable|apply Hstep|apply Hquiet; lia|done|].
  exists m2. split; [done|]. by eapply no_larger_trans.
Qed.

Lemma settled_forever n n' : (N ≤ n)%nat → (n ≤ n')%nat → settled (run n) → settled (run n').
Proof.
  intros HN Hle Hs. destruct (measured_tame (run n)) as [k Hk]; [eapply tame_reachable, run_reachable|].
  destruct (run_measured _ _ _ HN Hle Hk) as (m' & (ns & _ & ->) & Hp%no_larger_pending).
  unfold settled in *. lia.
Qed.

(** A goroutine keeps its message, and does not import less. *)
Lemma run_task n n' i t :
  (n ≤ n')%nat → fd_tasks (run n) !! i = Some t →
  ∃ t', fd_tasks (run n') !! i = Some t' ∧ tk_key t' = tk_key t ∧ tk_msg t' = tk_msg t.
Proof.
  intros Hle Hi. induction Hle as [|n' Hle IH]; [by exists t|]. destruct IH as (t' & Hi' & Hk & Hm).
  destruct (fed_step_cases _ _ (Hstep n')) as [(msg & ks & Hts & _)|[[j Hj]|[Hts _]]].
  - exists t'. by rewrite Hts, (lookup_app_l_Some _ _ _ _ Hi').
  - destruct (moves_task _ _ _ Hj) as (tj & p' & Hj' & _ & ->). destruct (decide (j = i)) as [->|Hne].
    + rewrite list_lookup_insert_eq by (by eapply lookup_lt_Some). simplify_eq. by eexists.
    + rewrite list_lookup_insert_ne by done. by exists t'.
  - exists t'. by rewrite Hts.
Qed.

Lemma run_settles m : fair run → ∀ n, (N ≤ n)%nat → measured (run n) m → ∃ n', (n ≤ n')%nat ∧ settled (run n').
Proof.
  intros Hfair. induction (smaller_wf m) as [m _ IH]. intros n HN Hm.
  destruct (decide (sum_list_with pending (fd_tasks (run n)) = O)) as [Hs|(i & t & Hi & Himp & Hsucc)%unsettled_pending].
  { by exists n. }
  destruct (Hfair n i t Hi Himp Hsucc) as (n1 & Hn1 & Hmv).
  destruct (run_measured n n1 m HN Hn1 Hm) as (m1 & Hm1 & Hle1).
  destruct (run_task n n1 i t Hn1 Hi) as (t1 & Ht1 & _ & Hmsg).
  assert (Himp1 : importing t1 = true) by by unfold importing in *; rewrite Hmsg.
  destruct (measured_moves i (run n1) (run (S n1)) t1 m1) as (m2 & Hm2 & Hlt);
    [eapply tame_reachable, run_reachable|done..|]. rewrite Himp1 in Hlt.
  destruct (IH m2) with (n := S n1) as (n2 & Hn2 & Hs); [by eapply smaller_no_larger|lia|done|].
  exists n2. split; [lia|done].
Qed.

Lemma fair_run_settles : fair run → ∃ n, (N ≤ n)%nat ∧ ∀ n', (n ≤ n')%nat → settled (run n').
Proof.
  intros Hfair. destruct (measured_tame (run N)) as [k Hk]; [eapply tame_reachable, run_reachable|].
  destruct (run_settles _ Hfair N (le_n N) Hk) as (n & Hn & Hs). exists n. split; [done|].
  intros n' Hn'. by eapply settled_forever.
Qed.
End run.

(** C4 (liveness).  The goroutines of the connectors do not make one another fail forever.
    When the API servers are available and from some step on no more messages are
    published, a run in which every goroutine gets its turn comes to a point from
    which on every goroutine that imports or withdraws an export has succeeded,
    however the watchers, the reconciler, the rejections, the retries and other
    writers are interleaved with them. *)
Theorem fair_runs_import run W N :
  rtc fed_step (fed_start W) (run 0%nat) → (∀ n, fed_step (run n) (run (S n))) →
  (∀ n, (N ≤ n)%nat → length (fd_tasks (run (S n))) = length (fd_tasks (run n))) → fair run →
  ∃ M, ∀ n t, (M ≤ n)%nat → t ∈ fd_tasks (run n) → msg_Kind (tk_msg t) ≠ ServiceExportRejected →
    tk_prog t = Return (Ok tt).
Proof.
  intros Hr Hstep Hquiet Hfair. destruct (fair_run_settles run W N Hr Hstep Hquiet Hfair) as (M & _ & Hs).
  exists M. intros n t Hn. by apply settled_succeeded, Hs.
Qed.

(** C7 (liveness).  Accepted exports get imported. In a federation that started without imports,
    whose API servers are reliable (they refuse a call only for its documented reason), let a run
    be fair and publish no more messages from some step on. When the accepted exports of a name
    have rules for the same ports and none is withdrawn, there is a point from which on every
    cluster that was told to import one has an import of that name whose every port has an
    endpoint of the exporter. *)
Theorem accepted_exports_get_imported run W N nn ports :
  (∀ key, imports (W key) = ∅) →
  rtc fed_step (fed_start W) (run 0%nat) → (∀ n, fed_step (run n) (run (S n))) →
  (∀ n, (N ≤ n)%nat → length (fd_tasks (run (S n))) = length (fd_tasks (run n))) → fair run →
  (∀ n e, Answered (mkMessage ServiceExportAccepted None (Some e)) ∈ fd_log (run n) → ev_nn e = nn →
     ∀ port, rules_for e port ≠ [] ↔ ports port) →
  (∀ n from e, Watched from (mkMessage ServiceExportDeleted (Some e) None) ∈ fd_log (run n) → ev_nn e ≠ nn) →
  ∃ M, ∀ n t e, (M ≤ n)%nat → t ∈ fd_tasks (run n) → to_import (tk_key t) (tk_msg t) e → ev_nn e = nn →
    ∃ imp, imports (fd_world (run n) (tk_key t)) !! nn = Some imp ∧
      ∀ p, p ∈ si_Ports imp → ev_ClusterKey e ∈ ie_ClusterKey <$> ip_Endpoints p.
Proof.
  intros Hempty Hr Hstep Hquiet Hfair Hports Hkept.
  destruct (fair_run_settles run W N Hr Hstep Hquiet Hfair) as (M & _ & Hs). exists M.
  intros n t e Hn Ht Hto Hnn. eapply (accepted_in_force W (run n)); [done| |apply Hports|apply Hkept|done| |done|done].
  - by apply run_reachable.
  - eapply settled_succeeded; [by apply Hs|done|]. destruct Hto as (Hk & _). congruence.
Qed.

(** *** Rejections *)

(** The goroutine asks for an export that is not there, or has failed. *)
Definition asks_for (nn : NamespacedName) (p : prog) : Prop :=
  match p with
  | Return (Ok _) => False
  | Return (Err _) => True
  | Call q k => ∀ w r w', (exp_Get nn w).1 = Err NotFound → serve q w = (r, w') → ∃ err, k r = Return (Err err)
  end.

Lemma reject_asks key e : ev_ClusterKey e = key → asks_for (ev_nn e) (reject_prog key e).
Proof.
  intros Hk. unfold reject_prog. rewrite bool_decide_eq_true_2 by done. intros w r w' Hgone Hs. cbn [serve] in Hs.
  rewrite Hs in Hgone. simpl in Hgone. subst r. by exists NotFound.
Qed.

(** A rejection of an export that was deleted in the meantime starts over forever:
    unlike the withdrawal, it takes the missing object for a failure. *)
Theorem rejection_of_deleted_export_never_succeeds run i t e :
  (∀ n, fed_step (run n) (run (S n))) →
  fd_tasks (run 0%nat) !! i = Some t → tk_msg t = mkMessage ServiceExportRejected None (Some e) →
  ev_ClusterKey e = tk_key t → tk_prog t = reject_prog (tk_key t) e →
  (∀ n, (exp_Get (ev_nn e) (fd_world (run n) (tk_key t))).1 = Err NotFound) →
  ∀ n, ∃ t', fd_tasks (run n) !! i = Some t' ∧ succeeded (tk_prog t') = false.
Proof.
  intros Hstep Hi Hm Hkey Hp Hgone.
  assert (Hinv : ∀ n, ∃ t', fd_tasks (run n) !! i = Some t' ∧ tk_key t' = tk_key t ∧ tk_msg t' = tk_msg t ∧
    asks_for (ev_nn e) (tk_prog t')).
  { induction n as [|n (t' & Hi' & Hk' & Hm' & Ha)].
    - exists t. split_and!; [done..|]. rewrite Hp. by apply reject_asks.
    - specialize (Hgone n).
      destruct (fed_step_cases _ _ (Hstep n)) as [(msg & ks & Hts & _)|[[j Hj]|[Hts _]]].
      + exists t'. by rewrite Hts, (lookup_app_l_Some _ _ _ _ Hi').
      + destruct (decide (j = i)) as [->|Hne].
        * destruct Hj as [tj R q k a w' W r ts log Hj Hpj Hs|tj err p W r ts log Hj Hpj Hg]; simpl in *; simplify_eq;
            rewrite list_lookup_insert_eq by (by eapply lookup_lt_Some); (eexists; split; [done|]); simpl;
            (split; [done|]); (split; [done|]).
          { rewrite Hpj in Ha. rewrite Hk' in Hs.
            destruct (Ha _ _ _ Hgone Hs) as [err ->]. done. }
          { rewrite Hm', Hm in Hg. injection Hg as <-. rewrite Hk'. by apply reject_asks. }
        * destruct (moves_task _ _ _ Hj) as (tj & p' & _ & _ & ->). exists t'.
          by rewrite list_lookup_insert_ne.
      + exists t'. by rewrite Hts. }
  intros n. destruct (Hinv n) as (t' & Hi' & _ & _ & Ha). exists t'. split; [done|].
  by destruct (tk_prog t') as [[]|].
Qed.
End progress.

(** ** A fair run

    Cluster [c] imports the export of cluster [a] in three calls; then nothing
    happens any more. *)

Lemma perform_call_moves `{ReliableLaws} `{MapRange} `{MetaLib} `{CondLib} `{KubeLib} `{NetLib} `{Resty} i s s' :
  perform (ACall i) s = Some s' → moves i s s'.
Proof.
  destruct s as [W r ts log]. cbn [perform]. intros (t & Hi & Hs)%bind_Some.
  destruct (tk_prog t) as [res|R q k] eqn:Hp; [done|].
  destruct (serve q (W (tk_key t))) as [a w'] eqn:Hq. injection Hs as <-. by eapply mv_call.
Qed.

Definition reliable_laws : @ReliableLaws versioned_api versioned_api_laws versioned_laws.
Proof.
  split; simpl.
  - by intros n w e w' [= <- _].
  - intros i w e w'. by destruct (vimports w !! meta_nn (si_Meta i)); intros [= <- _].
  - intros nn w e w'. by destruct (vimports w !! nn); intros [= <- _].
  - intros i w e w'. destruct (vimports w !! meta_nn (si_Meta i)) as [cur|]; [|done].
    case_decide; [done|]. by intros _ ? [= <-].
  - intros nn w e w'. by destruct (vimports w !! nn).
Qed.

Section run_example.
#[local] Existing Instances versioned_api versioned_api_laws versioned_laws reliable_laws list_range sample_status_lib
  sample_cond_lib sample_lib sample_net_lib sample_resty.

Definition run_setup : list action := [join "a"; join "b"; join "c"] ++ export_from "a".
Definition run_calls (n : nat) : federation := perform_run (run_setup ++ replicate n (ACall 0)).

(** The API server of cluster [c] writes nothing. *)
Definition idle (s : federation) : federation :=
  mkFederation (<["r/z/g/c" := fd_world s "r/z/g/c"]> (fd_world s)) (fd_reconciler s) (fd_tasks s) (fd_log s).

Definition import_forever (n : nat) : federation :=
  match n with
  | O => run_calls 0
  | S O => run_calls 1
  | S (S O) => run_calls 2
  | S (S (S n)) => Nat.iter n idle (run_calls 3)
  end.

Lemma idle_step s : fed_step s (idle s).
Proof. destruct s. by apply fs_other. Qed.

Lemma perform_all_app l l' s :
  perform_all (l ++ l') s = s' ← perform_all l s; perform_all l' s'.
Proof.
  revert s. induction l as [|a l IH]; intros s; simpl; [done|]. destruct (perform a s); simpl; [apply IH|done].
Qed.

Lemma perform_run_last l a :
  performed (l ++ [a]) = true → perform a (perform_run l) = Some (perform_run (l ++ [a])).
Proof.
  unfold performed, perform_run. rewrite perform_all_app.
  destruct (perform_all l (fed_start run_world)) as [s|]; simpl; [|done]. by destruct (perform a s).
Qed.

Lemma run_calls_move n : (n < 3)%nat → moves 0 (run_calls n) (run_calls (S n)).
Proof.
  intros Hn. apply perform_call_moves. unfold run_calls. rewrite <-(Nat.add_1_r n), replicate_add, app_assoc.
  apply perform_run_last. destruct n as [|[|[|]]]; [vm_compute; reflexivity..|lia].
Qed.

Lemma moves_step i s s' : moves i s s' → fed_step s s'.
Proof. intros []; [by eapply fs_call|by eapply fs_retry]. Qed.

Lemma import_forever_step n : fed_step (import_forever n) (import_forever (S n)).
Proof.
  destruct n as [|[|[|n]]]; [by apply (moves_step 0), run_calls_move; lia..|]. apply idle_step.
Qed.

Lemma import_forever_tasks n : (3 ≤ n)%nat → fd_tasks (import_forever n) = fd_tasks (run_calls 3).
Proof.
  destruct n as [|[|[|n]]]; [lia..|]. intros _. simpl. induction n as [|n IH]; [done|]. simpl. exact IH.
Qed.

Lemma import_forever_log n : (3 ≤ n)%nat → fd_log (import_forever n) = fd_log (run_calls 3).
Proof.
  destruct n as [|[|[|n]]]; [lia..|]. intros _. simpl. induction n as [|n IH]; [done|]. simpl. exact IH.
Qed.

Lemma run_calls_length n : (n ≤ 3)%nat → length (fd_tasks (run_calls n)) = 1%nat.
Proof. intros Hn. destruct n as [|[|[|[|]]]]; [vm_compute; reflexivity..|lia]. Qed.

Lemma import_forever_length n : length (fd_tasks (import_forever n)) = 1%nat.
Proof.
  destruct (decide (3 ≤ n)%nat) as [Hn|Hn]; [rewrite import_forever_tasks by done; by apply run_calls_length|].
  destruct n as [|[|[|]]]; [by apply run_calls_length; lia..|lia].
Qed.

Lemma run_calls_succeed t : t ∈ fd_tasks (run_calls 3) → succeeded (tk_prog t) = true.
Proof.
  assert (Hall : forallb (fun t => succeeded (tk_prog t)) (fd_tasks (run_calls 3)) = true) by (vm_compute; reflexivity).
  intros Ht. by apply (proj1 (forallb_forall _ _) Hall), list_elem_of_In.
Qed.

Lemma import_forever_fair : fair import_forever.
Proof.
  intros n i t Hi _ Hs. destruct (decide (3 ≤ n)%nat) as [Hn|Hn].
  { rewrite import_forever_tasks in Hi by done. by rewrite run_calls_succeed in Hs by (by eapply list_elem_of_lookup_2). }
  exists n. split; [done|]. pose proof (lookup_lt_Some _ _ _ Hi) as Hlt. rewrite import_forever_length in Hlt.
  assert (i = 0%nat) as -> by lia. destruct n as [|[|[|]]]; [by apply run_calls_move; lia..|lia].
Qed.

Lemma import_forever_reachable : rtc fed_step (fed_start run_world) (import_forever 0).
Proof. apply perform_run_reachable. vm_compute. reflexivity. Qed.

Lemma fair_runs_import_witness :
  ∃ M, ∀ n t, (M ≤ n)%nat → t ∈ fd_tasks (import_forever n) → msg_Kind (tk_msg t) ≠ ServiceExportRejected →
    tk_prog t = Return (Ok tt).
Proof.
  apply (fair_runs_import import_forever run_world 0 import_forever_reachable import_forever_step);
    [|exact import_forever_fair].
  intros n _. rewrite !import_forever_length. reflexivity.
Defined.

Lemma import_forever_logged n :
  fd_log (import_forever n) = [Watched "r/z/g/a" (created_msg "a"); Answered (accepted_msg "a")].
Proof.
  destruct (decide (3 ≤ n)%nat) as [Hn|Hn]; [rewrite import_forever_log by done; vm_compute; reflexivity|].
  destruct n as [|[|[|]]]; [vm_compute; reflexivity..|lia].
Qed.

Lemma accepted_exports_get_imported_witness :
  ∃ M, ∀ n t e, (M ≤ n)%nat → t ∈ fd_tasks (import_forever n) → to_import (tk_key t) (tk_msg t) e →
    ev_nn e = mkNN "ns" "web" →
    ∃ imp, imports (fd_world (import_forever n) (tk_key t)) !! mkNN "ns" "web" = Some imp ∧
      ∀ p, p ∈ si_Ports imp → ev_ClusterKey e ∈ ie_ClusterKey <$> ip_Endpoints p.
Proof.
  apply (accepted_exports_get_imported import_forever run_world 0 (mkNN "ns" "web") (fun port => port = 80%Z)
    run_world_empty import_forever_reachable import_forever_step).
  - intros n _. rewrite !import_forever_length. reflexivity.
  - exact import_forever_fair.
  - intros n e. rewrite import_forever_logged. intros [[=]|[[= ->]| []%elem_of_nil]%elem_of_cons]%elem_of_cons _ port.
    fold (run_event "a"). rewrite run_event_rules. destruct (Z.eqb_spec 80 port); split; congruence.
  - intros n from e. rewrite import_forever_logged.
    by intros [[=]|[[=]| []%elem_of_nil]%elem_of_cons]%elem_of_cons.
Defined.
End run_example.
