(* ===== verification/ServiceLB.v ===== *)
(** * The load balancer controllers ([controllers/servicelb], [pkg/util/ctrl.go],
    [pkg/util/image.go], [pkg/util/slice.go])

    For every Service of type LoadBalancer a DaemonSet forwards the ports of the
    service on the nodes, and the addresses of the nodes that run its pods become
    the addresses of the service.  What the reconcilers read is a parameter; what
    they write is logged with the server's answers ([Effects]). *)

From stdpp Require Import sorting.
From Stdlib Require Import Ascii.
From S2P Require Import Prelude GoLib Effects Kube CacheTypes Config CtrlUtil.

(** ** Utilities *)

(** [util.StringsEqual] *)
Fixpoint strings_equal_from (ls rs : list string) : bool :=
  match ls, rs with
  | l :: ls, r :: rs => if bool_decide (l ≠ r) then false else strings_equal_from ls rs
  | _, _ => true
  end.
Definition StringsEqual (ls rs : list string) : bool :=
  if bool_decide (length ls ≠ length rs) then false else strings_equal_from ls rs.

(** [s[:n]] of a string *)
Definition str_take (n : nat) (s : string) : go string :=
  if bool_decide (n ≤ String.length s)%nat then Ret (String.substring 0 n s) else Panic.

(** github.com/docker/distribution/reference *)
Record NamedRef : Type := mkNamedRef {
  nr_Name : string;
  nr_Tag : option string;
  nr_Digest : option string
}.
Class DockerLib : Type := { ParseNormalizedNamed : string → result string NamedRef }.

(** Repository, tag and digest of an image name. *)
Definition ParseImageName `{DockerLib} (image : string) : result string (string * string * string) :=
  match ParseNormalizedNamed image with
  | Err e => Err ("couldn't parse image name: " +:+ e)
  | Ok named =>
    let tag := default "" (nr_Tag named) in
    let digest := default "" (nr_Digest named) in
    let tag := if bool_decide (tag = "") && bool_decide (digest = "") then "latest" else tag in
    Ok (nr_Name named, tag, digest)
  end.

Definition PullAlways : string := "Always".
Definition PullIfNotPresent : string := "IfNotPresent".

Definition ImagePullPolicyByTag `{DockerLib} (image : string) : string :=
  let tag := match ParseImageName image with Ok (_, tag, _) => tag | Err _ => "" end in
  if bool_decide (tag = "latest") || bool_decide (tag = "dev") || bool_decide (tag = "edge") then PullAlways
  else if HasSuffix tag "dev" || HasSuffix tag "edge" then PullAlways
  else PullIfNotPresent.

(** ** Data *)

Definition finalizerName : string := "servicelb.flomesh.io/daemonset".
Definition svcNameLabel : string := "servicelb.flomesh.io/svcname".
Definition svcNamespaceLabel : string := "servicelb.flomesh.io/svcnamespace".
Definition daemonsetNodeLabel : string := "servicelb.flomesh.io/enablelb".
Definition daemonsetNodePoolLabel : string := "servicelb.flomesh.io/lbpool".
Definition nodeSelectorLabel : string := "servicelb.flomesh.io/nodeselector".

Record Container : Type := mkContainer {
  ct_Name : string;
  ct_Image : string;
  ct_ImagePullPolicy : string;
  ct_PortName : string;
  ct_ContainerPort : Z;
  ct_HostPort : Z;
  ct_Protocol : string;
  ct_Env : list (string * string);
  ct_CapabilitiesAdd : list string
}.
#[export] Instance Container_eq_dec : EqDecision Container.
Proof. solve_decision. Defined.

Record Toleration : Type := mkToleration {
  tol_Key : string;
  tol_Operator : string;
  tol_Effect : string
}.
#[export] Instance Toleration_eq_dec : EqDecision Toleration.
Proof. solve_decision. Defined.

Record DaemonSet : Type := mkDaemonSet {
  ds_Kind : string;
  ds_APIVersion : string;
  ds_Meta : ObjectMeta;
  ds_MatchLabels : gomap string string;
  ds_TemplateLabels : gomap string string;
  ds_AutomountServiceAccountToken : option bool;
  ds_UpdateStrategy : string;
  ds_MaxUnavailable : option IntOrString;
  ds_Containers : list Container;
  ds_Tolerations : list Toleration;
  ds_NodeSelector : gomap string string
}.
#[export] Instance DaemonSet_eq_dec : EqDecision DaemonSet.
Proof. solve_decision. Defined.

Record PodCondition : Type := mkPodCondition {
  pc_Type : string;
  pc_Status : string
}.

Record Pod : Type := mkPod {
  pod_NodeName : string;
  pod_PodIP : string;
  pod_Conditions : list PodCondition
}.

Record NodeAddress : Type := mkNodeAddress {
  na_Type : string;
  na_Address : string
}.

Record Node : Type := mkNode {
  node_Meta : ObjectMeta;
  node_Addresses : list NodeAddress
}.

Definition PodReady : string := "Ready".
Definition NodeExternalIP : string := "ExternalIP".
Definition NodeInternalIP : string := "InternalIP".
Definition IPFamilyPolicySingleStack : string := "SingleStack".

(** ** The environment *)

(** Writes, with the objects the server answers. *)
Inductive lb_write : Type :=
| DeleteDaemonSet (nn : NamespacedName)
| CreateDaemonSet (ds : DaemonSet)
| PatchDaemonSet (ds : DaemonSet)
| UpdateDaemonSet (ds : DaemonSet)
| UpdateService (svc : Service)
| UpdateServiceStatus (svc : Service).

Record lb_env : Type := mkLbEnv {
  (** nodes with the label enablelb=false *)
  le_nodesWithLabel : result kerror (list Node);
  le_DaemonSet : NamespacedName → result kerror DaemonSet;
  (** pods of the namespace with the labels of the service *)
  le_Pods : Service → result kerror (list Pod);
  le_Node : string → result kerror Node;
  le_SetControllerReference : ObjectMeta → ObjectMeta → result kerror ObjectMeta;
  (** client.Merge.Data *)
  le_MergeData : DaemonSet → option kerror;
  (** the answer to a write; for an update of a service, the object stored *)
  le_outcome : lb_write → option kerror;
  le_stored : Service → Service
}.

Section servicelb.
Context `{KubeLib} `{DockerLib} `{MapRange}.
Context (env : lb_env).

Abbreviation lb := (eff lb_write kerror).

Definition do (w : lb_write) : lb unit :=
  write (fun w => match le_outcome env w with None => Ok tt | Some e => Err e end) w.

(** [util.CreateOrUpdate] for DaemonSets. *)
Definition CreateOrUpdateDaemonSet : DaemonSet → lb OperationResult :=
  CreateOrUpdate (fun ds => le_DaemonSet env (meta_nn (ds_Meta ds))) (le_MergeData env)
    (fun ds => do (CreateDaemonSet ds)) (fun ds => do (PatchDaemonSet ds)).

(** ** Finalizers *)

Definition hasFinalizer (svc : Service) : bool :=
  existsb (fun f => bool_decide (f = finalizerName)) (Finalizers (svc_Meta svc)).

Definition with_finalizers (svc : Service) (fs : list string) : Service :=
  let m := svc_Meta svc in
  mkService (mkMeta (Namespace m) (Name m) (UID m) (ResourceVersion m) (Generation m) (DeletionTimestamp m)
               (Labels m) (Annotations m) fs (ControllerUID m))
    (svc_Type svc) (svc_Ports svc) (svc_ClusterIP svc) (svc_ClusterIPs svc) (svc_ExternalName svc)
    (svc_IPFamilyPolicy svc) (svc_IPFamilies svc) (svc_LBIngress svc).

(** The service that the server stored. *)
Definition updateServiceObject (svc : Service) : lb Service :=
  _ ← do (UpdateService svc); mret (le_stored env svc).

Definition addFinalizer (svc : Service) : lb Service :=
  if negb (hasFinalizer svc)
  then updateServiceObject (with_finalizers svc (Finalizers (svc_Meta svc) ++ [finalizerName]))
  else mret svc.

(** The slice of finalizers while it is cut in the loop that ranges over it: the
    loop reads the backing array, whose length does not change, and the variable
    holds its first [sl_len] elements. *)
Record cut_slice : Type := mkCut {
  sl_array : list string;
  sl_len : nat
}.

(** [s = append(s[:k], s[k+1:]...)], in place. *)
Definition cut_at (k : nat) (s : cut_slice) : go cut_slice :=
  if bool_decide (k + 1 ≤ sl_len s)%nat then
    Ret (mkCut (take k (sl_array s) ++ drop (k + 1) (take (sl_len s) (sl_array s)) ++
                drop (sl_len s - 1) (sl_array s)) (sl_len s - 1))
  else Panic.

(** The loop from index [k] with [n] elements to go. *)
Fixpoint cut_finalizers (n k : nat) (s : cut_slice) : go cut_slice :=
  match n with
  | 0 => Ret s
  | S n =>
    match sl_array s !! k with
    | Some v => if bool_decide (v ≠ finalizerName) then cut_finalizers n (k + 1) s
                else s ← cut_at k s; cut_finalizers n (k + 1) s
    | None => Panic
    end
  end.

Definition remove_finalizers (fs : list string) : go (list string) :=
  s ← cut_finalizers (length fs) 0 (mkCut fs (length fs));
  Ret (take (sl_len s) (sl_array s)).

Definition removeFinalizer (svc : Service) : lb unit :=
  if negb (hasFinalizer svc) then mret tt
  else
    fs ← from_go (remove_finalizers (Finalizers (svc_Meta svc)));
    _ ← updateServiceObject (with_finalizers svc fs);
    mret tt.

(** ** The DaemonSet *)

Definition generateName (svc : Service) : go string :=
  uid ← str_take 8 (UID (svc_Meta svc));
  Ret ("svclb-" +:+ Name (svc_Meta svc) +:+ "-" +:+ uid).

Definition port_name (port : CoreServicePort) : string :=
  "lb-" +:+ ToLower (sp_Protocol port) +:+ "-" +:+ Itoa (sp_Port port).

Definition lb_container (mc : MeshConfig) (svc : Service) (port : CoreServicePort) : Container :=
  mkContainer (port_name port) (ServiceLbImage mc) (ImagePullPolicyByTag (ServiceLbImage mc))
    (port_name port) (sp_Port port) (sp_Port port) (sp_Protocol port)
    [("SRC_PORT", Itoa (sp_Port port)); ("DEST_PROTO", sp_Protocol port);
     ("DEST_PORT", Itoa (sp_Port port)); ("DEST_IPS", Join (svc_ClusterIPs svc) " ")]
    ["NET_ADMIN"].

Definition lb_tolerations : list Toleration :=
  [mkToleration "node-role.kubernetes.io/master" "Exists" "NoSchedule";
   mkToleration "node-role.kubernetes.io/control-plane" "Exists" "NoSchedule";
   mkToleration "CriticalAddonsOnly" "Exists" ""].

Definition svc_labels (svc : Service) : gmap string string :=
  <[svcNameLabel := Name (svc_Meta svc)]> {[ svcNamespaceLabel := Namespace (svc_Meta svc) ]}.

(** The template, before the nodes are looked at. *)
Definition daemonSet_template (name : string) (mc : MeshConfig) (svc : Service) : DaemonSet :=
  let m := named (Namespace (svc_Meta svc)) name in
  mkDaemonSet "DaemonSet" "apps/v1"
    (mkMeta (Namespace m) (Name m) (UID m) (ResourceVersion m) (Generation m) (DeletionTimestamp m)
       (Some (<[nodeSelectorLabel := "false"]> (svc_labels svc))) (Annotations m) (Finalizers m)
       (ControllerUID m))
    (Some {[ "app" := name ]}) (Some (<["app" := name]> (svc_labels svc))) (Some false) "RollingUpdate"
    (Some (IntVal 1))
    (lb_container mc svc <$> svc_Ports svc) lb_tolerations None.

(** [ds.Labels[nodeSelectorLabel] = "true"] and the node selector; writing to a
    nil map panics. *)
Definition select_nodes (ds : DaemonSet) (selector : gmap string string) : go DaemonSet :=
  let m := ds_Meta ds in
  labels ← deref (Labels m);
  Ret (mkDaemonSet (ds_Kind ds) (ds_APIVersion ds)
    (mkMeta (Namespace m) (Name m) (UID m) (ResourceVersion m) (Generation m) (DeletionTimestamp m)
       (Some (<[nodeSelectorLabel := "true"]> labels)) (Annotations m) (Finalizers m) (ControllerUID m))
    (ds_MatchLabels ds) (ds_TemplateLabels ds) (ds_AutomountServiceAccountToken ds)
    (ds_UpdateStrategy ds) (ds_MaxUnavailable ds)
    (ds_Containers ds) (ds_Tolerations ds) (Some selector)).

Definition newDaemonSet (svc : Service) (mc : MeshConfig) : lb DaemonSet :=
  name ← from_go (generateName svc);
  let ds := daemonSet_template name mc svc in
  nodes ← from_result (le_nodesWithLabel env);
  match nodes with
  | [] => mret ds
  | _ :: _ =>
    let selector : gmap string string := {[ daemonsetNodeLabel := "true" ]} in
    let pool := smap_get (Labels (svc_Meta svc)) daemonsetNodePoolLabel in
    let selector := if bool_decide (pool ≠ "") then <[daemonsetNodePoolLabel := pool]> selector else selector in
    from_go (select_nodes ds selector)
  end.

Definition deleteDaemonSet (svc : Service) : lb unit :=
  name ← from_go (generateName svc);
  write (fun w => match le_outcome env w with
                  | None | Some NotFound => Ok tt
                  | Some e => Err e
                  end) (DeleteDaemonSet (mkNN (Namespace (svc_Meta svc)) name)).

Definition deployDaemonSet (svc : Service) (mc : MeshConfig) : lb unit :=
  if negb (mc_ServiceLB_Enabled mc) || bool_decide (is_Some (DeletionTimestamp (svc_Meta svc))) ||
     bool_decide (svc_Type svc ≠ ServiceTypeLoadBalancer) || bool_decide (svc_ClusterIP svc = "") ||
     bool_decide (svc_ClusterIP svc = "None")
  then deleteDaemonSet svc
  else
    ds ← newDaemonSet svc mc;
    meta ← from_result (le_SetControllerReference env (svc_Meta svc) (ds_Meta ds));
    let ds := mkDaemonSet (ds_Kind ds) (ds_APIVersion ds) meta (ds_MatchLabels ds) (ds_TemplateLabels ds)
                (ds_AutomountServiceAccountToken ds)
    (ds_UpdateStrategy ds) (ds_MaxUnavailable ds) (ds_Containers ds)
                (ds_Tolerations ds) (ds_NodeSelector ds) in
    _ ← CreateOrUpdateDaemonSet ds;
    mret tt.

(** ** The addresses of the service *)

Fixpoint isPodStatusConditionPresentAndEqual (conditions : list PodCondition) (conditionType status : string) :
    bool :=
  match conditions with
  | [] => false
  | c :: conditions =>
    if bool_decide (pc_Type c = conditionType) then bool_decide (pc_Status c = status)
    else isPodStatusConditionPresentAndEqual conditions conditionType status
  end.

Definition isPodStatusConditionTrue (conditions : list PodCondition) (conditionType : string) : bool :=
  isPodStatusConditionPresentAndEqual conditions conditionType "True".

Definition serviceIPs (svc : Service) : list string :=
  List.filter (fun ip => negb (bool_decide (ip = ""))) (svc_LBIngress svc).

(** External and internal addresses, as maps to true. *)
Record node_ips : Type := mkNodeIPs {
  ips_ext : gmap string bool;
  ips_int : gmap string bool
}.

Definition add_node_address (m : node_ips) (addr : NodeAddress) : node_ips :=
  if bool_decide (na_Type addr = NodeExternalIP)
  then mkNodeIPs (<[na_Address addr := true]> (ips_ext m)) (ips_int m)
  else if bool_decide (na_Type addr = NodeInternalIP)
  then mkNodeIPs (ips_ext m) (<[na_Address addr := true]> (ips_int m))
  else m.

Fixpoint pods_node_ips (pods : list Pod) (m : node_ips) : result kerror node_ips :=
  match pods with
  | [] => Ok m
  | pod :: pods =>
    if bool_decide (pod_NodeName pod = "") || bool_decide (pod_PodIP pod = "") then pods_node_ips pods m
    else if negb (isPodStatusConditionTrue (pod_Conditions pod) PodReady) then pods_node_ips pods m
    else
      match le_Node env (pod_NodeName pod) with
      | Err NotFound => pods_node_ips pods m
      | Err e => Err e
      | Ok node => pods_node_ips pods (foldl add_node_address m (node_Addresses node))
      end
  end.

Definition filterByIPFamily (ips : list string) (svc : Service) : lb (list string) :=
  let ipv4Addresses := List.filter IsIPv4String ips in
  let ipFamilyPolicy := default "" (svc_IPFamilyPolicy svc) in
  if bool_decide (ipFamilyPolicy = IPFamilyPolicySingleStack) then
    fam ← from_go (deref (head (svc_IPFamilies svc)));
    if bool_decide (fam = IPv4Protocol) then mret ipv4Addresses
    else fail (OtherError "unhandled ipFamilyPolicy")
  else fail (OtherError "unhandled ipFamilyPolicy").

Definition podIPs (pods : list Pod) (svc : Service) : lb (list string) :=
  m ← from_result (pods_node_ips pods (mkNodeIPs ∅ ∅));
  let ips := if bool_decide (ips_ext m ≠ ∅) then (go_range (ips_ext m)).*1 else (go_range (ips_int m)).*1 in
  filterByIPFamily ips svc.

Definition with_lb_ingress (svc : Service) (ips : list string) : Service :=
  mkService (svc_Meta svc) (svc_Type svc) (svc_Ports svc) (svc_ClusterIP svc) (svc_ClusterIPs svc)
    (svc_ExternalName svc) (svc_IPFamilyPolicy svc) (svc_IPFamilies svc) ips.

Definition updateService (svc : Service) (mc : MeshConfig) : lb unit :=
  if negb (mc_ServiceLB_Enabled mc) || bool_decide (is_Some (DeletionTimestamp (svc_Meta svc))) ||
     bool_decide (svc_Type svc ≠ ServiceTypeLoadBalancer)
  then removeFinalizer svc
  else
    pods ← from_result (le_Pods env svc);
    expectedIPs ← podIPs pods svc;
    let expectedIPs := sort_Strings expectedIPs in
    let existingIPs := sort_Strings (serviceIPs svc) in
    if StringsEqual expectedIPs existingIPs then mret tt
    else
      svc ← addFinalizer svc;
      do (UpdateServiceStatus (with_lb_ingress svc expectedIPs)).

Definition ServiceReconciler_Reconcile (read : result kerror Service) (mc : MeshConfig) : lb unit :=
  match read with
  | Err NotFound => mret tt
  | Err e => fail e
  | Ok svc => _ ← deployDaemonSet svc mc; updateService svc mc
  end.

(** ** Nodes ([node_controller.go]) *)

Fixpoint update_each (dss : list DaemonSet) : lb unit :=
  match dss with
  | [] => mret tt
  | ds :: dss =>
    ds ← from_go (select_nodes ds {[ daemonsetNodeLabel := "true" ]});
    _ ← do (UpdateDaemonSet ds);
    update_each dss
  end.

(** [dss] are the DaemonSets with the label nodeselector=false. *)
Definition updateDaemonSets (dss : result kerror (list DaemonSet)) : lb unit :=
  dss ← from_result dss; update_each dss.

Definition NodeReconciler_Reconcile (read : result kerror Node) (dss : result kerror (list DaemonSet)) :
    lb unit :=
  match read with
  | Err NotFound => mret tt
  | Err e => fail e
  | Ok node =>
    match gm_val (Labels (node_Meta node)) !! daemonsetNodeLabel with
    | None => mret tt
    | Some _ => updateDaemonSets dss
    end
  end.
End servicelb.

(** ** Helper lemmas *)

#[local] Open Scope nat_scope.

Lemma StringsEqual_spec ls rs : StringsEqual ls rs = true ↔ ls = rs.
Proof.
  unfold StringsEqual. case_bool_decide as Hlen; [split; [done|intros ->; done]|].
  revert rs Hlen.
  induction ls as [|l ls IH]; intros [|r rs] Hlen; simpl in *; try done.
  injection Hlen as Hlen. case_bool_decide; [split; [done|congruence]|].
  rewrite (IH rs Hlen). split; [intros ->; by f_equal|by intros [= _ ->]].
Qed.

(** ** Finalizers: the loop over the slice it cuts *)

Lemma cut_finalizers_none n k s :
  k + n = length (sl_array s) → finalizerName ∉ drop k (sl_array s) → cut_finalizers n k s = Ret s.
Proof.
  revert k. induction n as [|n IH]; intros k Hlen Hni; [done|]. simpl.
  destruct (sl_array s !! k) as [v|] eqn:Hk.
  - rewrite (drop_S _ _ _ Hk) in Hni. rewrite bool_decide_true by (intros ->; set_solver).
    apply IH; [lia|]. rewrite Nat.add_1_r. set_solver.
  - apply lookup_ge_None in Hk. lia.
Qed.

Lemma cut_finalizers_skip n k s :
  finalizerName ∉ take n (drop k (sl_array s)) →
  k + n ≤ length (sl_array s) → ∀ n', cut_finalizers (n + n') k s = cut_finalizers n' (k + n) s.
Proof.
  revert k. induction n as [|n IH]; intros k Hni Hlen n'; simpl; [by rewrite Nat.add_0_r|].
  destruct (sl_array s !! k) as [v|] eqn:Hk; [|apply lookup_ge_None in Hk; lia].
  rewrite (drop_S _ _ _ Hk) in Hni. simpl in Hni.
  rewrite bool_decide_true by (intros ->; set_solver). rewrite IH; [f_equal; lia| |lia].
  rewrite Nat.add_1_r. set_solver.
Qed.

(** One occurrence is removed and the order of the others is kept. *)
Lemma remove_finalizers_once l1 l2 :
  finalizerName ∉ l1 → finalizerName ∉ l2 → remove_finalizers (l1 ++ finalizerName :: l2) = Ret (l1 ++ l2).
Proof.
  intros H1 H2. unfold remove_finalizers. rewrite length_app. simpl.
  rewrite (cut_finalizers_skip (length l1)); simpl.
  2: { by rewrite drop_0, take_app_length. }
  2: { rewrite length_app. simpl. lia. }
  rewrite lookup_app_r, Nat.sub_diag by lia. simpl.
  unfold cut_at. simpl. rewrite bool_decide_true by lia. simpl.
  replace (length l1 + S (length l2) - 1) with (length l1 + length l2) by lia.
  assert (Harr : take (length l1) (l1 ++ finalizerName :: l2) ++
    drop (length l1 + 1) (take (length l1 + S (length l2)) (l1 ++ finalizerName :: l2)) ++
    drop (length l1 + length l2) (l1 ++ finalizerName :: l2) =
    l1 ++ l2 ++ drop (length l2) (finalizerName :: l2)).
  { rewrite take_app_length, (take_ge (l1 ++ _)) by (rewrite length_app; simpl; lia).
    by rewrite !drop_app_add'. }
  rewrite Harr. rewrite cut_finalizers_none; simpl.
  - by rewrite app_assoc, take_app_length' by (rewrite length_app; lia).
  - rewrite !length_app, length_drop. simpl. lia.
  - rewrite drop_app_add. simpl.
    destruct l2 as [|x l2]; [set_solver|]. simpl. rewrite drop_0, elem_of_app.
    intros [Hin|Hin%elem_of_drop_in]; set_solver.
Qed.

(** Adjacent occurrences: the second one is skipped, or the loop runs past the
    end of the shortened slice. *)
Example remove_finalizers_twice :
  remove_finalizers [finalizerName; finalizerName; "x"] = Ret [finalizerName; "x"] ∧
  remove_finalizers [finalizerName; finalizerName] = Panic.
Proof. split; reflexivity. Qed.

(** ** The addresses of the nodes *)

Section addresses.
Context (env : lb_env).

(** A ready pod with an address runs on the node. *)
Definition ready_on (pods : list Pod) (name : string) : Prop :=
  ∃ pod, pod ∈ pods ∧ pod_NodeName pod = name ∧ name ≠ "" ∧ pod_PodIP pod ≠ "" ∧
    isPodStatusConditionTrue (pod_Conditions pod) PodReady = true.

(** A node with such a pod has the address, of the given type. *)
Definition node_has (pods : list Pod) (ty ip : string) : Prop :=
  ∃ name node, ready_on pods name ∧ le_Node env name = Ok node ∧ mkNodeAddress ty ip ∈ node_Addresses node.

Lemma add_node_addresses addrs m ip :
  let m' := foldl add_node_address m addrs in
  (is_Some (ips_ext m' !! ip) ↔ is_Some (ips_ext m !! ip) ∨ mkNodeAddress NodeExternalIP ip ∈ addrs) ∧
  (is_Some (ips_int m' !! ip) ↔ is_Some (ips_int m !! ip) ∨ mkNodeAddress NodeInternalIP ip ∈ addrs).
Proof.
  cbv zeta. revert m. induction addrs as [|[ty a] addrs IH]; intros m; simpl; [set_solver|].
  destruct (IH (add_node_address m (mkNodeAddress ty a))) as [-> ->].
  assert (Heq : ∀ t, mkNodeAddress t ip = mkNodeAddress ty a ↔ t = ty ∧ ip = a) by naive_solver.
  assert (Hty : NodeExternalIP ≠ NodeInternalIP) by done.
  unfold add_node_address. simpl. rewrite !elem_of_cons, !Heq.
  case_bool_decide as H1; [subst|case_bool_decide as H2; [subst|]];
    simpl; rewrite ?lookup_insert_is_Some'; intuition congruence.
Qed.

Lemma ready_on_cons pod pods name :
  ready_on (pod :: pods) name ↔ ready_on [pod] name ∨ ready_on pods name.
Proof. unfold ready_on. setoid_rewrite elem_of_cons. setoid_rewrite elem_of_nil. naive_solver. Qed.

Lemma node_has_cons pod pods ty ip :
  node_has (pod :: pods) ty ip ↔ node_has [pod] ty ip ∨ node_has pods ty ip.
Proof. unfold node_has. setoid_rewrite ready_on_cons at 1. naive_solver. Qed.

Lemma not_ready_nothing pod ty ip : (∀ name, ¬ ready_on [pod] name) → ¬ node_has [pod] ty ip.
Proof. unfold node_has. naive_solver. Qed.

Lemma ready_single pod name :
  ready_on [pod] name ↔ name = pod_NodeName pod ∧ pod_NodeName pod ≠ "" ∧ pod_PodIP pod ≠ "" ∧
    isPodStatusConditionTrue (pod_Conditions pod) PodReady = true.
Proof. unfold ready_on. setoid_rewrite list_elem_of_singleton. naive_solver. Qed.

Lemma pods_node_ips_spec pods m m' ip :
  pods_node_ips env pods m = Ok m' →
  (is_Some (ips_ext m' !! ip) ↔ is_Some (ips_ext m !! ip) ∨ node_has pods NodeExternalIP ip) ∧
  (is_Some (ips_int m' !! ip) ↔ is_Some (ips_int m !! ip) ∨ node_has pods NodeInternalIP ip).
Proof.
  revert m. induction pods as [|pod pods IH]; intros m; simpl.
  - intros [= <-].
    assert (Hnil : ∀ ty, ¬ node_has [] ty ip) by (intros ty (? & ? & (? & []%elem_of_nil & _) & _)).
    pose proof (Hnil NodeExternalIP). pose proof (Hnil NodeInternalIP). tauto.
  - intros Hrun. rewrite (node_has_cons pod pods NodeExternalIP), (node_has_cons pod pods NodeInternalIP).
    assert (Hskip : ¬ node_has [pod] NodeExternalIP ip → ¬ node_has [pod] NodeInternalIP ip →
      pods_node_ips env pods m = Ok m' →
      (is_Some (ips_ext m' !! ip) ↔ is_Some (ips_ext m !! ip) ∨
         node_has [pod] NodeExternalIP ip ∨ node_has pods NodeExternalIP ip) ∧
      (is_Some (ips_int m' !! ip) ↔ is_Some (ips_int m !! ip) ∨
         node_has [pod] NodeInternalIP ip ∨ node_has pods NodeInternalIP ip)).
    { intros Hn1 Hn2 Hr. destruct (IH _ Hr) as [-> ->]. tauto. }
    destruct (bool_decide (pod_NodeName pod = "") || bool_decide (pod_PodIP pod = "")) eqn:Hempty.
    { apply orb_true_iff in Hempty. rewrite !bool_decide_eq_true in Hempty.
      apply Hskip; [apply not_ready_nothing; intros ?; rewrite ready_single; tauto..|done]. }
    apply orb_false_iff in Hempty. rewrite !bool_decide_eq_false in Hempty.
    destruct (isPodStatusConditionTrue (pod_Conditions pod) PodReady) eqn:Hready; simpl in Hrun.
    2: { apply Hskip; [apply not_ready_nothing; intros ? (_ & _ & _ & ?)%ready_single; congruence..|done]. }
    assert (Hnode : ∀ ty, node_has [pod] ty ip ↔
      ∃ node, le_Node env (pod_NodeName pod) = Ok node ∧ mkNodeAddress ty ip ∈ node_Addresses node).
    { intros ty. unfold node_has. setoid_rewrite ready_single. clear Hskip Hrun IH. split.
      - intros (? & node & (-> & _) & Hn & Hin). eauto.
      - intros (node & Hn & Hin). eexists _, node. split_and!; [done|tauto..|done|done|done]. }
    rewrite !Hnode. destruct (le_Node env (pod_NodeName pod)) as [node|[]] eqn:Hn; try done.
    + destruct (IH _ Hrun) as [-> ->]. pose proof (add_node_addresses (node_Addresses node) m ip) as Hadd.
      cbv zeta in Hadd. destruct Hadd as [-> ->].
      assert (Ha : ∀ a, (∃ node', Ok node = Ok (E := kerror) node' ∧ a ∈ node_Addresses node') ↔
                         a ∈ node_Addresses node) by (clear; naive_solver).
      rewrite !Ha. tauto.
    + destruct (IH _ Hrun) as [-> ->].
      assert (Ha : ∀ a, ¬ ∃ node', Err NotFound = Ok node' ∧ a ∈ node_Addresses node') by (clear; naive_solver).
      pose proof (Ha (mkNodeAddress NodeExternalIP ip)). pose proof (Ha (mkNodeAddress NodeInternalIP ip)). tauto.
Qed.

(** The addresses the service is to have: the external ones, or, when no node has
    one, the internal ones; only IPv4. *)
Definition expected_ip `{KubeLib} (pods : list Pod) (ip : string) : Prop :=
  IsIPv4String ip = true ∧
  (node_has pods NodeExternalIP ip ∨
   ((∀ ip', ¬ node_has pods NodeExternalIP ip') ∧ node_has pods NodeInternalIP ip)).
End addresses.

Section update.
Context `{KubeLib} `{DockerLib} `{MapRange}.
Context (env : lb_env) (mc : MeshConfig).

(** A service this controller serves. *)
Definition served (svc : Service) : Prop :=
  mc_ServiceLB_Enabled mc = true ∧ DeletionTimestamp (svc_Meta svc) = None ∧
  svc_Type svc = ServiceTypeLoadBalancer.

Definition single_stack_v4 (svc : Service) : Prop :=
  svc_IPFamilyPolicy svc = Some IPFamilyPolicySingleStack ∧ head (svc_IPFamilies svc) = Some IPv4Protocol.

(** Nodes can be read or are gone. *)
Definition nodes_readable : Prop := ∀ name e, le_Node env name = Err e → e = NotFound.

Lemma pods_node_ips_total pods m : nodes_readable → ∃ m', pods_node_ips env pods m = Ok m'.
Proof.
  intros Hr. revert m. induction pods as [|pod pods IH]; intros m; simpl; [eauto|].
  destruct (_ || _); [by apply IH|]. destruct (negb _); [by apply IH|].
  destruct (le_Node env (pod_NodeName pod)) as [node|e] eqn:Hn; [by apply IH|].
  apply Hr in Hn as ->. by apply IH.
Qed.

Lemma elem_of_keys (m : gmap string bool) ip : ip ∈ (go_range m).*1 ↔ is_Some (m !! ip).
Proof. apply go_range_dom. Qed.

Lemma podIPs_expected pods svc :
  nodes_readable → single_stack_v4 svc →
  ∃ l, podIPs env pods svc = Ret ([], Ok l) ∧ NoDup l ∧ ∀ ip, ip ∈ l ↔ expected_ip env pods ip.
Proof.
  intros Hr [Hp Hf]. destruct (pods_node_ips_total pods (mkNodeIPs ∅ ∅) Hr) as [m Hm].
  set (ips := if bool_decide (ips_ext m ≠ ∅) then (go_range (ips_ext m)).*1 else (go_range (ips_int m)).*1).
  exists (List.filter IsIPv4String ips). split; [|split].
  - unfold podIPs, filterByIPFamily, from_result, mbind, eff_bind. rewrite Hm, Hp. fold ips.
    cbn [from_option default id]. rewrite bool_decide_true by done. by rewrite Hf.
  - apply NoDup_ListNoDup, List.NoDup_filter, NoDup_ListNoDup. subst ips.
    case_bool_decide; apply go_range_NoDup.
  - intros ip. rewrite !list_elem_of_In, List.filter_In, <-list_elem_of_In. unfold expected_ip.
    assert (Hspec : ∀ ip,
      (is_Some (ips_ext m !! ip) ↔ node_has env pods NodeExternalIP ip) ∧
      (is_Some (ips_int m !! ip) ↔ node_has env pods NodeInternalIP ip)).
    { intros ip'. destruct (pods_node_ips_spec env pods _ m ip' Hm) as [-> ->]. simpl.
      rewrite lookup_empty, is_Some_alt. tauto. }
    assert (Hin : ip ∈ ips ↔ node_has env pods NodeExternalIP ip ∨
      ((∀ ip', ¬ node_has env pods NodeExternalIP ip') ∧ node_has env pods NodeInternalIP ip)); [|tauto].
    subst ips. case_bool_decide as Hext; rewrite elem_of_keys; [rewrite (proj1 (Hspec ip))|rewrite (proj2 (Hspec ip))].
    + split; [by left|]. intros [Hn|[Hno _]]; [done|]. apply map_choose in Hext as (ip' & v & Hip').
      destruct (Hno ip'). apply Hspec. by eexists.
    + split; [right; split; [|done]|].
      * intros ip' Hn%Hspec. rewrite Hext, lookup_empty in Hn. by destruct Hn.
      * intros [Hn%Hspec|[_ ?]]; [|done]. rewrite Hext, lookup_empty in Hn. by destruct Hn.
Qed.

(** The update of a served service, in terms of the addresses expected. *)
Lemma updateService_served svc pods :
  served svc → single_stack_v4 svc → nodes_readable → le_Pods env svc = Ok pods →
  ∃ l, Sorted String.le l ∧ NoDup l ∧ (∀ ip, ip ∈ l ↔ expected_ip env pods ip) ∧
    updateService env svc mc =
      if decide (l = sort_Strings (serviceIPs svc)) then mret tt
      else svc' ← addFinalizer env svc; do env (UpdateServiceStatus (with_lb_ingress svc' l)).
Proof.
  intros (He & Hd & Ht) Hs Hr Hp. destruct (podIPs_expected pods svc Hr Hs) as (l & Hl & Hnd & Hin).
  exists (sort_Strings l). split_and!.
  - apply sort_Strings_sorted.
  - by rewrite sort_Strings_perm.
  - intros ip. by rewrite sort_Strings_perm.
  - unfold updateService. rewrite He, Hd, bool_decide_false, bool_decide_false, Hp by (done || by intros []).
    cbn [negb orb]. unfold mbind at 1, eff_bind at 1, from_result. cbn [app].
    unfold mbind at 1, eff_bind at 1. rewrite Hl. cbn [app].
    destruct (StringsEqual _ _) eqn:Heq.
    + apply StringsEqual_spec in Heq. by rewrite decide_True.
    + rewrite decide_False by (rewrite <-StringsEqual_spec; congruence).
      by destruct (_ ≫= _) as [[]|].
Qed.
End update.

(** ** Claims *)

Section claims.
Context `{KubeLib} `{DockerLib} `{MapRange}.
Context (env : lb_env) (mc : MeshConfig).

(** The service the status update is made on. *)
Definition with_finalizer (svc : Service) : Service :=
  if hasFinalizer svc then svc
  else le_stored env (with_finalizers svc (Finalizers (svc_Meta svc) ++ [finalizerName])).

Lemma addFinalizer_accepted svc :
  (∀ w, le_outcome env w = None) →
  addFinalizer env svc =
    Ret (if hasFinalizer svc then []
         else [UpdateService (with_finalizers svc (Finalizers (svc_Meta svc) ++ [finalizerName]))],
         Ok (with_finalizer svc)).
Proof.
  intros Hacc. unfold addFinalizer, with_finalizer, updateServiceObject, do, write, mbind, eff_bind.
  rewrite Hacc. by destruct (hasFinalizer svc).
Qed.

Lemma serviceIPs_of_v4 svc l :
  IsIPv4String "" = false → Forall (fun ip => IsIPv4String ip = true) l →
  serviceIPs (with_lb_ingress svc l) = l.
Proof.
  intros He Hl. unfold serviceIPs, with_lb_ingress. simpl. induction Hl as [|ip l Hip Hl IH]; [done|].
  simpl. rewrite bool_decide_false by congruence. simpl. by rewrite IH.
Qed.

Lemma lb_addresses_lemma svc pods :
  served mc svc → single_stack_v4 svc → nodes_readable env → le_Pods env svc = Ok pods →
  (∀ w, le_outcome env w = None) →
  ∃ l, Sorted String.le l ∧ NoDup l ∧ (∀ ip, ip ∈ l ↔ expected_ip env pods ip) ∧
    (sort_Strings (serviceIPs svc) = l → updateService env svc mc = Ret ([], Ok tt)) ∧
    (sort_Strings (serviceIPs svc) ≠ l →
     ∃ ws, Forall (fun w => ∃ s, w = UpdateService s) ws ∧
     updateService env svc mc =
       Ret (ws ++ [UpdateServiceStatus (with_lb_ingress (with_finalizer svc) l)], Ok tt)).
Proof.
  intros Hs Hss Hr Hp Hacc.
  destruct (updateService_served env mc svc pods Hs Hss Hr Hp) as (l & Hsort & Hnd & Hin & ->).
  exists l. split_and!; [done..| |].
  - intros <-. by rewrite decide_True.
  - intros Hne. rewrite decide_False by congruence. unfold mbind, eff_bind.
    rewrite addFinalizer_accepted by done.
    eexists. split; [|unfold do, write; by rewrite Hacc].
    destruct (hasFinalizer svc); repeat constructor; eauto.
Qed.

(** A write that concerns the DaemonSet of a service. *)
Definition daemonset_write (w : lb_write) : Prop :=
  match w with CreateDaemonSet _ | PatchDaemonSet _ | DeleteDaemonSet _ => True | _ => False end.

Lemma CreateOrUpdateDaemonSet_writes ds :
  all_writes daemonset_write (fun _ => True) (CreateOrUpdateDaemonSet env ds).
Proof.
  unfold CreateOrUpdateDaemonSet, CreateOrUpdate.
  destruct (le_DaemonSet env _) as [found|[]]; [case_bool_decide; [destruct (le_MergeData env ds)|]|..];
    try (by auto with erie); (eapply all_writes_bind; [by apply all_writes_write|by auto with erie]).
Qed.

Lemma newDaemonSet_writes svc : all_writes daemonset_write (fun _ => True) (newDaemonSet env svc mc).
Proof.
  unfold newDaemonSet. eapply all_writes_bind; [apply all_writes_from_go|]. intros name _. cbv zeta.
  eapply all_writes_bind; [apply all_writes_from_result|]. intros [|n nodes] _; [by auto with erie|].
  unfold from_go. by destruct (select_nodes _ _).
Qed.

Lemma deployDaemonSet_writes svc : all_writes daemonset_write (fun _ => True) (deployDaemonSet env svc mc).
Proof.
  unfold deployDaemonSet. destruct (_ || _).
  - unfold deleteDaemonSet. eapply all_writes_bind; [apply all_writes_from_go|]. intros name _. by apply all_writes_write.
  - eapply all_writes_bind; [apply newDaemonSet_writes|]. intros ds _.
    eapply all_writes_bind; [apply all_writes_from_result|]. intros meta _. cbv zeta.
    eapply all_writes_bind; [apply CreateOrUpdateDaemonSet_writes|]. by auto with erie.
Qed.

(** C30 (functional).  The addresses of a served IPv4 service converge, when the API server accepts
    every write and keeps the service a served IPv4 one, every node can be read or is gone,
    and the pods of the service stay the same: they are the sorted, duplicate-free list of
    the external addresses of the nodes on which a ready pod of its DaemonSet runs, or of
    their internal addresses when none of them has an external one, whatever the order of
    Go's maps.  When the status already has them the update of the addresses writes
    nothing; otherwise exactly that list is written as the status, after the finalizer, and
    the next reconciliation of the service so written writes to its DaemonSet at most (which
    is patched every time) and not to the service. *)
Theorem lb_addresses_converge svc pods :
  served mc svc → single_stack_v4 svc → nodes_readable env →
  (∀ s, le_Pods env s = Ok pods) → (∀ w, le_outcome env w = None) →
  IsIPv4String "" = false →
  (∀ s, served mc s → single_stack_v4 s → served mc (le_stored env s) ∧ single_stack_v4 (le_stored env s)) →
  ∃ l, Sorted String.le l ∧ NoDup l ∧ (∀ ip, ip ∈ l ↔ expected_ip env pods ip) ∧
    (sort_Strings (serviceIPs svc) = l → updateService env svc mc = Ret ([], Ok tt)) ∧
    (sort_Strings (serviceIPs svc) ≠ l →
     let svc' := with_lb_ingress (with_finalizer svc) l in
     ∃ ws, Forall (fun w => ∃ s, w = UpdateService s) ws ∧
       updateService env svc mc = Ret (ws ++ [UpdateServiceStatus svc'], Ok tt) ∧
       updateService env svc' mc = Ret ([], Ok tt) ∧
       ∀ ws' r, ServiceReconciler_Reconcile env (Ok svc') mc = Ret (ws', r) → Forall daemonset_write ws').
Proof.
  intros Hs Hss Hr Hp Hacc He Hst.
  destruct (lb_addresses_lemma svc pods Hs Hss Hr (Hp svc) Hacc) as (l & Hsort & Hnd & Hin & Hsame & Hdiff).
  exists l. split_and!; [done..|]. intros Hne. cbv zeta. destruct (Hdiff Hne) as (ws & Hws & Hu).
  exists ws.
  assert (Hf : served mc (with_finalizer svc) ∧ single_stack_v4 (with_finalizer svc)).
  { unfold with_finalizer. destruct (hasFinalizer svc); [done|]. by apply Hst. }
  assert (Hidle : updateService env (with_lb_ingress (with_finalizer svc) l) mc = Ret ([], Ok tt)).
  { destruct (lb_addresses_lemma (with_lb_ingress (with_finalizer svc) l) pods) as
      (l' & Hsort' & Hnd' & Hin' & Hsame' & _); [apply Hf|apply Hf|done|apply Hp|done|].
    apply Hsame'. rewrite serviceIPs_of_v4, sort_Strings_id; [|done|done|].
    - apply (Sorted_unique String.le); [done..|]. apply NoDup_Permutation; [done..|].
      intros ip. by rewrite Hin, Hin'.
    - apply Forall_forall. intros ip Hip%Hin. apply Hip. }
  split_and!; [done..|]. intros ws' r Hrec.
  assert (Hall : all_writes daemonset_write (fun _ => True)
    (ServiceReconciler_Reconcile env (Ok (with_lb_ingress (with_finalizer svc) l)) mc)).
  { unfold ServiceReconciler_Reconcile. eapply all_writes_bind; [apply deployDaemonSet_writes|].
    intros _ _. rewrite Hidle. by split. }
  rewrite Hrec in Hall. apply Hall.
Qed.

(** A service that is not or no longer served is released in
    order: its finalizer is taken off, with the other finalizers kept in their
    order, only after the deletion of its DaemonSet was accepted or the DaemonSet
    was found to be gone; when the deletion fails nothing else is written. *)
Theorem lb_release svc name l1 l2 :
  ¬ served mc svc → generateName svc = Ret name →
  Finalizers (svc_Meta svc) = l1 ++ finalizerName :: l2 → finalizerName ∉ l1 ++ l2 →
  let del := DeleteDaemonSet (mkNN (Namespace (svc_Meta svc)) name) in
  let rel := UpdateService (with_finalizers svc (l1 ++ l2)) in
  ServiceReconciler_Reconcile env (Ok svc) mc =
    match le_outcome env del with
    | Some NotFound | None => Ret ([del; rel], match le_outcome env rel with None => Ok tt | Some e => Err e end)
    | Some e => Ret ([del], Err e)
    end.
Proof.
  intros Hns Hname Hfs Hni. cbv zeta.
  assert (Hguard : negb (mc_ServiceLB_Enabled mc) || bool_decide (is_Some (DeletionTimestamp (svc_Meta svc))) ||
     bool_decide (svc_Type svc ≠ ServiceTypeLoadBalancer) = true).
  { unfold served in Hns. destruct (mc_ServiceLB_Enabled mc); [simpl|done].
    case_bool_decide as Hd; [done|]. case_bool_decide as Ht; [done|]. destruct Hns.
    rewrite <-eq_None_not_Some in Hd. done. }
  assert (Hdel : deployDaemonSet env svc mc = deleteDaemonSet env svc)
    by (unfold deployDaemonSet; by rewrite Hguard).
  assert (Hupd : updateService env svc mc = removeFinalizer env svc)
    by (unfold updateService; by rewrite Hguard).
  assert (Hhas : hasFinalizer svc = true).
  { unfold hasFinalizer. rewrite Hfs, existsb_app. simpl. by rewrite orb_true_r. }
  assert (Hrem : remove_finalizers (Finalizers (svc_Meta svc)) = Ret (l1 ++ l2))
    by (rewrite Hfs; apply remove_finalizers_once; set_solver).
  unfold ServiceReconciler_Reconcile. rewrite Hdel, Hupd. unfold deleteDaemonSet, removeFinalizer.
  rewrite Hhas, Hrem, Hname. unfold mbind, eff_bind, from_go, write, updateServiceObject, do. simpl.
  destruct (le_outcome env (DeleteDaemonSet _)) as [[]|]; simpl; try done;
    by destruct (le_outcome env (UpdateService _)).
Qed.
End claims.

(** ** The DaemonSet is well formed *)

(** What the API server admits as the protocol of a port. *)
Definition protocols : list string := ["TCP"; "UDP"; "SCTP"].

Lemma ToLower_protocols p q : p ∈ protocols → q ∈ protocols → ToLower p = ToLower q → p = q.
Proof.
  unfold protocols. rewrite !elem_of_cons, !elem_of_nil.
  intros [->|[->|[->|[]]]] [->|[->|[->|[]]]]; done.
Qed.

Lemma protocols_no_dash p : p ∈ protocols → ContainsByte "-"%char (ToLower p) = false.
Proof.
  unfold protocols. rewrite !elem_of_cons, !elem_of_nil. by intros [->|[->|[->|[]]]].
Qed.

Lemma port_name_inj p q :
  sp_Protocol p ∈ protocols → sp_Protocol q ∈ protocols → port_name p = port_name q →
  sp_Protocol p = sp_Protocol q ∧ sp_Port p = sp_Port q.
Proof.
  intros Hp Hq. unfold port_name. intros Heq. apply (inj (String.app "lb-")) in Heq.
  apply sep_inj in Heq as [Hlow Hport]; [|by apply protocols_no_dash..].
  split; [by apply ToLower_protocols|]. by apply (inj pretty) in Hport.
Qed.

Section well_formed.
Context `{KubeLib} `{DockerLib} `{MapRange}.
Context (env : lb_env) (mc : MeshConfig).

Lemma newDaemonSet_spec svc ws ds :
  newDaemonSet env svc mc = Ret (ws, Ok ds) →
  ws = [] ∧ ∃ name, generateName svc = Ret name ∧
    ds_Containers ds = lb_container mc svc <$> svc_Ports svc ∧
    ds_MatchLabels ds = Some {[ "app" := name ]} ∧
    ds_TemplateLabels ds = Some (<["app" := name]> (svc_labels svc)) ∧
    ∃ nodes, le_nodesWithLabel env = Ok nodes ∧
      let pool := smap_get (Labels (svc_Meta svc)) daemonsetNodePoolLabel in
      ds_NodeSelector ds = match nodes with
                           | [] => None
                           | _ => Some (if bool_decide (pool ≠ "")
                                        then <[daemonsetNodePoolLabel := pool]> {[ daemonsetNodeLabel := "true" ]}
                                        else {[ daemonsetNodeLabel := "true" ]})
                           end.
Proof.
  unfold newDaemonSet, from_go, from_result, mbind, eff_bind.
  destruct (generateName svc) as [name|]; [|done].
  destruct (le_nodesWithLabel env) as [nodes|]; [|done].
  destruct nodes as [|n nodes]; simpl; intros [= <- <-]; (split; [done|]); exists name; split_and!; try done;
    eexists; by split.
Qed.

(** C31 (type).  The DaemonSet of a service whose ports have one of the protocols TCP, UDP and SCTP and
    are distinct in protocol or number is well formed: it has one container per port, in
    order, each listening on the host port of the same number and named after protocol and
    number, and these names are distinct; its pods have the label app, which its selector
    asks for, and the two labels with the name and the namespace of the service, by which
    the pods of the service are looked up; it has no node selector when no node is excluded
    by its label, and otherwise one that asks for enablelb=true and, when the service names
    a pool, for this pool, and for nothing else. *)
Theorem daemonset_well_formed svc ws ds :
  newDaemonSet env svc mc = Ret (ws, Ok ds) →
  Forall (fun p => sp_Protocol p ∈ ["TCP"; "UDP"; "SCTP"]) (svc_Ports svc) →
  NoDup ((fun p => (sp_Protocol p, sp_Port p)) <$> svc_Ports svc) →
  Forall2 (fun c p => ct_HostPort c = sp_Port p ∧ ct_ContainerPort c = sp_Port p ∧ ct_Protocol c = sp_Protocol p ∧
             ct_Name c = "lb-" +:+ ToLower (sp_Protocol p) +:+ "-" +:+ Itoa (sp_Port p))
    (ds_Containers ds) (svc_Ports svc) ∧
  NoDup (ct_Name <$> ds_Containers ds) ∧
  (∃ name labels, ds_MatchLabels ds = Some {[ "app" := name ]} ∧ ds_TemplateLabels ds = Some labels ∧
     labels !! "app" = Some name ∧
     labels !! "servicelb.flomesh.io/svcname" = Some (Name (svc_Meta svc)) ∧
     labels !! "servicelb.flomesh.io/svcnamespace" = Some (Namespace (svc_Meta svc))) ∧
  (∃ nodes, le_nodesWithLabel env = Ok nodes ∧
     if bool_decide (nodes = []) then ds_NodeSelector ds = None
     else ∃ sel, ds_NodeSelector ds = Some sel ∧
       sel !! "servicelb.flomesh.io/enablelb" = Some "true" ∧
       (let pool := smap_get (Labels (svc_Meta svc)) "servicelb.flomesh.io/lbpool" in
        sel !! "servicelb.flomesh.io/lbpool" = if bool_decide (pool = "") then None else Some pool) ∧
       ∀ k, is_Some (sel !! k) → k ∈ ["servicelb.flomesh.io/enablelb"; "servicelb.flomesh.io/lbpool"]).
Proof.
  intros Hds Hproto Hnd.
  destruct (newDaemonSet_spec svc ws ds Hds) as (_ & name & _ & Hc & Hm & Ht & nodes & Hn & Hsel).
  rewrite Hc, Hm, Ht. split_and!.
  - apply Forall2_fmap_l, Forall_Forall2_diag, Forall_true. by intros p.
  - rewrite <-list_fmap_compose. clear Hc Hds. induction (svc_Ports svc) as [|p ps IH]; [constructor|].
    apply Forall_cons in Hproto as [Hp Hps]. simpl in Hnd. apply NoDup_cons in Hnd as [Hni Hnd].
    simpl. apply NoDup_cons. split; [|by apply IH].
    intros (q & Hq & Hin)%list_elem_of_fmap. apply Hni. apply list_elem_of_fmap. exists q. split; [|done].
    rewrite Forall_forall in Hps. destruct (port_name_inj p q) as [-> ->]; auto.
  - eexists name, _. split_and!; [done..| |]; unfold svc_labels, svcNameLabel, svcNamespaceLabel; by simplify_map_eq.
  - exists nodes. split; [done|]. destruct nodes as [|n nodes]; simpl; [done|]. cbv zeta in Hsel.
    unfold daemonsetNodeLabel, daemonsetNodePoolLabel in Hsel. set (pool := smap_get _ _) in *.
    eexists. split; [exact Hsel|]. split_and!.
    + case_bool_decide; by simplify_map_eq.
    + repeat case_bool_decide; by simplify_map_eq.
    + intros k [v Hk]. case_bool_decide.
      * apply lookup_insert_Some in Hk as [[<- _]|[_ Hk]]; [by right; left|].
        apply lookup_singleton_Some in Hk as [<- _]. by left.
      * apply lookup_singleton_Some in Hk as [<- _]. by left.
Qed.
End well_formed.

(** ** Witnesses *)

Definition sample_docker : DockerLib := {|
  ParseNormalizedNamed := fun s =>
    match split_on ":"%char s with
    | [n] => Ok (mkNamedRef n None None)
    | [n; t] => Ok (mkNamedRef n (Some t) None)
    | _ => Err "invalid reference format"
    end
|}.

Example pull_policy :
  @ImagePullPolicyByTag sample_docker "flomesh/klipper-lb" = PullAlways ∧
  @ImagePullPolicyByTag sample_docker "flomesh/klipper-lb:v0.3.5" = PullIfNotPresent ∧
  @ImagePullPolicyByTag sample_docker "flomesh/klipper-lb:1.0-dev" = PullAlways.
Proof. vm_compute. done. Qed.

(** Two nodes, one of them with an external address, each with a ready pod. *)
Definition sample_node (name : string) : result kerror Node :=
  if bool_decide (name = "n1") then
    Ok (mkNode (named "" "n1") [mkNodeAddress NodeInternalIP "10.0.0.1"; mkNodeAddress NodeExternalIP "1.2.3.4"])
  else if bool_decide (name = "n2") then Ok (mkNode (named "" "n2") [mkNodeAddress NodeInternalIP "10.0.0.2"])
  else Err NotFound.

Definition sample_pod (node : string) : Pod := mkPod node "10.1.0.7" [mkPodCondition PodReady "True"].

Definition sample_lb_env : lb_env :=
  mkLbEnv (Ok []) (fun _ => Err NotFound) (fun _ => Ok [sample_pod "n1"; sample_pod "n2"; sample_pod "n3"])
    sample_node (fun _ m => Ok m) (fun _ => None) (fun _ => None) (fun s => s).

Definition sample_lb_config : MeshConfig :=
  mkMeshConfig false "" (mkImages "flomesh" "" "" "klipper-lb:v0.3.5") "" (mc_Ingress zeroMeshConfig) false
    (mc_Certificate zeroMeshConfig) (mc_Cluster zeroMeshConfig) true.

Definition sample_lb_service (type : string) (finalizers : list string) : Service :=
  mkService (mkMeta "ns" "web" "0123456789" "7" 1 None None None finalizers None) type
    [mkSvcPort "http" "TCP" None 80 (IntVal 8080) 0; mkSvcPort "dns" "UDP" None 80 (IntVal 53) 0]
    "10.96.0.1" ["10.96.0.1"] "" (Some IPFamilyPolicySingleStack) [IPv4Protocol] [].

Lemma lb_addresses_converge_witness :
  ∃ l ws, (∀ ip, ip ∈ l ↔ @expected_ip sample_lb_env sample_lib [sample_pod "n1"; sample_pod "n2"; sample_pod "n3"] ip) ∧
    let svc' := with_lb_ingress (with_finalizer sample_lb_env (sample_lb_service "LoadBalancer" [])) l in
    @updateService sample_lib list_range sample_lb_env (sample_lb_service "LoadBalancer" []) sample_lb_config =
      Ret (ws ++ [UpdateServiceStatus svc'], Ok tt) ∧
    @updateService sample_lib list_range sample_lb_env svc' sample_lb_config = Ret ([], Ok tt).
Proof.
  destruct (@lb_addresses_converge sample_lib sample_docker list_range sample_lb_env sample_lb_config
              (sample_lb_service "LoadBalancer" []) [sample_pod "n1"; sample_pod "n2"; sample_pod "n3"])
    as (l & _ & _ & Hin & _ & Hdiff).
  - repeat split.
  - repeat split.
  - intros name e. unfold sample_lb_env, sample_node. simpl. repeat case_bool_decide; congruence.
  - reflexivity.
  - reflexivity.
  - reflexivity.
  - intros s Hs Hss. split; [exact Hs|exact Hss].
  - destruct Hdiff as (ws & _ & Hu & Hn & _).
    + intros Hl. assert (Hip : "1.2.3.4" ∈ l).
      { apply Hin. split; [reflexivity|]. left. exists "n1". eexists. split; [|split; [reflexivity|]].
        - exists (sample_pod "n1"). split; [by left|]. repeat split; discriminate.
        - by right; left. }
      rewrite <-Hl in Hip. by apply elem_of_nil in Hip.
    + exists l, ws. split; [exact Hin|]. split; [exact Hu|exact Hn].
Defined.

Lemma lb_release_witness :
  @ServiceReconciler_Reconcile sample_lib sample_docker list_range sample_lb_env
    (Ok (sample_lb_service "ClusterIP" ["a"; finalizerName; "b"])) sample_lb_config =
  Ret ([DeleteDaemonSet (mkNN "ns" "svclb-web-01234567");
        UpdateService (with_finalizers (sample_lb_service "ClusterIP" ["a"; finalizerName; "b"]) ["a"; "b"])],
       Ok tt).
Proof.
  rewrite (@lb_release sample_lib sample_docker list_range sample_lb_env sample_lb_config
             (sample_lb_service "ClusterIP" ["a"; finalizerName; "b"]) "svclb-web-01234567" ["a"] ["b"]).
  - reflexivity.
  - intros (_ & _ & Ht). discriminate Ht.
  - reflexivity.
  - reflexivity.
  - vm_compute. set_solver.
Defined.

Lemma daemonset_well_formed_witness :
  ∃ ds, @newDaemonSet sample_docker sample_lb_env (sample_lb_service "LoadBalancer" []) sample_lb_config = Ret ([], Ok ds) ∧
    NoDup (ct_Name <$> ds_Containers ds).
Proof.
  eexists. split; [reflexivity|].
  eapply (@daemonset_well_formed sample_docker sample_lb_env sample_lb_config
            (sample_lb_service "LoadBalancer" [])).
  - reflexivity.
  - repeat constructor; vm_compute; set_solver.
  - repeat constructor; vm_compute; set_solver.
Defined.
