(* ===== verification/Helm.v ===== *)
(** * Rendering charts ([pkg/helm/helm.go], [pkg/util/yaml.go])

    A chart is rendered without installing it, and the objects of its manifest are
    created or updated one by one, owned by the object they were rendered for.
    Helm, YAML and the API server are parameters. *)

From S2P Require Import Prelude GoLib Effects Kube CtrlUtil Config.

(** An object read from YAML: its metadata and everything else. *)
Record Unstructured : Type := mkUnstructured {
  u_Meta : ObjectMeta;
  u_Content : string
}.
#[export] Instance Unstructured_eq_dec : EqDecision Unstructured.
Proof. solve_decision. Defined.

Inductive helm_write : Type :=
| CreateObject (u : Unstructured)
| PatchObject (u : Unstructured).

(** The options of [helm.Install] that are set. *)
Record InstallClient : Type := mkInstallClient {
  ic_ReleaseName : string;
  ic_Namespace : string;
  ic_CreateNamespace : bool;
  ic_DryRun : bool;
  ic_ClientOnly : bool
}.

Definition helmClient (releaseName namespace : string) : InstallClient :=
  mkInstallClient releaseName namespace false true true.

(** Helm and the decoders. *)
Class HelmLib : Type := {
  Chart : Type;
  Values : Type;
  loader_LoadArchive : string → result string Chart;
  (** the installation of a chart; of a dry run, the manifest *)
  Install_Run : InstallClient → Chart → Values → result string string;
  (** the documents of a manifest, up to the end or an error *)
  yaml_documents : string → list string * option string;
  yaml_Decode : string → result string Unstructured
}.

(** The API server. *)
Record helm_env : Type := mkHelmEnv {
  he_get : NamespacedName → result kerror Unstructured;
  he_MergeData : Unstructured → option kerror;
  he_outcome : helm_write → option kerror;
  he_SetControllerReference : ObjectMeta → ObjectMeta → result string ObjectMeta
}.

(** [ctrl.Result{RequeueAfter: d}] with an error. *)
Record failure : Type := mkFailure {
  requeue_after : Z;
  failure_msg : string
}.

Section helm.
Context `{HelmLib} (env : helm_env).
Abbreviation hm := (eff helm_write failure).

Definition isValidOwner (owner object : ObjectMeta) : bool :=
  if bool_decide (Namespace owner ≠ "") then
    if bool_decide (Namespace object = "") then false
    else if bool_decide (Namespace owner ≠ Namespace object) then false
    else true
  else true.

Definition DecodeYamlToUnstructured (data : string) : result string Unstructured :=
  match yaml_Decode data with
  | Err e => Err ("Decode YAML to Unstructured failed. : " +:+ e)
  | Ok obj => Ok obj
  end.

Definition helm_do (w : helm_write) : eff helm_write kerror unit :=
  write (fun w => match he_outcome env w with None => Ok tt | Some e => Err e end) w.

Definition CreateOrUpdateObject : Unstructured → eff helm_write kerror OperationResult :=
  CreateOrUpdate (fun u => he_get env (meta_nn (u_Meta u))) (he_MergeData env)
    (fun u => helm_do (CreateObject u)) (fun u => helm_do (PatchObject u)).

(** Errors are retried after a second. *)
Definition retry {A} (m : eff helm_write kerror A) : hm A :=
  match m with
  | Panic => Panic
  | Ret (ws, Ok a) => Ret (ws, Ok a)
  | Ret (ws, Err e) => Ret (ws, Err (mkFailure 1 (kerror_Error e)))
  end.

(** The object with its owner, where it may have one. *)
Definition own (owner : ObjectMeta) (obj : Unstructured) : result string Unstructured :=
  if isValidOwner owner (u_Meta obj) then
    match he_SetControllerReference env owner (u_Meta obj) with
    | Err e => Err e
    | Ok meta => Ok (mkUnstructured meta (u_Content obj))
    end
  else Ok obj.

(** The body of the loop, for one document. *)
Definition apply_document (owner : ObjectMeta) (buf : string) : hm unit :=
  match DecodeYamlToUnstructured buf with
  | Err e => fail (mkFailure 1 e)
  | Ok obj =>
    match own owner obj with
    | Err e => fail (mkFailure 1 e)
    | Ok obj => _ ← retry (CreateOrUpdateObject obj); mret tt
    end
  end.

Fixpoint apply_documents (owner : ObjectMeta) (docs : list string) : hm unit :=
  match docs with
  | [] => mret tt
  | buf :: docs => _ ← apply_document owner buf; apply_documents owner docs
  end.

Definition applyChartYAMLs (owner : ObjectMeta) (manifest : string) : hm unit :=
  let '(docs, err) := yaml_documents manifest in
  _ ← apply_documents owner docs;
  match err with
  | None => mret tt
  | Some e => fail (mkFailure 1 e)
  end.

Definition RenderChart {O} (meta : O → ObjectMeta) (releaseName : string) (object : O) (chartSource : string)
    (mc : MeshConfig) (resolveValues : O → MeshConfig → result string Values) : hm unit :=
  match loader_LoadArchive chartSource with
  | Err e => fail (mkFailure 0 ("error loading chart for installation: " +:+ e))
  | Ok chart =>
    match resolveValues object mc with
    | Err e => fail (mkFailure 0 ("error resolve values for installation: " +:+ e))
    | Ok values =>
      match Install_Run (helmClient releaseName (Namespace (meta object))) chart values with
      | Err e => fail (mkFailure 0 ("error install " +:+ Namespace (meta object) +:+ "/" +:+ Name (meta object) +:+ ": " +:+ e))
      | Ok manifest => applyChartYAMLs (meta object) manifest
      end
    end
  end.

(** ** What is written *)

(** Setting the controller keeps the name and sets the owner's UID. *)
Context (Hown : ∀ owner meta meta', he_SetControllerReference env owner meta = Ok meta' →
  meta_nn meta' = meta_nn meta ∧ ControllerUID meta' = Some (UID owner)).

(** The object that a write sends. *)
Definition written (w : helm_write) : Unstructured :=
  match w with CreateObject u | PatchObject u => u end.

(** A document of the manifest, owned where the owner's namespace allows it. *)
Definition rendered (owner : ObjectMeta) (docs : list string) (u : Unstructured) : Prop :=
  ∃ doc obj, doc ∈ docs ∧ yaml_Decode doc = Ok obj ∧ u_Content u = u_Content obj ∧
    meta_nn (u_Meta u) = meta_nn (u_Meta obj) ∧
    if bool_decide (Namespace owner = "" ∨ Namespace owner = Namespace (u_Meta obj))
    then ControllerUID (u_Meta u) = Some (UID owner)
    else u_Meta u = u_Meta obj.

Lemma isValidOwner_spec owner object :
  isValidOwner owner object = bool_decide (Namespace owner = "" ∨ Namespace owner = Namespace object).
Proof.
  unfold isValidOwner. repeat case_bool_decide; try done; naive_solver congruence.
Qed.

Lemma own_rendered owner doc obj u : yaml_Decode doc = Ok obj → own owner obj = Ok u → rendered owner [doc] u.
Proof.
  unfold own, rendered. intros Hd Hu. exists doc, obj. rewrite isValidOwner_spec in Hu.
  destruct (bool_decide _) eqn:Hb; [|injection Hu as <-; split; [by left|done]].
  destruct (he_SetControllerReference env owner (u_Meta obj)) as [meta|] eqn:Hs; [|done].
  injection Hu as <-. apply Hown in Hs as [? ?]. split; [by left|done].
Qed.

Lemma retry_writes {A} (m : eff helm_write kerror A) P Q : all_writes P Q m → all_writes P Q (retry m).
Proof. by destruct m as [[ws []]|]. Qed.

Lemma apply_document_writes owner doc docs :
  doc ∈ docs → all_writes (fun w => rendered owner docs (written w)) (fun _ => True) (apply_document owner doc).
Proof.
  intros Hin. unfold apply_document, DecodeYamlToUnstructured.
  destruct (yaml_Decode doc) as [obj|e] eqn:Hd; [|by apply all_writes_fail].
  destruct (own owner obj) as [u|e] eqn:Ho; [|by apply all_writes_fail].
  assert (rendered owner docs u) as Hr.
  { destruct (own_rendered _ _ _ _ Hd Ho) as (doc' & obj' & ->%list_elem_of_singleton & Hr). by exists doc, obj'. }
  eapply (all_writes_bind _ (fun _ => True)); [|by intros ? _; apply all_writes_ret].
  apply retry_writes. unfold CreateOrUpdateObject, CreateOrUpdate.
  repeat case_match; eauto with erie;
    eapply all_writes_bind; eauto with erie; try (by apply all_writes_write); by intros; apply all_writes_ret.
Qed.

Lemma apply_documents_writes owner docs docs' :
  (∀ d, d ∈ docs' → d ∈ docs) →
  all_writes (fun w => rendered owner docs (written w)) (fun _ => True) (apply_documents owner docs').
Proof.
  induction docs' as [|d docs' IH]; intros Hsub; [by apply all_writes_ret|].
  cbn [apply_documents]. eapply all_writes_bind; [apply apply_document_writes, Hsub; by left|].
  intros _ _. apply IH. intros d' Hd'. apply Hsub. by right.
Qed.

(** Rendering writes only objects of the manifest. *)
Lemma applyChartYAMLs_writes owner manifest :
  all_writes (fun w => rendered owner (yaml_documents manifest).1 (written w)) (fun _ => True)
    (applyChartYAMLs owner manifest).
Proof.
  unfold applyChartYAMLs. destruct (yaml_documents manifest) as [docs err]. simpl.
  eapply all_writes_bind; [by apply apply_documents_writes|]. intros _ _.
  destruct err; [by apply all_writes_fail|by apply all_writes_ret].
Qed.

(** The object of a document was written, or was found as it should be. *)
Definition applied (owner : ObjectMeta) (ws : list helm_write) (doc : string) : Prop :=
  ∃ u, rendered owner [doc] u ∧ (he_get env (meta_nn (u_Meta u)) = Ok u ∨ ∃ w, w ∈ ws ∧ written w = u).

Lemma applied_mono owner ws ws' doc : (∀ w, w ∈ ws → w ∈ ws') → applied owner ws doc → applied owner ws' doc.
Proof. intros Hsub (u & Hu & Hw). exists u. naive_solver. Qed.

Lemma apply_document_ok owner doc ws :
  apply_document owner doc = Ret (ws, Ok tt) → applied owner ws doc.
Proof.
  unfold apply_document, DecodeYamlToUnstructured.
  destruct (yaml_Decode doc) as [obj|e] eqn:Hd; [|done].
  destruct (own owner obj) as [u|e] eqn:Ho; [|done].
  intros [(? & _ & [=])|(ws1 & ws2 & res & Hr & [= <-] & ->)]%eff_bind_Ret. rewrite app_nil_r.
  exists u. split; [by eapply own_rendered|].
  destruct (CreateOrUpdateObject u) as [[ws' [r|]]|] eqn:Hc; [|done..]. injection Hr as <- <-.
  assert (Hdo : ∀ w, helm_do w = Ret (ws', Ok tt) → ws' = [w]).
  { unfold helm_do, write. intros w Hw. destruct (he_outcome env w); by simplify_eq. }
  apply CreateOrUpdate_ok in Hc. destruct r; [by left; apply Hc|..];
    destruct Hc as [_ ->%Hdo]; right; (eexists; split; [by left|done]).
Qed.

Lemma apply_documents_ok owner docs ws :
  apply_documents owner docs = Ret (ws, Ok tt) → ∀ doc, doc ∈ docs → applied owner ws doc.
Proof.
  revert ws. induction docs as [|d docs IH]; intros ws; [by intros _ doc Hdoc%elem_of_nil|].
  cbn [apply_documents].
  intros [(? & _ & [=])|(ws1 & ws2 & [] & Hd & Hds & ->)]%eff_bind_Ret doc [->|Hdoc]%elem_of_cons.
  - eapply applied_mono; [|by apply apply_document_ok]. intros w Hw. apply elem_of_app. by left.
  - eapply applied_mono; [|by eapply IH]. intros w Hw. apply elem_of_app. by right.
Qed.

(** A chart whose rendering succeeds is in force. *)
Lemma applyChartYAMLs_ok owner manifest ws :
  applyChartYAMLs owner manifest = Ret (ws, Ok tt) →
  (yaml_documents manifest).2 = None ∧ ∀ doc, doc ∈ (yaml_documents manifest).1 → applied owner ws doc.
Proof.
  unfold applyChartYAMLs. destruct (yaml_documents manifest) as [docs [e|]]; simpl;
    intros [(? & _ & [=])|(ws1 & ws2 & [] & Hd & Hr & ->)]%eff_bind_Ret; [done|].
  injection Hr as <-. rewrite app_nil_r. split; [done|]. by apply apply_documents_ok.
Qed.

(** Nothing panics. *)
Lemma applyChartYAMLs_total owner manifest : applyChartYAMLs owner manifest ≠ Panic.
Proof.
  unfold applyChartYAMLs. destruct (yaml_documents manifest) as [docs err].
  assert (∀ docs, ∃ ws r, apply_documents owner docs = Ret (ws, r)) as Hd.
  { clear docs. induction docs as [|d docs (ws & r & IH)]; [by eexists _, _|].
    assert (∃ ws' r', apply_document owner d = Ret (ws', r')) as (ws' & r' & Hdoc).
    { unfold apply_document, retry, CreateOrUpdateObject, CreateOrUpdate, helm_do, write, mbind, eff_bind.
      repeat case_match; simplify_eq; by eexists _, _. }
    cbn [apply_documents]. unfold mbind, eff_bind. rewrite Hdoc, IH. destruct r'; by eexists _, _. }
  destruct (Hd docs) as (ws & r & Hr). unfold mbind, eff_bind. rewrite Hr. by destruct r, err.
Qed.
End helm.
