(* ===== verification/Certificates.v ===== *)
(** * Certificates ([pkg/certificate])

    The interface [Manager] and its two implementations: [ArchonManager], which
    signs with a root CA kept in a Secret that all replicas share, and
    [CertManager], which asks cert-manager and polls for the answer.  Random
    numbers, keys, the clock and the API servers are parameters; so are the
    crypto packages ([X509Lib], [CryptoLib]). *)

From Stdlib Require Import Ascii.
From S2P Require Import Prelude GoLib Effects Kube CtrlUtil Config CacheTypes IngressCache.

(** ** Data ([types.go]) *)

(** certificate.Certificate *)
Record IssuedCertificate : Type := mkIssued {
  ic_CommonName : string;
  ic_SerialNumber : string;
  ic_CA : string;
  ic_CrtPEM : string;
  ic_KeyPEM : string;
  ic_Expiration : Z
}.

Definition RootCAPrivateKeyName : string := "ca.key".
(** Durations are in nanoseconds. *)
Definition second : Z := 1000000000.
Definition DefaultCAValidityPeriod : Z := 24 * 365 * 10 * 3600 * second.
Definition DefaultCACommonName : string := "flomesh.io".
Definition DefaultCACountry : string := "CN".
Definition DefaultCALocality : string := "Dalian".
Definition DefaultCAOrganization : string := "flomesh.io".

Definition Manual : string := "manual".
Definition Archon : string := "archon".
Definition CertManagerType : string := "cert-manager".

(** ** Libraries *)

(** The fields of a certificate to be signed. *)
Record CertTemplate : Type := mkTemplate {
  t_SerialNumber : Z;
  t_CommonName : string;
  t_Country : list string;
  t_Locality : list string;
  t_Organization : list string;
  t_DNSNames : list string;
  t_NotBefore : Z;
  t_NotAfter : Z;
  t_IsCA : bool;
  t_KeyUsage : list string;
  t_ExtKeyUsage : list string;
  t_BasicConstraintsValid : bool
}.

(** A certificate request ([x509.CertificateRequest]). *)
Record CSR : Type := mkCSR {
  csr_CommonName : string;
  csr_Organization : list string;
  csr_DNSNames : list string
}.

(** crypto/rsa, crypto/x509 and encoding/pem *)
Class CryptoLib `{X509Lib} : Type := {
  RSAPrivateKey : Type;
  PublicKey : RSAPrivateKey → string;
  Subject_CommonName : x509_Certificate → string;
  SerialNumber_String : x509_Certificate → string;
  NotAfter : x509_Certificate → Z;
  (** the parent is [None] for a self-signed certificate *)
  CreateCertificate : CertTemplate → option x509_Certificate → string → RSAPrivateKey → result string string;
  CreateCertificateRequest : CSR → RSAPrivateKey → result string string;
  pem_Encode : string → string → result string string;
  MarshalPKCS8PrivateKey : RSAPrivateKey → result string string;
  (** a key that is not an RSA key is [Ok None] *)
  ParsePKCS8PrivateKey : string → result string (option RSAPrivateKey);
  (** what a verifier checks *)
  cert_PublicKey : x509_Certificate → string;
  cert_DNSNames : x509_Certificate → list string;
  CheckSignature : x509_Certificate → string → bool
}.

(** Decoding gives back what was encoded, and a created certificate has the
    names and the key asked for and is signed by the key given. *)
Class CryptoLaws `{CryptoLib} : Prop := {
  pem_roundtrip : ∀ ty b p, pem_Encode ty b = Ok p → pem_Decode p = Some b;
  pkcs8_roundtrip : ∀ k b, MarshalPKCS8PrivateKey k = Ok b → ParsePKCS8PrivateKey b = Ok (Some k);
  create_parse : ∀ t parent pub k b, CreateCertificate t parent pub k = Ok b →
    ∃ c, x509_ParseCertificate b = Ok c ∧ Subject_CommonName c = t_CommonName t ∧
      cert_DNSNames c = t_DNSNames t ∧ cert_PublicKey c = pub ∧ CheckSignature c (PublicKey k) = true
}.

(** ** PEM ([utils/utils.go]) *)

Section utils.
Context `{X509Lib} `{!CryptoLib}.

(** The type assertion to an RSA key panics on other keys. *)
Definition ConvertPEMPrivateKeyToX509 (pemKey : string) : go (result string RSAPrivateKey) :=
  match pem_Decode pemKey with
  | None => Ret (Err "no valid private key in PEM")
  | Some block =>
    match ParsePKCS8PrivateKey block with
    | Err e => Ret (Err e)
    | Ok x509Key => k ← deref x509Key; Ret (Ok k)
    end
  end.

Definition CertToPEM (caBytes : string) : result string string :=
  match pem_Encode "CERTIFICATE" caBytes with
  | Err e => Err ("encode cert: " +:+ e)
  | Ok p => Ok p
  end.

Definition RSAKeyToPEM (privateKey : RSAPrivateKey) : result string string :=
  match MarshalPKCS8PrivateKey privateKey with
  | Err e => Err ("marshal private key: " +:+ e)
  | Ok privateBytes =>
    match pem_Encode "PRIVATE KEY" privateBytes with
    | Err e => Err ("encode key: " +:+ e)
    | Ok p => Ok p
    end
  end.

Definition CsrToPEM (csrBytes : string) : result string string :=
  match pem_Encode "CERTIFICATE REQUEST" csrBytes with
  | Err e => Err ("encode CSR: " +:+ e)
  | Ok p => Ok p
  end.

(** ** Archon ([managers/archon/manager.go]) *)

(** What a call draws from the outside: a serial number, the time, a key. *)
Record entropy : Type := mkEntropy {
  en_serial : result string Z;
  en_now : Z;
  en_key : result string RSAPrivateKey
}.

Definition archon_NewRootCA (en : entropy) (cn : string) (validityPeriod : Z)
    (country locality organization : string) : result string IssuedCertificate :=
  match en_serial en with
  | Err e => Err ("generate serial number: " +:+ e)
  | Ok serialNumber =>
    let ca := mkTemplate serialNumber cn [country] [locality] [organization] [] (en_now en)
                (en_now en + validityPeriod) true ["CertSign"; "CRLSign"] [] true in
    match en_key en with
    | Err e => Err e
    | Ok caPrivateKey =>
      match CreateCertificate ca None (PublicKey caPrivateKey) caPrivateKey with
      | Err e => Err ("create cert: " +:+ e)
      | Ok caBytes =>
        match CertToPEM caBytes with
        | Err e => Err e
        | Ok pemCACrt =>
          match RSAKeyToPEM caPrivateKey with
          | Err e => Err e
          | Ok pemCAKey =>
            Ok (mkIssued cn (Itoa serialNumber) pemCACrt pemCACrt pemCAKey (t_NotAfter ca))
          end
        end
      end
    end
  end.

Record ArchonManager : Type := mkArchon {
  am_ca : IssuedCertificate;
  am_certificates : gmap string IssuedCertificate
}.

Definition archon_NewManager (ca : IssuedCertificate) : ArchonManager := mkArchon ca ∅.

Definition archon_IssueCertificate (en : entropy) (m : ArchonManager) (cn : string) (validityPeriod : Z)
    (dnsNames : list string) : go (result string IssuedCertificate * ArchonManager) :=
  match en_serial en with
  | Err e => Ret (Err ("generate serial number: " +:+ e), m)
  | Ok serialNumber =>
    let cert := mkTemplate serialNumber cn [] [] [DefaultCAOrganization] dnsNames (en_now en)
                  (en_now en + validityPeriod) false ["KeyEncipherment"; "DigitalSignature"]
                  ["ClientAuth"; "ServerAuth"] true in
    match ConvertPEMCertToX509 (ic_CrtPEM (am_ca m)) with
    | Err e => Ret (Err e, m)
    | Ok rootCert =>
      rootKey ← ConvertPEMPrivateKeyToX509 (ic_KeyPEM (am_ca m));
      match rootKey with
      | Err e => Ret (Err e, m)
      | Ok rootKey =>
        match en_key en with
        | Err e => Ret (Err ("generate private key: " +:+ e), m)
        | Ok tlsKey =>
          match CreateCertificate cert (Some rootCert) (PublicKey tlsKey) rootKey with
          | Err e => Ret (Err ("create cert: " +:+ e), m)
          | Ok tlsBytes =>
            match CertToPEM tlsBytes with
            | Err e => Ret (Err e, m)
            | Ok pemTlsCert =>
              match RSAKeyToPEM tlsKey with
              | Err e => Ret (Err e, m)
              | Ok pemTlsKey =>
                let issuedCert := mkIssued cn (Itoa serialNumber) (ic_CrtPEM (am_ca m)) pemTlsCert pemTlsKey
                                    (t_NotAfter cert) in
                Ret (Ok issuedCert, mkArchon (am_ca m) (<[cn := issuedCert]> (am_certificates m)))
              end
            end
          end
        end
      end
    end
  end.

Definition archon_GetCertificate (m : ArchonManager) (cn : string) : result string IssuedCertificate :=
  if bool_decide (cn = "") then Err "CN is empty"
  else match am_certificates m !! cn with
       | None => Err ("no certificate found for CN " +:+ cn)
       | Some cert => Ok cert
       end.

Definition archon_GetRootCertificate (m : ArchonManager) : result string IssuedCertificate := Ok (am_ca m).
End utils.

(** ** The root CA of all replicas ([config/config.go]) *)

Section config.
Context `{X509Lib} `{!CryptoLib}.

(** The certificate read from the data of a Secret. *)
Definition read_ca (data : gmap string string) : result string IssuedCertificate :=
  match data !! RootCACertName with
  | None => Err "invalid secret data for cert"
  | Some pemCACrt =>
    match data !! RootCAPrivateKeyName with
    | None => Err "invalid secret data for cert"
    | Some pemCAKey =>
      match ConvertPEMCertToX509 pemCACrt with
      | Err e => Err e
      | Ok x509Cert =>
        Ok (mkIssued (Subject_CommonName x509Cert) (SerialNumber_String x509Cert) pemCACrt pemCACrt pemCAKey
              (NotAfter x509Cert))
      end
    end
  end.

Definition ca_secret (cert : IssuedCertificate) : gmap string string :=
  <[RootCACertName := ic_CrtPEM cert]> {[ RootCAPrivateKeyName := ic_KeyPEM cert ]}.

(** Calls to the API server about the Secret of the root CA: a program is its
    result, or a call with what follows each answer. *)
Inductive ca_prog (A : Type) : Type :=
| CaDone (a : A)
| CaCreate (data : gmap string string) (k : option kerror → ca_prog A)
| CaGet (k : result kerror (gmap string string) → ca_prog A).
#[global] Arguments CaDone {_}.
#[global] Arguments CaCreate {_}.
#[global] Arguments CaGet {_}.

Fixpoint ca_bind {A B} (p : ca_prog A) (f : A → ca_prog B) : ca_prog B :=
  match p with
  | CaDone a => f a
  | CaCreate data k => CaCreate data (fun a => ca_bind (k a) f)
  | CaGet k => CaGet (fun a => ca_bind (k a) f)
  end.

(** The run of a program that no other client interferes with. *)
Fixpoint ca_run {A} (create : gmap string string → option kerror) (get : result kerror (gmap string string))
    (p : ca_prog A) : A :=
  match p with
  | CaDone a => a
  | CaCreate data k => ca_run create get (k (create data))
  | CaGet k => ca_run create get (k get)
  end.

Definition getOrSaveCertificate (cert : IssuedCertificate) : ca_prog (result string IssuedCertificate) :=
  let read := CaGet (fun get =>
    match get with
    | Err e => CaDone (Err ("CA bundle not found: " +:+ kerror_Error e))
    | Ok data => CaDone (read_ca data)
    end) in
  CaCreate (ca_secret cert) (fun create =>
    match create with
    | None | Some AlreadyExists => read
    | Some e => CaDone (Err (kerror_Error e))
    end).

Definition getArchonCertificateManager (en : entropy) (managerType : string) : ca_prog (result string ArchonManager) :=
  match archon_NewRootCA en DefaultCACommonName DefaultCAValidityPeriod DefaultCACountry DefaultCALocality
          DefaultCAOrganization with
  | Err e => CaDone (Err ("failed to generate root CA, manager type = " +:+ managerType +:+ ", " +:+ e))
  | Ok rootCert =>
    ca_bind (getOrSaveCertificate rootCert) (fun saved =>
      match saved with
      | Err e => CaDone (Err ("failed to get/create CA, " +:+ e))
      | Ok rootCert => CaDone (Ok (archon_NewManager rootCert))
      end)
  end.

Definition getManualCertificateManager {A} : go A := Panic.
End config.

(** ** cert-manager ([managers/certmanager/manager.go]) *)

Definition CAIssuerName : string := "flomesh.io".
Definition SelfSignedIssuerName : string := "self-signed.flomesh.io".
Definition IssuerKind : string := "Issuer".
Definition IssuerGroup : string := "cert-manager.io".
Definition CertManagerRootCAName : string := "flomesh-root-ca".
Definition DefaultPollInterval : Z := 1 * second.
Definition DefaultPollTimeout : Z := 60 * second.

Record ObjectReference : Type := mkObjectReference {
  or_Kind : string;
  or_Name : string;
  or_Group : string
}.

(** An Issuer: self-signed, or a CA with its secret. *)
Record Issuer : Type := mkIssuer {
  iss_Kind : string;
  iss_Group : string;
  iss_Namespace : string;
  iss_Name : string;
  iss_SelfSigned : bool;
  iss_CASecretName : option string
}.

(** A cert-manager Certificate, as it is created. *)
Record CMCertificate : Type := mkCMCertificate {
  cmc_Namespace : string;
  cmc_Name : string;
  cmc_IsCA : bool;
  cmc_CommonName : string;
  cmc_Duration : Z;
  cmc_Countries : list string;
  cmc_Localities : list string;
  cmc_Organizations : list string;
  cmc_SerialNumber : string;
  cmc_KeySize : Z;
  cmc_KeyEncoding : string;
  cmc_KeyAlgorithm : string;
  cmc_IssuerRef : ObjectReference;
  cmc_SecretName : string
}.

Record CertificateRequest : Type := mkCertificateRequest {
  cr_GenerateName : string;
  cr_Namespace : string;
  cr_Request : string;
  cr_IsCA : bool;
  cr_Duration : Z;
  cr_Usages : list string;
  cr_IssuerRef : ObjectReference
}.

(** The status of a Certificate or of a CertificateRequest: its conditions, and
    the certificate if there is one. *)
Record CMStatus : Type := mkCMStatus {
  cms_Conditions : list (string * string);
  cms_Certificate : option string;
  cms_CA : string
}.

(** k8s.io/apimachinery/pkg/util/wait: the condition is given by its answer at
    every test; the index of the last test is returned with the outcome. *)
Inductive poll_error : Type :=
| PollTimeout
| PollCondition (e : kerror).

Class WaitLib : Type := {
  PollImmediate : Z → Z → (nat → result kerror bool) → nat * result poll_error unit
}.

(** "PollImmediate tries a condition func until it returns true, an error, or the
    timeout is reached", "always checks 'condition' before waiting for the
    interval", and "some intervals may be missed": there is one test at once, at
    most one for each interval that fits into the timeout, and one more when the
    timeout is reached.  How many intervals are missed is left open. *)
Class WaitLaws `{WaitLib} : Prop := {
  PollImmediate_spec : ∀ interval timeout cond n r,
    (0 < interval)%Z → (0 < timeout)%Z → PollImmediate interval timeout cond = (n, r) →
    (∀ i, (i < n)%nat → cond i = Ok false) ∧ (Z.of_nat n * interval ≤ timeout + interval)%Z ∧
    match r with
    | Ok _ => cond n = Ok true
    | Err (PollCondition e) => cond n = Err e
    | Err PollTimeout => cond n = Ok false
    end
}.

(** What the manager writes. *)
Inductive cm_write : Type :=
| CreateIssuer (i : Issuer)
| CreateCMCertificate (c : CMCertificate)
| CreateCertificateRequestObject (r : CertificateRequest)
| DeleteCertificateRequest (name : string).

Section certmanager.
Context `{X509Lib} `{!CryptoLib} `{WaitLib}.

(** The API server and the informers of cert-manager, as the client sees them. *)
Record cm_env : Type := mkCmEnv {
  ce_ns : string;
  ce_caBundleName : string;
  ce_createIssuer : Issuer → result kerror Issuer;
  ce_getIssuer : string → result kerror Issuer;
  ce_createCertificate : CMCertificate → option kerror;
  (** the name given to the request *)
  ce_createRequest : CertificateRequest → result kerror string;
  ce_deleteRequest : string → option kerror;
  (** the listers, at every test *)
  ce_listCertificate : nat → result kerror CMStatus;
  ce_listRequest : string → nat → result kerror CMStatus;
  ce_secret : result kerror (gmap string string)
}.

Context (env : cm_env).
Abbreviation cm := (eff cm_write string).

(** Creating an issuer; one that exists is read. *)
Definition create_issuer (issuer : Issuer) : cm Issuer :=
  match ce_createIssuer env issuer with
  | Ok i => Ret ([CreateIssuer issuer], Ok i)
  | Err AlreadyExists =>
    match ce_getIssuer env (iss_Name issuer) with
    | Ok i => Ret ([CreateIssuer issuer], Ok i)
    | Err e => Ret ([CreateIssuer issuer], Err (kerror_Error e))
    end
  | Err e => Ret ([CreateIssuer issuer], Err (kerror_Error e))
  end.

Definition selfSignedIssuer : cm Issuer :=
  create_issuer (mkIssuer "" "" (ce_ns env) SelfSignedIssuerName true None).
Definition caIssuer : cm Issuer :=
  create_issuer (mkIssuer "" "" (ce_ns env) CAIssuerName false (Some (ce_caBundleName env))).

Definition is_ready (s : CMStatus) : bool :=
  existsb (fun c => bool_decide (c.1 = "Ready") && bool_decide (c.2 = "True")) (cms_Conditions s).

Definition poll_message (e : poll_error) : string :=
  match e with PollTimeout => "timed out waiting for the condition" | PollCondition e => kerror_Error e end.

(** The condition of [waitingForCAIssued] at one test. *)
Definition ca_issued (answer : result kerror CMStatus) : result kerror bool :=
  match answer with
  | Err NotFound => Ok false
  | Err e => Err e
  | Ok ca => Ok (is_ready ca)
  end.

(** The Certificate read at the last test, if any, with the error. *)
Definition waitingForCAIssued : result string (option CMStatus) :=
  match PollImmediate DefaultPollInterval DefaultPollTimeout (fun i => ca_issued (ce_listCertificate env i)) with
  | (n, Ok _) => Ok match ce_listCertificate env n with Ok ca => Some ca | Err _ => None end
  | (_, Err e) => Err (poll_message e)
  end.

Definition createCertManagerCertificate (cert : CMCertificate) : cm (option CMStatus) :=
  match ce_createCertificate env cert with
  | None | Some AlreadyExists => Ret ([CreateCMCertificate cert], waitingForCAIssued)
  | Some e => Ret ([CreateCMCertificate cert], Err (kerror_Error e))
  end.

(** [cr.Status.Certificate != nil] *)
Definition request_issued (answer : result kerror CMStatus) : result kerror bool :=
  match answer with
  | Err NotFound => Ok false
  | Err e => Err e
  | Ok cr => Ok (is_ready cr && bool_decide (is_Some (cms_Certificate cr)))
  end.

Definition waitingForCertificateIssued (crName : string) : result string (option CMStatus) :=
  match PollImmediate DefaultPollInterval DefaultPollTimeout (fun i => request_issued (ce_listRequest env crName i)) with
  | (n, Ok _) => Ok match ce_listRequest env crName n with Ok cr => Some cr | Err _ => None end
  | (_, Err e) => Err (poll_message e)
  end.

Definition certmanager_NewRootCA (en : entropy) (cn : string) (validityPeriod : Z)
    (country locality organization : string) : cm IssuedCertificate :=
  selfSigned ← selfSignedIssuer;
  serialNumber ← from_result match en_serial en with
                             | Err e => Err ("generate serial number: " +:+ e) | Ok n => Ok n end;
  let ca := mkCMCertificate (ce_ns env) CertManagerRootCAName true cn validityPeriod [country] [locality]
              [organization] (Itoa serialNumber) 2048 "PKCS8" "RSA"
              (mkObjectReference (iss_Kind selfSigned) (iss_Name selfSigned) (iss_Group selfSigned))
              (ce_caBundleName env) in
  _ ← createCertManagerCertificate ca;
  _ ← caIssuer;
  match ce_secret env with
  | Err e => fail ("failed to get cert-manager CA secret " +:+ ce_ns env +:+ "/" +:+ ce_caBundleName env +:+ ": " +:+ kerror_Error e)
  | Ok data =>
    match data !! RootCACertName, data !! TLSPrivateKeyName with
    | Some pemCACrt, Some pemCAKey =>
      match ConvertPEMCertToX509 pemCACrt with
      | Err e => fail ("failed to decoded root certificate: " +:+ e)
      | Ok cert => mret (mkIssued (Subject_CommonName cert) (SerialNumber_String cert) pemCACrt pemCACrt pemCAKey
                           (NotAfter cert))
      end
    | _, _ => fail "invalid secret data for cert"
    end
  end.

Record CertManager : Type := mkCertManager {
  cmgr_ca : IssuedCertificate;
  cmgr_issuerRef : ObjectReference;
  cmgr_certificates : gmap string IssuedCertificate
}.

Definition certmanager_NewManager (ca : IssuedCertificate) : CertManager :=
  mkCertManager ca (mkObjectReference IssuerKind CAIssuerName IssuerGroup) ∅.

Definition createCertManagerCertificateRequest (r : CertificateRequest) : cm (string * CMStatus) :=
  match ce_createRequest env r with
  | Err e => Ret ([CreateCertificateRequestObject r], Err (kerror_Error e))
  | Ok crName =>
    match waitingForCertificateIssued crName with
    | Err e => Ret ([CreateCertificateRequestObject r], Err e)
    | Ok None => Panic
    | Ok (Some cr) => Ret ([CreateCertificateRequestObject r], Ok (crName, cr))
    end
  end.

(** The request is deleted when the certificate has been built; an error of the
    deletion is logged. *)
Definition certmanager_IssueCertificate (en : entropy) (m : CertManager) (cn : string) (validityPeriod : Z)
    (dnsNames : list string) : cm (IssuedCertificate * CertManager) :=
  tlsKey ← from_result match en_key en with Err e => Err ("generate private key: " +:+ e) | Ok k => Ok k end;
  csrBytes ← from_result
    match CreateCertificateRequest (mkCSR cn [DefaultCAOrganization] dnsNames) tlsKey with
    | Err e => Err ("error creating x509 certificate request: " +:+ e) | Ok b => Ok b end;
  pemCSR ← from_result match CsrToPEM csrBytes with Err e => Err ("encode CSR: " +:+ e) | Ok p => Ok p end;
  cr ← createCertManagerCertificateRequest
         (mkCertificateRequest "cr-" (ce_ns env) pemCSR false validityPeriod
            ["key encipherment"; "digital signature"; "client auth"; "server auth"] (cmgr_issuerRef m));
  pemTlsKey ← from_result (RSAKeyToPEM tlsKey);
  cert ← from_result (ConvertPEMCertToX509 (default "" (cms_Certificate cr.2)));
  let issuedCert := mkIssued (Subject_CommonName cert) (SerialNumber_String cert) (cms_CA cr.2)
                      (default "" (cms_Certificate cr.2)) pemTlsKey (NotAfter cert) in
  Ret ([DeleteCertificateRequest cr.1],
       Ok (issuedCert, mkCertManager (cmgr_ca m) (cmgr_issuerRef m)
                         (<[Subject_CommonName cert := issuedCert]> (cmgr_certificates m)))).

Definition certmanager_GetCertificate (m : CertManager) (cn : string) : result string IssuedCertificate :=
  if bool_decide (cn = "") then Err "CN is empty"
  else match cmgr_certificates m !! cn with
       | None => Err ("no certificate found for CN " +:+ cn)
       | Some cert => Ok cert
       end.

Definition certmanager_GetRootCertificate (m : CertManager) : result string IssuedCertificate := Ok (cmgr_ca m).
End certmanager.

(** ** The interface [Manager] *)

Class Manager (Env M : Type) : Type := {
  mgr_IssueCertificate : Env → M → string → Z → list string → go (result string IssuedCertificate * M);
  mgr_GetCertificate : M → string → result string IssuedCertificate;
  mgr_GetRootCertificate : M → result string IssuedCertificate
}.

(** What a client relies on: an issued certificate can be fetched by its common
    name, the other certificates and the root stay, and a failed call changes
    nothing. *)
Class ManagerLaws (Env M : Type) `{Manager Env M} : Prop := {
  issue_get : ∀ e m cn v dns c m', mgr_IssueCertificate e m cn v dns = Ret (Ok c, m') →
    ic_CommonName c ≠ "" → mgr_GetCertificate m' (ic_CommonName c) = Ok c;
  issue_other : ∀ e m cn v dns c m' cn', mgr_IssueCertificate e m cn v dns = Ret (Ok c, m') →
    cn' ≠ ic_CommonName c → mgr_GetCertificate m' cn' = mgr_GetCertificate m cn';
  issue_root : ∀ e m cn v dns r m', mgr_IssueCertificate e m cn v dns = Ret (r, m') →
    mgr_GetRootCertificate m' = mgr_GetRootCertificate m;
  issue_failed : ∀ e m cn v dns msg m', mgr_IssueCertificate e m cn v dns = Ret (Err msg, m') → m' = m
}.

Section managers.
Context `{X509Lib} `{!CryptoLib} `{WaitLib}.

#[export] Instance archon_manager : Manager entropy ArchonManager := {|
  mgr_IssueCertificate := archon_IssueCertificate;
  mgr_GetCertificate := archon_GetCertificate;
  mgr_GetRootCertificate := archon_GetRootCertificate
|}.

#[export] Instance certmanager_manager : Manager (entropy * cm_env) CertManager := {|
  mgr_IssueCertificate e m cn v dns :=
    match certmanager_IssueCertificate e.2 e.1 m cn v dns with
    | Panic => Panic
    | Ret (_, Ok (c, m')) => Ret (Ok c, m')
    | Ret (_, Err msg) => Ret (Err msg, m)
    end;
  mgr_GetCertificate := certmanager_GetCertificate;
  mgr_GetRootCertificate := certmanager_GetRootCertificate
|}.

(** [Config.GetCertificateManager] *)
Inductive any_manager : Type :=
| ArchonMgr (m : ArchonManager)
| CertMgr (m : CertManager).

Definition getCertManagerCertificateManager (env : cm_env) (en : entropy) (managerType : string) :
    eff cm_write string CertManager :=
  match certmanager_NewRootCA env en DefaultCACommonName DefaultCAValidityPeriod DefaultCACountry
          DefaultCALocality DefaultCAOrganization with
  | Panic => Panic
  | Ret (ws, Err e) => Ret (ws, Err ("failed to create/get root CA, manager type = " +:+ managerType +:+ ", " +:+ e))
  | Ret (ws, Ok rootCert) => Ret (ws, Ok (certmanager_NewManager rootCert))
  end.

Definition GetCertificateManager (mc : MeshConfig) (en : entropy) (env : cm_env)
    (create : gmap string string → option kerror) (get : result kerror (gmap string string)) :
    go (result string any_manager) :=
  let managerType := cs_Manager (mc_Certificate mc) in
  if bool_decide (managerType = Manual) then getManualCertificateManager
  else if bool_decide (managerType = Archon) then
    Ret match ca_run create get (getArchonCertificateManager en managerType) with
        | Ok m => Ok (ArchonMgr m) | Err e => Err e end
  else if bool_decide (managerType = CertManagerType) then
    match getCertManagerCertificateManager env en managerType with
    | Panic => Panic
    | Ret (_, Ok m) => Ret (Ok (CertMgr m))
    | Ret (_, Err e) => Ret (Err e)
    end
  else Ret (Err (managerType +:+ " is not a valid certificate manager")).

(** ** Issuing *)

Lemma archon_issue_cases en m cn v dns r m' :
  archon_IssueCertificate en m cn v dns = Ret (r, m') →
  match r with
  | Err _ => m' = m
  | Ok c => m' = mkArchon (am_ca m) (<[cn := c]> (am_certificates m)) ∧ ic_CommonName c = cn ∧
      ic_CA c = ic_CrtPEM (am_ca m) ∧
      ∃ serial rootCert rootKey key bytes,
        ConvertPEMCertToX509 (ic_CrtPEM (am_ca m)) = Ok rootCert ∧
        ConvertPEMPrivateKeyToX509 (ic_KeyPEM (am_ca m)) = Ret (Ok rootKey) ∧
        CreateCertificate (mkTemplate serial cn [] [] [DefaultCAOrganization] dns (en_now en)
          (en_now en + v) false ["KeyEncipherment"; "DigitalSignature"] ["ClientAuth"; "ServerAuth"] true)
          (Some rootCert) (PublicKey key) rootKey = Ok bytes ∧
        CertToPEM bytes = Ok (ic_CrtPEM c) ∧ RSAKeyToPEM key = Ok (ic_KeyPEM c)
  end.
Proof.
  unfold archon_IssueCertificate.
  destruct (en_serial en) as [serial|e]; [|by intros [= <- <-]].
  destruct (ConvertPEMCertToX509 (ic_CrtPEM (am_ca m))) as [rootCert|e]; [|by intros [= <- <-]].
  destruct (ConvertPEMPrivateKeyToX509 (ic_KeyPEM (am_ca m))) as [[rootKey|e]|]; simpl; [|by intros [= <- <-]|done].
  destruct (en_key en) as [key|e]; [|by intros [= <- <-]].
  destruct (CreateCertificate _ _ _ _) as [bytes|e] eqn:Hc; [|by intros [= <- <-]].
  destruct (CertToPEM bytes) as [p|e] eqn:Hp; [|by intros [= <- <-]].
  destruct (RSAKeyToPEM key) as [k|e] eqn:Hk; [|by intros [= <- <-]].
  intros [= <- <-]. simpl. split_and!; [done..|]. by exists serial, rootCert, rootKey, key, bytes.
Qed.

Lemma certmanager_issue_cases env en m cn v dns ws r :
  certmanager_IssueCertificate env en m cn v dns = Ret (ws, r) →
  match r with
  | Err _ => True
  | Ok (c, m') => m' = mkCertManager (cmgr_ca m) (cmgr_issuerRef m) (<[ic_CommonName c := c]> (cmgr_certificates m))
  end.
Proof.
  unfold certmanager_IssueCertificate. intros H'. destruct r as [[c m']|e]; [|done].
  repeat match goal with
    | Hb : (_ ≫= _) = Ret (_, Ok _) |- _ =>
      apply eff_bind_Ret in Hb as [(? & _ & [=])|(? & ? & ? & _ & Hb & ->)]
    end.
  by injection H' as <- <- <-.
Qed.

#[export] Instance archon_manager_laws : ManagerLaws entropy ArchonManager.
Proof.
  split.
  - intros e m cn v dns c m' (-> & <- & _)%archon_issue_cases Hne. simpl. unfold archon_GetCertificate.
    rewrite bool_decide_false by done. simpl. by rewrite lookup_insert_eq.
  - intros e m cn v dns c m' cn' (-> & <- & _)%archon_issue_cases Hne. simpl. unfold archon_GetCertificate.
    simpl. by rewrite lookup_insert_ne.
  - intros e m cn v dns [c|msg] m' Hi%archon_issue_cases; [by destruct Hi as [-> _]|by subst].
  - intros e m cn v dns msg m' Hi%archon_issue_cases. done.
Qed.

#[export] Instance certmanager_manager_laws : ManagerLaws (entropy * cm_env) CertManager.
Proof.
  assert (Hok : ∀ e m cn v dns c m', @mgr_IssueCertificate _ _ certmanager_manager e m cn v dns = Ret (Ok c, m') →
    m' = mkCertManager (cmgr_ca m) (cmgr_issuerRef m) (<[ic_CommonName c := c]> (cmgr_certificates m))).
  { intros e m cn v dns c m'. simpl.
    destruct (certmanager_IssueCertificate _ _ _ _ _ _) as [[ws [[c' m'']|msg]]|] eqn:Hi; [|done|done].
    intros [= <- <-]. by apply certmanager_issue_cases in Hi. }
  split.
  - intros e m cn v dns c m' ->%Hok Hne. simpl. unfold certmanager_GetCertificate.
    rewrite bool_decide_false by done. simpl. by rewrite lookup_insert_eq.
  - intros e m cn v dns c m' cn' ->%Hok Hne. simpl. unfold certmanager_GetCertificate.
    simpl. by rewrite lookup_insert_ne.
  - intros e m cn v dns [c|msg] m' Hi; [by rewrite (Hok _ _ _ _ _ _ _ Hi)|].
    simpl in Hi. destruct (certmanager_IssueCertificate _ _ _ _ _ _) as [[ws [[c' m'']|msg']]|]; [done|by injection Hi as _ <-|done].
  - intros e m cn v dns msg m' Hi. simpl in Hi.
    destruct (certmanager_IssueCertificate _ _ _ _ _ _) as [[ws [[c' m'']|msg']]|]; [done|by injection Hi as _ <-|done].
Qed.
End managers.

(** ** Certificates that verify *)

Section verify.
Context `{X509Lib} `{!CryptoLib} `{!CryptoLaws}.

Lemma CertToPEM_parse b p c :
  CertToPEM b = Ok p → x509_ParseCertificate b = Ok c → ConvertPEMCertToX509 p = Ok c.
Proof.
  unfold CertToPEM, ConvertPEMCertToX509. destruct (pem_Encode _ b) eqn:Hp; [|done].
  intros [= <-] Hc. by rewrite (pem_roundtrip _ _ _ Hp).
Qed.

Lemma RSAKeyToPEM_parse k p : RSAKeyToPEM k = Ok p → ConvertPEMPrivateKeyToX509 p = Ret (Ok k).
Proof.
  unfold RSAKeyToPEM, ConvertPEMPrivateKeyToX509.
  destruct (MarshalPKCS8PrivateKey k) as [b|] eqn:Hm; [|done]. destruct (pem_Encode _ b) eqn:Hp; [|done].
  intros [= <-]. by rewrite (pem_roundtrip _ _ _ Hp), (pkcs8_roundtrip _ _ Hm).
Qed.

(** The two PEM documents are a certificate and its private key. *)
Definition key_pair (crtPEM keyPEM : string) (c : x509_Certificate) (k : RSAPrivateKey) : Prop :=
  ConvertPEMCertToX509 crtPEM = Ok c ∧ ConvertPEMPrivateKeyToX509 keyPEM = Ret (Ok k) ∧
  cert_PublicKey c = PublicKey k.

(** A self-signed root CA with its key. *)
Definition ca_ok (ca : IssuedCertificate) : Prop :=
  ic_CA ca = ic_CrtPEM ca ∧
  ∃ c k, key_pair (ic_CrtPEM ca) (ic_KeyPEM ca) c k ∧ CheckSignature c (cert_PublicKey c) = true.

(** A certificate for [cn] with its key, signed by the CA it names. *)
Definition issued_by (ca : IssuedCertificate) (cn : string) (cert : IssuedCertificate) : Prop :=
  ic_CommonName cert = cn ∧ ic_CA cert = ic_CrtPEM ca ∧
  ∃ c k root, key_pair (ic_CrtPEM cert) (ic_KeyPEM cert) c k ∧ Subject_CommonName c = cn ∧
    ConvertPEMCertToX509 (ic_CA cert) = Ok root ∧ CheckSignature c (cert_PublicKey root) = true.

Lemma archon_NewRootCA_ok en cn v country locality organization ca :
  archon_NewRootCA en cn v country locality organization = Ok ca → ca_ok ca ∧ ic_CommonName ca = cn.
Proof.
  unfold archon_NewRootCA. destruct (en_serial en) as [serial|]; [|done].
  destruct (en_key en) as [k|]; [|done]. destruct (CreateCertificate _ _ _ _) as [b|] eqn:Hc; [|done].
  destruct (CertToPEM b) as [p|] eqn:Hp; [|done]. destruct (RSAKeyToPEM k) as [q|] eqn:Hq; [|done].
  intros [= <-]. split; [|done]. split; [done|]. apply create_parse in Hc as (c & Hc & _ & _ & Hpub & Hsig).
  exists c, k. simpl. rewrite Hpub. split; [|done].
  split_and!; [by eapply CertToPEM_parse|by apply RSAKeyToPEM_parse|done].
Qed.

(** A certificate issued by a manager with a proper CA. *)
Lemma archon_issue_verifies en m cn v dns c m' :
  ca_ok (am_ca m) → archon_IssueCertificate en m cn v dns = Ret (Ok c, m') →
  issued_by (am_ca m) cn c ∧ ∃ x, ConvertPEMCertToX509 (ic_CrtPEM c) = Ok x ∧ cert_DNSNames x = dns.
Proof.
  intros Hca Hi. apply archon_issue_cases in Hi
    as (_ & Hcn & HCA & serial & root & rootKey & key & b & Hroot & HrootKey & Hb & Hp & Hk).
  destruct Hca as (_ & rc & rk & (Hrc & Hrk & Hpub) & _).
  rewrite Hroot in Hrc. rewrite HrootKey in Hrk. injection Hrc as <-. injection Hrk as <-.
  apply create_parse in Hb as (x & Hx & Hname & Hdns & Hxpub & Hsig).
  pose proof (CertToPEM_parse _ _ _ Hp Hx) as Hparse. split; [|by exists x].
  split; [done|]. split; [done|]. exists x, key, root. rewrite Hpub, HCA.
  split; [|done]. split; [done|]. split; [by apply RSAKeyToPEM_parse|done].
Qed.

(** Issuing certificates, one after the other. *)
Inductive archon_step (m : ArchonManager) : ArchonManager → Prop :=
| archon_issue en cn v dns r m' :
    archon_IssueCertificate en m cn v dns = Ret (r, m') → archon_step m m'.

(** C34 (invariant).  Whatever certificates are requested of an archon manager
    made from a root CA, successfully or not, the call never panics, and every
    certificate it hands out by name is for that name, comes with the private key
    of the public key it certifies, names the manager's CA and is signed by it. *)
Theorem archon_certificates_verify ca m :
  ca_ok ca → rtc archon_step (archon_NewManager ca) m →
  archon_GetRootCertificate m = Ok ca ∧
  (∀ cn cert, archon_GetCertificate m cn = Ok cert → issued_by ca cn cert) ∧
  (∀ en cn v dns, ∃ r m', archon_IssueCertificate en m cn v dns = Ret (r, m')).
Proof.
  intros Hca Hr.
  assert (am_ca m = ca ∧ ∀ cn cert, am_certificates m !! cn = Some cert → issued_by ca cn cert) as [Hm Hc].
  { revert Hr. apply (rtc_invariant archon_step (fun m => am_ca m = ca ∧
      ∀ cn cert, am_certificates m !! cn = Some cert → issued_by ca cn cert));
      [split; [done|intros cn cert; simpl; by rewrite lookup_empty]|].
    clear m. intros m m' [en cn v dns r m'' Hi] [Hm Hc]. destruct r as [c|].
    - destruct (archon_issue_verifies en m cn v dns c m'') as [Hok _]; [by rewrite Hm|done|].
      apply archon_issue_cases in Hi as [-> _]. split; [done|]. intros cn' cert. simpl.
      rewrite lookup_insert. case_decide; [|apply Hc]. intros [= <-]. by rewrite <-Hm; subst cn'.
    - apply archon_issue_cases in Hi. by subst. }
  split; [by rewrite <-Hm|]. split.
  - intros cn cert. unfold archon_GetCertificate. case_bool_decide; [done|].
    destruct (am_certificates m !! cn) eqn:Hcn; [|done]. intros [= <-]. by apply Hc.
  - intros en cn v dns. unfold archon_IssueCertificate. rewrite Hm.
    destruct Hca as (_ & rc & rk & (-> & -> & _) & _). simpl. destruct (en_serial en); [|by eauto].
    destruct (en_key en); [|by eauto]. destruct (CreateCertificate _ _ _ _); [|by eauto].
    destruct (CertToPEM _); [|by eauto]. destruct (RSAKeyToPEM _); by eauto.
Qed.
End verify.

(** ** The replicas of the control plane

    Every replica runs [getArchonCertificateManager]: it generates a root CA, tries
    to create the Secret and then reads it.  The two calls of different replicas
    interleave, and each may fail. *)

Section replicas.
Context `{X509Lib} `{!CryptoLib}.

Record replica : Type := mkReplica {
  (** the random numbers and the clock it generates its root CA with *)
  rp_entropy : entropy;
  (** what is left of its program *)
  rp_prog : ca_prog (result string ArchonManager)
}.

Record ca_state : Type := mkCaState {
  ca_store : option (gmap string string);
  ca_replicas : gmap nat replica
}.

Inductive ca_step (s : ca_state) : ca_state → Prop :=
| replica_start i en managerType :
    ca_replicas s !! i = None →
    ca_step s (mkCaState (ca_store s)
      (<[i := mkReplica en (getArchonCertificateManager en managerType)]> (ca_replicas s)))
| replica_create i en data k :
    ca_replicas s !! i = Some (mkReplica en (CaCreate data k)) →
    ca_step s
      match ca_store s with
      | None => mkCaState (Some data) (<[i := mkReplica en (k None)]> (ca_replicas s))
      | Some _ => mkCaState (ca_store s) (<[i := mkReplica en (k (Some AlreadyExists))]> (ca_replicas s))
      end
| replica_create_fails i en data k e :
    ca_replicas s !! i = Some (mkReplica en (CaCreate data k)) → e ≠ AlreadyExists →
    ca_step s (mkCaState (ca_store s) (<[i := mkReplica en (k (Some e))]> (ca_replicas s)))
| replica_get i en k get :
    ca_replicas s !! i = Some (mkReplica en (CaGet k)) →
    match get with
    | Ok data => ca_store s = Some data
    | Err _ => True
    end →
    ca_step s (mkCaState (ca_store s) (<[i := mkReplica en (k get)]> (ca_replicas s))).

(** The root CA a replica generates for itself. *)
Definition own_root (en : entropy) : result string IssuedCertificate :=
  archon_NewRootCA en DefaultCACommonName DefaultCAValidityPeriod DefaultCACountry DefaultCALocality
    DefaultCAOrganization.

(** What may be left of a replica's program: all of it; the read of the Secret; or
    nothing, and a manager is then one, still empty, for the CA read from the
    Secret stored. *)
Definition finished (store : option (gmap string string)) (p : ca_prog (result string ArchonManager)) : Prop :=
  match p with
  | CaDone (Ok m) => ∃ data ca, store = Some data ∧ read_ca data = Ok ca ∧ m = archon_NewManager ca
  | CaDone (Err _) => True
  | _ => False
  end.

Definition reading (p : ca_prog (result string ArchonManager)) : Prop :=
  match p with
  | CaGet k => (∀ data, finished (Some data) (k (Ok data))) ∧ (∀ e store, finished store (k (Err e)))
  | _ => False
  end.

Definition prog_ok (store : option (gmap string string)) (r : replica) : Prop :=
  match rp_prog r with
  | CaCreate data k =>
    (∃ root, own_root (rp_entropy r) = Ok root ∧ data = ca_secret root) ∧
    ∀ a, reading (k a) ∨ ∀ store, finished store (k a)
  | p => reading p ∨ finished store p
  end.

Lemma getArchonCertificateManager_ok store en managerType :
  prog_ok store (mkReplica en (getArchonCertificateManager en managerType)).
Proof.
  unfold prog_ok, getArchonCertificateManager. simpl.
  destruct (archon_NewRootCA _ _ _ _ _ _) as [root|e] eqn:Hroot; [|by right].
  assert (Hread : reading (ca_bind (CaGet (fun get =>
      match get with
      | Err e => CaDone (Err ("CA bundle not found: " +:+ kerror_Error e))
      | Ok data => CaDone (read_ca data)
      end)) (fun saved =>
      match saved with
      | Err e => CaDone (Err ("failed to get/create CA, " +:+ e))
      | Ok rootCert => CaDone (Ok (archon_NewManager rootCert))
      end))).
  { split; [|done]. intros data. destruct (read_ca data) as [ca|e] eqn:Hca; [|done]. by exists data, ca. }
  split; [by exists root|]. intros [[]|]; solve [by right|by left].
Qed.

(** The Secret, once stored, stays; every program is well-behaved; and the Secret is
    the initial one, or there was none and it holds the CA of a replica. *)
Definition ca_inv (initial : option (gmap string string)) (s : ca_state) : Prop :=
  (∀ i r, ca_replicas s !! i = Some r → prog_ok (ca_store s) r) ∧
  (∀ data, initial = Some data → ca_store s = Some data) ∧
  (∀ data, ca_store s = Some data → initial = Some data ∨
     ∃ i r root, ca_replicas s !! i = Some r ∧ own_root (rp_entropy r) = Ok root ∧ data = ca_secret root).

Lemma prog_ok_store data r : prog_ok None r → prog_ok (Some data) r.
Proof.
  unfold prog_ok. destruct (rp_prog r) as [[m|e]| |]; [|done..].
  intros [[]|(data' & ca & [=] & _)].
Qed.

(** A replica goes on with the rest of its program. *)
Lemma ca_inv_advance initial s i en p p' :
  ca_inv initial s → ca_replicas s !! i = Some (mkReplica en p) →
  prog_ok (ca_store s) (mkReplica en p') →
  ca_inv initial (mkCaState (ca_store s) (<[i := mkReplica en p']> (ca_replicas s))).
Proof.
  intros (Hps & Hinit & Hst) Hi Hp'. split_and!; simpl; [|done|].
  - intros j r. rewrite lookup_insert. case_decide; [by intros [= <-]|by eauto].
  - intros data Hd. destruct (Hst _ Hd) as [?|(j & r & root & Hj & Hroot & ->)]; [by left|right].
    destruct (decide (i = j)) as [<-|Hne].
    + eexists i, _, root. rewrite lookup_insert_eq. split; [done|]. by simplify_eq.
    + exists j, r, root. by rewrite lookup_insert_ne.
Qed.

Lemma after_create store en data k a :
  prog_ok store (mkReplica en (CaCreate data k)) → ∀ store', prog_ok store' (mkReplica en (k a)).
Proof.
  intros [_ Hk] store'. specialize (Hk a). unfold prog_ok. simpl.
  destruct (k a) as [| |k'] eqn:Hka; [|by destruct Hk as [[]|Hk]; destruct (Hk None)|];
    (destruct Hk as [Hk|Hk]; [by left|right; exact (Hk store')]).
Qed.

Lemma ca_step_inv initial s s' : ca_step s s' → ca_inv initial s → ca_inv initial s'.
Proof.
  intros Hstep Hinv.
  destruct Hstep as [i en managerType Hi|i en data k Hi|i en data k e Hi He|i en k get Hi Hget].
  - destruct Hinv as (Hps & Hinit & Hst). split_and!; simpl; [|done|].
    + intros j r. rewrite lookup_insert. case_decide; [|by eauto].
      intros [= <-]. apply getArchonCertificateManager_ok.
    + intros data Hd. destruct (Hst _ Hd) as [?|(j & r & root & Hj & Hroot & ->)]; [by left|right].
      exists j, r, root. split; [|done]. by rewrite lookup_insert_ne by congruence.
  - pose proof (proj1 Hinv _ _ Hi) as Hp.
    assert (Hp' : ∀ a store', prog_ok store' (mkReplica en (k a))) by (intros a; by eapply after_create).
    destruct (ca_store s) as [stored|] eqn:Hs; rewrite <-?Hs.
    { by eapply ca_inv_advance. }
    destruct Hinv as (Hps & Hinit & Hst). split_and!; simpl.
    + intros j r. rewrite lookup_insert. case_decide; [by intros [= <-]|].
      intros Hj. apply prog_ok_store. rewrite <-Hs. by eapply Hps.
    + intros d Hd. rewrite (Hinit _ Hd) in Hs. done.
    + intros d [= <-]. right. destruct Hp as [(root & Hroot & ->) _].
      eexists i, _, root. by rewrite lookup_insert_eq.
  - eapply ca_inv_advance; [done|done|]. eapply after_create, (proj1 Hinv), Hi.
  - eapply ca_inv_advance; [done|done|].
    assert (Hp : finished (ca_store s) (k get)).
    { destruct (proj1 Hinv _ _ Hi) as [[Hok Herr]|[]]. destruct get as [data|e]; [rewrite Hget; apply Hok|apply Herr]. }
    unfold prog_ok. simpl. destruct (k get); [by right|destruct Hp|destruct Hp].
Qed.

Lemma ca_inv_reachable initial s : rtc ca_step (mkCaState initial ∅) s → ca_inv initial s.
Proof.
  apply rtc_invariant.
  - split_and!; simpl; [intros i r; by rewrite lookup_empty|done|by left].
  - intros s1 s2 Hs. by apply ca_step_inv.
Qed.
End replicas.

(** C35 (safety).  However the replicas of the control plane interleave their
    attempts to create and read the Secret of the root CA, whichever of these calls
    fail, and whether or not the Secret is there before, as long as nobody else writes it:
    every replica that gets a manager gets an empty one for the certificate and key in the Secret stored, so all
    replicas have the same root; a Secret that was there before is kept, and when
    there was none, the root of the managers is the self-signed CA that one of the
    replicas generated, with its private key. *)
Theorem replicas_share_ca `{X509Lib} `{!CryptoLib} `{!CryptoLaws} initial s :
  rtc ca_step (mkCaState initial ∅) s →
  (∀ data, initial = Some data → ca_store s = Some data) ∧
  ∀ i ri mi, ca_replicas s !! i = Some ri → rp_prog ri = CaDone (Ok mi) →
    (∃ data, ca_store s = Some data ∧ read_ca data = Ok (am_ca mi) ∧ am_certificates mi = ∅) ∧
    (∀ j rj mj, ca_replicas s !! j = Some rj → rp_prog rj = CaDone (Ok mj) → am_ca mi = am_ca mj) ∧
    (initial = None → ca_ok (am_ca mi) ∧
       ∃ k rk root, ca_replicas s !! k = Some rk ∧
         archon_NewRootCA (rp_entropy rk) DefaultCACommonName DefaultCAValidityPeriod DefaultCACountry
           DefaultCALocality DefaultCAOrganization = Ok root ∧
         ic_CrtPEM (am_ca mi) = ic_CrtPEM root ∧ ic_KeyPEM (am_ca mi) = ic_KeyPEM root).
Proof.
  intros (Hps & Hinit & Hst)%ca_inv_reachable. split; [done|].
  assert (Hread : ∀ i ri mi, ca_replicas s !! i = Some ri → rp_prog ri = CaDone (Ok mi) →
    ∃ data, ca_store s = Some data ∧ read_ca data = Ok (am_ca mi) ∧ am_certificates mi = ∅).
  { intros i ri mi Hi Hdone. specialize (Hps _ _ Hi). unfold prog_ok in Hps. rewrite Hdone in Hps.
    destruct Hps as [[]|(data & ca & Hd & Hr & ->)]. by exists data. }
  intros i ri mi Hi Hdi. split; [by eapply Hread|]. destruct (Hread i ri mi Hi Hdi) as (data & Hd & Hr & _). split.
  - intros j rj mj Hj Hdj. destruct (Hread j rj mj Hj Hdj) as (data' & Hd' & Hr' & _). congruence.
  - intros ->. destruct (Hst _ Hd) as [[=]|(k & r & root & Hk & Hroot & ->)].
    pose proof Hroot as Hroot'. apply archon_NewRootCA_ok in Hroot as [(HCA & c & key & Hkp & Hsig) _].
    unfold read_ca, ca_secret in Hr. rewrite lookup_insert_eq, lookup_insert_ne, lookup_singleton_eq in Hr by done.
    rewrite (proj1 Hkp) in Hr. injection Hr as Hr. rewrite <-Hr. split.
    + split; [done|]. by exists c, key.
    + by exists k, r, root.
Qed.

(** ** Polling *)

Section polling.
Context `{X509Lib} `{!CryptoLib} `{WaitLib} `{!WaitLaws}.
Context (env : cm_env).

(** The outcome of one of the two polls, whose condition at test [i] is [cond i]:
    it is over after at most 62 tests. *)
Lemma poll_outcome cond n r :
  PollImmediate DefaultPollInterval DefaultPollTimeout cond = (n, r) →
  (∀ i, (i < n)%nat → cond i = Ok false) ∧ (n ≤ 61)%nat ∧
  match r with
  | Ok _ => cond n = Ok true
  | Err (PollCondition e) => cond n = Err e
  | Err PollTimeout => cond n = Ok false
  end.
Proof.
  intros Hp. apply PollImmediate_spec in Hp as (Hlt & Hn & Hr); [|by vm_compute..].
  unfold DefaultPollInterval, DefaultPollTimeout, second in *. split; [done|]. split; [lia|done].
Qed.

Lemma request_issued_true ans :
  request_issued ans = Ok true → ∃ cr crt, ans = Ok cr ∧ is_ready cr = true ∧ cms_Certificate cr = Some crt.
Proof.
  unfold request_issued. destruct ans as [cr|[]]; [|done..]. intros [= Hr].
  apply andb_true_iff in Hr as [Hr Hs]. apply bool_decide_eq_true in Hs as [crt Hs]. eauto.
Qed.

Lemma certificate_wait_spec crName :
  let ans := ce_listRequest env crName in
  ∃ n, (n ≤ 61)%nat ∧ (∀ i, (i < n)%nat → request_issued (ans i) = Ok false) ∧
    match waitingForCertificateIssued env crName with
    | Ok (Some cr) => ans n = Ok cr ∧ is_ready cr = true ∧ is_Some (cms_Certificate cr)
    | Ok None => False
    | Err msg =>
      (∃ e, ans n = Err e ∧ e ≠ NotFound ∧ msg = kerror_Error e) ∨
      request_issued (ans n) = Ok false ∧ msg = poll_message PollTimeout
    end.
Proof.
  intros ans. unfold waitingForCertificateIssued.
  destruct (PollImmediate _ _ _) as [n r] eqn:Hp. apply poll_outcome in Hp as (Hlt & Hn & Hr).
  exists n. split; [done|]. split; [done|]. fold ans in Hr |- *. destruct r as [[]|[|e]].
  - apply request_issued_true in Hr as (cr & crt & -> & Hready & ->). by eauto.
  - right. naive_solver.
  - left. unfold request_issued in Hr. destruct (ans n) as [|[]]; naive_solver.
Qed.


(** The same for the CA. *)
Lemma ca_wait_terminates :
  ∃ n, (n ≤ 61)%nat ∧ (∀ i, (i < n)%nat → ca_issued (ce_listCertificate env i) = Ok false) ∧
    match waitingForCAIssued env with
    | Ok (Some ca) => ce_listCertificate env n = Ok ca ∧ is_ready ca = true
    | Ok None => False
    | Err msg => (∃ e, ce_listCertificate env n = Err e ∧ msg = kerror_Error e) ∨
        ca_issued (ce_listCertificate env n) = Ok false ∧ msg = poll_message PollTimeout
    end.
Proof.
  unfold waitingForCAIssued. destruct (PollImmediate _ _ _) as [n r] eqn:Hp.
  apply poll_outcome in Hp as (Hlt & Hn & Hr). exists n. split; [done|]. split; [done|].
  destruct r as [[]|[|e]].
  - unfold ca_issued in Hr. destruct (ce_listCertificate env n) as [ca|[]]; [|done..]. naive_solver.
  - right. naive_solver.
  - left. unfold ca_issued in Hr. destruct (ce_listCertificate env n) as [|[]]; naive_solver.
Qed.

(** Issuing a certificate never panics; what it wrote is the request, deleted
    again exactly when the certificate was built: a request that timed out or
    whose certificate cannot be parsed is left behind. *)
Theorem certmanager_requests_left en m cn v dns :
  ∃ ws r, certmanager_IssueCertificate env en m cn v dns = Ret (ws, r) ∧
    match r with
    | Ok _ => ∃ req name, ws = [CreateCertificateRequestObject req; DeleteCertificateRequest name] ∧
        ce_createRequest env req = Ok name
    | Err _ => ws = [] ∨ ∃ req, ws = [CreateCertificateRequestObject req]
    end.
Proof.
  unfold certmanager_IssueCertificate, createCertManagerCertificateRequest.
  destruct (en_key en) as [key|]; simpl; [|eexists _, _; split; [done|by left]].
  destruct (CreateCertificateRequest _ _) as [b|]; simpl; [|eexists _, _; split; [done|by left]].
  destruct (CsrToPEM b) as [p|]; simpl; [|eexists _, _; split; [done|by left]].
  destruct (ce_createRequest env _) as [name|] eqn:Hreq; simpl;
    [|eexists _, _; split; [done|right; by eexists]].
  destruct (certificate_wait_spec name) as (n & _ & _ & Hw).
  destruct (waitingForCertificateIssued env name) as [[cr|]|]; simpl;
    [|done|eexists _, _; split; [done|right; by eexists]].
  destruct (RSAKeyToPEM key); simpl; [|eexists _, _; split; [done|right; by eexists]].
  destruct (ConvertPEMCertToX509 _); simpl; eexists _, _; (split; [done|]); [by eexists _, _|right; by eexists].
Qed.
End polling.

(** ** Witnesses *)

(** Certificates and keys written out: a certificate is its common name, public
    key, signer and DNS names, separated by bars; a key is its own encoding. *)
Definition sample_certs : X509Lib := {|
  x509_Certificate := string * string * string * list string;
  pem_Decode := fun s => match s with EmptyString => None | String _ s => Some s end;
  x509_ParseCertificate := fun s =>
    match split_on "|"%char s with cn :: pub :: signer :: dns => Ok (cn, pub, signer, dns) | _ => Err "asn1" end;
  VerifyHostname := fun _ _ => None
|}.

Definition sample_cert : Type := @x509_Certificate sample_certs.
Definition sc_name (c : sample_cert) : string := match c with (cn, _, _, _) => cn end.
Definition sc_key (c : sample_cert) : string := match c with (_, pub, _, _) => pub end.
Definition sc_signer (c : sample_cert) : string := match c with (_, _, signer, _) => signer end.
Definition sc_dns (c : sample_cert) : list string := match c with (_, _, _, dns) => dns end.

Definition sample_crypto : @CryptoLib sample_certs := {|
  RSAPrivateKey := string;
  PublicKey := fun k => k;
  Subject_CommonName := sc_name;
  SerialNumber_String := fun _ => "1";
  NotAfter := fun _ => 0%Z;
  CreateCertificate := fun t _ pub k =>
    let fields := t_CommonName t :: pub :: k :: t_DNSNames t in
    if decide (split_on "|"%char (Join fields "|") = fields) then Ok (Join fields "|") else Err "asn1";
  CreateCertificateRequest := fun _ _ => Ok "csr";
  pem_Encode := fun _ b => Ok (String "-"%char b);
  MarshalPKCS8PrivateKey := fun k => Ok k;
  ParsePKCS8PrivateKey := fun b => Ok (Some b);
  cert_PublicKey := sc_key;
  cert_DNSNames := sc_dns;
  CheckSignature := fun (c : sample_cert) pub => bool_decide (sc_signer c = pub)
|}.

Lemma sample_crypto_laws : @CryptoLaws sample_certs sample_crypto.
Proof.
  split.
  - by intros ty b p [= <-].
  - by intros k b [= <-].
  - intros t parent pub k b. simpl. case_decide as Hd; [|done]. intros [= <-].
    eexists. simpl in Hd. rewrite Hd. split; [done|]. simpl. by rewrite bool_decide_true.
Qed.

Definition sample_entropy (key : string) : @entropy sample_certs sample_crypto :=
  @mkEntropy sample_certs sample_crypto (Ok 7%Z) 0 (Ok key).

Definition sample_ca : IssuedCertificate :=
  mkIssued "flomesh.io" "1" "-flomesh.io|K|K" "-flomesh.io|K|K" "-K" 0.

Definition sample_archon : ArchonManager :=
  match @archon_IssueCertificate sample_certs sample_crypto (sample_entropy "L") (archon_NewManager sample_ca) "web" 0 [] with
  | Ret (_, m) => m
  | Panic => archon_NewManager sample_ca
  end.

Lemma archon_certificates_verify_witness :
  ∃ cert, archon_GetCertificate sample_archon "web" = Ok cert ∧
    @issued_by sample_certs sample_crypto sample_ca "web" cert.
Proof.
  eexists. split; [reflexivity|].
  eapply (@archon_certificates_verify sample_certs sample_crypto sample_crypto_laws sample_ca sample_archon).
  - split; [reflexivity|]. exists ("flomesh.io", "K", "K", []), "K". split; [|reflexivity]. split_and!; reflexivity.
  - apply rtc_once. eapply (archon_issue _ (sample_entropy "L") "web" 0 [] _). reflexivity.
  - reflexivity.
Defined.

Definition ca_of (key : string) : IssuedCertificate :=
  mkIssued "flomesh.io" "7" ("-flomesh.io|" +:+ key +:+ "|" +:+ key) ("-flomesh.io|" +:+ key +:+ "|" +:+ key)
    ("-" +:+ key) DefaultCAValidityPeriod.

(** Two replicas start; the second creates the Secret, the first finds it, and
    both read it. *)
Definition sample_ca_state : ca_state :=
  let m := @CaDone (result string ArchonManager) 
    (Ok (archon_NewManager (mkIssued "flomesh.io" "1" "-flomesh.io|B|B" "-flomesh.io|B|B" "-B" 0))) in
  mkCaState (Some (ca_secret (ca_of "B")))
    (<[1 := mkReplica (sample_entropy "B") m]> (<[0 := mkReplica (sample_entropy "A") m]> ∅)).

Lemma sample_ca_reachable :
  rtc (@ca_step sample_certs sample_crypto) (mkCaState None ∅) sample_ca_state.
Proof.
  eapply rtc_l; [apply (replica_start _ 0 (sample_entropy "A") Archon); reflexivity|].
  eapply rtc_l; [apply (replica_start _ 1 (sample_entropy "B") Archon); reflexivity|].
  eapply rtc_l; [eapply (replica_create _ 1); reflexivity|].
  eapply rtc_l; [eapply (replica_create _ 0); reflexivity|].
  eapply rtc_l; [eapply (replica_get _ 0 _ _ (Ok (ca_secret (ca_of "B")))); reflexivity|].
  eapply rtc_l; [eapply (replica_get _ 1 _ _ (Ok (ca_secret (ca_of "B")))); reflexivity|].
  match goal with |- rtc _ ?a ?b => replace a with b; [apply rtc_refl|vm_compute; reflexivity] end.
Qed.

Lemma replicas_share_ca_witness :
  ∃ m0 m1 r0 r1,
    ca_replicas sample_ca_state !! 0 = Some r0 ∧ ca_replicas sample_ca_state !! 1 = Some r1 ∧
    rp_prog r0 = CaDone (Ok m0) ∧ rp_prog r1 = CaDone (Ok m1) ∧ am_ca m0 = am_ca m1 ∧
    @ca_ok sample_certs sample_crypto (am_ca m0).
Proof.
  eexists _, _, _, _. split; [reflexivity|]. split; [reflexivity|]. split; [reflexivity|]. split; [reflexivity|].
  pose proof (proj2 (@replicas_share_ca sample_certs sample_crypto sample_crypto_laws None sample_ca_state
    sample_ca_reachable) 0 _ _ eq_refl eq_refl) as (_ & Heq & Hok).
  split; [exact (Heq 1 _ _ eq_refl eq_refl)|]. exact (proj1 (Hok eq_refl)).
Defined.

(** Testing every interval until the timeout, and then once more. *)
Fixpoint poll_from (cond : nat → result kerror bool) (tests i : nat) : nat * result poll_error unit :=
  match cond i with
  | Err e => (i, Err (PollCondition e))
  | Ok true => (i, Ok tt)
  | Ok false => match tests with 0 => (i, Err PollTimeout) | S tests => poll_from cond tests (S i) end
  end.

Definition sample_wait : WaitLib :=
  {| PollImmediate := fun interval timeout cond => poll_from cond (S (Z.to_nat (timeout / interval))) 0 |}.

Lemma poll_from_spec cond fuel i n r :
  (∀ j, (j < i)%nat → cond j = Ok false) → poll_from cond fuel i = (n, r) →
  (∀ j, (j < n)%nat → cond j = Ok false) ∧ (n ≤ i + fuel)%nat ∧
  match r with
  | Ok _ => cond n = Ok true
  | Err (PollCondition e) => cond n = Err e
  | Err PollTimeout => cond n = Ok false
  end.
Proof.
  revert i. induction fuel as [|fuel IH]; intros i Hi; simpl; destruct (cond i) as [[]|e] eqn:Hc;
    try (intros [= <- <-]; split_and!; [done|lia|done]).
  intros Hp. destruct (IH (S i)) as (H1 & H2 & H3); [|done|].
  - intros j Hj. destruct (decide (j = i)) as [->|]; [done|]. apply Hi. lia.
  - split_and!; [done|lia|done].
Qed.

Lemma sample_wait_laws : @WaitLaws sample_wait.
Proof.
  split. intros interval timeout cond n r Hi Ht Hp. apply poll_from_spec in Hp as (H1 & H2 & H3); [|lia].
  pose proof (Z.div_pos timeout interval ltac:(lia) ltac:(lia)) as Hpos.
  pose proof (Z.mul_div_le timeout interval Hi) as Hle.
  split; [done|]. split; [nia|done].
Qed.

(** The request is unknown at first, then pending, then issued. *)
Definition sample_cm_env : cm_env :=
  mkCmEnv "ns" "ca" Ok (fun _ => Err NotFound) (fun _ => None) (fun _ => Ok "cr-1") (fun _ => None)
    (fun _ => Err NotFound)
    (fun _ i => match i with
                | 0 => Err NotFound
                | 1 => Ok (mkCMStatus [("Ready", "False")] None "")
                | _ => Ok (mkCMStatus [("Ready", "True")] (Some "-web|L|K") "-flomesh.io|K|K")
                end) (Err NotFound).

