(* ===== verification/Admission.v ===== *)
(** * Admission: registration and handlers ([pkg/admission/admission.go],
    [pkg/webhooks/types.go], [defaulter.go], [validator.go], [pkg/util/errors.go])

    The API server is told which webhooks to call ([registry]); each call is
    handled by a [mutatingHandler] or a [validatingHandler] around an
    implementation of the interface [Defaulter] or [Validator].  The handlers are
    generic in the type of objects; [Webhooks] gives the implementations. *)

From S2P Require Import Prelude GoLib Kube.

(** ** Webhook configurations *)

Inductive OperationType : Type := CreateOp | UpdateOp | DeleteOp | ConnectOp.
#[export] Instance OperationType_eq_dec : EqDecision OperationType.
Proof. solve_decision. Defined.

Record RuleWithOperations : Type := mkRuleWithOperations {
  rule_Operations : list OperationType;
  rule_APIGroups : list string;
  rule_APIVersions : list string;
  rule_Resources : list string
}.

Record Webhook : Type := mkWebhook {
  wh_Name : string;
  wh_ServiceNamespace : string;
  wh_ServiceName : string;
  wh_Path : string;
  wh_CABundle : string;
  wh_FailurePolicy : string;
  wh_MatchPolicy : string;
  wh_Rules : list RuleWithOperations;
  wh_SideEffects : string;
  wh_AdmissionReviewVersions : list string;
  (** the match labels of the selector, if there is one *)
  wh_NamespaceSelector : option (gmap string string)
}.

Definition NewRule (operations : list OperationType) (apiGroups apiVersions resources : list string) :
    RuleWithOperations :=
  mkRuleWithOperations operations apiGroups apiVersions resources.

Definition NewMutatingWebhook (name svcNamespace svcName path caBundle : string)
    (namespaceSelector : option (gmap string string)) (rules : list RuleWithOperations) : Webhook :=
  mkWebhook name svcNamespace svcName path caBundle "Fail" "Exact" rules "None" ["v1"] namespaceSelector.

Definition NewValidatingWebhook (name svcNamespace svcName path caBundle : string)
    (namespaceSelector : option (gmap string string)) (rules : list RuleWithOperations) : Webhook :=
  mkWebhook name svcNamespace svcName path caBundle "Fail" "Exact" rules "None" ["v1"] namespaceSelector.

(** The package variables. *)
Record registry : Type := mkRegistry {
  mutatingWebhooks : gmap string Webhook;
  validatingWebhooks : gmap string Webhook
}.

Definition empty_registry : registry := mkRegistry ∅ ∅.

Definition RegisterMutatingWebhook (name : string) (webhook : Webhook) (r : registry) : registry :=
  mkRegistry (<[name := webhook]> (mutatingWebhooks r)) (validatingWebhooks r).

Definition RegisterValidatingWebhook (name : string) (webhook : Webhook) (r : registry) : registry :=
  mkRegistry (mutatingWebhooks r) (<[name := webhook]> (validatingWebhooks r)).

Definition DefaultMutatingWebhookConfigurationName : string := "flomesh-mutating-webhook-configuration".
Definition DefaultValidatingWebhookConfigurationName : string := "flomesh-validating-webhook-configuration".

Record WebhookConfiguration : Type := mkWebhookConfiguration {
  wc_Name : string;
  wc_Webhooks : list Webhook
}.

Section configurations.
Context `{MapRange}.

Definition NewMutatingWebhookConfiguration (r : registry) : option WebhookConfiguration :=
  if bool_decide (size (mutatingWebhooks r) = 0) then None
  else Some (mkWebhookConfiguration DefaultMutatingWebhookConfigurationName
               (go_range (mutatingWebhooks r)).*2).

(** The emptiness test is that of the mutating webhooks. *)
Definition NewValidatingWebhookConfiguration (r : registry) : option WebhookConfiguration :=
  if bool_decide (size (mutatingWebhooks r) = 0) then None
  else Some (mkWebhookConfiguration DefaultValidatingWebhookConfigurationName
               (go_range (validatingWebhooks r)).*2).
End configurations.

(** ** Errors *)

(** An [error], which may carry an API status ([goerrors.As]). *)
Inductive verror : Type :=
| StatusError (status : string)
| PlainError (msg : string).

Definition verror_Error (e : verror) : string :=
  match e with StatusError s => s | PlainError m => m end.

(** [util.ErrorListToError]: every message once, in order. *)
Definition ErrorListToError (errorList : list string) : option verror :=
  match errorList with
  | [] => None
  | _ => Some (PlainError (Join (sort_Strings (elements (list_to_set errorList : gset string))) ", "))
  end.

(** ** Requests and responses *)

Record AdmissionRequest : Type := mkRequest {
  req_Operation : OperationType;
  req_Object : string;
  req_OldObject : string
}.

Record AdmissionResponse : Type := mkAdmissionResponse {
  resp_Allowed : bool;
  (** HTTP status code and message *)
  resp_Code : Z;
  resp_Message : string;
  (** the patch, if there is one *)
  resp_Patch : option string
}.

(** sigs.k8s.io/controller-runtime/pkg/webhook/admission and encoding/json.
    Decoding is into an object that may hold values already. *)
Class AdmissionLib (O : Type) : Type := {
  Decode : AdmissionRequest → O → result string O;
  DecodeRaw : string → O → result string O;
  json_Marshal : O → result string string;
  Allowed : string → AdmissionResponse;
  Denied : string → AdmissionResponse;
  Errored : Z → string → AdmissionResponse;
  PatchResponseFromRaw : string → string → AdmissionResponse;
  (** the response with this status *)
  status_response : bool → string → AdmissionResponse
}.

(** What the documentation says of it. *)
Class AdmissionLaws (O : Type) `{AdmissionLib O} : Prop := {
  Allowed_allows : ∀ msg, resp_Allowed (Allowed msg) = true;
  Denied_denies : ∀ msg, resp_Allowed (Denied msg) = false;
  Errored_denies : ∀ code msg, resp_Allowed (Errored code msg) = false;
  PatchResponse_allows : ∀ orig cur, resp_Allowed (PatchResponseFromRaw orig cur) = true;
  status_response_allowed : ∀ b s, resp_Allowed (status_response b s) = b;
  (** "It errors out if req.Object.Raw is empty i.e. containing 0 raw bytes." *)
  Decode_empty : ∀ req o, req_Object req = "" → ∃ e, Decode req o = Err e;
  (** Otherwise it decodes req.Object. *)
  Decode_raw : ∀ req o, req_Object req ≠ "" → Decode req o = DecodeRaw (req_Object req) o
}.

(** ** The handlers *)

Record Defaulter (O : Type) : Type := mkDefaulter {
  d_RuntimeObject : option O;
  SetDefaults : O → go O
}.
Arguments mkDefaulter {O}.
Arguments d_RuntimeObject {O}.
Arguments SetDefaults {O}.

Record Validator (O : Type) : Type := mkValidator {
  v_RuntimeObject : option O;
  ValidateCreate : O → option verror;
  ValidateUpdate : O → O → option verror;
  ValidateDelete : O → option verror
}.
Arguments mkValidator {O}.
Arguments v_RuntimeObject {O}.
Arguments ValidateCreate {O}.
Arguments ValidateUpdate {O}.
Arguments ValidateDelete {O}.

Section handlers.
Context {O : Type} `{AdmissionLib O}.

(** [nil] when there is no handler. *)
Definition mutatingHandler_Handle (defaulter : option (Defaulter O)) (req : AdmissionRequest) :
    go AdmissionResponse :=
  h ← deref defaulter;
  match d_RuntimeObject h with
  | None => Ret (Allowed "Not supported Kind")
  | Some obj =>
    match Decode req obj with
    | Err e => Ret (Errored 400 e)
    | Ok obj =>
      obj ← SetDefaults h obj;
      Ret (match json_Marshal obj with
           | Err e => Errored 500 e
           | Ok marshalled => PatchResponseFromRaw (req_Object req) marshalled
           end)
    end
  end.

Definition validationResponseFromStatus (allowed : bool) (status : string) : AdmissionResponse :=
  status_response allowed status.

(** The response to what a validation returned. *)
Definition validation_response (err : option verror) : AdmissionResponse :=
  match err with
  | Some (StatusError status) => validationResponseFromStatus false status
  | Some (PlainError msg) => Denied msg
  | None => Allowed ""
  end.

Definition validatingHandler_Handle (validator : option (Validator O)) (req : AdmissionRequest) :
    go AdmissionResponse :=
  h ← deref validator;
  Ret match v_RuntimeObject h with
  | None => Allowed "Not supported Kind"
  | Some obj =>
    match Decode req obj with
    | Err e => Errored 400 e
    | Ok obj =>
      match req_Operation req with
      | CreateOp =>
        match Decode req obj with
        | Err e => Errored 400 e
        | Ok obj => validation_response (ValidateCreate h obj)
        end
      | UpdateOp =>
        let oldObj := obj in
        match DecodeRaw (req_Object req) obj with
        | Err e => Errored 400 e
        | Ok obj =>
          match DecodeRaw (req_OldObject req) oldObj with
          | Err e => Errored 400 e
          | Ok oldObj => validation_response (ValidateUpdate h oldObj obj)
          end
        end
      | DeleteOp =>
        match DecodeRaw (req_OldObject req) obj with
        | Err e => Errored 400 e
        | Ok obj => validation_response (ValidateDelete h obj)
        end
      | ConnectOp => Allowed ""
      end
    end
  end.

Definition DefaultingWebhookFor (defaulter : Defaulter O) : AdmissionRequest → go AdmissionResponse :=
  mutatingHandler_Handle (Some defaulter).
Definition ValidatingWebhookFor (validator : Validator O) : AdmissionRequest → go AdmissionResponse :=
  validatingHandler_Handle (Some validator).

(** ** What an answer means *)

(** The document is an encoding of the object: decoded into the empty object [zero] it
    gives the object, and decoded into the object itself it leaves it as it is.  Nothing
    is said of decoding into other objects: as in encoding/json, these keep the fields
    and map entries that the document does not have. *)
Definition encodes (zero : O) (raw : string) (o : O) : Prop :=
  raw ≠ "" ∧ DecodeRaw raw zero = Ok o ∧ DecodeRaw raw o = Ok o.

Context `{!AdmissionLaws O}.

Lemma validation_response_allowed err : resp_Allowed (validation_response err) = true ↔ err = None.
Proof.
  destruct err as [[s|m]|]; simpl.
  - unfold validationResponseFromStatus. by rewrite status_response_allowed.
  - by rewrite Denied_denies.
  - by rewrite Allowed_allows.
Qed.

Lemma Decode_encodes zero req o :
  encodes zero (req_Object req) o → Decode req zero = Ok o ∧ Decode req o = Ok o.
Proof. intros (Hne & Hz & Ho). by rewrite !Decode_raw, Hz, Ho. Qed.

(** A create request is allowed exactly when the validator accepts its object. *)
Lemma create_allowed v req z o :
  v_RuntimeObject v = Some z → req_Operation req = CreateOp → encodes z (req_Object req) o →
  ∃ resp, ValidatingWebhookFor v req = Ret resp ∧
    (resp_Allowed resp = true ↔ ValidateCreate v o = None).
Proof.
  intros Hz Hop [Hd1 Hd2]%Decode_encodes. eexists. split; [reflexivity|].
  rewrite Hz, Hop, Hd1, Hd2. apply validation_response_allowed.
Qed.

(** An update request is allowed exactly when the validator accepts the change from
    what the old document gives when it is decoded into the new object. *)
Lemma update_allowed v req z o old :
  v_RuntimeObject v = Some z → req_Operation req = UpdateOp →
  encodes z (req_Object req) o → DecodeRaw (req_OldObject req) o = Ok old →
  ∃ resp, ValidatingWebhookFor v req = Ret resp ∧
    (resp_Allowed resp = true ↔ ValidateUpdate v old o = None).
Proof.
  intros Hz Hop Henc Hold. destruct (Decode_encodes _ _ _ Henc) as [Hd1 _]. destruct Henc as (_ & _ & Hd2).
  eexists. split; [reflexivity|].
  rewrite Hz, Hop, Hd1. simpl. rewrite Hd2, Hold. apply validation_response_allowed.
Qed.

(** A delete request carries no object: it is refused before the validator is
    asked. *)
Theorem delete_is_refused v req z :
  v_RuntimeObject v = Some z → req_Operation req = DeleteOp → req_Object req = "" →
  ∃ e, ValidatingWebhookFor v req = Ret (Errored 400 e).
Proof.
  intros Hz Hop Hempty. destruct (Decode_empty req z Hempty) as [e He].
  exists e. unfold ValidatingWebhookFor, validatingHandler_Handle. simpl. by rewrite Hz, He.
Qed.

(** A mutating handler answers with the patch from the object it was sent to
    the defaulted one. *)
Lemma mutation_response d req z o o' raw :
  d_RuntimeObject d = Some z → encodes z (req_Object req) o →
  SetDefaults d o = Ret o' → json_Marshal o' = Ok raw →
  DefaultingWebhookFor d req = Ret (PatchResponseFromRaw (req_Object req) raw).
Proof.
  intros Hz Ho Hd Hm. unfold DefaultingWebhookFor, mutatingHandler_Handle. simpl.
  destruct (Decode_encodes _ _ _ Ho) as [Hd1 _]. rewrite Hz, Hd1, Hd. simpl. by rewrite Hm.
Qed.
End handlers.

(** ** Error lists *)

Lemma ErrorListToError_None l : ErrorListToError l = None ↔ l = [].
Proof. by destruct l. Qed.

(** The message depends only on which errors there are. *)
Lemma ErrorListToError_set l l' :
  (∀ e, e ∈ l ↔ e ∈ l') → ErrorListToError l = ErrorListToError l'.
Proof.
  intros Hl. destruct l as [|e l], l' as [|e' l'].
  - done.
  - exfalso. specialize (Hl e'). set_solver.
  - exfalso. specialize (Hl e). set_solver.
  - unfold ErrorListToError.
    by assert (list_to_set (e :: l) = (list_to_set (e' :: l') : gset string)) as -> by set_solver.
Qed.
