(* ===== verification/Webhooks.v ===== *)
(** * The admission webhooks ([pkg/webhooks])

    The defaulters and validators of the ten kinds of objects, the rules under
    which the API server calls them, and what an admitted object promises to the
    rest of the program: the reconciler of clusters, the ingress cache, the mesh
    configuration.  Messages leave out the quotation marks of [%q]. *)

From S2P Require Import Prelude GoLib Kube CacheTypes McsTypes Config RouteBuild IngressCache ClusterReconciler Certificates Admission.

(** ** Objects ([apis/namespacedingress], [apis/globaltrafficpolicy]) *)

Record PodSecurityContext : Type := mkPodSecurityContext {
  psc_RunAsNonRoot : option bool;
  psc_RunAsUser : option Z;
  psc_RunAsGroup : option Z;
  psc_SeccompProfile : option string
}.

Record NsigHTTP : Type := mkNsigHTTP {
  nh_Enabled : bool;
  nh_Port : CoreServicePort
}.

Record NsigSSLPassthrough : Type := mkNsigSSLPassthrough {
  nsp_Enabled : bool;
  nsp_UpstreamPort : option Z
}.

Record NsigTLS : Type := mkNsigTLS {
  nt_Enabled : bool;
  nt_Port : CoreServicePort;
  nt_SSLPassthrough : NsigSSLPassthrough
}.

(** The fields the sources read or set; the others are passed on to the chart. *)
Record NamespacedIngressSpec : Type := mkNamespacedIngressSpec {
  ns_ServiceType : string;
  ns_HTTP : NsigHTTP;
  ns_TLS : NsigTLS;
  ns_ServiceAccountName : string;
  ns_LogLevel : option Z;
  ns_Replicas : option Z;
  (** AllowPrivilegeEscalation of the security context *)
  ns_SecurityContext : option (option bool);
  ns_PodSecurityContext : option PodSecurityContext
}.

Record NamespacedIngress : Type := mkNamespacedIngress {
  nsig_Meta : ObjectMeta;
  nsig_Spec : NamespacedIngressSpec
}.

Definition ActiveActiveLbType : string := "ActiveActive".
Definition LocalityLbType : string := "Locality".
Definition FailOverLbType : string := "FailOver".

Record TrafficTarget : Type := mkTrafficTarget {
  tt_ClusterKey : string;
  tt_Weight : option Z
}.

Record GlobalTrafficPolicy : Type := mkGlobalTrafficPolicy {
  gtp_Meta : ObjectMeta;
  gtp_LbType : string;
  gtp_Targets : list TrafficTarget
}.

(** ** Libraries *)

(** sigs.k8s.io/gateway-api, with the messages of its validations *)
Class GatewayLib : Type := {
  Gateway : Type;
  GatewayClass : Type;
  HTTPRoute : Type;
  zero_Gateway : Gateway;
  zero_GatewayClass : GatewayClass;
  zero_HTTPRoute : HTTPRoute;
  ValidateGateway : Gateway → list string;
  ValidateGatewayClassUpdate : GatewayClass → GatewayClass → list string;
  ValidateHTTPRoute : HTTPRoute → list string
}.

(** k8s.io/apimachinery/pkg/util/validation *)
Class PortLib : Type := { IsValidPortNum : Z → list string }.

(** "IsValidPortNum tests that the argument is a valid, non-zero port number." *)
Class PortLaws `{PortLib} : Prop := {
  IsValidPortNum_spec : ∀ p, IsValidPortNum p = [] ↔ (1 ≤ p ≤ 65535)%Z
}.

(** What the webhooks read. *)
Record wh_env : Type := mkWhEnv {
  we_metadata : ErieCanalMetadata;
  we_config : cfg_world;
  (** the lists of the API server *)
  we_Clusters : result verror (list Cluster);
  we_NamespacedIngresses : string → result verror (list NamespacedIngress);
  we_Secret : NamespacedName → result verror unit;
  (** the package variable DefaultIngressClass *)
  we_DefaultIngressClass : string;
  (** how [%d] prints a pointer *)
  we_printPointer : Z → string
}.

(** The objects a webhook may be given. *)
Inductive runtime_object `{GatewayLib} : Type :=
| OCluster (c : Cluster)
| OConfigMap (cm : ConfigMap)
| ONamespacedIngress (n : NamespacedIngress)
| OServiceExport (e : ServiceExport)
| OServiceImport (i : ServiceImport)
| OGlobalTrafficPolicy (p : GlobalTrafficPolicy)
| OIngress (i : Ingress)
| OGateway (g : Gateway)
| OGatewayClass (g : GatewayClass)
| OHTTPRoute (r : HTTPRoute).

Definition set_label (m : ObjectMeta) (k v : string) : ObjectMeta :=
  mkMeta (Namespace m) (Name m) (UID m) (ResourceVersion m) (Generation m) (DeletionTimestamp m)
    (Some (<[k := v]> (gm_val (Labels m)))) (Annotations m) (Finalizers m) (ControllerUID m).

Definition MultiClustersConnectorMode : string := "multicluster.flomesh.io/connector-mode".
Definition FlomeshControlPlaneLabel : string := "flomesh.io/control-plane".
Definition DefaultWebhookServiceName : string := "erie-canal-webhook-service".

Definition zero_port : CoreServicePort := mkSvcPort "" "" None 0 (IntVal 0) 0.
Definition zero_NamespacedIngress : NamespacedIngress :=
  mkNamespacedIngress (named "" "")
    (mkNamespacedIngressSpec "" (mkNsigHTTP false zero_port)
       (mkNsigTLS false zero_port (mkNsigSSLPassthrough false None)) "" None None None None).
Definition zero_GlobalTrafficPolicy : GlobalTrafficPolicy := mkGlobalTrafficPolicy (named "" "") "" [].
Definition zero_ServiceExport : ServiceExport :=
  mkServiceExport (named "" "") (mkExportSpec None false "" [] [] "") None.
Definition zero_ServiceImport : ServiceImport := mkServiceImport (named "" "") [] "" "".

Section webhooks.
Context `{KubeLib} `{NetLib} `{PortLib} `{ConfigLib} `{GatewayLib}.
Context (env : wh_env).

(** [w.configStore.MeshConfig.GetConfig()], which never returns nil. *)
Definition wh_GetConfig : go MeshConfig := GetConfig (we_metadata env) (we_config env).

(** ** Clusters ([cluster/cluster_webhook.go]) *)

Definition Cluster_doValidation (c : Cluster) : option verror :=
  let connectorMode := smap_get (Labels (cluster_Meta c)) MultiClustersConnectorMode in
  let spec := cluster_Spec c in
  if bool_decide (connectorMode = "")
  then Some (PlainError "missing required label 'multicluster.flomesh.io/connector-mode'")
  else if negb (bool_decide (connectorMode = "local") || bool_decide (connectorMode = "remote"))
  then Some (PlainError ("invalid value " +:+ connectorMode +:+
         " for label multicluster.flomesh.io/connector-mode, must be either 'local' or 'remote'"))
  else if csp_IsInCluster spec then
    if bool_decide (connectorMode = "remote")
    then Some (PlainError "label and spec doesn't match: multicluster.flomesh.io/connector-mode=remote, spec.IsInCluster=true")
    else None
  else if bool_decide (connectorMode = "local")
  then Some (PlainError "label and spec doesn't match: multicluster.flomesh.io/connector-mode=local, spec.IsInCluster=false")
  else
    let host := csp_GatewayHost spec in
    if bool_decide (host = "") then Some (PlainError "GatewayHost is required in OutCluster mode")
    else if bool_decide (csp_Kubeconfig spec = "")
    then Some (PlainError "kubeconfig must be set in OutCluster mode")
    else
      let gwIPv4 : result string (option IP) :=
        match IsValidIPv4Address host with
        | _ :: _ =>
          match IsDNS1123Subdomain host with
          | (_ :: _) as dnsErrs => Err ("invalid DNS name " +:+ host +:+ ": [" +:+ Join dnsErrs " " +:+ "]")
          | [] =>
            match ResolveIPAddr4 host with
            | Err _ => Err (host +:+ " cannot be resolved to IP")
            | Ok ip => Ok (To4 ip)
            end
          end
        | [] => Ok (ParseIP host ≫= To4)
        end in
      match gwIPv4 with
      | Err msg => Some (PlainError msg)
      | Ok None => Some (PlainError (host +:+ " cannot be resolved to a IPv4 address"))
      | Ok (Some ip) =>
        if IsLoopback ip || IsUnspecified ip
        then Some (PlainError ("gateway Host " +:+ host +:+ " is resolved to Loopback IP or Unspecified"))
        else
          match IsValidPortNum (csp_GatewayPort spec) with
          | (_ :: _) as errs =>
            Some (PlainError ("invalid port number " +:+ Itoa (csp_GatewayPort spec) +:+ ": [" +:+ Join errs " " +:+ "]"))
          | [] => None
          end
      end.

Definition ClusterDefaulter_SetDefaults (obj : runtime_object) : go runtime_object :=
  match obj with
  | OCluster c =>
    _ ← wh_GetConfig;
    let mode := if csp_IsInCluster (cluster_Spec c) then "local" else "remote" in
    Ret (OCluster (mkCluster (set_label (cluster_Meta c) MultiClustersConnectorMode mode)
                     (cluster_Spec c) (cluster_Conditions c)))
  | _ => Ret obj
  end.

Definition numOfInCluster (l : list Cluster) : nat :=
  length (List.filter (fun c => csp_IsInCluster (cluster_Spec c)) l).

Definition ClusterValidator_ValidateCreate (obj : runtime_object) : option verror :=
  match obj with
  | OCluster cluster =>
    if csp_IsInCluster (cluster_Spec cluster) then
      match we_Clusters env with
      | Err err => Some err
      | Ok clusterList =>
        if (1 <=? numOfInCluster clusterList)%nat
        then Some (PlainError ("there're " +:+ Itoa (Z.of_nat (numOfInCluster clusterList)) +:+
               " InCluster resources, should ONLY have exact ONE"))
        else Cluster_doValidation cluster
      end
    else Cluster_doValidation cluster
  | _ => None
  end.

Definition ClusterValidator_ValidateUpdate (oldObj obj : runtime_object) : option verror :=
  match oldObj, obj with
  | OCluster oldCluster, OCluster cluster =>
    if negb (eqb (csp_IsInCluster (cluster_Spec oldCluster)) (csp_IsInCluster (cluster_Spec cluster)))
    then Some (PlainError "cannot update an immutable field: spec.IsInCluster")
    else Cluster_doValidation cluster
  | _, _ => None
  end.

Definition ClusterValidator_ValidateDelete (obj : runtime_object) : option verror := None.

Definition ClusterDefaulter : Defaulter runtime_object :=
  mkDefaulter (Some (OCluster zeroCluster)) ClusterDefaulter_SetDefaults.
Definition ClusterValidator : Validator runtime_object :=
  mkValidator (Some (OCluster zeroCluster)) ClusterValidator_ValidateCreate
    ClusterValidator_ValidateUpdate ClusterValidator_ValidateDelete.

(** ** The ConfigMap of the mesh configuration ([cm/config_webhook.go]) *)

Definition isNotWatchedConfigmap (cm : ConfigMap) : bool :=
  negb (bool_decide (Namespace (cm_Meta cm) = GetErieCanalNamespace (we_metadata env))) ||
  negb (bool_decide (Name (cm_Meta cm) ∈ DefaultWatchedConfigMaps)).

(** [if s == "" { s = d }] *)
Definition or_default (s d : string) : string := if bool_decide (s = "") then d else s.

Definition default_mesh_config (cfg : MeshConfig) : MeshConfig :=
  let im := mc_Images cfg in
  let cs := mc_Certificate cfg in
  mkMeshConfig (mc_IsManaged cfg)
    (if HasSuffix (mc_Repo_RootURL cfg) "/" then TrimSuffix (mc_Repo_RootURL cfg) "/" else mc_Repo_RootURL cfg)
    (mkImages (or_default (im_Repository im) "flomesh") (or_default (im_PipyImage im) "pipy:latest")
       (or_default (im_ProxyInitImage im) "erie-canal-proxy-init:latest")
       (or_default (im_KlipperLbImage im) "mirrored-klipper-lb:v0.3.5"))
    (or_default (mc_Webhook_ServiceName cfg) DefaultWebhookServiceName)
    (mc_Ingress cfg) (mc_GatewayApi_Enabled cfg)
    (mkCertificateSettings (or_default (cs_Manager cs) Archon) (cs_CaBundleName cs) (cs_CaBundleNamespace cs))
    (mc_Cluster cfg) (mc_ServiceLB_Enabled cfg).

Definition ConfigMapDefaulter_SetDefaults (obj : runtime_object) : go runtime_object :=
  match obj with
  | OConfigMap cm =>
    if isNotWatchedConfigmap cm then Ret obj
    else if bool_decide (Name (cm_Meta cm) = MeshConfigName) then
      match ParseMeshConfig (we_metadata env) cm with
      | Err _ => Ret obj
      | Ok cfg =>
        cm ← set_data cm MeshConfigJsonName (ToJson (default_mesh_config cfg));
        Ret (OConfigMap cm)
      end
    else Ret obj
  | _ => Ret obj
  end.

Definition ConfigMapValidator_doValidation (obj : runtime_object) : option verror :=
  match obj with
  | OConfigMap cm =>
    if isNotWatchedConfigmap cm then None
    else if bool_decide (Name (cm_Meta cm) = MeshConfigName) then
      match ParseMeshConfig (we_metadata env) cm with
      | Err e => Some (PlainError e)
      | Ok cfg =>
        if is_Enabled (mc_Ingress cfg) && negb (http_Enabled (is_HTTP (mc_Ingress cfg))) &&
           negb (tls_Enabled (is_TLS (mc_Ingress cfg)))
        then Some (PlainError "ingress.http.enabled and ingress.tls.enabled are both false, at least one should be enabled")
        else None
      end
    else None
  | _ => None
  end.

Definition ConfigMapValidator_ValidateDelete (obj : runtime_object) : option verror :=
  match obj with
  | OConfigMap cm =>
    if isNotWatchedConfigmap cm then None
    else if bool_decide (Name (cm_Meta cm) = MeshConfigName)
    then Some (PlainError ("ConfigMap " +:+ Namespace (cm_Meta cm) +:+ "/" +:+ Name (cm_Meta cm) +:+ " cannot be deleted"))
    else None
  | _ => None
  end.

Definition ConfigMapDefaulter : Defaulter runtime_object :=
  mkDefaulter (Some (OConfigMap (mkConfigMap (named "" "") None))) ConfigMapDefaulter_SetDefaults.
Definition ConfigMapValidator : Validator runtime_object :=
  mkValidator (Some (OConfigMap (mkConfigMap (named "" "") None))) ConfigMapValidator_doValidation
    (fun _ obj => ConfigMapValidator_doValidation obj) ConfigMapValidator_ValidateDelete.

(** ** Namespaced ingresses ([namespacedingress/namespacedingress_webhook.go]) *)

(** [if p == nil { p = &d }] *)
Definition or_pointer {A} (p : option A) (d : A) : option A :=
  match p with None => Some d | Some _ => p end.

Definition default_namespaced_ingress (c : NamespacedIngress) : NamespacedIngress :=
  let s := nsig_Spec c in
  let t := ns_TLS s in
  let p := nt_SSLPassthrough t in
  mkNamespacedIngress (nsig_Meta c)
    (mkNamespacedIngressSpec (ns_ServiceType s) (ns_HTTP s)
       (mkNsigTLS (nt_Enabled t) (nt_Port t)
          (mkNsigSSLPassthrough (nsp_Enabled p) (or_pointer (nsp_UpstreamPort p) 443%Z)))
       (or_default (ns_ServiceAccountName s) "erie-canal-namespaced-ingress")
       (or_pointer (ns_LogLevel s) 2%Z) (or_pointer (ns_Replicas s) 1%Z)
       (or_pointer (ns_SecurityContext s) (Some false))
       (or_pointer (ns_PodSecurityContext s)
          (mkPodSecurityContext (Some true) (Some 65532%Z) (Some 65532%Z) (Some "RuntimeDefault")))).

Definition NamespacedIngressDefaulter_SetDefaults (obj : runtime_object) : go runtime_object :=
  match obj with
  | ONamespacedIngress c => _ ← wh_GetConfig; Ret (ONamespacedIngress (default_namespaced_ingress c))
  | _ => Ret obj
  end.

Definition NamespacedIngress_doValidation (obj : runtime_object) : option verror := None.

Definition NamespacedIngressValidator_ValidateCreate (obj : runtime_object) : option verror :=
  match obj with
  | ONamespacedIngress n =>
    match we_NamespacedIngresses env (Namespace (nsig_Meta n)) with
    | Err err => Some err
    | Ok list =>
      if (0 <? length list)%nat
      then Some (PlainError ("There's already " +:+ Itoa (Z.of_nat (length list)) +:+
             " IngressDeploymnent(s) in namespace " +:+ Namespace (nsig_Meta n) +:+
             ". Each namespace can have ONLY ONE NamespacedIngress."))
      else NamespacedIngress_doValidation obj
    end
  | _ => None
  end.

Definition NamespacedIngressDefaulter : Defaulter runtime_object :=
  mkDefaulter (Some (ONamespacedIngress zero_NamespacedIngress)) NamespacedIngressDefaulter_SetDefaults.
Definition NamespacedIngressValidator : Validator runtime_object :=
  mkValidator (Some (ONamespacedIngress zero_NamespacedIngress)) NamespacedIngressValidator_ValidateCreate
    (fun _ obj => NamespacedIngress_doValidation obj) (fun _ => None).

(** ** Exports and imports ([serviceexport/webhook.go], [serviceimport/webhook.go]) *)

Definition ServiceExportDefaulter : Defaulter runtime_object :=
  mkDefaulter (Some (OServiceExport zero_ServiceExport)) Ret.
Definition ServiceExportValidator : Validator runtime_object :=
  mkValidator (Some (OServiceExport zero_ServiceExport)) (fun _ => None) (fun _ _ => None) (fun _ => None).

Definition ServiceImportDefaulter_SetDefaults (obj : runtime_object) : go runtime_object :=
  match obj with
  | OServiceImport i =>
    _ ← wh_GetConfig;
    Ret (OServiceImport (mkServiceImport (si_Meta i) (si_Ports i) (or_default (si_Type i) ClusterSetIP)
                           (si_ServiceAccountName i)))
  | _ => Ret obj
  end.
Definition ServiceImportDefaulter : Defaulter runtime_object :=
  mkDefaulter (Some (OServiceImport zero_ServiceImport)) ServiceImportDefaulter_SetDefaults.
Definition ServiceImportValidator : Validator runtime_object :=
  mkValidator (Some (OServiceImport zero_ServiceImport)) (fun _ => None) (fun _ _ => None) (fun _ => None).

(** ** Traffic policies ([globaltrafficpolicy/webhook.go]) *)

Definition GlobalTrafficPolicyDefaulter_SetDefaults (obj : runtime_object) : go runtime_object :=
  match obj with
  | OGlobalTrafficPolicy p =>
    _ ← wh_GetConfig;
    Ret (OGlobalTrafficPolicy (mkGlobalTrafficPolicy (gtp_Meta p) (or_default (gtp_LbType p) LocalityLbType)
                                 (gtp_Targets p)))
  | _ => Ret obj
  end.

(** The first target with a negative weight; [%d] prints the pointer. *)
Fixpoint invalid_weight (targets : list TrafficTarget) : option verror :=
  match targets with
  | [] => None
  | t :: targets =>
    match tt_Weight t with
    | Some w =>
      if (w <? 0)%Z
      then Some (PlainError ("weight " +:+ we_printPointer env w +:+ " of " +:+ tt_ClusterKey t +:+
             " is invalid for active-active load balancing, it must be >= 0"))
      else invalid_weight targets
    | None => invalid_weight targets
    end
  end.

Definition GlobalTrafficPolicyValidator_doValidation (obj : runtime_object) : option verror :=
  match obj with
  | OGlobalTrafficPolicy p =>
    if bool_decide (gtp_LbType p = LocalityLbType) then
      if (1 <? length (gtp_Targets p))%nat
      then Some (PlainError "in case of Locality load balancer, the traffic can only be sticky to exact one cluster, either in cluster or a specific remote cluster")
      else None
    else if bool_decide (gtp_LbType p = FailOverLbType) then
      if (length (gtp_Targets p) =? 0)%nat
      then Some (PlainError "requires at least one cluster for failover")
      else None
    else if bool_decide (gtp_LbType p = ActiveActiveLbType) then invalid_weight (gtp_Targets p)
    else None
  | _ => None
  end.

Definition GlobalTrafficPolicyDefaulter : Defaulter runtime_object :=
  mkDefaulter (Some (OGlobalTrafficPolicy zero_GlobalTrafficPolicy)) GlobalTrafficPolicyDefaulter_SetDefaults.
Definition GlobalTrafficPolicyValidator : Validator runtime_object :=
  mkValidator (Some (OGlobalTrafficPolicy zero_GlobalTrafficPolicy)) GlobalTrafficPolicyValidator_doValidation
    (fun _ obj => GlobalTrafficPolicyValidator_doValidation obj) (fun _ => None).

(** ** Ingresses ([ingress/webhook.go]) *)

Definition secretExists (secretName : string) (ing : Ingress) : option verror :=
  match SecretNamespaceAndName secretName ing with
  | (_, _, Some e) => Some (PlainError e)
  | (ns, name, None) =>
    if bool_decide (name = "")
    then Some (PlainError ("secret name of Ingress " +:+ Namespace (ing_Meta ing) +:+ "/" +:+
                 Name (ing_Meta ing) +:+ " is empty or invalid"))
    else match we_Secret env (mkNN ns name) with Err e => Some e | Ok _ => None end
  end.

(** The check of one of the two annotations. *)
Definition check_secret_annotation (annotation : string) (ing : Ingress) : option verror :=
  let secret := smap_get (Annotations (ing_Meta ing)) annotation in
  if bool_decide (secret ≠ "") then
    match secretExists secret ing with
    | Some err => Some (PlainError ("secert " +:+ secret +:+ " doesn't exist: " +:+ verror_Error err +:+
        ", please check annotation '" +:+ annotation +:+ "' of Ingress " +:+
        Namespace (ing_Meta ing) +:+ "/" +:+ Name (ing_Meta ing)))
    | None => None
    end
  else None.

Fixpoint check_tls_secrets (ing : Ingress) (tlss : list IngressTLS) : option verror :=
  match tlss with
  | [] => None
  | tls :: tlss =>
    if bool_decide (itls_SecretName tls = "") then check_tls_secrets ing tlss
    else match secretExists (itls_SecretName tls) ing with
         | Some _ => Some (PlainError ("TLS secret " +:+ itls_SecretName tls +:+ " of Ingress " +:+
             Namespace (ing_Meta ing) +:+ "/" +:+ Name (ing_Meta ing) +:+
             " doesn't exist, please check spec.tls section of Ingress"))
         | None => check_tls_secrets ing tlss
         end
  end.

Definition IngressValidator_doValidation (obj : runtime_object) : option verror :=
  match obj with
  | OIngress ing =>
    if negb (IsValidPipyIngress (we_DefaultIngressClass env) ing) then None
    else
      match check_secret_annotation PipyIngressAnnotationUpstreamSSLSecret ing with
      | Some e => Some e
      | None =>
        match check_secret_annotation PipyIngressAnnotationTLSTrustedCASecret ing with
        | Some e => Some e
        | None => check_tls_secrets ing (ing_TLS ing)
        end
      end
  | _ => None
  end.

Definition zero_Ingress : Ingress := mkIngress (named "" "") None [] [].

(** The defaulter of ingresses sets nothing. *)
Definition IngressDefaulter : Defaulter runtime_object :=
  mkDefaulter (Some (OIngress zero_Ingress)) Ret.
Definition IngressValidator : Validator runtime_object :=
  mkValidator (Some (OIngress zero_Ingress)) IngressValidator_doValidation
    (fun _ obj => IngressValidator_doValidation obj) (fun _ => None).

(** ** The Gateway API ([gateway], [gatewayclass], [httproute]) *)

Definition GatewayDefaulter_SetDefaults (obj : runtime_object) : go runtime_object :=
  match obj with OGateway _ => _ ← wh_GetConfig; Ret obj | _ => Ret obj end.
Definition Gateway_doValidation (obj : runtime_object) : option verror :=
  match obj with OGateway g => ErrorListToError (ValidateGateway g) | _ => None end.
Definition GatewayDefaulter : Defaulter runtime_object :=
  mkDefaulter (Some (OGateway zero_Gateway)) GatewayDefaulter_SetDefaults.
Definition GatewayValidator : Validator runtime_object :=
  mkValidator (Some (OGateway zero_Gateway)) Gateway_doValidation
    (fun _ obj => Gateway_doValidation obj) (fun _ => None).

Definition GatewayClassDefaulter_SetDefaults (obj : runtime_object) : go runtime_object :=
  match obj with OGatewayClass _ => _ ← wh_GetConfig; Ret obj | _ => Ret obj end.
Definition GatewayClassValidator_ValidateUpdate (oldObj obj : runtime_object) : option verror :=
  match oldObj, obj with
  | OGatewayClass old, OGatewayClass new => ErrorListToError (ValidateGatewayClassUpdate old new)
  | _, _ => None
  end.
Definition GatewayClassDefaulter : Defaulter runtime_object :=
  mkDefaulter (Some (OGatewayClass zero_GatewayClass)) GatewayClassDefaulter_SetDefaults.
Definition GatewayClassValidator : Validator runtime_object :=
  mkValidator (Some (OGatewayClass zero_GatewayClass)) (fun _ => None)
    GatewayClassValidator_ValidateUpdate (fun _ => None).

Definition HTTPRouteDefaulter_SetDefaults (obj : runtime_object) : go runtime_object :=
  match obj with OHTTPRoute _ => _ ← wh_GetConfig; Ret obj | _ => Ret obj end.
Definition HTTPRoute_doValidation (obj : runtime_object) : option verror :=
  match obj with OHTTPRoute r => ErrorListToError (ValidateHTTPRoute r) | _ => None end.
Definition HTTPRouteDefaulter : Defaulter runtime_object :=
  mkDefaulter (Some (OHTTPRoute zero_HTTPRoute)) HTTPRouteDefaulter_SetDefaults.
Definition HTTPRouteValidator : Validator runtime_object :=
  mkValidator (Some (OHTTPRoute zero_HTTPRoute)) HTTPRoute_doValidation
    (fun _ obj => HTTPRoute_doValidation obj) (fun _ => None).
End webhooks.

(** ** Objects admitted one by one

    [group] says which objects exclude each other: a create is admitted only when
    no stored object is of the same group, and an update keeps the group. *)

Section guarded_store.
Context {K O G : Type} `{Countable K} (group : O → option G).
Context (admits_create : gmap K O → K → O → Prop) (admits_update : gmap K O → K → O → O → Prop).

Inductive admit_step (s : gmap K O) : gmap K O → Prop :=
| admit_create k o : s !! k = None → admits_create s k o → admit_step s (<[k := o]> s)
| admit_update k old o : s !! k = Some old → admits_update s k old o → admit_step s (<[k := o]> s)
| admit_delete k : admit_step s (delete k s).

Definition unique_groups (s : gmap K O) : Prop :=
  ∀ k1 k2 o1 o2 g, s !! k1 = Some o1 → s !! k2 = Some o2 →
    group o1 = Some g → group o2 = Some g → k1 = k2.

(** No stored object is of the group of [o]. *)
Definition group_free (s : gmap K O) (o : O) : Prop :=
  ∀ k' o' g, s !! k' = Some o' → group o' = Some g → group o ≠ Some g.

Lemma unique_groups_reachable s :
  (∀ s k o, admits_create s k o → group_free s o) →
  (∀ s k old o, admits_update s k old o → group old = group o) →
  rtc admit_step ∅ s → unique_groups s.
Proof.
  intros Hc Hu. apply rtc_invariant; [by intros ???? g []%lookup_empty_Some|].
  clear s. intros s s' Hstep Hs. destruct Hstep as [k o Hk Ha|k old o Hk Ha|k].
  - specialize (Hc _ _ _ Ha). intros k1 k2 o1 o2 g.
    rewrite !lookup_insert. intros H1 H2 Hg1 Hg2.
    repeat case_decide; simplify_eq; [done|by edestruct Hc|by edestruct Hc|by eapply Hs].
  - specialize (Hu _ _ _ _ Ha). intros k1 k2 o1 o2 g.
    rewrite !lookup_insert. intros H1 H2 Hg1 Hg2.
    repeat case_decide; simplify_eq; [done|..|by eapply Hs].
    + eapply (Hs _ _ o1 old g); [done|done|done|congruence].
    + eapply (Hs _ _ old o2 g); [done|done|congruence|done].
  - intros k1 k2 o1 o2 g H1 H2. apply lookup_delete_Some in H1 as [_ H1], H2 as [_ H2]. by eapply Hs.
Qed.
End guarded_store.

#[local] Arguments Cluster_doValidation : simpl never.

Section guarantees.
Context `{KubeLib} `{NetLib} `{PortLib} `{!PortLaws} `{ConfigLib} `{GatewayLib}.
Context `{AL : AdmissionLib runtime_object} `{!AdmissionLaws runtime_object}.

(** ** Clusters *)

(** The settings of a remote cluster's gateway that the reconciler relies on. *)
Definition gateway_settings (spec : ClusterSpec) : Prop :=
  csp_GatewayHost spec ≠ "" ∧ csp_Kubeconfig spec ≠ "" ∧ (1 ≤ csp_GatewayPort spec ≤ 65535)%Z.

Lemma Cluster_doValidation_None c mc :
  Cluster_doValidation c = None ↔
  smap_get (Labels (cluster_Meta c)) MultiClustersConnectorMode =
    (if csp_IsInCluster (cluster_Spec c) then "local" else "remote") ∧
  (csp_IsInCluster (cluster_Spec c) = false → gateway_settings (cluster_Spec c)) ∧
  ∃ cfg, connectorConfig c mc = Ok cfg.
Proof.
  unfold Cluster_doValidation, gateway_settings, connectorConfig, NewConnectorConfig, gatewayIPv4.
  generalize (smap_get (Labels (cluster_Meta c)) MultiClustersConnectorMode) as mode. intros mode.
  rewrite <-IsValidPortNum_spec.
  destruct (csp_IsInCluster (cluster_Spec c)).
  - repeat case_bool_decide; simpl; split; intros Hl; destruct_and?; simplify_eq; eauto.
    split_and!; [done|done|eauto].
  - generalize (csp_GatewayHost (cluster_Spec c)) as host. intros host.
    destruct (IsValidIPv4Address host); [|destruct (IsDNS1123Subdomain host); [destruct (ResolveIPAddr4 host)|]];
      simpl; try destruct (ParseIP host ≫= To4); try destruct (To4 _); simpl;
      try destruct (IsLoopback _ || IsUnspecified _); destruct (IsValidPortNum _);
      repeat case_bool_decide; simpl;
      (split; [intros Hl; simplify_eq; eauto 10
              |intros (Hm & Hg & cfg & Hcfg); destruct (Hg eq_refl) as (?&?&?); simplify_eq; done]).
Qed.

Lemma SetDefaults_cluster env c o :
  ClusterDefaulter_SetDefaults env (OCluster c) = Ret o →
  ∃ c', o = OCluster c' ∧ cluster_Spec c' = cluster_Spec c ∧
    smap_get (Labels (cluster_Meta c')) MultiClustersConnectorMode =
      (if csp_IsInCluster (cluster_Spec c) then "local" else "remote") ∧
    Name (cluster_Meta c') = Name (cluster_Meta c).
Proof.
  simpl. intros (mc & _ & [= <-])%go_bind_ret. eexists. split_and!; [done|done| |done].
  unfold smap_get. simpl. by rewrite lookup_insert_eq.
Qed.

Lemma connectorConfig_spec c c' mc :
  cluster_Spec c' = cluster_Spec c → Name (cluster_Meta c') = Name (cluster_Meta c) →
  connectorConfig c' mc = connectorConfig c mc.
Proof. unfold connectorConfig. by intros -> ->. Qed.

(** The document of a stored cluster: whatever cluster it is decoded into, the result has
    the mode of the stored one.  (The field is encoded without omitempty and has a default
    in the custom resource definition, so that the API server always has it; nothing is
    assumed of the fields that may be left out.) *)
Definition stored_document (raw : string) (old : Cluster) : Prop :=
  ∀ into, ∃ c, DecodeRaw raw (OCluster into) = Ok (OCluster c) ∧
    csp_IsInCluster (cluster_Spec c) = csp_IsInCluster (cluster_Spec old).

Definition encodes_cluster (raw : string) (c : Cluster) : Prop := encodes (OCluster zeroCluster) raw (OCluster c).

(** C32 (equivalence).  The admission of clusters and their reconciliation agree: a cluster that went
    through the defaulting webhook, whether created as a remote cluster or updated without
    changing its mode, is admitted exactly when the reconciler can make a connector
    configuration of it and, for a remote cluster, a gateway host, a kubeconfig and a port
    from 1 to 65535 are set.  This holds although the handler decodes the old object into a
    copy of the new one, as long as the document of the old object has the field for the
    mode. *)
Theorem admitted_iff_connectable env c d req mc :
  ClusterDefaulter_SetDefaults env (OCluster c) = Ret d →
  encodes (OCluster zeroCluster) (req_Object req) d →
  (req_Operation req = CreateOp ∧ csp_IsInCluster (cluster_Spec c) = false ∨
   req_Operation req = UpdateOp ∧ ∃ old, stored_document (req_OldObject req) old ∧
     csp_IsInCluster (cluster_Spec old) = csp_IsInCluster (cluster_Spec c)) →
  ∃ resp, ValidatingWebhookFor (ClusterValidator env) req = Ret resp ∧
    (resp_Allowed resp = true ↔
     (csp_IsInCluster (cluster_Spec c) = false → gateway_settings (cluster_Spec c)) ∧
     ∃ cfg, connectorConfig c mc = Ok cfg).
Proof.
  intros (c' & -> & Hspec & Hmode & Hname)%SetDefaults_cluster Henc Hop.
  assert (Cluster_doValidation c' = None ↔
    (csp_IsInCluster (cluster_Spec c) = false → gateway_settings (cluster_Spec c)) ∧
    ∃ cfg, connectorConfig c mc = Ok cfg) as Hv.
  { rewrite (Cluster_doValidation_None c' mc), Hmode, Hspec, (connectorConfig_spec c c') by done. tauto. }
  destruct Hop as [[Hop Hin]|(Hop & old & Hold & Hin)].
  - edestruct (create_allowed (ClusterValidator env)) as (resp & Hr & Ha); [done..|].
    exists resp. split; [done|]. rewrite Ha, <-Hv. simpl. by rewrite Hspec, Hin.
  - destruct (Hold c') as (o' & Hdec & Hmode').
    edestruct (update_allowed (ClusterValidator env)) as (resp & Hr & Ha); [done..|].
    exists resp. split; [done|]. rewrite Ha, <-Hv. simpl. by rewrite Hspec, Hmode', Hin, eqb_reflx.
Qed.

(** ** At most one *)

(** The request is answered with "allowed". *)
Definition allows (v : Validator runtime_object) (req : AdmissionRequest) : Prop :=
  ∃ resp, ValidatingWebhookFor v req = Ret resp ∧ resp_Allowed resp = true.

Lemma allows_create v req z o :
  v_RuntimeObject v = Some z → req_Operation req = CreateOp → encodes z (req_Object req) o →
  allows v req → ValidateCreate v o = None.
Proof.
  intros Hz Hop Ho (resp & Hr & Ha). destruct (create_allowed v req z o) as (resp' & Hr' & Hiff); [done..|].
  rewrite Hr in Hr'. injection Hr' as <-. by apply Hiff.
Qed.

Lemma allows_update v req z o old :
  v_RuntimeObject v = Some z → req_Operation req = UpdateOp →
  encodes z (req_Object req) o → DecodeRaw (req_OldObject req) o = Ok old →
  allows v req → ValidateUpdate v old o = None.
Proof.
  intros Hz Hop Ho Hold (resp & Hr & Ha).
  destruct (update_allowed v req z o old) as (resp' & Hr' & Hiff); [done..|].
  rewrite Hr in Hr'. injection Hr' as <-. by apply Hiff.
Qed.

(** Admitting a cluster while the API server lists the stored clusters. *)
Definition cluster_create (s : gmap string Cluster) (k : string) (c : Cluster) : Prop :=
  k = Name (cluster_Meta c) ∧ ∃ env l req,
    we_Clusters env = Ok l ∧ l ≡ₚ (map_to_list s).*2 ∧ req_Operation req = CreateOp ∧
    encodes_cluster (req_Object req) c ∧ allows (ClusterValidator env) req.
Definition cluster_update (s : gmap string Cluster) (k : string) (old c : Cluster) : Prop :=
  Name (cluster_Meta c) = k ∧ ∃ env req, req_Operation req = UpdateOp ∧
    encodes_cluster (req_Object req) c ∧ stored_document (req_OldObject req) old ∧
    allows (ClusterValidator env) req.

Definition in_cluster_group (c : Cluster) : option unit :=
  if csp_IsInCluster (cluster_Spec c) then Some tt else None.

Lemma cluster_create_valid s k c :
  cluster_create s k c → group_free in_cluster_group s c ∧ Cluster_doValidation c = None.
Proof.
  intros (_ & env & l & req & Hl & Hp & Hop & Henc & Ha).
  pose proof (allows_create (ClusterValidator env) _ _ _ eq_refl Hop Henc Ha) as Hv. simpl in Hv.
  rewrite Hl in Hv. unfold group_free, in_cluster_group.
  destruct (csp_IsInCluster (cluster_Spec c)); [|split; [by intros k' o' g _ _|done]].
  destruct (numOfInCluster l) as [|n] eqn:Hn; [split; [|done]|done].
  intros k' c' g Hk' Hg _. destruct (csp_IsInCluster (cluster_Spec c')) eqn:Hin; [|done].
  assert (c' ∈ l) as Hc'.
  { rewrite Hp. apply list_elem_of_fmap. exists (k', c'). split; [done|]. by apply elem_of_map_to_list. }
  assert (c' ∈ List.filter (fun c => csp_IsInCluster (cluster_Spec c)) l) as Hf.
  { apply list_elem_of_In, List.filter_In. split; [by apply list_elem_of_In|done]. }
  unfold numOfInCluster in Hn. destruct (List.filter _ l); [by apply elem_of_nil in Hf|done].
Qed.

Lemma cluster_update_valid s k old c :
  cluster_update s k old c → in_cluster_group old = in_cluster_group c ∧ Cluster_doValidation c = None.
Proof.
  intros (_ & env & req & Hop & Henc & Hold & Ha).
  destruct (Hold c) as (o' & Hdec & Hmode).
  pose proof (allows_update (ClusterValidator env) _ _ _ _ eq_refl Hop Henc Hdec Ha) as Hv. simpl in Hv.
  rewrite Hmode in Hv.
  unfold in_cluster_group. by destruct (csp_IsInCluster (cluster_Spec old)), (csp_IsInCluster (cluster_Spec c)).
Qed.

(** C33 (invariant).  Whatever sequence of creations, updates and deletions of clusters the webhooks
    admit, one request at a time, with the API server listing the stored clusters and its
    documents of stored clusters having the field for the mode: at most one stored cluster
    is the cluster itself (InCluster), and for every stored cluster the label of the
    connector mode agrees with its spec and a connector configuration can be made.  An
    update is judged, as in the code, against what its old document gives when it is
    decoded into a copy of the new object. *)
Theorem one_in_cluster s :
  rtc (admit_step cluster_create cluster_update) ∅ s →
  (∀ k1 k2 c1 c2, s !! k1 = Some c1 → s !! k2 = Some c2 →
     csp_IsInCluster (cluster_Spec c1) = true → csp_IsInCluster (cluster_Spec c2) = true → k1 = k2) ∧
  (∀ k c mc, s !! k = Some c →
     smap_get (Labels (cluster_Meta c)) MultiClustersConnectorMode =
       (if csp_IsInCluster (cluster_Spec c) then "local" else "remote") ∧
     ∃ cfg, connectorConfig c mc = Ok cfg).
Proof.
  intros Hr. split.
  - apply (unique_groups_reachable in_cluster_group) in Hr.
    + intros k1 k2 c1 c2 Hk1 Hk2 Hc1 Hc2. eapply (Hr k1 k2 c1 c2 tt); [done|done|..];
        unfold in_cluster_group; by rewrite ?Hc1, ?Hc2.
    + intros s' k c Ha. by apply (cluster_create_valid s' k c).
    + intros s' k old c Ha. by apply (cluster_update_valid s' k old c).
  - intros k c mc Hk. enough (Cluster_doValidation c = None) as Hv.
    { apply (Cluster_doValidation_None c mc) in Hv as (? & _ & ?). done. }
    revert k c Hk. apply (rtc_invariant (admit_step cluster_create cluster_update) (fun s => ∀ k c, s !! k = Some c → Cluster_doValidation c = None)
      ∅ s); [..|done].
    + by intros k c []%lookup_empty_Some.
    + intros s1 s2 Hstep Hs k c. destruct Hstep as [k' c' _ Ha|k' old c' _ Ha|k'].
      * rewrite lookup_insert. case_decide; [|by eauto]. intros [= <-]. by eapply cluster_create_valid.
      * rewrite lookup_insert. case_decide; [|by eauto]. intros [= <-]. by eapply cluster_update_valid.
      * intros [_ Hk]%lookup_delete_Some. by eauto.
Qed.

(** Admitting a namespaced ingress while the API server lists those of its
    namespace. *)
Definition nsig_create (s : gmap NamespacedName NamespacedIngress) (k : NamespacedName)
    (n : NamespacedIngress) : Prop :=
  k = meta_nn (nsig_Meta n) ∧ ∃ env l req,
    we_NamespacedIngresses env (Namespace (nsig_Meta n)) = Ok l ∧
    (∀ k' n', s !! k' = Some n' → Namespace (nsig_Meta n') = Namespace (nsig_Meta n) → n' ∈ l) ∧
    req_Operation req = CreateOp ∧
    encodes (ONamespacedIngress zero_NamespacedIngress) (req_Object req) (ONamespacedIngress n) ∧
    allows (NamespacedIngressValidator env) req.
Definition nsig_update (s : gmap NamespacedName NamespacedIngress) (k : NamespacedName)
    (old n : NamespacedIngress) : Prop :=
  meta_nn (nsig_Meta old) = meta_nn (nsig_Meta n).

(** A namespace has at most one namespaced ingress. *)
Theorem one_nsig_per_namespace s :
  rtc (admit_step nsig_create nsig_update) ∅ s →
  unique_groups (fun n => Some (Namespace (nsig_Meta n))) s.
Proof.
  apply unique_groups_reachable.
  - clear s. intros s k n (_ & env & l & req & Hl & Hin & Hop & Henc & Ha) k' n' g Hk' [= <-] [= Heq].
    pose proof (allows_create (NamespacedIngressValidator env) _ _ _ eq_refl Hop Henc Ha) as Hv.
    simpl in Hv. rewrite Hl in Hv. destruct l as [|n0 l]; [|done].
    by specialize (Hin _ _ Hk' (eq_sym Heq)) as []%elem_of_nil.
  - intros s' k old n [= -> _]. done.
Qed.

(** ** The mesh configuration *)

Lemma or_default_nonempty s d : d ≠ "" → or_default s d ≠ "".
Proof. unfold or_default. by case_bool_decide. Qed.

Lemma or_default_idem s d : or_default (or_default s d) d = or_default s d.
Proof. unfold or_default. repeat case_bool_decide; congruence. Qed.

(** When the ConfigMap of the mesh configuration is admitted
    with a configuration that can be read, what is stored can be read back, with
    the same settings except that the images, the name of the webhook service and
    the certificate manager are set where they were empty and one trailing slash
    of the repository's URL is removed; in particular none of the images that
    make up the names of deployed containers is empty.  Any other ConfigMap is
    left alone. *)
Theorem mesh_config_defaults env cm :
  (∀ cfg, ParseMeshConfig (we_metadata env) cm = Ok cfg →
     validate_Struct (default_mesh_config cfg) = None ∧
     json_Unmarshal (ToJson (default_mesh_config cfg)) = Ok (default_mesh_config cfg)) →
  match ParseMeshConfig (we_metadata env) cm with
  | Ok cfg =>
    if isNotWatchedConfigmap env cm
    then ConfigMapDefaulter_SetDefaults env (OConfigMap cm) = Ret (OConfigMap cm)
    else ∃ cm', ConfigMapDefaulter_SetDefaults env (OConfigMap cm) = Ret (OConfigMap cm') ∧
      cm_Meta cm' = cm_Meta cm ∧
      ParseMeshConfig (we_metadata env) cm' = Ok (default_mesh_config cfg) ∧
      (∀ k, k ≠ MeshConfigJsonName → gm_val (cm_Data cm') !! k = gm_val (cm_Data cm) !! k) ∧
      Forall (fun image => image ≠ "")
        [im_Repository (mc_Images (default_mesh_config cfg)); im_PipyImage (mc_Images (default_mesh_config cfg));
         im_ProxyInitImage (mc_Images (default_mesh_config cfg));
         im_KlipperLbImage (mc_Images (default_mesh_config cfg))]
  | Err _ => ConfigMapDefaulter_SetDefaults env (OConfigMap cm) = Ret (OConfigMap cm)
  end.
Proof.
  intros Hjson. unfold ConfigMapDefaulter_SetDefaults.
  destruct (ParseMeshConfig (we_metadata env) cm) as [cfg|e] eqn:Hp; destruct (isNotWatchedConfigmap env cm) eqn:Hw;
    [done| |done|by case_bool_decide].
  destruct (Hjson cfg eq_refl) as [Hvalid Hj].
  assert (Name (cm_Meta cm) = MeshConfigName) as Hname.
  { unfold isNotWatchedConfigmap in Hw. apply orb_false_iff in Hw as [_ Hw].
    apply negb_false_iff, bool_decide_eq_true in Hw. by apply list_elem_of_singleton in Hw. }
  rewrite bool_decide_true by done. unfold ParseMeshConfig in Hp.
  destruct (gm_val (cm_Data cm) !! MeshConfigJsonName) as [js|] eqn:Hdata; [|done].
  destruct (json_Unmarshal js) as [cfg'|]; [|done].
  destruct (validate_Struct cfg') eqn:Hcfg; [done|]. injection Hp as ->.
  destruct (cm_Data cm) as [m|] eqn:Hm; [|unfold gm_val in Hdata; simpl in Hdata; by rewrite lookup_empty in Hdata].
  unfold set_data. rewrite Hm. simpl. eexists. split_and!; [done|done| | |].
  - unfold ParseMeshConfig. simpl. by rewrite lookup_insert_eq, Hj, Hvalid.
  - intros k Hk. simpl. by rewrite lookup_insert_ne.
  - simpl. repeat (constructor; [by apply or_default_nonempty|]). constructor.
Qed.

(** Defaulting twice is defaulting once, unless the URL ends in several slashes. *)
Lemma default_mesh_config_idem cfg :
  HasSuffix (mc_Repo_RootURL (default_mesh_config cfg)) "/" = false →
  default_mesh_config (default_mesh_config cfg) = default_mesh_config cfg.
Proof. intros Hs. unfold default_mesh_config at 1. rewrite Hs. simpl. by rewrite !or_default_idem. Qed.

(** ** Ingresses and their secrets *)

Section ingress_secrets.
Context (env : wh_env) (ienv : IngressEnv).
(** The informer has every secret that the API server has. *)
Context (Hsync : ∀ nn, we_Secret env nn = Ok tt → ∃ data, env_Secrets ienv nn = Ok data).

Lemma secretExists_fetched secret ing ns name :
  SecretNamespaceAndName secret ing = (ns, name, None) → secretExists env secret ing = None →
  is_Some (fetchSSLCert ienv ing ns name).
Proof.
  unfold secretExists, fetchSSLCert. intros Hs. rewrite Hs. case_bool_decide as Hn; [done|].
  destruct (we_Secret env (mkNN ns name)) as [[]|] eqn:Hw; [|done]. intros _.
  assert (ns ≠ "" ∨ Namespace (ing_Meta ing) = "") as Hns.
  { unfold SecretNamespaceAndName in Hs. destruct (SplitMetaNamespaceKey secret) as [[ns0 n0]|]; [|done].
    destruct (bool_decide (n0 = "")); [congruence|].
    case_bool_decide; simplify_eq; [|by left]. destruct (decide (Namespace (ing_Meta ing) = "")); auto. }
  assert ((if bool_decide (ns = "") then Namespace (ing_Meta ing) else ns) = ns) as ->.
  { case_bool_decide; [|done]. destruct Hns; congruence. }
  destruct (Hsync _ Hw) as [data ->]. by eexists.
Qed.

Lemma check_secret_annotation_None a ing :
  check_secret_annotation env a ing = None → smap_get (Annotations (ing_Meta ing)) a ≠ "" →
  secretExists env (smap_get (Annotations (ing_Meta ing)) a) ing = None.
Proof.
  unfold check_secret_annotation. intros Hc Ha. rewrite bool_decide_true in Hc by done.
  by destruct (secretExists env _ ing).
Qed.

Lemma secretExists_no_error secret ing :
  secretExists env secret ing = None → ∃ ns name, SecretNamespaceAndName secret ing = (ns, name, None).
Proof. unfold secretExists. destruct (SecretNamespaceAndName secret ing) as [[ns name] [e|]]; [done|eauto]. Qed.

Lemma check_tls_secrets_None ing tlss :
  check_tls_secrets env ing tlss = None ↔
  ∀ tls, tls ∈ tlss → itls_SecretName tls ≠ "" → secretExists env (itls_SecretName tls) ing = None.
Proof.
  induction tlss as [|t tlss IH]; [split; [by intros _ tls []%elem_of_nil|done]|]. simpl.
  split.
  - intros Hc tls [->|Hin]%elem_of_cons Hn.
    + rewrite bool_decide_false in Hc by done. by destruct (secretExists env _ ing).
    + apply IH; [|done|done]. case_bool_decide; [done|]. by destruct (secretExists env (itls_SecretName t) ing).
  - intros Hall. case_bool_decide as Ht; [|rewrite (Hall t) by (done || by left)];
      apply IH; intros tls Hin; apply Hall; by right.
Qed.

(** An ingress of this controller's class that the webhook admits
    finds its secrets when its routes are built, as long as the informer of
    secrets has what the API server has: the upstream certificate and the trusted
    CA named by its annotations, and the certificate of each of its TLS sections
    whose secret is in its own namespace. *)
Theorem admitted_ingress_has_secrets ing :
  IsValidPipyIngress (we_DefaultIngressClass env) ing = true →
  IngressValidator_doValidation env (OIngress ing) = None →
  let annos := Annotations (ing_Meta ing) in
  (smap_get annos PipyIngressAnnotationUpstreamSSLSecret ≠ "" →
     ∀ u, is_Some (SSLCert (ingressUpstream ienv annos ing u))) ∧
  (smap_get annos PipyIngressAnnotationTLSTrustedCASecret ≠ "" →
     ∀ cert ca, is_Some (ingressTrustedCA ienv annos ing cert ca)) ∧
  (∀ tls, tls ∈ ing_TLS ing → itls_SecretName tls ≠ "" →
     SplitMetaNamespaceKey (itls_SecretName tls) = Ok ("", itls_SecretName tls) →
     is_Some (fetchSSLCert ienv ing (Namespace (ing_Meta ing)) (itls_SecretName tls))).
Proof.
  intros Hpipy Hv annos. simpl in Hv. rewrite Hpipy in Hv. simpl in Hv.
  destruct (check_secret_annotation env PipyIngressAnnotationUpstreamSSLSecret ing) eqn:H1'; [done|].
  destruct (check_secret_annotation env PipyIngressAnnotationTLSTrustedCASecret ing) eqn:H2'; [done|].
  split_and!.
  - intros Hs u. pose proof (check_secret_annotation_None _ _ H1' Hs) as He.
    destruct (secretExists_no_error _ _ He) as (ns & name & Hsn).
    unfold ingressUpstream. fold annos in Hsn. rewrite (bool_decide_true (_ ≠ "")), Hsn by done. simpl.
    by eapply secretExists_fetched.
  - intros Hs cert ca. pose proof (check_secret_annotation_None _ _ H2' Hs) as He.
    destruct (secretExists_no_error _ _ He) as (ns & name & Hsn).
    unfold ingressTrustedCA. fold annos in Hsn. rewrite bool_decide_true, Hsn by done.
    by eapply secretExists_fetched.
  - intros tls Hin Hn Hsplit. rewrite check_tls_secrets_None in Hv. specialize (Hv tls Hin Hn).
    eapply (secretExists_fetched (itls_SecretName tls)); [|done].
    unfold SecretNamespaceAndName. by rewrite Hsplit, bool_decide_false.
Qed.
End ingress_secrets.
End guarantees.

(** ** Witnesses *)

Definition sample_ports : PortLib :=
  {| IsValidPortNum := fun p => if ((1 <=? p) && (p <=? 65535))%Z then [] else ["must be between 1 and 65535, inclusive"] |}.

Lemma sample_port_laws : @PortLaws sample_ports.
Proof.
  split. intros p. simpl. destruct ((1 <=? p) && (p <=? 65535))%Z eqn:Hp; split; try done; lia.
Qed.

Definition sample_gateway_lib : GatewayLib := {|
  Gateway := unit; GatewayClass := unit; HTTPRoute := unit;
  zero_Gateway := tt; zero_GatewayClass := tt; zero_HTTPRoute := tt;
  ValidateGateway := fun _ => []; ValidateGatewayClassUpdate := fun _ _ => []; ValidateHTTPRoute := fun _ => []
|}.

(** A decoder given by a table of documents; a document says what becomes of the object
    it is decoded into. *)
Definition sample_admission {O} (docs : string → option (O → O)) : AdmissionLib O :=
  let raw s into := match docs s with Some f => Ok (f into) | None => Err "syntax" end in
  {| Decode := fun req into => if bool_decide (req_Object req = "") then Err "there is no content to decode"
                               else raw (req_Object req) into;
     DecodeRaw := raw;
     json_Marshal := fun _ => Ok "{}";
     Allowed := fun msg => mkAdmissionResponse true 200 msg None;
     Denied := fun msg => mkAdmissionResponse false 403 msg None;
     Errored := fun code msg => mkAdmissionResponse false code msg None;
     PatchResponseFromRaw := fun _ cur => mkAdmissionResponse true 200 "" (Some cur);
     status_response := fun b s => mkAdmissionResponse b 500 s None |}.

Lemma sample_admission_laws {O} (docs : string → option (O → O)) : @AdmissionLaws O (sample_admission docs).
Proof.
  split; try done.
  - intros req o Hr. simpl. rewrite bool_decide_true by done. by eexists.
  - intros req o Hr. simpl. by rewrite bool_decide_false.
Qed.

Definition sample_wh_env (clusters : list Cluster) : wh_env :=
  mkWhEnv sample_md
    (mkCfgWorld (Ok (mkConfigMap (named "erie-canal" MeshConfigName) (Some {[ MeshConfigJsonName := "{}" ]}))) (Err NotFound))
    (Ok clusters) (fun _ => Ok []) (fun nn => if bool_decide (nn = mkNN "ns" "sec") then Ok tt else Err (PlainError "not found"))
    "pipy" (fun _ => "0xc000").

Definition sample_remote (label : option string) : Cluster :=
  mkCluster (mkMeta "" "c2" "" "" 0 None
               (match label with Some l => Some {[ MultiClustersConnectorMode := l ]} | None => None end) None [] None)
    (mkClusterSpec false "r" "z" "g" "gw.example.com" 8080 "kubeconfig") None.

Definition sample_local : Cluster :=
  mkCluster (mkMeta "" "local" "" "" 0 None (Some {[ MultiClustersConnectorMode := "local" ]}) None [] None)
    (mkClusterSpec true "r" "z" "g" "" 0 "") None.

(** A document of a cluster: the fields it has. *)
Record cluster_doc : Type := mkClusterDoc {
  cd_name : string;
  cd_labels : gmap string string;
  cd_IsInCluster : option bool;
  cd_locality : option (string * string * string);
  cd_gateway : option (string * Z);
  cd_Kubeconfig : option string
}.

(** As encoding/json decodes it: what the document has replaces what is there, entries of
    the map of labels are added, the rest stays. *)
Definition unmarshal_cluster (d : cluster_doc) (into : Cluster) : Cluster :=
  let m := cluster_Meta into in
  let s := cluster_Spec into in
  let '(r, z, g) := default (csp_Region s, csp_Zone s, csp_Group s) (cd_locality d) in
  let '(host, port) := default (csp_GatewayHost s, csp_GatewayPort s) (cd_gateway d) in
  mkCluster (mkMeta (Namespace m) (cd_name d) (UID m) (ResourceVersion m) (Generation m) (DeletionTimestamp m)
               (Some (cd_labels d ∪ gm_val (Labels m))) (Annotations m) (Finalizers m) (ControllerUID m))
    (mkClusterSpec (default (csp_IsInCluster s) (cd_IsInCluster d)) r z g host port
       (default (csp_Kubeconfig s) (cd_Kubeconfig d)))
    (cluster_Conditions into).

Definition mode_label (mode : string) : gmap string string := {[ MultiClustersConnectorMode := mode ]}.

Definition sample_cluster_docs (s : string) : option cluster_doc :=
  if bool_decide (s = "remote") then
    Some (mkClusterDoc "c2" (mode_label "remote") (Some false) (Some ("r", "z", "g")) (Some ("gw.example.com", 8080%Z))
            (Some "kubeconfig"))
  else if bool_decide (s = "local") then
    Some (mkClusterDoc "local" (mode_label "local") (Some true) (Some ("r", "z", "g")) None None)
  else if bool_decide (s = "remote without gateway") then
    Some (mkClusterDoc "c2" (mode_label "remote") (Some false) None None None)
  else if bool_decide (s = "remote without mode") then
    Some (mkClusterDoc "c2" (mode_label "remote") None None None None)
  else if bool_decide (s = "made local") then
    Some (mkClusterDoc "c2" (mode_label "local") (Some true) None None None)
  else None.

Definition sample_docs (s : string) : option (@runtime_object sample_gateway_lib → @runtime_object sample_gateway_lib) :=
  (fun d o => match o with
              | OCluster c => @OCluster sample_gateway_lib (unmarshal_cluster d c)
              | _ => o
              end) <$> sample_cluster_docs s.

Definition sample_create (doc : string) : AdmissionRequest := mkRequest CreateOp doc "".

(** The old document leaves out the gateway, and is decoded into the new object, which
    has one. *)
Definition sample_update : AdmissionRequest := mkRequest UpdateOp "remote" "remote without gateway".

Lemma sample_stored_document old :
  csp_IsInCluster (cluster_Spec old) = false →
  @stored_document sample_gateway_lib (sample_admission sample_docs) "remote without gateway" old.
Proof. intros Hold into. eexists. split; [reflexivity|]. by rewrite Hold. Qed.

(** Without the field for the mode in the old document, the old object takes the mode of
    the new one, and a change of the mode is admitted. *)
Example mode_change_escapes :
  (λ r, match r with Ret resp => resp_Allowed resp | Panic => false end)
    (@ValidatingWebhookFor _ (sample_admission sample_docs)
      (@ClusterValidator sample_lib sample_net_lib sample_ports sample_gateway_lib (sample_wh_env []))
      (mkRequest UpdateOp "made local" "remote without mode")) = true.
Proof. vm_compute. reflexivity. Qed.

Lemma admitted_iff_connectable_witness :
  Forall (fun req =>
    ∃ resp cfg,
      @ValidatingWebhookFor _ (sample_admission sample_docs)
        (@ClusterValidator sample_lib sample_net_lib sample_ports sample_gateway_lib (sample_wh_env [])) req = Ret resp ∧
      resp_Allowed resp = true ∧
      @connectorConfig sample_lib sample_net_lib (sample_remote None) sample_mesh_config = Ok cfg)
    [sample_create "remote"; sample_update].
Proof.
  assert (Hreq : ∀ req, req_Object req = "remote" →
    (req_Operation req = CreateOp ∧ csp_IsInCluster (cluster_Spec (sample_remote None)) = false ∨
     req_Operation req = UpdateOp ∧ ∃ old, @stored_document sample_gateway_lib (sample_admission sample_docs) (req_OldObject req) old ∧
       csp_IsInCluster (cluster_Spec old) = csp_IsInCluster (cluster_Spec (sample_remote None))) →
    ∃ resp cfg,
      @ValidatingWebhookFor _ (sample_admission sample_docs)
        (@ClusterValidator sample_lib sample_net_lib sample_ports sample_gateway_lib (sample_wh_env [])) req = Ret resp ∧
      resp_Allowed resp = true ∧
      @connectorConfig sample_lib sample_net_lib (sample_remote None) sample_mesh_config = Ok cfg).
  { intros req Hobj Hop.
    destruct (@admitted_iff_connectable sample_lib sample_net_lib sample_ports sample_port_laws sample_config_lib
                sample_gateway_lib (sample_admission sample_docs) (sample_admission_laws sample_docs)
                (sample_wh_env []) (sample_remote None) (@OCluster sample_gateway_lib (sample_remote (Some "remote")))
                req sample_mesh_config) as (resp & Hr & Ha).
    - reflexivity.
    - rewrite Hobj. split; [done|]. split; vm_compute; reflexivity.
    - exact Hop.
    - exists resp. eexists. split; [exact Hr|]. split; [|reflexivity]. apply Ha. split.
      + intros _. split_and!; done.
      + by eexists. }
  constructor; [|constructor; [|constructor]]; apply Hreq; try reflexivity.
  - left. split; reflexivity.
  - right. split; [reflexivity|]. exists (sample_remote None). split; [by apply sample_stored_document|reflexivity].
Defined.

Lemma one_in_cluster_witness :
  ∃ s : gmap string Cluster,
    s = <["c2" := sample_remote (Some "remote")]> (<["c2" := sample_remote (Some "remote")]> {[ "local" := sample_local ]}) ∧
    @rtc (gmap string Cluster)
      (admit_step
         (@cluster_create sample_lib sample_net_lib sample_ports sample_gateway_lib (sample_admission sample_docs))
         (@cluster_update sample_lib sample_net_lib sample_ports sample_gateway_lib (sample_admission sample_docs))) ∅ s ∧
    ∀ k1 k2 c1 c2, s !! k1 = Some c1 → s !! k2 = Some c2 →
      csp_IsInCluster (cluster_Spec c1) = true → csp_IsInCluster (cluster_Spec c2) = true → k1 = k2.
Proof.
  eexists. split; [reflexivity|].
  match goal with |- ?P ∧ _ => assert (Hr : P) end.
  - eapply rtc_l; [apply (admit_create _ _ _ "local" sample_local); [reflexivity|]|].
    { split; [reflexivity|]. exists (sample_wh_env []), [], (sample_create "local").
      split_and!; [reflexivity|reflexivity|reflexivity|split; [done|split; vm_compute; reflexivity]|].
      eexists. split; [reflexivity|reflexivity]. }
    eapply rtc_l; [apply (admit_create _ _ _ "c2" (sample_remote (Some "remote"))); [reflexivity|]|].
    { split; [reflexivity|]. exists (sample_wh_env [sample_local]), [sample_local], (sample_create "remote").
      split_and!; [reflexivity|vm_compute; reflexivity|reflexivity|split; [done|split; vm_compute; reflexivity]|].
      eexists. split; [reflexivity|reflexivity]. }
    apply rtc_once. eapply (admit_update _ _ _ "c2" (sample_remote (Some "remote"))); [reflexivity|].
    split; [reflexivity|]. exists (sample_wh_env []), sample_update.
    split_and!; [reflexivity|split; [done|split; vm_compute; reflexivity]|by apply sample_stored_document|].
    eexists. split; [reflexivity|reflexivity].
  - split; [exact Hr|].
    exact (proj1 (@one_in_cluster sample_lib sample_net_lib sample_ports sample_port_laws
             sample_gateway_lib (sample_admission sample_docs) (sample_admission_laws sample_docs) _ Hr)).
Defined.

(** A configuration without images, and its defaults. *)
Definition bare_config : MeshConfig :=
  mkMeshConfig true "http://repo:6060/" (mkImages "" "" "" "") "" (mc_Ingress sample_mesh_config) false
    (mkCertificateSettings "" "ca" "") (mc_Cluster sample_mesh_config) false.

Definition bare_lib : ConfigLib := {|
  json_Unmarshal := fun s => if bool_decide (s = "{}") then Ok bare_config
                             else if bool_decide (s = "{defaulted}") then Ok (default_mesh_config bare_config)
                             else Err "syntax";
  json_MarshalIndent := fun cfg => if bool_decide (im_Repository (mc_Images cfg) = "") then Ok "{}" else Ok "{defaulted}";
  validate_Struct := fun _ => None;
  sjson_Set := fun j k _ => Ok (j +:+ k);
  IssueCertificate := fun _ => Ok (mkCertificate "crt" "key" "ca")
|}.

Definition sample_cm : ConfigMap :=
  mkConfigMap (named "erie-canal" MeshConfigName) (Some {[ MeshConfigJsonName := "{}" ]}).

Lemma mesh_config_defaults_witness :
  ∃ cm', @ConfigMapDefaulter_SetDefaults bare_lib sample_gateway_lib (sample_wh_env [])
           (@OConfigMap sample_gateway_lib sample_cm) = Ret (@OConfigMap sample_gateway_lib cm') ∧
    @ParseMeshConfig bare_lib sample_md cm' = Ok (default_mesh_config bare_config).
Proof.
  destruct (@mesh_config_defaults bare_lib sample_gateway_lib (sample_wh_env []) sample_cm)
    as (cm' & Hd & _ & Hp & _).
  - intros cfg [= <-]. split; reflexivity.
  - exists cm'. split; [exact Hd|exact Hp].
Defined.

Definition sample_secret_ingress : Ingress :=
  mkIngress (mkMeta "ns" "one" "" "" 0 None None
               (Some {[ PipyIngressAnnotationUpstreamSSLSecret := "ns/sec" ]}) [] None)
    (Some "pipy") [mkTLS ["a.com"] "sec"] (ing_Rules (sample_ingress "pipy" "one")).

Lemma sample_secrets_synced nn :
  we_Secret (sample_wh_env []) nn = Ok tt → ∃ data, env_Secrets sample_tls_env nn = Ok data.
Proof. simpl. case_bool_decide; [by eexists|done]. Qed.

Lemma admitted_ingress_has_secrets_witness :
  is_Some (SSLCert (@ingressUpstream sample_lib sample_tls_env
             (Annotations (ing_Meta sample_secret_ingress)) sample_secret_ingress None)) ∧
  is_Some (fetchSSLCert sample_tls_env sample_secret_ingress "ns" "sec").
Proof.
  destruct (@admitted_ingress_has_secrets sample_lib sample_gateway_lib (sample_wh_env []) sample_tls_env
              sample_secrets_synced sample_secret_ingress) as (Hu & _ & Ht).
  - reflexivity.
  - reflexivity.
  - split; [apply Hu; done|]. apply (Ht (mkTLS ["a.com"] "sec")); [by left|done|reflexivity].
Defined.
