(* ===== verification/WebhookServer.v ===== *)
(** * The webhook server ([pkg/webhooks/register.go], the registrations of the
    webhook packages, [cmd/manager/webhooks.go])

    At start the control plane issues a certificate for its webhook server, tells
    the API server which webhooks to call, and registers their handlers. *)

From S2P Require Import Prelude GoLib Effects Kube CacheTypes McsTypes Config RouteBuild IngressCache ClusterReconciler Certificates Admission Webhooks.

(** ** Paths ([pkg/commons/consts.go]) *)

Definition ConfigMapMutatingWebhookPath : string := "/mutate-core-v1-configmap".
Definition ConfigMapValidatingWebhookPath : string := "/validate-core-v1-configmap".
Definition ClusterMutatingWebhookPath : string := "/mutate-flomesh-io-v1alpha1-cluster".
Definition ClusterValidatingWebhookPath : string := "/validate-flomesh-io-v1alpha1-cluster".
Definition NamespacedIngressMutatingWebhookPath : string := "/mutate-flomesh-io-v1alpha1-namespacedingress".
Definition NamespacedIngressValidatingWebhookPath : string := "/validate-flomesh-io-v1alpha1-namespacedingress".
Definition GatewayMutatingWebhookPath : string := "/mutate-gateway-networking-k8s-io-v1beta1-gateway".
Definition GatewayValidatingWebhookPath : string := "/validate-gateway-networking-k8s-io-v1beta1-gateway".
Definition GatewayClassMutatingWebhookPath : string := "/mutate-gateway-networking-k8s-io-v1beta1-gatewayclass".
Definition GatewayClassValidatingWebhookPath : string := "/validate-gateway-networking-k8s-io-v1beta1-gatewayclass".
Definition HTTPRouteMutatingWebhookPath : string := "/mutate-gateway-networking-k8s-io-v1beta1-httproute".
Definition HTTPRouteValidatingWebhookPath : string := "/validate-gateway-networking-k8s-io-v1beta1-httproute".
Definition ServiceImportMutatingWebhookPath : string := "/mutate-flomesh-io-v1alpha1-serviceimport".
Definition ServiceImportValidatingWebhookPath : string := "/validate-flomesh-io-v1alpha1-serviceimport".
Definition ServiceExportMutatingWebhookPath : string := "/mutate-flomesh-io-v1alpha1-serviceexport".
Definition ServiceExportValidatingWebhookPath : string := "/validate-flomesh-io-v1alpha1-serviceexport".
Definition GlobalTrafficPolicyMutatingWebhookPath : string := "/mutate-flomesh-io-v1alpha1-globaltrafficpolicy".
Definition GlobalTrafficPolicyValidatingWebhookPath : string := "/validate-flomesh-io-v1alpha1-globaltrafficpolicy".
Definition IngressMutatingWebhookPath : string := "/mutate-networking-v1-ingress".
Definition IngressValidatingWebhookPath : string := "/validate-networking-v1-ingress".
Definition WebhookServerServingCertsPath : string := "/tmp/k8s-webhook-server/serving-certs".

(** ** Registrations

    The ten functions RegisterWebhooks differ in their constants and in the
    selector of namespaces. *)

Section register.
Context (webhookSvcNs webhookSvcName caBundle : string).

Definition register (mwName mwPath vwName vwPath groups versions resources : string)
    (nsSelector : option (gmap string string)) (r : registry) : registry :=
  let rule := NewRule [CreateOp; UpdateOp] [groups] [versions] [resources] in
  let mutatingWebhook :=
    NewMutatingWebhook mwName webhookSvcNs webhookSvcName mwPath caBundle nsSelector [rule] in
  let validatingWebhook :=
    NewValidatingWebhook vwName webhookSvcNs webhookSvcName vwPath caBundle nsSelector [rule] in
  RegisterValidatingWebhook vwName validatingWebhook (RegisterMutatingWebhook mwName mutatingWebhook r).

Definition cluster_RegisterWebhooks : registry → registry :=
  register "mcluster.kb.flomesh.io" ClusterMutatingWebhookPath "vcluster.kb.flomesh.io"
    ClusterValidatingWebhookPath "flomesh.io" "v1alpha1" "clusters" None.
Definition cm_RegisterWebhooks : registry → registry :=
  register "mconfigmap.kb.flomesh.io" ConfigMapMutatingWebhookPath "vconfigmap.kb.flomesh.io"
    ConfigMapValidatingWebhookPath "" "v1" "configmaps" (Some {[ FlomeshControlPlaneLabel := "true" ]}).
Definition namespacedingress_RegisterWebhooks : registry → registry :=
  register "mnamespacedingress.kb.flomesh.io" NamespacedIngressMutatingWebhookPath "vnamespacedingress.kb.flomesh.io"
    NamespacedIngressValidatingWebhookPath "flomesh.io" "v1alpha1" "namespacedingresses" None.
Definition serviceexport_RegisterWebhooks : registry → registry :=
  register "mserviceexport.kb.flomesh.io" ServiceExportMutatingWebhookPath "vserviceexport.kb.flomesh.io"
    ServiceExportValidatingWebhookPath "flomesh.io" "v1alpha1" "serviceexports" None.
Definition serviceimport_RegisterWebhooks : registry → registry :=
  register "mserviceimport.kb.flomesh.io" ServiceImportMutatingWebhookPath "vserviceimport.kb.flomesh.io"
    ServiceImportValidatingWebhookPath "flomesh.io" "v1alpha1" "serviceimports" None.
Definition globaltrafficpolicy_RegisterWebhooks : registry → registry :=
  register "mglobaltrafficpolicy.kb.flomesh.io" GlobalTrafficPolicyMutatingWebhookPath "vglobaltrafficpolicy.kb.flomesh.io"
    GlobalTrafficPolicyValidatingWebhookPath "flomesh.io" "v1alpha1" "globaltrafficpolicies" None.
Definition ingress_RegisterWebhooks : registry → registry :=
  register "mingress.kb.flomesh.io" IngressMutatingWebhookPath "vingress.kb.flomesh.io"
    IngressValidatingWebhookPath "networking.k8s.io" "v1" "ingresses" None.
Definition gateway_RegisterWebhooks : registry → registry :=
  register "mgateway.kb.flomesh.io" GatewayMutatingWebhookPath "vgateway.kb.flomesh.io"
    GatewayValidatingWebhookPath "gateway.networking.k8s.io" "v1beta1" "gateways" None.
Definition gatewayclass_RegisterWebhooks : registry → registry :=
  register "mgatewayclass.kb.flomesh.io" GatewayClassMutatingWebhookPath "vgatewayclass.kb.flomesh.io"
    GatewayClassValidatingWebhookPath "gateway.networking.k8s.io" "v1beta1" "gatewayclasses" None.
Definition httproute_RegisterWebhooks : registry → registry :=
  register "mhttproute.kb.flomesh.io" HTTPRouteMutatingWebhookPath "vhttproute.kb.flomesh.io"
    HTTPRouteValidatingWebhookPath "gateway.networking.k8s.io" "v1beta1" "httproutes" None.

Definition RegisterWebhooks (r : registry) : registry :=
  let r := cluster_RegisterWebhooks r in
  let r := cm_RegisterWebhooks r in
  let r := namespacedingress_RegisterWebhooks r in
  let r := serviceexport_RegisterWebhooks r in
  let r := serviceimport_RegisterWebhooks r in
  let r := globaltrafficpolicy_RegisterWebhooks r in
  ingress_RegisterWebhooks r.

Definition RegisterGatewayApiWebhooks (r : registry) : registry :=
  let r := gateway_RegisterWebhooks r in
  let r := gatewayclass_RegisterWebhooks r in
  httproute_RegisterWebhooks r.
End register.

(** ** The server ([registerToWebhookServer]) *)

Section server.
Context `{KubeLib} `{NetLib} `{PortLib} `{ConfigLib} `{GatewayLib} `{AL : AdmissionLib runtime_object}.
Context (env : wh_env).

(** The registrations, in order. *)
Definition hooks : Type := list (string * (AdmissionRequest → go AdmissionResponse)).

Definition registerGatewayApiToWebhookServer : hooks :=
  [(GatewayMutatingWebhookPath, DefaultingWebhookFor (GatewayDefaulter env));
   (GatewayValidatingWebhookPath, ValidatingWebhookFor GatewayValidator);
   (GatewayClassMutatingWebhookPath, DefaultingWebhookFor (GatewayClassDefaulter env));
   (GatewayClassValidatingWebhookPath, ValidatingWebhookFor GatewayClassValidator);
   (HTTPRouteMutatingWebhookPath, DefaultingWebhookFor (HTTPRouteDefaulter env));
   (HTTPRouteValidatingWebhookPath, ValidatingWebhookFor HTTPRouteValidator)].

Definition registerToWebhookServer (mc : MeshConfig) : hooks :=
  [(ClusterMutatingWebhookPath, DefaultingWebhookFor (ClusterDefaulter env));
   (ClusterValidatingWebhookPath, ValidatingWebhookFor (ClusterValidator env));
   (NamespacedIngressMutatingWebhookPath, DefaultingWebhookFor (NamespacedIngressDefaulter env));
   (NamespacedIngressValidatingWebhookPath, ValidatingWebhookFor (NamespacedIngressValidator env));
   (ServiceExportMutatingWebhookPath, DefaultingWebhookFor ServiceExportDefaulter);
   (ServiceExportValidatingWebhookPath, ValidatingWebhookFor ServiceExportValidator);
   (ServiceImportMutatingWebhookPath, DefaultingWebhookFor (ServiceImportDefaulter env));
   (ServiceImportValidatingWebhookPath, ValidatingWebhookFor ServiceImportValidator);
   (GlobalTrafficPolicyMutatingWebhookPath, DefaultingWebhookFor (GlobalTrafficPolicyDefaulter env));
   (GlobalTrafficPolicyValidatingWebhookPath, ValidatingWebhookFor (GlobalTrafficPolicyValidator env));
   (ConfigMapMutatingWebhookPath, DefaultingWebhookFor (ConfigMapDefaulter env));
   (ConfigMapValidatingWebhookPath, ValidatingWebhookFor (ConfigMapValidator env));
   (IngressMutatingWebhookPath, DefaultingWebhookFor IngressDefaulter);
   (IngressValidatingWebhookPath, ValidatingWebhookFor (IngressValidator env))] ++
  (if mc_GatewayApi_Enabled mc then registerGatewayApiToWebhookServer else []).
End server.

(** ** At start ([createWebhookConfigurations]) *)

Inductive start_write : Type :=
| MkdirAll (path : string)
| WriteFile (name data : string)
| CreateMutatingConfiguration (c : WebhookConfiguration)
| UpdateMutatingConfiguration (c : WebhookConfiguration)
| CreateValidatingConfiguration (c : WebhookConfiguration)
| UpdateValidatingConfiguration (c : WebhookConfiguration).

(** The file system and the API server. *)
Record start_env : Type := mkStartEnv {
  st_file : start_write → option string;
  st_api : start_write → option kerror;
  (** the existing configurations *)
  st_mutating : result kerror WebhookConfiguration;
  st_validating : result kerror WebhookConfiguration
}.

Section start.
Context `{MapRange} {Env M : Type} `{Manager Env M}.
Context (md : ErieCanalMetadata) (senv : start_env).

Abbreviation start := (eff start_write string).

Definition write_file (w : start_write) : start unit :=
  write (fun w => match st_file senv w with None => Ok tt | Some e => Err e end) w.

Fixpoint write_files (files : list (string * string)) : start unit :=
  match files with
  | [] => mret tt
  | (file, data) :: files =>
    _ ← write_file (WriteFile (WebhookServerServingCertsPath +:+ "/" +:+ file) data);
    write_files files
  end.

(** The certificate, with the state of the manager after the call. *)
Definition issueCertForWebhook (e : Env) (certMgr : M) (mc : MeshConfig) : start (IssuedCertificate * M) :=
  let svc := mc_Webhook_ServiceName mc in
  match mgr_IssueCertificate e certMgr svc DefaultCAValidityPeriod
          [svc; svc +:+ "." +:+ GetErieCanalNamespace md +:+ ".svc";
           svc +:+ "." +:+ GetErieCanalNamespace md +:+ ".svc.cluster.local"] with
  | Panic => Panic
  | Ret (Err err, _) => fail err
  | Ret (Ok cert, certMgr) =>
    _ ← write_file (MkdirAll WebhookServerServingCertsPath);
    _ ← write_files (go_range (<[RootCACertName := ic_CA cert]>
          (<[TLSCertName := ic_CrtPEM cert]> {[ TLSPrivateKeyName := ic_KeyPEM cert ]} : gmap string string)));
    mret (cert, certMgr)
  end.

(** Creating a configuration, or updating the one that exists; [os.Exit(1)] is the
    error "exit status 1". *)
Definition create_or_replace (create update : WebhookConfiguration → start_write)
    (existing : result kerror WebhookConfiguration) (wc : WebhookConfiguration) : start unit :=
  match st_api senv (create wc) with
  | None => Ret ([create wc], Ok tt)
  | Some AlreadyExists =>
    match existing with
    | Err _ => Ret ([create wc], Err "exit status 1")
    | Ok existingWc =>
      let existingWc := mkWebhookConfiguration (wc_Name existingWc) (wc_Webhooks wc) in
      match st_api senv (update existingWc) with
      | None => Ret ([create wc; update existingWc], Ok tt)
      | Some _ => Ret ([create wc; update existingWc], Err "exit status 1")
      end
    end
  | Some _ => Ret ([create wc], Err "exit status 1")
  end.

Definition registered_webhooks (mc : MeshConfig) (caBundle : string) : registry :=
  let ns := GetErieCanalNamespace md in
  let svcName := mc_Webhook_ServiceName mc in
  let r := RegisterWebhooks ns svcName caBundle empty_registry in
  if mc_GatewayApi_Enabled mc then RegisterGatewayApiWebhooks ns svcName caBundle r else r.

Definition createWebhookConfigurations (e : Env) (certMgr : M) (mc : MeshConfig) : start M :=
  match issueCertForWebhook e certMgr mc with
  | Panic => Panic
  | Ret (ws, Err _) => Ret (ws, Err "exit status 1")
  | Ret (ws, Ok (cert, certMgr)) =>
    let r := registered_webhooks mc (ic_CA cert) in
    let rest : start M :=
      mwc ← from_go (deref (NewMutatingWebhookConfiguration r));
      _ ← create_or_replace CreateMutatingConfiguration UpdateMutatingConfiguration (st_mutating senv) mwc;
      vmc ← from_go (deref (NewValidatingWebhookConfiguration r));
      _ ← create_or_replace CreateValidatingConfiguration UpdateValidatingConfiguration (st_validating senv) vmc;
      mret certMgr in
    match rest with
    | Panic => Panic
    | Ret (ws', res) => Ret (ws ++ ws', res)
    end
  end.
End start.

(** ** Every webhook is served *)

(** A kind of objects with its implementations. *)
Record kind `{GatewayLib} : Type := mkKind {
  k_name : string;
  k_group : string;
  k_version : string;
  k_resource : string;
  k_defaulter : Defaulter runtime_object;
  k_validator : Validator runtime_object
}.

Section served.
Context `{KubeLib} `{NetLib} `{PortLib} `{ConfigLib} `{GatewayLib} `{AL : AdmissionLib runtime_object}.
Context `{MapRange} (env : wh_env) (md : ErieCanalMetadata).

(** The kinds of the program. *)
Definition kinds (mc : MeshConfig) : list kind :=
  [mkKind _ "cluster" "flomesh.io" "v1alpha1" "clusters" (ClusterDefaulter env) (ClusterValidator env);
   mkKind _ "configmap" "" "v1" "configmaps" (ConfigMapDefaulter env) (ConfigMapValidator env);
   mkKind _ "namespacedingress" "flomesh.io" "v1alpha1" "namespacedingresses" (NamespacedIngressDefaulter env) (NamespacedIngressValidator env);
   mkKind _ "serviceexport" "flomesh.io" "v1alpha1" "serviceexports" ServiceExportDefaulter ServiceExportValidator;
   mkKind _ "serviceimport" "flomesh.io" "v1alpha1" "serviceimports" (ServiceImportDefaulter env) ServiceImportValidator;
   mkKind _ "globaltrafficpolicy" "flomesh.io" "v1alpha1" "globaltrafficpolicies" (GlobalTrafficPolicyDefaulter env) (GlobalTrafficPolicyValidator env);
   mkKind _ "ingress" "networking.k8s.io" "v1" "ingresses" IngressDefaulter (IngressValidator env)] ++
  (if mc_GatewayApi_Enabled mc then
    [mkKind _ "gateway" "gateway.networking.k8s.io" "v1beta1" "gateways" (GatewayDefaulter env) GatewayValidator;
     mkKind _ "gatewayclass" "gateway.networking.k8s.io" "v1beta1" "gatewayclasses" (GatewayClassDefaulter env) GatewayClassValidator;
     mkKind _ "httproute" "gateway.networking.k8s.io" "v1beta1" "httproutes" (HTTPRouteDefaulter env) HTTPRouteValidator]
   else []).

(** The webhook [w] is for the kind [k] and its path is served by [handler]. *)
Definition serves_kind (mc : MeshConfig) (caBundle : string) (w : Webhook) (k : kind)
    (handler : AdmissionRequest → go AdmissionResponse) : Prop :=
  wh_Rules w = [NewRule [CreateOp; UpdateOp] [k_group k] [k_version k] [k_resource k]] ∧
  wh_FailurePolicy w = "Fail" ∧ wh_ServiceNamespace w = GetErieCanalNamespace md ∧ wh_ServiceName w = mc_Webhook_ServiceName mc ∧
  wh_CABundle w = caBundle ∧ (wh_Path w, handler) ∈ registerToWebhookServer env mc.

(** Membership in a list that is written out. *)
Ltac in_list := repeat (first [apply list_elem_of_here | apply list_elem_of_further]).
(** The first kind of the list that fits. *)
Ltac find_kind := apply Exists_exists;
  repeat (first [apply Exists_cons_hd; solve [split_and!; [reflexivity..|simpl; in_list]] | apply Exists_cons_tl]).

Lemma mutating_served mc ca name w :
  mutatingWebhooks (registered_webhooks md mc ca) !! name = Some w →
  ∃ k, k ∈ kinds mc ∧ serves_kind mc ca w k (DefaultingWebhookFor (k_defaulter k)).
Proof.
  unfold registered_webhooks, serves_kind, kinds, registerToWebhookServer.
  destruct (mc_GatewayApi_Enabled mc); simpl; intros Hw;
    repeat (apply lookup_insert_Some in Hw as [[_ Hw]|[_ Hw]]; [subst w; find_kind|]);
    by apply lookup_empty_Some in Hw.
Qed.

Lemma validating_served mc ca name w :
  validatingWebhooks (registered_webhooks md mc ca) !! name = Some w →
  ∃ k, k ∈ kinds mc ∧ serves_kind mc ca w k (ValidatingWebhookFor (k_validator k)).
Proof.
  unfold registered_webhooks, serves_kind, kinds, registerToWebhookServer.
  destruct (mc_GatewayApi_Enabled mc); simpl; intros Hw;
    repeat (apply lookup_insert_Some in Hw as [[_ Hw]|[_ Hw]]; [subst w; find_kind|]);
    by apply lookup_empty_Some in Hw.
Qed.

(** Every kind has its two webhooks, under its name. *)
Definition webhook_name (prefix : string) (k : kind) : string := prefix +:+ k_name k +:+ ".kb.flomesh.io".

Lemma kinds_registered mc ca k :
  k ∈ kinds mc →
  (∃ w, mutatingWebhooks (registered_webhooks md mc ca) !! webhook_name "m" k = Some w ∧
     serves_kind mc ca w k (DefaultingWebhookFor (k_defaulter k))) ∧
  (∃ w, validatingWebhooks (registered_webhooks md mc ca) !! webhook_name "v" k = Some w ∧
     serves_kind mc ca w k (ValidatingWebhookFor (k_validator k))).
Proof.
  revert k. apply Forall_forall. unfold registered_webhooks, serves_kind, kinds, registerToWebhookServer.
  destruct (mc_GatewayApi_Enabled mc); simpl;
    repeat (apply Forall_cons; split; [|]); try apply Forall_nil_2;
    (split; eexists; (split; [rewrite ?lookup_insert_ne by done; apply lookup_insert_eq|]);
      (split_and!; [reflexivity..|simpl; in_list])).
Qed.

Lemma in_configuration (m : gmap string Webhook) w : w ∈ (go_range m).*2 ↔ ∃ name, m !! name = Some w.
Proof.
  rewrite list_elem_of_fmap. split.
  - intros ([name w'] & -> & Hin). exists name. by apply go_range_elem.
  - intros [name Hw]. exists (name, w). split; [done|]. by apply go_range_elem.
Qed.

Lemma registered_nonempty mc ca : size (mutatingWebhooks (registered_webhooks md mc ca)) ≠ 0.
Proof.
  apply map_size_non_empty_iff. destruct (kinds_registered mc ca (mkKind _ "cluster" "flomesh.io" "v1alpha1" "clusters"
    (ClusterDefaulter env) (ClusterValidator env))) as [(w & Hw & _) _]; [by left|].
  intros He. by rewrite He, lookup_empty in Hw.
Qed.

(** The API server is never told to call a path that nobody
    serves: whatever order the registered webhooks are listed in, every webhook of
    the two configurations is called on creation and update of one kind of
    objects, fails closed, carries the CA bundle, and its path is served by the
    defaulter (validator) of that kind; every kind has both webhooks; and no path
    is registered twice, which would panic. *)
Theorem webhooks_are_served mc ca :
  NoDup (registerToWebhookServer env mc).*1 ∧
  ∃ mwc vwc,
    NewMutatingWebhookConfiguration (registered_webhooks md mc ca) = Some mwc ∧
    NewValidatingWebhookConfiguration (registered_webhooks md mc ca) = Some vwc ∧
    (∀ w, w ∈ wc_Webhooks mwc →
       ∃ k, k ∈ kinds mc ∧ serves_kind mc ca w k (DefaultingWebhookFor (k_defaulter k))) ∧
    (∀ w, w ∈ wc_Webhooks vwc →
       ∃ k, k ∈ kinds mc ∧ serves_kind mc ca w k (ValidatingWebhookFor (k_validator k))) ∧
    (∀ k, k ∈ kinds mc →
       (∃ w, w ∈ wc_Webhooks mwc ∧ serves_kind mc ca w k (DefaultingWebhookFor (k_defaulter k))) ∧
       (∃ w, w ∈ wc_Webhooks vwc ∧ serves_kind mc ca w k (ValidatingWebhookFor (k_validator k)))).
Proof.
  split.
  { unfold registerToWebhookServer. destruct (mc_GatewayApi_Enabled mc); simpl;
      apply (bool_decide_unpack _); vm_compute; exact I. }
  unfold NewMutatingWebhookConfiguration, NewValidatingWebhookConfiguration.
  rewrite bool_decide_false by apply registered_nonempty.
  do 2 eexists. split; [done|]. split; [done|]. simpl. split_and!.
  - intros w [name Hw]%in_configuration. by eapply mutating_served.
  - intros w [name Hw]%in_configuration. by eapply validating_served.
  - intros k Hk. destruct (kinds_registered mc ca k Hk) as [(w & Hw & Hs) (w' & Hw' & Hs')].
    split; [exists w|exists w']; (split; [apply in_configuration; by eexists|done]).
Qed.
End served.

(** ** The certificate of the server *)

Section start_props.
Context `{MapRange} {Env M : Type} `{Manager Env M}.
Context (md : ErieCanalMetadata) (senv : start_env).

Lemma write_files_ok files ws u :
  write_files senv files = Ret (ws, Ok u) →
  ws = (fun f => WriteFile (WebhookServerServingCertsPath +:+ "/" +:+ f.1) f.2) <$> files.
Proof.
  revert ws. induction files as [|[file data] files IH]; intros ws; [by intros [= <-]|].
  cbn [write_files]. intros [(e & _ & [=])|(ws1 & ws2 & [] & Hw & Hf & ->)]%eff_bind_Ret.
  unfold write_file, write in Hw. injection Hw as <- _. by rewrite (IH _ Hf).
Qed.

(** The files of a certificate. *)
Definition cert_files (cert : IssuedCertificate) : gmap string string :=
  <[RootCACertName := ic_CA cert]> (<[TLSCertName := ic_CrtPEM cert]> {[ TLSPrivateKeyName := ic_KeyPEM cert ]}).

Lemma issueCertForWebhook_ok e m mc ws cert m' :
  issueCertForWebhook md senv e m mc = Ret (ws, Ok (cert, m')) →
  mgr_IssueCertificate e m (mc_Webhook_ServiceName mc) DefaultCAValidityPeriod
    [mc_Webhook_ServiceName mc; mc_Webhook_ServiceName mc +:+ "." +:+ GetErieCanalNamespace md +:+ ".svc";
     mc_Webhook_ServiceName mc +:+ "." +:+ GetErieCanalNamespace md +:+ ".svc.cluster.local"] = Ret (Ok cert, m') ∧
  ∀ file data, cert_files cert !! file = Some data →
    WriteFile (WebhookServerServingCertsPath +:+ "/" +:+ file) data ∈ ws.
Proof.
  unfold issueCertForWebhook. destruct (mgr_IssueCertificate _ _ _ _ _) as [[[c|err] m'']|]; [|done|done].
  intros [(? & _ & [=])|(ws1 & ws2 & [] & _ & Hr & ->)]%eff_bind_Ret.
  apply eff_bind_Ret in Hr as [(? & _ & [=])|(ws3 & ws4 & [] & Hf & Hr & ->)].
  injection Hr as <- <- <-. apply write_files_ok in Hf as ->. split; [done|].
  intros file data Hd. rewrite !elem_of_app. right. left. apply list_elem_of_fmap. exists (file, data).
  split; [done|]. by apply go_range_elem.
Qed.

Lemma create_or_replace_creates create update existing wc ws r :
  create_or_replace senv create update existing wc = Ret (ws, r) → create wc ∈ ws.
Proof. unfold create_or_replace. repeat case_match; intros [= <- _]; by left. Qed.

(** What is sent has the webhooks of the configuration. *)
Lemma create_or_replace_webhooks create update existing wc ws r :
  create_or_replace senv create update existing wc = Ret (ws, r) →
  ∀ w, w ∈ ws → ∃ wc', (w = create wc' ∨ w = update wc') ∧ wc_Webhooks wc' = wc_Webhooks wc.
Proof.
  intros Hc w Hin. assert (w = create wc ∨ ∃ old, w = update (mkWebhookConfiguration (wc_Name old) (wc_Webhooks wc))) as Hw.
  { revert Hc Hin. unfold create_or_replace.
    repeat case_match; intros [= <- _]; rewrite ?elem_of_cons, elem_of_nil; naive_solver. }
  destruct Hw as [->|[old ->]]; eauto.
Qed.
End start_props.

(** How the API server reaches the server of a webhook. *)
Definition client_of (md : ErieCanalMetadata) (mc : MeshConfig) (caBundle : string) (w : Webhook) : Prop :=
  wh_CABundle w = caBundle ∧ wh_ServiceName w = mc_Webhook_ServiceName mc ∧
  wh_ServiceNamespace w = GetErieCanalNamespace md.

Lemma registered_client md mc ca name w :
  mutatingWebhooks (registered_webhooks md mc ca) !! name = Some w ∨
  validatingWebhooks (registered_webhooks md mc ca) !! name = Some w →
  client_of md mc ca w.
Proof.
  unfold registered_webhooks. destruct (mc_GatewayApi_Enabled mc); simpl; intros [Hw|Hw];
    repeat (apply lookup_insert_Some in Hw as [[_ <-]|[_ Hw]]; [by split_and!|]);
    by apply lookup_empty_Some in Hw.
Qed.

(** The configurations a log of writes sends. *)
Definition sent (ws : list start_write) (wc : WebhookConfiguration) : Prop :=
  CreateMutatingConfiguration wc ∈ ws ∨ UpdateMutatingConfiguration wc ∈ ws ∨
  CreateValidatingConfiguration wc ∈ ws ∨ UpdateValidatingConfiguration wc ∈ ws.

Lemma sent_app ws1 ws2 wc : sent (ws1 ++ ws2) wc → sent ws1 wc ∨ sent ws2 wc.
Proof. unfold sent. rewrite !elem_of_app. tauto. Qed.

Lemma sent_webhooks senv create update existing wc ws r wc' :
  create = CreateMutatingConfiguration ∧ update = UpdateMutatingConfiguration ∨
  create = CreateValidatingConfiguration ∧ update = UpdateValidatingConfiguration →
  create_or_replace senv create update existing wc = Ret (ws, r) → sent ws wc' → wc_Webhooks wc' = wc_Webhooks wc.
Proof.
  intros Hcu Hc Hs. pose proof (create_or_replace_webhooks senv _ _ _ _ _ _ Hc) as Hall.
  destruct Hs as [Hs|[Hs|[Hs|Hs]]]; apply Hall in Hs as (wc0 & Hw & <-);
    destruct Hcu as [[-> ->]|[-> ->]]; destruct Hw as [[=]|[=]]; by subst.
Qed.

Lemma from_go_deref {W A} (o : option A) (ws : list W) a :
  @from_go W string A (deref o) = Ret (ws, Ok a) → ws = [] ∧ o = Some a.
Proof. destruct o; simpl; [by intros [= <- <-]|done]. Qed.

(** The webhooks of a configuration come from the registry. *)
Lemma configuration_client `{MapRange} md mc ca wc w :
  NewMutatingWebhookConfiguration (registered_webhooks md mc ca) = Some wc ∨
  NewValidatingWebhookConfiguration (registered_webhooks md mc ca) = Some wc →
  w ∈ wc_Webhooks wc → client_of md mc ca w.
Proof.
  unfold NewMutatingWebhookConfiguration, NewValidatingWebhookConfiguration.
  destruct (bool_decide _); [by intros [[=]|[=]]|].
  intros [[= <-]|[= <-]] [name Hn]%in_configuration; eapply registered_client; eauto.
Qed.

Section trusted.
Context `{X509Lib} `{!CryptoLib} `{!CryptoLaws} `{MapRange}.
Context (md : ErieCanalMetadata) (senv : start_env).

Lemma files_send_nothing e (m : ArchonManager) mc ws r wc :
  issueCertForWebhook md senv e m mc = Ret (ws, r) → sent ws wc → False.
Proof.
  intros Hi. assert (Forall (fun w => match w with MkdirAll _ | WriteFile _ _ => True | _ => False end) ws) as Hws.
  { enough (all_writes (fun w => match w with MkdirAll _ | WriteFile _ _ => True | _ => False end) (fun _ => True)
              (issueCertForWebhook md senv e m mc)) as Ha by (rewrite Hi in Ha; apply Ha).
    unfold issueCertForWebhook. destruct (mgr_IssueCertificate _ _ _ _ _) as [[[c|err] m'']|]; [|by split|done].
    eapply all_writes_bind; [by apply all_writes_write|]. intros _ _.
    eapply (all_writes_bind _ (fun _ => True)); [|by intros _ _; apply all_writes_ret].
    induction (go_range _) as [|[f d] l IH]; [by apply all_writes_ret|]. cbn [write_files].
    eapply all_writes_bind; [by apply all_writes_write|]. intros _ _. apply IH. }
  rewrite Forall_forall in Hws. intros [Hs|[Hs|[Hs|Hs]]]; by apply Hws in Hs.
Qed.

(** C37 (safety).  When the control plane has started its webhooks with an archon
    manager, the API server can verify the webhook server: every webhook of every
    configuration sent to the API server names the service and the namespace of the
    control plane and carries the certificate of the manager's CA as its bundle; the
    certificate and key written for the server were signed by that CA, and the
    certificate has, for every such webhook, the DNS name
    "<service name>.<service namespace>.svc", under which the API server calls it. *)
Theorem webhook_server_is_trusted e m mc ws m' :
  ca_ok (am_ca m) →
  createWebhookConfigurations md senv e m mc = Ret (ws, Ok m') →
  let svc := mc_Webhook_ServiceName mc in
  ∃ cert x,
    issued_by (am_ca m) svc cert ∧
    ConvertPEMCertToX509 (ic_CrtPEM cert) = Ok x ∧
    WriteFile (WebhookServerServingCertsPath +:+ "/" +:+ TLSCertName) (ic_CrtPEM cert) ∈ ws ∧
    WriteFile (WebhookServerServingCertsPath +:+ "/" +:+ TLSPrivateKeyName) (ic_KeyPEM cert) ∈ ws ∧
    (∃ mwc vwc, (CreateMutatingConfiguration mwc ∈ ws) ∧ (CreateValidatingConfiguration vwc ∈ ws)) ∧
    (∀ wc w, sent ws wc → w ∈ wc_Webhooks wc →
       wh_CABundle w = ic_CrtPEM (am_ca m) ∧
       wh_ServiceName w = svc ∧ wh_ServiceNamespace w = GetErieCanalNamespace md ∧
       wh_ServiceName w +:+ "." +:+ wh_ServiceNamespace w +:+ ".svc" ∈ cert_DNSNames x).
Proof.
  intros Hca Hc svc. unfold createWebhookConfigurations in Hc.
  destruct (issueCertForWebhook md senv e m mc) as [[ws0 [[cert m0]|err]]|] eqn:Hi; [|done|done].
  pose proof (issueCertForWebhook_ok md senv e m mc ws0 cert m0 Hi) as [Hissue Hfiles].
  destruct (archon_issue_verifies _ _ _ _ _ _ _ Hca Hissue) as [Hby (x & Hx & Hdns)].
  cbv zeta in Hc. destruct (from_go _ ≫= _) as [[ws1 [m1|]]|] eqn:Hrest in Hc; [|done|done].
  injection Hc as <- ->.
  apply eff_bind_Ret in Hrest as [(? & _ & [=])|(w1 & ws2 & mwc & Hmwc & Hrest & ->)].
  apply eff_bind_Ret in Hrest as [(? & _ & [=])|(ws3 & ws4 & [] & Hm & Hrest & ->)].
  apply eff_bind_Ret in Hrest as [(? & _ & [=])|(w5 & ws6 & vwc & Hvwc & Hrest & ->)].
  apply eff_bind_Ret in Hrest as [(? & _ & [=])|(ws7 & ws8 & [] & Hv & Hrest & ->)].
  injection Hrest as <- _. exists cert, x. split; [done|]. split; [done|]. rewrite Hdns.
  apply from_go_deref in Hmwc as [-> Hmwc], Hvwc as [-> Hvwc].
  split; [rewrite elem_of_app; left; by apply Hfiles|].
  split; [rewrite elem_of_app; left; by apply Hfiles|].
  rewrite app_nil_r. cbn [app]. split.
  - exists mwc, vwc. rewrite !elem_of_app. split; right; [left|right]; by eapply create_or_replace_creates.
  - intros wc w Hsent Hw. apply sent_app in Hsent as [Hs|Hs]; [by edestruct files_send_nothing|].
    enough (Hcl : client_of md mc (ic_CA cert) w).
    { destruct Hcl as (-> & -> & ->). destruct Hby as (_ & <- & _). split_and!; [done..|]. right. by left. }
    apply sent_app in Hs as [Hs|Hs].
    + rewrite (sent_webhooks _ _ _ _ _ _ _ _ (or_introl (conj eq_refl eq_refl)) Hm Hs) in Hw.
      by eapply (configuration_client md mc _ mwc); [left|].
    + rewrite (sent_webhooks _ _ _ _ _ _ _ _ (or_intror (conj eq_refl eq_refl)) Hv Hs) in Hw.
      by eapply (configuration_client md mc _ vwc); [right|].
Qed.
End trusted.

Definition sample_start_env : start_env :=
  mkStartEnv (fun _ => None) (fun w => match w with CreateMutatingConfiguration _ => Some AlreadyExists | _ => None end)
    (Ok (mkWebhookConfiguration DefaultMutatingWebhookConfigurationName [])) (Err NotFound).

Lemma webhook_server_is_trusted_witness :
  ∃ cert, @issued_by sample_certs sample_crypto sample_ca "webhook" cert ∧
    ∃ ws m', @createWebhookConfigurations list_range entropy ArchonManager (@archon_manager sample_certs sample_crypto)
               sample_md sample_start_env (sample_entropy "L") (archon_NewManager sample_ca) sample_mesh_config = Ret (ws, Ok m') ∧
      WriteFile (WebhookServerServingCertsPath +:+ "/" +:+ TLSCertName) (ic_CrtPEM cert) ∈ ws.
Proof.
  destruct (@createWebhookConfigurations list_range entropy ArchonManager (@archon_manager sample_certs sample_crypto)
    sample_md sample_start_env (sample_entropy "L") (archon_NewManager sample_ca) sample_mesh_config)
    as [[ws [m'|err]]|] eqn:Hc; [|vm_compute in Hc; discriminate Hc..].
  destruct (@webhook_server_is_trusted sample_certs sample_crypto sample_crypto_laws list_range sample_md sample_start_env
              (sample_entropy "L") (archon_NewManager sample_ca) sample_mesh_config ws m')
    as (cert & x & Hby & _ & Hw & _).
  - split; [reflexivity|]. exists ("flomesh.io", "K", "K", []), "K". split; [|reflexivity]. split_and!; reflexivity.
  - exact Hc.
  - exists cert. split; [exact Hby|]. exists ws, m'. split; [reflexivity|exact Hw].
Defined.
