(* ===== verification/NamespacedIngress.v ===== *)
(** * The reconciler of namespaced ingresses
    ([controllers/namespacedingress/v1alpha1/namespacedingress_controller.go],
    [pkg/util/tls/repo.go])

    For a NamespacedIngress the reconciler derives a codebase for its namespace
    from that of the ingress controller, writes its TLS settings into it, and
    renders the chart of the ingress controller. *)

From S2P Require Import Prelude GoLib Effects Kube CtrlUtil CacheTypes Repo Config Helm Certificates Admission Webhooks.

Open Scope erie_scope.

(** ** Values of the chart *)

(** ghodss/yaml, chartutil and strvals *)
Class ValuesLib `{HelmLib} : Type := {
  (** the YAML of [namespacedIngressValues] *)
  nsig_Marshal : NamespacedIngress → result string string;
  ReadValues : string → result string Values;
  strvals_ParseInto : string → Values → result string Values
}.

Section values.
Context `{HelmLib} `{!ValuesLib} (md : ErieCanalMetadata).

Fixpoint parse_overrides (overrides : list string) (values : Values) : result string Values :=
  match overrides with
  | [] => Ok values
  | ov :: overrides =>
    match strvals_ParseInto ov values with
    | Err e => Err e
    | Ok values => parse_overrides overrides values
    end
  end.

Definition resolveValues (nsig : NamespacedIngress) (mc : MeshConfig) : result string Values :=
  match nsig_Marshal nsig with
  | Err e => Err ("convert NamespacedIngress to yaml, err = " +:+ e)
  | Ok nsigBytes =>
    match ReadValues nsigBytes with
    | Err e => Err e
    | Ok nsigValues =>
      parse_overrides ["ec.ingress.namespaced=true";
                       "ec.image.repository=" +:+ im_Repository (mc_Images mc);
                       "ec.namespace=" +:+ GetErieCanalNamespace md] nsigValues
    end
  end.
End values.

(** ** The TLS helpers ([pkg/util/tls/repo.go])

    They write the certificate to "certificates.cert" and "certificates.key"; the
    reconciler uses those of pkg/config instead. *)

Section tls.
Context `{Resty} `{ConfigLib}.

Definition tls_IssueCertForIngress (basepath : string) : http (result string unit) :=
  match IssueCertificate "ingress-pipy" with
  | Err e => mret (Err e)
  | Ok cert =>
    json ←? GetFile (basepath +:+ "/config/main.json");
    with_json (sjson_Set json "certificates.cert" (JString (CrtPEM cert))) (fun newJson =>
    with_json (sjson_Set newJson "certificates.key" (JString (KeyPEM cert))) (fun newJson =>
    _ ←? Batch_all [mkBatch basepath [mkBatchItem "/config" "main.json" (C_string newJson)]];
    mret (Ok tt)))
  end.

Definition tls_UpdateSSLPassthrough (basepath : string) (enabled : bool) (upstreamPort : Z) :
    http (result string unit) :=
  json ←? GetFile (basepath +:+ "/config/main.json");
  with_json (sjson_Set json "sslPassthrough" (JObject
    [("enabled", JBool enabled); ("upstreamPort", JInt upstreamPort)])) (fun newJson =>
  _ ←? Batch_all [mkBatch basepath [mkBatchItem "/config" "main.json" (C_string newJson)]];
  mret (Ok tt)).
End tls.

(** ** The reconciler *)

Section reconcile.
Context `{Resty} `{ConfigLib} `{HelmLib} `{!ValuesLib}.
Context (md : ErieCanalMetadata) (henv : helm_env) (chartSource : string).

(** A result of the repository client; errors are retried after a second. *)
Definition requeue (r : result string unit) : result failure unit :=
  match r with Ok _ => Ok tt | Err e => Err (mkFailure 1 e) end.

Definition nsig_deriveCodebases (nsig : NamespacedIngress) (mc : MeshConfig) : http (result failure unit) :=
  let ingressPath := NamespacedIngressCodebasePath mc (Namespace (nsig_Meta nsig)) in
  let parentPath := IngressCodebasePath mc in
  r ← DeriveCodebase ingressPath parentPath;
  mret (requeue r).

(** Dereferencing the port of SSL passthrough panics when it is nil. *)
Definition updateConfig (nsig : NamespacedIngress) (mc : MeshConfig) (s : session) :
    go (result failure unit * session) :=
  let tls := ns_TLS (nsig_Spec nsig) in
  if is_Namespaced (mc_Ingress mc) && nt_Enabled tls then
    let basepath := NamespacedIngressCodebasePath mc (Namespace (nsig_Meta nsig)) in
    if nsp_Enabled (nt_SSLPassthrough tls) then
      port ← deref (nsp_UpstreamPort (nt_SSLPassthrough tls));
      let '(r, s) := UpdateSSLPassthrough basepath (nsp_Enabled (nt_SSLPassthrough tls)) port s in
      Ret (requeue r, s)
    else
      let '(r, s) := IssueCertForIngress basepath mc s in
      Ret (requeue r, s)
  else Ret (Ok tt, s).

(** [read] is the answer to reading the object.  The session with the repository,
    the writes to the API server, and the result. *)
Definition Nsig_Reconcile (w : cfg_world) (read : result kerror NamespacedIngress) (s : session) :
    go (session * (list helm_write * result failure unit)) :=
  mc ← GetConfig md w;
  if negb (is_Enabled (mc_Ingress mc)) || negb (is_Namespaced (mc_Ingress mc)) then Ret (s, ([], Ok tt))
  else
    match read with
    | Err NotFound => Ret (s, ([], Ok tt))
    | Err e => Ret (s, ([], Err (mkFailure 0 (kerror_Error e))))
    | Ok nsig =>
      let '(r, s) := nsig_deriveCodebases nsig mc s in
      match r with
      | Err f => Ret (s, ([], Err f))
      | Ok _ =>
        rs ← updateConfig nsig mc s;
        let '(r, s) := (rs : result failure unit * session) in
        match r with
        | Err f => Ret (s, ([], Err f))
        | Ok _ =>
          ws ← RenderChart henv nsig_Meta ("namespaced-ingress-" +:+ Namespace (nsig_Meta nsig)) nsig chartSource
                 mc (resolveValues md);
          Ret (s, ws)
        end
      end
    end.

Lemma RenderChart_total {O} (meta : O → ObjectMeta) name o src mc rv :
  RenderChart henv meta name o src mc rv ≠ Panic.
Proof.
  unfold RenderChart. repeat case_match; try done. apply applyChartYAMLs_total.
Qed.

Lemma updateConfig_total nsig mc s :
  is_Some (nsp_UpstreamPort (nt_SSLPassthrough (ns_TLS (nsig_Spec nsig)))) → updateConfig nsig mc s ≠ Panic.
Proof.
  intros [port Hp]. unfold updateConfig. rewrite Hp. simpl. repeat case_match; done.
Qed.

(** The reconciliation of an object whose passthrough port is set does not panic. *)
Lemma Nsig_Reconcile_total w mc nsig s :
  GetConfig md w = Ret mc →
  is_Some (nsp_UpstreamPort (nt_SSLPassthrough (ns_TLS (nsig_Spec nsig)))) →
  Nsig_Reconcile w (Ok nsig) s ≠ Panic.
Proof.
  intros Hmc Hp. unfold Nsig_Reconcile. rewrite Hmc. cbn [mbind go_bind].
  destruct (negb _ || negb _); [done|]. destruct (nsig_deriveCodebases nsig mc s) as [[[]|f] s1]; [|done].
  destruct (updateConfig nsig mc s1) as [[[[]|f] s2]|] eqn:Hu; cbn [mbind go_bind]; [|done|by apply updateConfig_total in Hu].
  destruct (RenderChart _ _ _ _ _ _ _) eqn:Hr; [done|by apply RenderChart_total in Hr].
Qed.
End reconcile.

(** ** Isolation of namespaces *)

Section confined.
Context `{Resty}.

(** Every request the code sends satisfies [P]. *)
Definition confined {A} (P : Request → Prop) (m : http A) : Prop :=
  logs m (fun _ l => Forall (fun e => P e.1) l).

Lemma confined_ret {A} P (a : A) : confined P (mret a).
Proof. by apply logs_ret. Qed.

Lemma confined_send P r : P r → confined P (send r).
Proof. intros Hr. eapply logs_mono; [apply logs_send|]. intros out l ->. by apply Forall_singleton. Qed.

Lemma confined_bind {A B} P (m : http A) (f : A → http B) :
  confined P m → (∀ a, confined P (f a)) → confined P (m ≫= f).
Proof.
  intros Hm Hf. eapply logs_bind; [exact Hm|]. intros a l Hl. eapply logs_mono; [apply Hf|].
  intros b l' Hl'. simpl in *. by apply Forall_app.
Qed.

Lemma confined_try {A B} P (m : http (result string A)) (f : A → http (result string B)) :
  confined P m → (∀ a, confined P (f a)) → confined P (try m f).
Proof. intros Hm Hf. apply confined_bind; [done|]. intros [a|e]; [apply Hf|apply confined_ret]. Qed.

Lemma confined_run {A} P (m : http A) s a s' :
  confined P m → m s = (a, s') → ∃ l, ses_log s' = ses_log s ++ l ∧ Forall (fun e => P e.1) l.
Proof. intros Hm. apply Hm. Qed.
End confined.

#[export] Hint Resolve confined_ret confined_send confined_bind confined_try : erie.

(** The request only reads, or writes to the codebase at [path] or to its
    main.json. *)
Definition writes_only (path : string) (r : Request) : Prop :=
  match r with
  | GET _ => True
  | _ => url r = fullRepoApiPath path ∨ url r = fullFileApiPath (path +:+ "/config/main.json")
  end.

Section isolation.
Context `{Resty} `{ConfigLib} `{HelmLib} `{!ValuesLib}.

Ltac step := first
  [ apply confined_ret
  | apply confined_send; simpl; by (exact I || (left; reflexivity) || (right; reflexivity))
  | apply confined_try; [|intros ?]
  | apply confined_bind; [|intros ?]
  | case_match ].

Lemma confined_get path p : confined (writes_only path) (get p).
Proof. unfold get. repeat step. Qed.

Lemma confined_isCodebaseExists path p : confined (writes_only path) (isCodebaseExists p).
Proof. unfold isCodebaseExists. repeat step. Qed.

Lemma confined_commit path v : confined (writes_only path) (commit path v).
Proof. unfold commit. repeat step. Qed.

Lemma confined_DeriveCodebase path base : confined (writes_only path) (DeriveCodebase path base).
Proof.
  unfold DeriveCodebase, deriveCodebase.
  repeat first [apply confined_isCodebaseExists | apply confined_get | apply confined_commit | step].
Qed.

Lemma confined_main_json path json : confined (writes_only path) (updateMainJson path json).
Proof.
  unfold updateMainJson, main_json_batch. cbn [Batch_all]. unfold batch_one, batch_version, createCodebase.
  cbn [batch_upload b_Basepath b_Items].
  repeat first [apply confined_isCodebaseExists | apply confined_get | apply confined_commit
               | unfold upsertFile, item_path; step].
Qed.

Lemma confined_settings path mc b port :
  confined (writes_only path) (UpdateSSLPassthrough path b port) ∧
  confined (writes_only path) (IssueCertForIngress path mc).
Proof.
  unfold UpdateSSLPassthrough, IssueCertForIngress, getMainJson, GetFile, with_json. split;
  repeat first [apply confined_main_json | step].
Qed.
End isolation.

Section reconcile_props.
Context `{Resty} `{ConfigLib} `{HelmLib} `{!ValuesLib} `{GatewayLib}.
Context (md : ErieCanalMetadata) (henv : helm_env) (chartSource : string).

(** The log grew by requests that are confined to [path]. *)
Definition confined_log (path : string) (s s' : session) : Prop :=
  ∃ l, ses_log s' = ses_log s ++ l ∧ Forall (fun e => writes_only path e.1) l.

Lemma confined_log_refl path s : confined_log path s s.
Proof. exists []. by rewrite app_nil_r. Qed.

Lemma confined_log_trans path s1 s2 s3 :
  confined_log path s1 s2 → confined_log path s2 s3 → confined_log path s1 s3.
Proof.
  intros (l & Hl & Hf) (l' & Hl' & Hf'). exists (l ++ l'). rewrite Hl', Hl, app_assoc. split; [done|].
  by apply Forall_app.
Qed.

Lemma updateConfig_confined nsig mc s r s' :
  updateConfig nsig mc s = Ret (r, s') →
  confined_log (NamespacedIngressCodebasePath mc (Namespace (nsig_Meta nsig))) s s'.
Proof.
  unfold updateConfig. set (path := NamespacedIngressCodebasePath mc _).
  destruct (is_Namespaced _ && nt_Enabled _); [|intros [= _ <-]; apply confined_log_refl].
  destruct (nsp_Enabled _).
  - destruct (nsp_UpstreamPort _) as [port|]; [|done]. cbn [deref mbind go_bind].
    destruct (UpdateSSLPassthrough path true port s) as [r0 s0] eqn:Hu. intros [= _ <-].
    eapply confined_run; [|exact Hu]. by apply (confined_settings path mc).
  - destruct (IssueCertForIngress path mc s) as [r0 s0] eqn:Hu. intros [= _ <-].
    eapply confined_run; [|exact Hu]. by apply (confined_settings path mc true 0).
Qed.

Lemma nsig_deriveCodebases_confined nsig mc s r s' :
  nsig_deriveCodebases nsig mc s = (r, s') →
  confined_log (NamespacedIngressCodebasePath mc (Namespace (nsig_Meta nsig))) s s'.
Proof.
  unfold nsig_deriveCodebases. set (path := NamespacedIngressCodebasePath mc _).
  unfold mbind, http_bind, mret, http_ret. destruct (DeriveCodebase path _ s) as [r0 s0] eqn:Hd.
  intros [= _ <-]. eapply confined_run; [|exact Hd]. apply confined_DeriveCodebase.
Qed.

(** The manifest of the dry run of the chart [chartSource], as the release
    "namespaced-ingress-<namespace>" in the namespace of the object, with the values
    of the object and those the control plane sets. *)
Definition rendered_manifest (nsig : NamespacedIngress) (mc : MeshConfig) (manifest : string) : Prop :=
  ∃ chart yaml values0 values,
    loader_LoadArchive chartSource = Ok chart ∧
    nsig_Marshal nsig = Ok yaml ∧ ReadValues yaml = Ok values0 ∧
    parse_overrides ["ec.ingress.namespaced=true";
                     "ec.image.repository=" +:+ im_Repository (mc_Images mc);
                     "ec.namespace=" +:+ GetErieCanalNamespace md] values0 = Ok values ∧
    Install_Run (mkInstallClient ("namespaced-ingress-" +:+ Namespace (nsig_Meta nsig)) (Namespace (nsig_Meta nsig))
                   false true true) chart values = Ok manifest.

(** All that is written was rendered, and after a success all that was rendered is
    in force. *)
Definition manifest_applied (nsig : NamespacedIngress) (mc : MeshConfig) (ws : list helm_write)
    (r : result failure unit) : Prop :=
  ∃ manifest, rendered_manifest nsig mc manifest ∧
    Forall (fun w => rendered (nsig_Meta nsig) (yaml_documents manifest).1 (written w)) ws ∧
    (r = Ok tt → ∀ doc, doc ∈ (yaml_documents manifest).1 → applied henv (nsig_Meta nsig) ws doc).

Lemma resolveValues_ok nsig mc values :
  resolveValues md nsig mc = Ok values → ∃ yaml values0,
    nsig_Marshal nsig = Ok yaml ∧ ReadValues yaml = Ok values0 ∧
    parse_overrides ["ec.ingress.namespaced=true";
                     "ec.image.repository=" +:+ im_Repository (mc_Images mc);
                     "ec.namespace=" +:+ GetErieCanalNamespace md] values0 = Ok values.
Proof.
  unfold resolveValues. destruct (nsig_Marshal nsig) as [yaml|]; [|done].
  destruct (ReadValues yaml) as [values0|] eqn:Hv; [|done]. intros Hp. by exists yaml, values0.
Qed.

Lemma RenderChart_rendered nsig mc ws r :
  (∀ owner m m', he_SetControllerReference henv owner m = Ok m' →
     meta_nn m' = meta_nn m ∧ ControllerUID m' = Some (UID owner)) →
  RenderChart henv nsig_Meta ("namespaced-ingress-" +:+ Namespace (nsig_Meta nsig)) nsig chartSource mc
    (resolveValues md) = Ret (ws, r) →
  (ws = [] ∧ r ≠ Ok tt) ∨ manifest_applied nsig mc ws r.
Proof.
  intros Hown Hr. unfold RenderChart in Hr.
  destruct (loader_LoadArchive chartSource) as [chart|] eqn:Hl; [|injection Hr as <- <-; by left].
  destruct (resolveValues md nsig mc) as [values|] eqn:Hv; [|injection Hr as <- <-; by left].
  destruct (Install_Run _ chart values) as [manifest|] eqn:Hi; [|injection Hr as <- <-; by left].
  right. exists manifest. split.
  { apply resolveValues_ok in Hv as (yaml & values0 & ? & ? & ?). by exists chart, yaml, values0, values. }
  pose proof (applyChartYAMLs_writes henv Hown (nsig_Meta nsig) manifest) as Hw. rewrite Hr in Hw.
  split; [apply Hw|]. intros ->. by apply (applyChartYAMLs_ok henv Hown).
Qed.

(** C38 (safety).  Reconciling a namespaced ingress that went through the
    defaulting webhook never panics, whatever the repository, Helm and the API
    server answer.  It sends the repository no write but to the codebase of its
    own namespace and that codebase's main.json.  It sends the API server nothing,
    unless the chart was rendered: then it sends only objects of the manifest that
    the dry run of the chart gave for this object's values, as the release and in
    the namespace of this object, with the control plane's overrides; each is owned
    by it exactly when it is in its namespace.  When namespaced ingresses are
    enabled and the reconciliation succeeds, every document of that manifest was
    written or was found as rendered. *)
Theorem nsig_reconcile_isolated env w mc nsig0 d s :
  NamespacedIngressDefaulter_SetDefaults env (ONamespacedIngress nsig0) = Ret d →
  GetConfig md w = Ret mc →
  (∀ owner m m', he_SetControllerReference henv owner m = Ok m' →
     meta_nn m' = meta_nn m ∧ ControllerUID m' = Some (UID owner)) →
  ∃ nsig s' ws r,
    d = ONamespacedIngress nsig ∧ nsig_Meta nsig = nsig_Meta nsig0 ∧
    Nsig_Reconcile md henv chartSource w (Ok nsig) s = Ret (s', (ws, r)) ∧
    confined_log (NamespacedIngressCodebasePath mc (Namespace (nsig_Meta nsig))) s s' ∧
    (ws = [] ∧ (is_Enabled (mc_Ingress mc) = true → is_Namespaced (mc_Ingress mc) = true → r ≠ Ok tt) ∨
     manifest_applied nsig mc ws r).
Proof.
  simpl. intros (mc0 & _ & [= <-])%go_bind_ret Hmc Hown.
  set (nsig := default_namespaced_ingress nsig0).
  destruct (Nsig_Reconcile md henv chartSource w (Ok nsig) s) as [[s' [ws r]]|] eqn:Hr.
  2:{ apply Nsig_Reconcile_total with (mc := mc) in Hr; [done|done|].
      simpl. unfold or_pointer. by case_match. }
  exists nsig, s', ws, r. split; [done|]. split; [done|]. split; [done|].
  unfold Nsig_Reconcile in Hr. rewrite Hmc in Hr. cbn [mbind go_bind] in Hr.
  destruct (is_Enabled (mc_Ingress mc)), (is_Namespaced (mc_Ingress mc)); cbn [negb orb] in Hr;
    try solve [injection Hr as <- <- _; split; [apply confined_log_refl|by left]].
  destruct (nsig_deriveCodebases nsig mc s) as [[[]|f] s1] eqn:Hd; apply nsig_deriveCodebases_confined in Hd;
    [|injection Hr as <- <- <-; by split; [|left]].
  destruct (updateConfig nsig mc s1) as [[[[]|f] s2]|] eqn:Hu; cbn [mbind go_bind] in Hr; [| |done];
    apply updateConfig_confined in Hu; pose proof (confined_log_trans _ _ _ _ Hd Hu) as Hlog;
    [|injection Hr as <- <- <-; by split; [|left]].
  destruct (RenderChart _ _ _ _ _ _ _) as [[ws' r']|] eqn:Hrc; [|done]. injection Hr as <- <- <-.
  split; [done|]. apply RenderChart_rendered in Hrc as [[-> Hne]|Hm]; [left|right|]; done.
Qed.
End reconcile_props.

(** The codebases of different namespaces are different. *)
Lemma nsig_codebase_inj mc ns ns' :
  NamespacedIngressCodebasePath mc ns = NamespacedIngressCodebasePath mc ns' → ns = ns'.
Proof. unfold NamespacedIngressCodebasePath. apply (inj (String.append _)). Qed.

(** ** Witness *)

Definition sample_object : Unstructured := mkUnstructured (named "ns" "ingress-pipy") "Deployment".

Definition sample_helm : HelmLib := {|
  Chart := unit; Values := list string;
  loader_LoadArchive := fun _ => Ok tt;
  Install_Run := fun _ _ _ => Ok "manifest";
  yaml_documents := fun m => if bool_decide (m = "manifest") then (["doc"], None) else ([], None);
  yaml_Decode := fun _ => Ok sample_object
|}.

Definition sample_read_values (s : string) : result string (list string) := Ok [s].
Definition sample_override (ov : string) (vs : list string) : result string (list string) := Ok (vs ++ [ov]).
Definition sample_values : @ValuesLib sample_helm :=
  @Build_ValuesLib sample_helm (fun _ => Ok "nsig: {}") sample_read_values sample_override.

Definition with_controller (owner m : ObjectMeta) : ObjectMeta :=
  mkMeta (Namespace m) (Name m) (UID m) (ResourceVersion m) (Generation m) (DeletionTimestamp m)
    (Labels m) (Annotations m) (Finalizers m) (Some (UID owner)).

Definition sample_helm_env : helm_env :=
  mkHelmEnv (fun _ => Err NotFound) (fun _ => None) (fun _ => None) (fun owner m => Ok (with_controller owner m)).

(** The configuration with namespaced ingress enabled. *)
Definition nsig_config_lib : ConfigLib := {|
  json_Unmarshal := fun _ => Ok (mkMeshConfig true "http://repo:6060" (mkImages "flomesh" "pipy" "init" "lb") "webhook"
    (mkIngressSettings true true (is_HTTP (mc_Ingress sample_mesh_config)) (is_TLS (mc_Ingress sample_mesh_config)))
    false (mc_Certificate sample_mesh_config) (mc_Cluster sample_mesh_config) false);
  json_MarshalIndent := fun _ => Ok "{}";
  validate_Struct := fun _ => None;
  sjson_Set := fun j k _ => Ok (j +:+ k);
  IssueCertificate := fun _ => Ok (mkCertificate "crt" "key" "ca")
|}.

Definition sample_nsig : NamespacedIngress :=
  mkNamespacedIngress (mkMeta "ns" "nsig" "uid-1" "" 0 None None None [] None)
    (mkNamespacedIngressSpec "" (mkNsigHTTP true zero_port)
       (mkNsigTLS true zero_port (mkNsigSSLPassthrough true None)) "" None None None None).

Definition sample_nsig_session : session := mkSession (H := sample_resty) (<["/api/v1/repo/local/ingress" := 3%Z]> ∅) [].

Lemma nsig_reconcile_isolated_witness :
  ∃ mc s' ws,
    @Nsig_Reconcile sample_resty nsig_config_lib sample_helm sample_values sample_md sample_helm_env "chart"
      (we_config (sample_wh_env [])) (Ok (default_namespaced_ingress sample_nsig)) sample_nsig_session = Ret (s', (ws, Ok tt)) ∧
    confined_log (H := sample_resty) "/local/nsig/ns" sample_nsig_session s' ∧
    @manifest_applied sample_helm sample_values sample_md sample_helm_env "chart"
      (default_namespaced_ingress sample_nsig) mc ws (Ok tt).
Proof.
  destruct (@nsig_reconcile_isolated sample_resty nsig_config_lib sample_helm sample_values sample_gateway_lib
              sample_md sample_helm_env "chart" (sample_wh_env []) (we_config (sample_wh_env [])) _ sample_nsig
              (@ONamespacedIngress sample_gateway_lib (default_namespaced_ingress sample_nsig)) sample_nsig_session eq_refl eq_refl)
    as (nsig & s' & ws & r & [= <-] & _ & Hr & Hlog & Hm).
  - intros owner m m' [= <-]. split; reflexivity.
  - assert (r = Ok tt) as ->.
    { assert (Hok : match @Nsig_Reconcile sample_resty nsig_config_lib sample_helm sample_values sample_md sample_helm_env
        "chart" (we_config (sample_wh_env [])) (Ok (default_namespaced_ingress sample_nsig)) sample_nsig_session with
        | Ret (_, (_, Ok _)) => True | _ => False end) by (vm_compute; exact I).
      rewrite Hr in Hok. destruct r as [[]|]; [reflexivity|destruct Hok]. }
    destruct Hm as [[_ Hne]|Hm]; [destruct (Hne eq_refl eq_refl eq_refl)|].
    eexists _, s', ws. split; [exact Hr|]. split; [exact Hlog|exact Hm].
Defined.
