(* ===== verification/WorkQueue.v ===== *)
(** * Work queues ([pkg/workqueue/workqueue.go], [pkg/event/broker.go])

    The pool of workers is a state machine: callers post jobs into the channels of
    the workers, every worker takes the jobs of its channel one by one, and a
    caller whose channel is full waits.  The rate-limited queue of client-go is a
    parameter; what the code does with it is a list of operations. *)

From S2P Require Import Prelude GoLib Kube CacheTypes McsTypes RemoteConnector.

#[local] Open Scope nat_scope.

(** ** Machine words *)

Definition uint64 (z : Z) : Z := (z mod 2 ^ 64)%Z.

Lemma uint64_range z : (0 ≤ uint64 z < 2 ^ 64)%Z.
Proof. apply Z.mod_pos_bound. lia. Qed.

Lemma uint64_id z : (0 ≤ z < 2 ^ 64)%Z → uint64 z = z.
Proof. apply Z.mod_small. Qed.

(** ** The pool *)

(** A job: its identity, its name and its hash, a uint64. *)
Record Job : Type := mkJob {
  job_id : nat;
  job_Name : string;
  job_Hash : Z
}.

Definition maxJobPerWorker : nat := 4096.

(** A worker: the buffer of its job channel, whether its stop channel holds a
    message, the job it runs, and whether it has returned. *)
Record worker : Type := mkWorker {
  wk_id : nat;
  wk_jobs : list Job;
  wk_stop : bool;
  wk_running : option Job;
  wk_stopped : bool;
  wk_jobsProcessed : Z
}.

(** The pool, with the round-robin callers that have drawn their number and have
    not sent their job yet. *)
Record WorkerPool : Type := mkPool {
  wp_workers : list worker;
  wp_nWorkers : Z;
  wp_rRobinCounter : Z;
  wp_sending : list (nat * Job)
}.

Definition new_worker (i : nat) : worker := mkWorker i [] false None false 0.

(** [procs] is GOMAXPROCS. *)
Definition NewWorkerPool (nWorkers procs : Z) : WorkerPool :=
  let n := Z.to_nat (if bool_decide (nWorkers = 0)%Z then procs else nWorkers) in
  mkPool (new_worker <$> seq 0 n) (uint64 (Z.of_nat n)) 0 [].

Definition GetWorkerNumber (p : WorkerPool) : Z := wp_nWorkers p.

(** [wp.workerContext[h % wp.nWorkers]]: the remainder by zero and an index out of
    range panic. *)
Definition worker_index (p : WorkerPool) (h : Z) : go nat :=
  if bool_decide (wp_nWorkers p = 0)%Z then Panic
  else
    let i := Z.to_nat (h mod wp_nWorkers p) in
    if bool_decide (i < length (wp_workers p)) then Ret i else Panic.

Definition with_workers (p : WorkerPool) (ws : list worker) : WorkerPool :=
  mkPool ws (wp_nWorkers p) (wp_rRobinCounter p) (wp_sending p).

(** Sending on the channel of a worker; [None] while its buffer is full. *)
Definition send_job (i : nat) (job : Job) (ws : list worker) : option (list worker) :=
  w ← ws !! i;
  if bool_decide (length (wk_jobs w) < maxJobPerWorker)
  then Some (<[i := mkWorker (wk_id w) (wk_jobs w ++ [job]) (wk_stop w) (wk_running w) (wk_stopped w)
                      (wk_jobsProcessed w)]> ws)
  else None.

(** [AddJob]: the worker and the pool after the send, if it does not block. *)
Definition AddJob (p : WorkerPool) (job : Job) : go (nat * option WorkerPool) :=
  i ← worker_index p (job_Hash job);
  Ret (i, with_workers p <$> send_job i job (wp_workers p)).

(** [AddJobRoundRobin], up to the atomic increment. *)
Definition AddJobRoundRobin (p : WorkerPool) (job : Job) : go (nat * WorkerPool) :=
  let added := uint64 (wp_rRobinCounter p + 1) in
  i ← worker_index p added;
  Ret (i, mkPool (wp_workers p) (wp_nWorkers p) added (wp_sending p ++ [(i, job)])).

(** ** The worker *)

(** Taking a job of the channel. *)
Definition work_take (w : worker) : option (Job * worker) :=
  match wk_jobs w with
  | j :: jobs =>
    if wk_stopped w then None
    else match wk_running w with
         | Some _ => None
         | None => Some (j, mkWorker (wk_id w) jobs (wk_stop w) (Some j) false (wk_jobsProcessed w))
         end
  | [] => None
  end.

(** The job returns. *)
Definition work_finish (w : worker) : option (Job * worker) :=
  match wk_running w with
  | Some j => Some (j, mkWorker (wk_id w) (wk_jobs w) (wk_stop w) None (wk_stopped w)
                         (uint64 (wk_jobsProcessed w + 1)))
  | None => None
  end.

(** A message on the stop channel ends the worker, whatever is left to do. *)
Definition work_stop (w : worker) : option worker :=
  if wk_stop w && negb (wk_stopped w) then
    match wk_running w with
    | Some _ => None
    | None => Some (mkWorker (wk_id w) (wk_jobs w) false None true (wk_jobsProcessed w))
    end
  else None.

(** [Stop] sends to one worker; its stop channel holds one message. *)
Definition stop_send (w : worker) : option worker :=
  if wk_stop w then None
  else Some (mkWorker (wk_id w) (wk_jobs w) true (wk_running w) (wk_stopped w) (wk_jobsProcessed w)).

(** ** Runs *)

Inductive pool_event : Type :=
| Posted (i : nat) (j : Job)
| Started (i : nat) (j : Job)
| Finished (i : nat) (j : Job)
| Tau.

Inductive pool_step (p : WorkerPool) : pool_event → WorkerPool → Prop :=
| step_add job i p' :
    AddJob p job = Ret (i, Some p') → pool_step p (Posted i job) p'
| step_round_robin job i p' :
    AddJobRoundRobin p job = Ret (i, p') → pool_step p Tau p'
| step_round_robin_send i job l1 l2 ws :
    wp_sending p = l1 ++ (i, job) :: l2 → send_job i job (wp_workers p) = Some ws →
    pool_step p (Posted i job) (mkPool ws (wp_nWorkers p) (wp_rRobinCounter p) (l1 ++ l2))
| step_take i w j w' :
    wp_workers p !! i = Some w → work_take w = Some (j, w') →
    pool_step p (Started i j) (with_workers p (<[i := w']> (wp_workers p)))
| step_finish i w j w' :
    wp_workers p !! i = Some w → work_finish w = Some (j, w') →
    pool_step p (Finished i j) (with_workers p (<[i := w']> (wp_workers p)))
| step_stop_send i w w' :
    wp_workers p !! i = Some w → stop_send w = Some w' →
    pool_step p Tau (with_workers p (<[i := w']> (wp_workers p)))
| step_stop i w w' :
    wp_workers p !! i = Some w → work_stop w = Some w' →
    pool_step p Tau (with_workers p (<[i := w']> (wp_workers p))).

Inductive pool_run (p : WorkerPool) : list pool_event → WorkerPool → Prop :=
| run_nil : pool_run p [] p
| run_snoc t p1 e p2 : pool_run p t p1 → pool_step p1 e p2 → pool_run p (t ++ [e]) p2.

(** The jobs posted to, started by and finished by a worker. *)
Definition posted (i : nat) (t : list pool_event) : list Job :=
  omap (fun e => match e with Posted i' j => if bool_decide (i' = i) then Some j else None | _ => None end) t.
Definition started (i : nat) (t : list pool_event) : list Job :=
  omap (fun e => match e with Started i' j => if bool_decide (i' = i) then Some j else None | _ => None end) t.
Definition finished (i : nat) (t : list pool_event) : list Job :=
  omap (fun e => match e with Finished i' j => if bool_decide (i' = i) then Some j else None | _ => None end) t.

(** ** Order *)

Definition worker_inv (i : nat) (t : list pool_event) (w : worker) : Prop :=
  posted i t = started i t ++ wk_jobs w ∧
  started i t = finished i t ++ option_list (wk_running w).

Definition pool_inv (t : list pool_event) (p : WorkerPool) : Prop :=
  ∀ i w, wp_workers p !! i = Some w → worker_inv i t w.

(** The worker an event is about. *)
Definition event_worker (e : pool_event) : option nat :=
  match e with Posted i _ | Started i _ | Finished i _ => Some i | Tau => None end.

Lemma other_worker i t e w :
  event_worker e ≠ Some i → worker_inv i t w → worker_inv i (t ++ [e]) w.
Proof.
  intros He [H1 H2]. unfold worker_inv, posted, started, finished in *. rewrite !omap_app.
  destruct e as [i' j|i' j|i' j|]; simpl in *; rewrite ?bool_decide_false, ?app_nil_r by congruence; done.
Qed.

(** A step that replaces worker [i]. *)
Lemma pool_inv_update t p p' i w w' e :
  pool_inv t p → wp_workers p !! i = Some w → wp_workers p' = <[i := w']> (wp_workers p) →
  (∀ k, event_worker e = Some k → k = i) → (worker_inv i t w → worker_inv i (t ++ [e]) w') →
  pool_inv (t ++ [e]) p'.
Proof.
  intros Hinv Hi Hw He Hstep k wk. rewrite Hw, list_lookup_insert_Some.
  intros [(<- & <- & _)|[Hne Hk]]; [by apply Hstep, Hinv|].
  apply other_worker; [|by apply Hinv]. intros Hek. by apply Hne, eq_sym, He.
Qed.

Lemma send_job_Some i job ws ws' :
  send_job i job ws = Some ws' →
  ∃ w, ws !! i = Some w ∧ length (wk_jobs w) < maxJobPerWorker ∧
    ws' = <[i := mkWorker (wk_id w) (wk_jobs w ++ [job]) (wk_stop w) (wk_running w) (wk_stopped w)
                   (wk_jobsProcessed w)]> ws.
Proof.
  unfold send_job. intros (w & Hw & Hs)%bind_Some. case_bool_decide; [|done]. injection Hs as <-. eauto.
Qed.

Lemma AddJob_Some p job i p' :
  AddJob p job = Ret (i, Some p') →
  worker_index p (job_Hash job) = Ret i ∧
  ∃ ws, send_job i job (wp_workers p) = Some ws ∧ p' = with_workers p ws.
Proof.
  unfold AddJob. intros (i' & Hi & Hs)%go_bind_ret. injection Hs as <- Hs.
  apply fmap_Some in Hs as (ws & Hs & ->). eauto.
Qed.

Lemma AddJobRoundRobin_Ret p job i p' :
  AddJobRoundRobin p job = Ret (i, p') →
  worker_index p (uint64 (wp_rRobinCounter p + 1)) = Ret i ∧
  p' = mkPool (wp_workers p) (wp_nWorkers p) (uint64 (wp_rRobinCounter p + 1)) (wp_sending p ++ [(i, job)]).
Proof. unfold AddJobRoundRobin. intros (i' & Hi & [= <- <-])%go_bind_ret. eauto. Qed.

Lemma posted_inv i t w job :
  worker_inv i t w → worker_inv i (t ++ [Posted i job])
    (mkWorker (wk_id w) (wk_jobs w ++ [job]) (wk_stop w) (wk_running w) (wk_stopped w) (wk_jobsProcessed w)).
Proof.
  intros [H1 H2]. unfold worker_inv, posted, started, finished in *. rewrite !omap_app. simpl.
  rewrite bool_decide_true, !app_nil_r by done. by rewrite H1, app_assoc.
Qed.

Lemma pool_step_inv t p e p' : pool_step p e p' → pool_inv t p → pool_inv (t ++ [e]) p'.
Proof.
  intros Hstep Hinv. destruct Hstep as
    [job i p' Ha|job i p' Ha|i job l1 l2 ws Hl Hs|i w j w' Hi Hw|i w j w' Hi Hw|i w w' Hi Hw|i w w' Hi Hw].
  - apply AddJob_Some in Ha as (_ & ws & (w & Hi & _ & ->)%send_job_Some & ->).
    eapply pool_inv_update; [done|exact Hi|reflexivity|by intros k [= ->]|apply posted_inv].
  - apply AddJobRoundRobin_Ret in Ha as [_ ->]. intros k w Hk. apply other_worker; [done|]. by apply Hinv.
  - apply send_job_Some in Hs as (w & Hi & _ & ->).
    eapply pool_inv_update; [done|exact Hi|reflexivity|by intros k [= ->]|apply posted_inv].
  - eapply pool_inv_update; [done|exact Hi|reflexivity|by intros k [= ->]|]. unfold work_take in Hw.
    destruct (wk_jobs w) as [|j' jobs] eqn:Hj; [done|]. destruct (wk_stopped w), (wk_running w) eqn:Hr; try done.
    injection Hw as <- <-. intros [H1 H2]. unfold worker_inv, posted, started, finished in *.
    rewrite !omap_app. simpl. rewrite bool_decide_true, !app_nil_r by done.
    rewrite H1, Hj, <-app_assoc. rewrite Hr in H2. simpl in H2. rewrite app_nil_r in H2. by rewrite H2.
  - eapply pool_inv_update; [done|exact Hi|reflexivity|by intros k [= ->]|]. unfold work_finish in Hw.
    destruct (wk_running w) as [j'|] eqn:Hr; [|done]. injection Hw as <- <-. intros [H1 H2].
    unfold worker_inv, posted, started, finished in *. rewrite !omap_app. simpl.
    rewrite bool_decide_true, !app_nil_r by done. rewrite Hr in H2. done.
  - eapply pool_inv_update; [done|exact Hi|reflexivity|by intros k [=]|]. unfold stop_send in Hw.
    destruct (wk_stop w); [done|]. injection Hw as <-. intros Hw. by apply other_worker.
  - eapply pool_inv_update; [done|exact Hi|reflexivity|by intros k [=]|]. unfold work_stop in Hw.
    destruct (wk_stop w && negb (wk_stopped w)); [|done]. destruct (wk_running w) eqn:Hr; [done|].
    injection Hw as <-. intros Hw. apply other_worker; [done|].
    destruct Hw as [H1 H2]. split; [done|]. by rewrite H2, Hr.
Qed.

(** ** Bounds *)

(** What holds of a pool of [n] workers. *)
Definition pool_ok (n : nat) (p : WorkerPool) : Prop :=
  length (wp_workers p) = n ∧ wp_nWorkers p = Z.of_nat n ∧ (0 ≤ wp_rRobinCounter p < 2 ^ 64)%Z ∧
  Forall (fun s => s.1 < n) (wp_sending p) ∧
  Forall (fun w => length (wk_jobs w) ≤ maxJobPerWorker ∧ (0 ≤ wk_jobsProcessed w < 2 ^ 64)%Z) (wp_workers p).

Lemma worker_index_ok n p h :
  pool_ok n p → 0 < n → worker_index p h = Ret (Z.to_nat (h mod Z.of_nat n)) ∧ Z.to_nat (h mod Z.of_nat n) < n.
Proof.
  intros (Hl & Hn & _) Hpos. unfold worker_index. rewrite Hn, Hl, bool_decide_false by lia.
  pose proof (Z.mod_pos_bound h (Z.of_nat n) ltac:(lia)) as Hm.
  rewrite bool_decide_true by lia. split; [done|lia].
Qed.

(** Replacing a worker by one that is within bounds. *)
Lemma pool_ok_update n p p' i w' :
  pool_ok n p → wp_workers p' = <[i := w']> (wp_workers p) → wp_nWorkers p' = wp_nWorkers p →
  wp_rRobinCounter p' = wp_rRobinCounter p → (∀ s, s ∈ wp_sending p' → s ∈ wp_sending p) →
  (length (wk_jobs w') ≤ maxJobPerWorker ∧ (0 ≤ wk_jobsProcessed w' < 2 ^ 64)%Z) → pool_ok n p'.
Proof.
  intros (Hl & Hn & Hc & Hs & Hw) Hw' Hn' Hc' Hs' Hok. unfold pool_ok.
  rewrite Hw', Hn', Hc', length_insert. split_and!; [done|done|lia|lia| |].
  - rewrite Forall_forall in Hs |- *. eauto.
  - by apply Forall_insert.
Qed.

Lemma pool_ok_worker n p i w :
  pool_ok n p → wp_workers p !! i = Some w →
  length (wk_jobs w) ≤ maxJobPerWorker ∧ (0 ≤ wk_jobsProcessed w < 2 ^ 64)%Z.
Proof. intros (_ & _ & _ & _ & Hw) Hi. rewrite Forall_lookup in Hw. by eapply Hw. Qed.

Lemma pool_step_ok n p e p' : 0 < n → pool_step p e p' → pool_ok n p → pool_ok n p'.
Proof.
  intros Hpos Hstep Hok. destruct Hstep as
    [job i p' Ha|job i p' Ha|i job l1 l2 ws Hl Hs|i w j w' Hi Hw|i w j w' Hi Hw|i w w' Hi Hw|i w w' Hi Hw].
  - apply AddJob_Some in Ha as (_ & ws & (w & Hi & Hlt & ->)%send_job_Some & ->).
    destruct (pool_ok_worker _ _ _ _ Hok Hi) as [_ Hp].
    eapply pool_ok_update; [done|reflexivity|done|done|done|]. simpl. rewrite length_app. simpl. split; [lia|done].
  - apply AddJobRoundRobin_Ret in Ha as [Hi ->]. destruct (worker_index_ok n p (uint64 (wp_rRobinCounter p + 1)) Hok Hpos) as [Hi' Hlt].
    rewrite Hi in Hi'. injection Hi' as ->. destruct Hok as (Hl & Hn & Hc & Hs & Hw).
    split_and!; simpl; [done|done|apply uint64_range|apply uint64_range| |done].
    apply Forall_app. split; [done|]. by apply Forall_singleton.
  - apply send_job_Some in Hs as (w & Hi & Hlt & ->). destruct (pool_ok_worker _ _ _ _ Hok Hi) as [_ Hp].
    eapply pool_ok_update; [done|reflexivity|done|done| |].
    + simpl. rewrite Hl. intros s. rewrite !elem_of_app, elem_of_cons. tauto.
    + simpl. rewrite length_app. simpl. split; [lia|done].
  - destruct (pool_ok_worker _ _ _ _ Hok Hi) as [Hj Hp]. unfold work_take in Hw.
    destruct (wk_jobs w) as [|j' jobs] eqn:Hjobs; [done|]. destruct (wk_stopped w), (wk_running w); try done.
    injection Hw as <- <-. eapply pool_ok_update; [done|reflexivity|done|done|done|]. simpl in *. split; [lia|done].
  - destruct (pool_ok_worker _ _ _ _ Hok Hi) as [Hj Hp]. unfold work_finish in Hw.
    destruct (wk_running w); [|done]. injection Hw as <- <-.
    eapply pool_ok_update; [done|reflexivity|done|done|done|]. split; [done|apply uint64_range].
  - destruct (pool_ok_worker _ _ _ _ Hok Hi) as [Hj Hp]. unfold stop_send in Hw.
    destruct (wk_stop w); [done|]. injection Hw as <-. by eapply pool_ok_update.
  - destruct (pool_ok_worker _ _ _ _ Hok Hi) as [Hj Hp]. unfold work_stop in Hw.
    destruct (wk_stop w && _); [|done]. destruct (wk_running w); [done|]. injection Hw as <-.
    by eapply pool_ok_update.
Qed.

Lemma pool_run_inv nWorkers procs t p :
  pool_run (NewWorkerPool nWorkers procs) t p → pool_inv t p.
Proof.
  induction 1 as [|t p1 e p2 _ IH Hstep]; [|by eapply pool_step_inv].
  intros i w Hi. unfold NewWorkerPool in Hi. simpl in Hi. rewrite list_lookup_fmap in Hi.
  apply fmap_Some in Hi as (k & _ & ->). done.
Qed.

(** The number of workers that is asked for. *)
Definition pool_size (nWorkers procs : Z) : Z := if bool_decide (nWorkers = 0)%Z then procs else nWorkers.

Lemma pool_run_ok nWorkers procs t p :
  (0 < pool_size nWorkers procs ≤ int64_max)%Z →
  pool_run (NewWorkerPool nWorkers procs) t p → pool_ok (Z.to_nat (pool_size nWorkers procs)) p.
Proof.
  intros Hn. induction 1 as [|t p1 e p2 _ IH Hstep]; [|eapply pool_step_ok; [|done|done]; lia].
  unfold NewWorkerPool. fold (pool_size nWorkers procs). unfold pool_ok. simpl.
  rewrite length_fmap, length_seq. unfold int64_max in Hn.
  split_and!; [done|rewrite uint64_id; lia|lia|lia|done|].
  apply Forall_fmap, Forall_forall. intros i _. simpl. lia.
Qed.

(** C39 (bounds).  In a pool of n workers, n being what was asked for or
    GOMAXPROCS, no matter which jobs were posted, run and stopped: every job, with
    any 64-bit hash, is given to an existing worker, the one of number hash mod n,
    and the round robin, even when its counter wraps around, also picks an existing
    worker; posting blocks only when 4096 jobs wait at that worker, and never more
    wait. *)
Theorem jobs_reach_workers nWorkers procs t p job :
  (0 < pool_size nWorkers procs ≤ int64_max)%Z →
  pool_run (NewWorkerPool nWorkers procs) t p →
  let n := pool_size nWorkers procs in
  GetWorkerNumber p = n ∧
  (∃ w, wp_workers p !! Z.to_nat (job_Hash job mod n) = Some w ∧
     ∃ p', AddJob p job = Ret (Z.to_nat (job_Hash job mod n), p') ∧
       (p' = None ↔ length (wk_jobs w) = maxJobPerWorker)) ∧
  (∃ w i p', AddJobRoundRobin p job = Ret (i, p') ∧ wp_workers p !! i = Some w) ∧
  (∀ i w, wp_workers p !! i = Some w → length (wk_jobs w) ≤ maxJobPerWorker).
Proof.
  intros Hn Hrun n. pose proof (pool_run_ok _ _ _ _ Hn Hrun) as Hok. fold n in Hok, Hn.
  assert (0 < Z.to_nat n) as Hpos by lia. pose proof Hok as (Hlen & Hnw & _).
  assert (Hworker : ∀ i, i < Z.to_nat n → ∃ w, wp_workers p !! i = Some w).
  { intros i Hi. apply lookup_lt_is_Some. by rewrite Hlen. }
  split; [unfold GetWorkerNumber; rewrite Hnw; lia|]. split_and!.
  - destruct (worker_index_ok _ _ (job_Hash job) Hok Hpos) as [Hi Hlt]. rewrite Z2Nat.id in Hi, Hlt by lia.
    destruct (Hworker _ Hlt) as [w Hw]. exists w. split; [done|]. unfold AddJob. rewrite Hi. simpl.
    eexists. split; [done|]. unfold send_job. rewrite Hw. simpl.
    destruct (pool_ok_worker _ _ _ _ Hok Hw) as [Hle _].
    case_bool_decide; simpl; split; intros; try done; lia.
  - destruct (worker_index_ok _ _ (uint64 (wp_rRobinCounter p + 1)) Hok Hpos) as [Hi Hlt].
    destruct (Hworker _ Hlt) as [w Hw]. exists w. eexists _, _. unfold AddJobRoundRobin. rewrite Hi. simpl. eauto.
  - intros i w Hi. by eapply pool_ok_worker.
Qed.

(** A worker runs the jobs posted to it one at a time and in
    the order in which they were posted: at every point of every run, what it has
    started is the jobs posted to it except those that wait in its channel, and it
    has finished all of these but the one it runs.  As jobs are given out by their
    hash, jobs with the same hash never run at the same time, nor in another
    order. *)
Theorem jobs_run_in_order nWorkers procs t p i w :
  pool_run (NewWorkerPool nWorkers procs) t p →
  wp_workers p !! i = Some w →
  posted i t = started i t ++ wk_jobs w ∧
  started i t = finished i t ++ option_list (wk_running w).
Proof. intros Hrun Hi. exact (pool_run_inv _ _ _ _ Hrun i w Hi). Qed.

(** ** The round robin is fair *)

Section fair.
#[local] Open Scope Z_scope.

(** The number of the [m] numbers after [c] that are [i] modulo [n]. *)
Fixpoint hits (n c i : Z) (m : nat) : Z :=
  match m with
  | O => 0
  | S m => hits n c i m + (if bool_decide ((c + Z.of_nat m + 1) mod n = i) then 1 else 0)
  end.

Lemma div_succ n x : 0 < n → (x + 1) / n - x / n = if bool_decide ((x + 1) mod n = 0) then 1 else 0.
Proof.
  intros Hn. pose proof (Z.div_mod x n ltac:(lia)) as H1. pose proof (Z.div_mod (x + 1) n ltac:(lia)) as H2.
  pose proof (Z.mod_pos_bound x n Hn). pose proof (Z.mod_pos_bound (x + 1) n Hn).
  case_bool_decide; nia.
Qed.

Lemma mod_sub n x i : 0 <= i < n → x mod n = i ↔ (x - i) mod n = 0.
Proof.
  intros Hi. rewrite Zminus_mod, (Z.mod_small i n) by done. pose proof (Z.mod_pos_bound x n ltac:(lia)) as Hx.
  split; [intros ->; by rewrite Z.sub_diag, Z.mod_0_l by lia|]. intros Hm.
  apply Z.mod_divide in Hm as [k Hk]; [|lia]. assert (k = 0) by nia. lia.
Qed.

Lemma hits_div n c i m : 0 <= i < n → hits n c i m = (c + Z.of_nat m - i) / n - (c - i) / n.
Proof.
  intros Hi. induction m as [|m IH]; simpl hits; [rewrite Z.add_0_r; lia|]. rewrite IH.
  replace (c + Z.of_nat (S m) - i) with (c + Z.of_nat m - i + 1) by lia.
  pose proof (div_succ n (c + Z.of_nat m - i) ltac:(lia)) as Hs.
  assert (bool_decide ((c + Z.of_nat m + 1) mod n = i) = bool_decide ((c + Z.of_nat m - i + 1) mod n = 0)) as ->.
  { apply bool_decide_ext. rewrite mod_sub by done. by replace (c + Z.of_nat m + 1 - i) with (c + Z.of_nat m - i + 1) by lia. }
  lia.
Qed.

Lemma hits_bounds n c i m :
  0 <= i < n → Z.of_nat m / n <= hits n c i m <= Z.of_nat m / n + 1.
Proof.
  intros Hi. rewrite hits_div by done.
  set (a := c - i). replace (c + Z.of_nat m - i) with (a + Z.of_nat m) by lia.
  pose proof (Z.div_mod a n ltac:(lia)). pose proof (Z.mod_pos_bound a n ltac:(lia)).
  pose proof (Z.div_mod (Z.of_nat m) n ltac:(lia)). pose proof (Z.mod_pos_bound (Z.of_nat m) n ltac:(lia)).
  pose proof (Z.div_mod (a + Z.of_nat m) n ltac:(lia)). pose proof (Z.mod_pos_bound (a + Z.of_nat m) n ltac:(lia)).
  split; nia.
Qed.
End fair.

(** Successive calls of the round robin: the workers that are picked. *)
Fixpoint round_robin (p : WorkerPool) (jobs : list Job) : go (list nat * WorkerPool) :=
  match jobs with
  | [] => Ret ([], p)
  | job :: jobs =>
    r ← AddJobRoundRobin p job;
    r' ← round_robin (r.2 : WorkerPool) jobs;
    Ret ((r.1 : nat) :: r'.1, r'.2)
  end.

(** The workers of [m] successive numbers. *)
Definition rr_workers (n : nat) (c : Z) (m : nat) : list nat :=
  (fun k => Z.to_nat ((c + Z.of_nat k + 1) mod Z.of_nat n)) <$> seq 0 m.

Lemma rr_workers_cons n c m : rr_workers n c (S m) = Z.to_nat ((c + 1) mod Z.of_nat n) :: rr_workers n (c + 1) m.
Proof.
  unfold rr_workers. rewrite <-cons_seq, <-fmap_S_seq. cbn [fmap list_fmap]. f_equal; [f_equal; f_equal; lia|].
  rewrite <-list_fmap_compose. apply list_fmap_ext. intros _ k _. simpl. f_equal. f_equal. lia.
Qed.

Lemma round_robin_workers n jobs p :
  pool_ok n p → 0 < n → (wp_rRobinCounter p + Z.of_nat (length jobs) < 2 ^ 64)%Z →
  ∃ p', round_robin p jobs = Ret (rr_workers n (wp_rRobinCounter p) (length jobs), p').
Proof.
  intros Hok Hn. revert p Hok. induction jobs as [|job jobs IH]; intros p Hok Hc; [by eexists|].
  simpl in Hc. pose proof Hok as (_ & _ & Hr & _). rewrite length_cons, rr_workers_cons.
  destruct (worker_index_ok _ _ (uint64 (wp_rRobinCounter p + 1)) Hok Hn) as [Hi _].
  rewrite uint64_id in Hi by lia.
  assert (AddJobRoundRobin p job = Ret (Z.to_nat ((wp_rRobinCounter p + 1) mod Z.of_nat n),
    mkPool (wp_workers p) (wp_nWorkers p) (wp_rRobinCounter p + 1)
      (wp_sending p ++ [(Z.to_nat ((wp_rRobinCounter p + 1) mod Z.of_nat n), job)]))) as Ha.
  { unfold AddJobRoundRobin. rewrite uint64_id by lia. rewrite Hi. done. }
  cbn [round_robin]. rewrite Ha. cbn [mbind go_bind fst snd].
  pose proof (pool_step_ok _ _ _ _ Hn (step_round_robin _ _ _ _ Ha) Hok) as Hok'.
  destruct (IH _ Hok') as [p' ->]; [simpl; lia|]. by eexists.
Qed.

Lemma rr_workers_hits n c i m :
  i < n → Z.of_nat (length (filter (fun k => k = i) (rr_workers n c m))) = hits (Z.of_nat n) c (Z.of_nat i) m.
Proof.
  intros Hi. induction m as [|m IH]; [done|]. unfold rr_workers in *.
  rewrite seq_S, fmap_app, filter_app, length_app, Nat2Z.inj_add, IH. cbn [hits fmap list_fmap Nat.add].
  rewrite filter_cons, filter_nil.
  pose proof (Z.mod_pos_bound (c + Z.of_nat m + 1) (Z.of_nat n) ltac:(lia)).
  f_equal. case_decide as Hd; case_bool_decide; simpl; try done; lia.
Qed.

(** The round robin is fair: of any [m] successive calls, every
    one of the [n] workers gets at least m/n and at most m/n + 1, whatever the
    state of the pool is, as long as the 64-bit counter does not wrap around. *)
Theorem round_robin_fair nWorkers procs t p jobs i :
  (0 < pool_size nWorkers procs ≤ int64_max)%Z →
  pool_run (NewWorkerPool nWorkers procs) t p →
  (wp_rRobinCounter p + Z.of_nat (length jobs) < 2 ^ 64)%Z →
  (0 ≤ i < pool_size nWorkers procs)%Z →
  ∃ ws p', round_robin p jobs = Ret (ws, p') ∧ length ws = length jobs ∧
    let m := Z.of_nat (length jobs) in
    let got := Z.of_nat (length (filter (fun k => k = Z.to_nat i) ws)) in
    (m / pool_size nWorkers procs ≤ got ≤ m / pool_size nWorkers procs + 1)%Z.
Proof.
  intros Hn Hrun Hc Hi. pose proof (pool_run_ok _ _ _ _ Hn Hrun) as Hok.
  destruct (round_robin_workers _ jobs _ Hok ltac:(lia) Hc) as [p' Hp].
  eexists _, p'. split; [exact Hp|]. split; [unfold rr_workers; by rewrite length_fmap, length_seq|].
  cbv zeta. rewrite rr_workers_hits by lia.
  pose proof (hits_bounds (pool_size nWorkers procs) (wp_rRobinCounter p) i (length jobs) Hi).
  by rewrite !Z2Nat.id by lia.
Qed.

(** ** Witnesses of the pool *)

Definition sample_job : Job := mkJob 7 "sync" 5.

(** Two workers; the job of hash 5 is posted to the second one, which starts it. *)
Definition sample_pool_posted : WorkerPool :=
  mkPool [new_worker 0; mkWorker 1 [sample_job] false None false 0] 2 0 [].
Definition sample_pool_started : WorkerPool :=
  mkPool [new_worker 0; mkWorker 1 [] false (Some sample_job) false 0] 2 0 [].
Definition sample_pool_trace : list pool_event := [Posted 1 sample_job; Started 1 sample_job].

Lemma sample_pool_run : pool_run (NewWorkerPool 2 8) sample_pool_trace sample_pool_started.
Proof.
  apply (run_snoc _ [Posted 1 sample_job] sample_pool_posted).
  - apply (run_snoc _ [] (NewWorkerPool 2 8)); [constructor|]. by apply step_add.
  - apply (step_take sample_pool_posted 1 (mkWorker 1 [sample_job] false None false 0) sample_job
             (mkWorker 1 [] false (Some sample_job) false 0)); done.
Qed.

Lemma jobs_reach_workers_witness :
  pool_run (NewWorkerPool 2 8) sample_pool_trace sample_pool_started ∧
  GetWorkerNumber sample_pool_started = 2%Z.
Proof.
  split; [exact sample_pool_run|].
  destruct (jobs_reach_workers 2 8 sample_pool_trace sample_pool_started sample_job) as [Hn _];
    [done|exact sample_pool_run|exact Hn].
Defined.

Lemma jobs_run_in_order_witness :
  posted 1 sample_pool_trace = [sample_job] ∧
  posted 1 sample_pool_trace = started 1 sample_pool_trace ++ [] ∧
  started 1 sample_pool_trace = finished 1 sample_pool_trace ++ [sample_job].
Proof.
  split; [reflexivity|].
  exact (jobs_run_in_order 2 8 sample_pool_trace sample_pool_started 1
    (mkWorker 1 [] false (Some sample_job) false 0) sample_pool_run eq_refl).
Defined.

Lemma round_robin_fair_witness :
  ∃ ws p', round_robin sample_pool_started (replicate 5 sample_job) = Ret (ws, p') ∧
    length ws = 5 ∧ (2 ≤ Z.of_nat (length (filter (fun k => k = 1%nat) ws)) ≤ 3)%Z.
Proof.
  destruct (round_robin_fair 2 8 sample_pool_trace sample_pool_started (replicate 5 sample_job) 1)
    as (ws & p' & Hr & Hl & Hb); [done|exact sample_pool_run|done|done|].
  exists ws, p'. split; [exact Hr|]. split; [exact Hl|exact Hb].
Defined.

(** A negative number of workers makes a pool without workers, on which every
    call panics. *)
Theorem negative_pool_panics nWorkers procs job :
  (nWorkers < 0)%Z →
  AddJob (NewWorkerPool nWorkers procs) job = Panic ∧
  AddJobRoundRobin (NewWorkerPool nWorkers procs) job = Panic.
Proof.
  intros Hn. assert (NewWorkerPool nWorkers procs = mkPool [] 0 0 []) as ->; [|done].
  unfold NewWorkerPool. rewrite bool_decide_false by lia. by rewrite Z2Nat.nonpos by lia.
Qed.

(** ** The rate-limited queue *)

(** What the code does with the queue of client-go and the message bus. *)
Inductive queue_op (K : Type) : Type :=
| AddRateLimited (k : K)
| Forget (k : K)
| Done (k : K)
| Pub (k : K) (topic : string)
| HandleError (err : string).
Arguments AddRateLimited {K} _.
Arguments Forget {K} _.
Arguments Done {K} _.
Arguments Pub {K} _ _.
Arguments HandleError {K} _.

(** An item of the queue, an [interface{}]: one of the expected type or another. *)
Inductive queue_item (K : Type) : Type :=
| Item (k : K)
| Foreign (n : nat).
Arguments Item {K} _.
Arguments Foreign {K} _.

Module Queue.
Section queue.
Context `{KubeLib}.
(** client-go's key of an object (DeletionHandlingMetaNamespaceKeyFunc). *)
Context {Obj : Type} (KeyFunc : Obj → result string string).

Definition queue_Enqueue (obj : Obj) : list (queue_op string) :=
  match KeyFunc obj with
  | Err e => [HandleError e]
  | Ok key => [AddRateLimited key]
  end.

(** [processNextWorkItem]: [got] is what [Get] returns, [None] when the queue
    shuts down.  The operations, [Done] by the deferred call also on a panic, and
    whether to go on. *)
Definition processNextWorkItem (process : string → string → string → go (bool * option string))
    (got : option (queue_item string)) : list (queue_op string) * go bool :=
  match got with
  | None => ([], Ret false)
  | Some (Foreign _) => ([], Panic)
  | Some (Item key) =>
    match SplitMetaNamespaceKey key with
    | Err _ => ([Done key], Panic)
    | Ok (ns, n) =>
      match process key n ns with
      | Panic => ([Done key], Panic)
      | Ret (requeue, err) =>
        (match err with
         | Some e => [HandleError e]
         | None => []
         end ++ [if requeue then AddRateLimited key else Forget key] ++ [Done key], Ret true)
      end
    end
  end.

(** The loop of [Run] over the items the queue hands out. *)
Fixpoint queue_Run (process : string → string → string → go (bool * option string))
    (gets : list (option (queue_item string))) : list (queue_op string) * go unit :=
  match gets with
  | [] => ([], Ret tt)
  | got :: gets =>
    let '(ops, next) := processNextWorkItem process got in
    match next with
    | Panic => (ops, Panic)
    | Ret false => (ops, Ret tt)
    | Ret true => let '(ops', r) := queue_Run process gets in (ops ++ ops', r)
    end
  end.

Definition key_done (o : queue_op string) : option string := match o with Done k => Some k | _ => None end.
Definition key_retried (o : queue_op string) : option string := match o with AddRateLimited k => Some k | _ => None end.
Definition key_forgotten (o : queue_op string) : option string := match o with Forget k => Some k | _ => None end.

(** The items of a worker whose processing does not panic. *)
Definition processable (process : string → string → string → go (bool * option string)) (key : string) : Prop :=
  ∃ ns n r, SplitMetaNamespaceKey key = Ok (ns, n) ∧ process key n ns = Ret r.

Lemma app_interleave {A} (a b c d : list A) : (a ++ b) ++ (c ++ d) ≡ₚ (a ++ c) ++ (b ++ d).
Proof.
  rewrite <-!app_assoc. apply Permutation_app_head. rewrite !app_assoc. apply Permutation_app_tail, Permutation_app_comm.
Qed.

Lemma process_item process key :
  processable process key →
  ∃ ops, processNextWorkItem process (Some (Item key)) = (ops, Ret true) ∧
    omap key_done ops = [key] ∧ omap key_retried ops ++ omap key_forgotten ops = [key].
Proof.
  intros (ns & n & [requeue err] & Hs & Hp). unfold processNextWorkItem. rewrite Hs, Hp.
  eexists. split; [done|]. destruct err, requeue; done.
Qed.

(** Every item the queue hands out is marked done, once and in order, and is
    either scheduled again or forgotten, whatever [process] says of it. *)
Theorem items_are_finished process keys :
  Forall (processable process) keys →
  ∃ ops, queue_Run process (Some ∘ Item <$> keys) = (ops, Ret tt) ∧
    omap key_done ops = keys ∧ omap key_retried ops ++ omap key_forgotten ops ≡ₚ keys.
Proof.
  induction 1 as [|key keys Hk _ (ops & Hr & Hd & Hp)]; [by exists []|].
  destruct (process_item process key Hk) as (ops1 & Hp1 & Hd1 & Hf1).
  exists (ops1 ++ ops). cbn [fmap list_fmap queue_Run compose]. rewrite Hp1. rewrite Hr. split; [done|].
  rewrite !omap_app, Hd, Hd1. split; [done|].
  by rewrite app_interleave, Hf1, Hp.
Qed.
End queue.
End Queue.

(** ** The event broker *)

Module Broker.
(** The topic of a message: the text of its kind. *)
Definition topic (k : EventType) : string :=
  match k with
  | ServiceExportCreated => "service.export.created"
  | ServiceExportDeleted => "service.export.deleted"
  | ServiceExportAccepted => "service.export.accepted"
  | ServiceExportRejected => "service.export.rejected"
  end.

Definition broker_Enqueue (msg : Message) : list (queue_op (queue_item Message)) := [AddRateLimited (Item msg)].

Definition broker_processEvent (msg : Message) : list (queue_op (queue_item Message)) := [Pub (Item msg) (topic (msg_Kind msg))].

Definition processNextItem (got : option (queue_item Message)) : list (queue_op (queue_item Message)) * bool :=
  match got with
  | None => ([], false)
  | Some (Item msg) => (broker_processEvent msg ++ [Forget (Item msg); Done (Item msg)], true)
  | Some item => ([Forget item; Done item], true)
  end.

Fixpoint runWorkqueueProcessor (gets : list (option (queue_item Message))) : list (queue_op (queue_item Message)) :=
  match gets with
  | [] => []
  | got :: gets =>
    let '(ops, next) := processNextItem got in
    ops ++ if next then runWorkqueueProcessor gets else []
  end.

(** The messages published, each with its topic. *)
Definition published (o : queue_op (queue_item Message)) : option (Message * string) :=
  match o with Pub (Item m) t => Some (m, t) | _ => None end.

Lemma topic_inj k k' : topic k = topic k' → k = k'.
Proof. destruct k, k'; done. Qed.

(** Every message that the queue hands out is published once, in order and on the
    topic of its kind only: a subscriber of a kind gets the messages of that kind. *)
Theorem messages_by_kind gets k :
  filter (fun mt => mt.2 = topic k) (omap published (runWorkqueueProcessor (Some <$> gets))) =
  (fun m => (m, topic k)) <$>
    filter (fun m => msg_Kind m = k) (omap (fun i => match i with Item m => Some m | Foreign _ => None end) gets).
Proof.
  induction gets as [|[m|n] gets IH]; [done| |].
  - cbn [fmap list_fmap runWorkqueueProcessor processNextItem broker_processEvent app omap list_omap published].
    rewrite !filter_cons. cbn [snd].
    destruct (decide (topic (msg_Kind m) = topic k)) as [Hd|Hd], (decide (msg_Kind m = k)) as [Hk|Hk].
    + cbn [fmap list_fmap]. by rewrite IH, Hk.
    + by apply topic_inj in Hd.
    + by rewrite Hk in Hd.
    + exact IH.
  - exact IH.
Qed.
End Broker.
