(* ===== verification/Informers.v ===== *)
(** * The informer controllers ([pkg/controller], wired by [pkg/cache/local_cache.go])

    Every kind of resource has a controller with the same code: three functions
    registered with the informer of client-go, which cast what the informer hands
    them and call the handler, if there is one; a [Run] that waits for the
    informer's first synchronisation; and a typed view of the store.  The generic
    section models that code, the definitions after it are its copies.  The last
    part runs the controllers of services and endpoints against the cache of the
    local connector: the chain from the informers to the maps from which the
    routes are built.

    The informer itself is not part of the sources: what it promises to the
    functions registered with it is the relation [informer_call]. *)

From S2P Require Import Prelude GoLib Kube Tracker CacheTypes McsTypes EndpointsCache ServiceCache ServiceImportCache IngressCache Repo Config RouteBuild LocalCache.

(** ** One controller *)

(** What an informer hands to its handlers, an [interface{}]: an object, the
    record of a missed deletion with its last known object, or something else. *)
Inductive watch_obj (T : Type) : Type :=
| WObj (x : T)
| WDeleted (key : string) (x : option T)
| WOther.
Arguments WObj {T} _.
Arguments WDeleted {T} _ _.
Arguments WOther {T}.

(** The handler interface of a resource, over the state of what implements it. *)
Record Handler (T S : Type) : Type := mkHandler {
  On_Add : T → S → go S;
  On_Update : T → T → S → go S;
  On_Delete : T → S → go S;
  On_Synced : S → go S
}.
Arguments mkHandler {T S} _ _ _ _.
Arguments On_Add {T S} _ _ _.
Arguments On_Update {T S} _ _ _ _.
Arguments On_Delete {T S} _ _ _.
Arguments On_Synced {T S} _ _.

Section controller.
Context {T S : Type}.

Record Controller : Type := mkController { eventHandler : option (Handler T S) }.

(** A controller with the functions it registers. *)
Definition NewControllerWithEventHandler (handler : option (Handler T S)) : Controller := mkController handler.

(** [if c.eventHandler != nil { ... }] *)
Definition call_handler (c : Controller) (f : Handler T S → S → go S) (s : S) : go S :=
  match eventHandler c with Some h => f h s | None => Ret s end.

Definition handleAdd (c : Controller) (obj : watch_obj T) (s : S) : go S :=
  match obj with
  | WObj x => call_handler c (fun h => On_Add h x) s
  | _ => Ret s
  end.

Definition handleUpdate (c : Controller) (oldObj newObj : watch_obj T) (s : S) : go S :=
  match oldObj with
  | WObj old =>
    match newObj with
    | WObj x => call_handler c (fun h => On_Update h old x) s
    | _ => Ret s
    end
  | _ => Ret s
  end.

Definition handleDelete (c : Controller) (obj : watch_obj T) (s : S) : go S :=
  match obj with
  | WObj x => call_handler c (fun h => On_Delete h x) s
  | WDeleted _ (Some x) => call_handler c (fun h => On_Delete h x) s
  | WDeleted _ None => Ret s
  | WOther => Ret s
  end.

(** [synced] is the answer of [WaitForNamedCacheSync]: [false] when the process
    was stopped first. *)
Definition Run_controller (c : Controller) (synced : bool) (s : S) : go S :=
  if synced then call_handler c On_Synced s else Ret s.

(** The typed store; what it holds is cast without a check. *)
Definition store_ByKey (GetByKey : string → result string (option (watch_obj T))) (key : string) :
    go (result string T) :=
  match GetByKey key with
  | Err e => Ret (Err e)
  | Ok None => Ret (Err ("no object matching key " +:+ key +:+ " in local store"))
  | Ok (Some (WObj x)) => Ret (Ok x)
  | Ok (Some _) => Panic
  end.

(** ** What the informer promises *)

Inductive call : Type :=
| CallAdd (obj : watch_obj T)
| CallUpdate (oldObj newObj : watch_obj T)
| CallDelete (obj : watch_obj T).

(** The function that is registered for a call. *)
Definition deliver (c : Controller) (e : call) (s : S) : go S :=
  match e with
  | CallAdd obj => handleAdd c obj s
  | CallUpdate oldObj newObj => handleUpdate c oldObj newObj s
  | CallDelete obj => handleDelete c obj s
  end.

Context (name : T → NamespacedName).

(** Every change of the informer's store is told once: what is new is added, what
    was there is updated (with the object that was there, also on a resync), what
    is deleted is handed over as it was, directly or, when the deletion itself was
    missed, wrapped up. *)
Inductive informer_call (store : gmap NamespacedName T) : call → gmap NamespacedName T → Prop :=
| informer_add x :
    store !! name x = None → informer_call store (CallAdd (WObj x)) (<[name x := x]> store)
| informer_update old x :
    store !! name x = Some old → informer_call store (CallUpdate (WObj old) (WObj x)) (<[name x := x]> store)
| informer_delete x :
    store !! name x = Some x → informer_call store (CallDelete (WObj x)) (delete (name x) store)
| informer_missed key x :
    store !! name x = Some x → informer_call store (CallDelete (WDeleted key (Some x))) (delete (name x) store).

(** The old and the new object of a call. *)
Definition call_objects (e : call) : option T * option T :=
  match e with
  | CallAdd (WObj x) => (None, Some x)
  | CallUpdate (WObj old) (WObj x) => (Some old, Some x)
  | CallDelete (WObj x) | CallDelete (WDeleted _ (Some x)) => (Some x, None)
  | _ => (None, None)
  end.

(** What the handler is told is what happened to the store. *)
Lemma informer_call_event store e store' :
  informer_call store e store' →
  ∃ nn, let '(prev, cur) := call_objects e in
    prev = store !! nn ∧ store' = store_set store nn cur ∧
    (∀ o, cur = Some o → name o = nn) ∧ is_Some (event_obj prev cur).
Proof.
  intros [x Hx|old x Hx|x Hx|key x Hx]; exists (name x); simpl; split_and!; try done; try congruence; by eexists.
Qed.

(** A handler whose three functions record an old and a new object. *)
Lemma deliver_objects h (upd : option T → option T → S → go S) store e store' s :
  (∀ x s, On_Add h x s = upd None (Some x) s) → (∀ o x s, On_Update h o x s = upd (Some o) (Some x) s) →
  (∀ x s, On_Delete h x s = upd (Some x) None s) →
  informer_call store e store' →
  deliver (NewControllerWithEventHandler (Some h)) e s = upd (call_objects e).1 (call_objects e).2 s.
Proof. intros Ha Hu Hd [x _|old x _|x _|key x _]; simpl; unfold call_handler; simpl; auto. Qed.

(** A call that hands over something else than objects of the resource. *)
Definition mistyped (e : call) : Prop := call_objects e = (None, None).

(** It is dropped before the handler. *)
Lemma deliver_mistyped c e s : mistyped e → deliver c e s = Ret s.
Proof. by destruct e as [[x|key x|]|[old|key old|] [x|key' x|]|[x|key [x|]|]]. Qed.
End controller.
Arguments Controller : clear implicits.
Arguments call : clear implicits.

(** ** The controllers of the resources *)

(** core/v1 Secret: its name and its data. *)
Record Secret : Type := mkSecret {
  sec_Meta : ObjectMeta;
  sec_Data : gmap string string
}.

Section resources.
Context {S : Type}.

Definition ServiceController : Type := Controller Service S.
Definition NewServiceControllerWithEventHandler : option (Handler Service S) → ServiceController := NewControllerWithEventHandler.
Definition handleAddService : ServiceController → watch_obj Service → S → go S := handleAdd.
Definition handleUpdateService : ServiceController → watch_obj Service → watch_obj Service → S → go S := handleUpdate.
Definition handleDeleteService : ServiceController → watch_obj Service → S → go S := handleDelete.
Definition ServiceController_Run : ServiceController → bool → S → go S := Run_controller.
Definition ServiceStore_ByKey : (string → result string (option (watch_obj Service))) → string → go (result string Service) :=
  store_ByKey.

Definition EndpointsController : Type := Controller Endpoints S.
Definition NewEndpointsControllerWithEventHandler : option (Handler Endpoints S) → EndpointsController := NewControllerWithEventHandler.
Definition handleAddEndpoints : EndpointsController → watch_obj Endpoints → S → go S := handleAdd.
Definition handleUpdateEndpoints : EndpointsController → watch_obj Endpoints → watch_obj Endpoints → S → go S := handleUpdate.
Definition handleDeleteEndpoints : EndpointsController → watch_obj Endpoints → S → go S := handleDelete.
Definition EndpointsController_Run : EndpointsController → bool → S → go S := Run_controller.
Definition EndpointStore_ByKey : (string → result string (option (watch_obj Endpoints))) → string → go (result string Endpoints) :=
  store_ByKey.

Definition Ingressv1Controller : Type := Controller Ingress S.
Definition NewIngressv1ControllerWithEventHandler : option (Handler Ingress S) → Ingressv1Controller := NewControllerWithEventHandler.
Definition handleAddIngress : Ingressv1Controller → watch_obj Ingress → S → go S := handleAdd.
Definition handleUpdateIngress : Ingressv1Controller → watch_obj Ingress → watch_obj Ingress → S → go S := handleUpdate.
Definition handleDeleteIngress : Ingressv1Controller → watch_obj Ingress → S → go S := handleDelete.
Definition Ingressv1Controller_Run : Ingressv1Controller → bool → S → go S := Run_controller.
Definition Ingressv1Store_ByKey : (string → result string (option (watch_obj Ingress))) → string → go (result string Ingress) :=
  store_ByKey.

Definition IngressClassv1Controller : Type := Controller IngressClass S.
Definition NewIngressClassv1ControllerWithEventHandler : option (Handler IngressClass S) → IngressClassv1Controller := NewControllerWithEventHandler.
Definition handleAddIngressClass : IngressClassv1Controller → watch_obj IngressClass → S → go S := handleAdd.
Definition handleUpdateIngressClass : IngressClassv1Controller → watch_obj IngressClass → watch_obj IngressClass → S → go S := handleUpdate.
Definition handleDeleteIngressClass : IngressClassv1Controller → watch_obj IngressClass → S → go S := handleDelete.
Definition IngressClassv1Controller_Run : IngressClassv1Controller → bool → S → go S := Run_controller.
Definition IngressClassv1Store_ByKey : (string → result string (option (watch_obj IngressClass))) → string → go (result string IngressClass) :=
  store_ByKey.

Definition SecretController : Type := Controller Secret S.
Definition NewSecretControllerWithEventHandler : option (Handler Secret S) → SecretController := NewControllerWithEventHandler.
Definition handleAddSecret : SecretController → watch_obj Secret → S → go S := handleAdd.
Definition handleUpdateSecret : SecretController → watch_obj Secret → watch_obj Secret → S → go S := handleUpdate.
Definition handleDeleteSecret : SecretController → watch_obj Secret → S → go S := handleDelete.
Definition SecretController_Run : SecretController → bool → S → go S := Run_controller.
Definition SecretStore_ByKey : (string → result string (option (watch_obj Secret))) → string → go (result string Secret) :=
  store_ByKey.

Definition ServiceExportController : Type := Controller ServiceExport S.
Definition NewServiceExportControllerWithEventHandler : option (Handler ServiceExport S) → ServiceExportController := NewControllerWithEventHandler.
Definition handleAddServiceExport : ServiceExportController → watch_obj ServiceExport → S → go S := handleAdd.
Definition handleUpdateServiceExport : ServiceExportController → watch_obj ServiceExport → watch_obj ServiceExport → S → go S := handleUpdate.
Definition handleDeleteServiceExport : ServiceExportController → watch_obj ServiceExport → S → go S := handleDelete.
Definition ServiceExportController_Run : ServiceExportController → bool → S → go S := Run_controller.
Definition ServiceExportStore_ByKey : (string → result string (option (watch_obj ServiceExport))) → string → go (result string ServiceExport) :=
  store_ByKey.

Definition ServiceImportController : Type := Controller ServiceImport S.
Definition NewServiceImportControllerWithEventHandler : option (Handler ServiceImport S) → ServiceImportController := NewControllerWithEventHandler.
Definition handleAddServiceImport : ServiceImportController → watch_obj ServiceImport → S → go S := handleAdd.
Definition handleUpdateServiceImport : ServiceImportController → watch_obj ServiceImport → watch_obj ServiceImport → S → go S := handleUpdate.
Definition handleDeleteServiceImport : ServiceImportController → watch_obj ServiceImport → S → go S := handleDelete.
Definition ServiceImportController_Run : ServiceImportController → bool → S → go S := Run_controller.
Definition ServiceImportStore_ByKey : (string → result string (option (watch_obj ServiceImport))) → string → go (result string ServiceImport) :=
  store_ByKey.
End resources.

(** ** The cache as a handler ([newLocalCache]) *)

Section wiring.
Context `{KubeLib} `{X509Lib} `{MapRange} `{HashStructure}.
Context (env : IngressEnv) (svcLister : NamespacedName → result string Service).
Context (ingresses : result string (list Ingress)) (meshConfig : go MeshConfig).

Definition service_handler : Handler Service LocalCache :=
  mkHandler (fun x c => Ret (OnServiceAdd x c)) (fun o x c => Ret (OnServiceUpdate (Some o) (Some x) c))
    (fun x c => Ret (OnServiceDelete x c)) (OnServiceSynced env ingresses meshConfig).
Definition endpoints_handler : Handler Endpoints LocalCache :=
  mkHandler (fun x c => Ret (OnEndpointsAdd x c)) (fun o x c => Ret (OnEndpointsUpdate (Some o) (Some x) c))
    (fun x c => Ret (OnEndpointsDelete x c)) (OnEndpointsSynced env ingresses meshConfig).
Definition serviceimport_handler : Handler ServiceImport LocalCache :=
  mkHandler (fun x c => Ret (OnServiceImportAdd svcLister x c))
    (fun o x c => Ret (OnServiceImportUpdate svcLister (Some o) (Some x) c))
    (fun x c => Ret (OnServiceImportDelete svcLister x c)) (OnServiceImportSynced env ingresses meshConfig).
Definition ingressv1_handler : Handler Ingress LocalCache :=
  mkHandler (OnIngressv1Add env) (OnIngressv1Update env) (OnIngressv1Delete env)
    (OnIngressv1Synced env ingresses meshConfig).
Definition ingressclassv1_handler : Handler IngressClass LocalCache :=
  mkHandler (fun x c => Ret (OnIngressClassv1Add x c)) (fun o x c => Ret (OnIngressClassv1Update o x c))
    (fun x c => Ret (OnIngressClassv1Delete x c)) (OnIngressClassv1Synced env ingresses meshConfig).

(** The controllers of the local connector; the one of secrets has no handler. *)
Record LocalControllers : Type := mkLocalControllers {
  lcs_Service : ServiceController (S := LocalCache);
  lcs_Endpoints : EndpointsController (S := LocalCache);
  lcs_Ingressv1 : Ingressv1Controller (S := LocalCache);
  lcs_IngressClassv1 : IngressClassv1Controller (S := LocalCache);
  lcs_ServiceImport : ServiceImportController (S := LocalCache);
  lcs_Secret : SecretController (S := LocalCache)
}.

Definition local_controllers : LocalControllers :=
  mkLocalControllers (NewServiceControllerWithEventHandler (Some service_handler))
    (NewEndpointsControllerWithEventHandler (Some endpoints_handler))
    (NewIngressv1ControllerWithEventHandler (Some ingressv1_handler))
    (NewIngressClassv1ControllerWithEventHandler (Some ingressclassv1_handler))
    (NewServiceImportControllerWithEventHandler (Some serviceimport_handler))
    (NewSecretControllerWithEventHandler None).
End wiring.

(** ** The chain from the informers to the maps *)

Section chain.
Context `{KubeLib} `{X509Lib} `{MapRange} `{HashStructure}.

(** The stores of the informers of services and endpoints, and the cache. *)
Record system : Type := mkSystem {
  sys_services : gmap NamespacedName Service;
  sys_endpoints : gmap NamespacedName Endpoints;
  sys_cache : LocalCache
}.

Definition sys_init : system := mkSystem ∅ ∅ newLocalCache.

(** Any informer calls its controller (the ones of services and endpoints as their
    stores change, or with something of a wrong type), a controller sees that its informer has
    synced, the sync runner runs, a push ends.  The contents of the other
    informers, the API server and the repository are arbitrary at every step; a
    service is not turned into a NodePort or LoadBalancer one. *)
Inductive core_step (s : system) : system → Prop :=
| sys_service env lister ings mc e store' c' :
    informer_call (fun x => meta_nn (svc_Meta x)) (sys_services s) e store' →
    keeps_tracking (call_objects e).1 (call_objects e).2 →
    deliver (lcs_Service (local_controllers env lister ings mc)) e (sys_cache s) = Ret c' →
    core_step s (mkSystem store' (sys_endpoints s) c')
| sys_endpoint env lister ings mc e store' c' :
    informer_call (fun x => meta_nn (eps_Meta x)) (sys_endpoints s) e store' →
    deliver (lcs_Endpoints (local_controllers env lister ings mc)) e (sys_cache s) = Ret c' →
    core_step s (mkSystem (sys_services s) store' c')
| sys_ingress env lister ings mc e c' :
    deliver (lcs_Ingressv1 (local_controllers env lister ings mc)) e (sys_cache s) = Ret c' →
    core_step s (mkSystem (sys_services s) (sys_endpoints s) c')
| sys_class env lister ings mc e c' :
    deliver (lcs_IngressClassv1 (local_controllers env lister ings mc)) e (sys_cache s) = Ret c' →
    core_step s (mkSystem (sys_services s) (sys_endpoints s) c')
| sys_synced env lister ings mc synced c' :
    let cs := local_controllers env lister ings mc in
    ServiceController_Run (lcs_Service cs) synced (sys_cache s) = Ret c' ∨
    EndpointsController_Run (lcs_Endpoints cs) synced (sys_cache s) = Ret c' ∨
    Ingressv1Controller_Run (lcs_Ingressv1 cs) synced (sys_cache s) = Ret c' ∨
    IngressClassv1Controller_Run (lcs_IngressClassv1 cs) synced (sys_cache s) = Ret c' ∨
    ServiceImportController_Run (lcs_ServiceImport cs) synced (sys_cache s) = Ret c' →
    core_step s (mkSystem (sys_services s) (sys_endpoints s) c')
| sys_run env ings mc c' :
    syncRoutes env ings mc (set_syncRequested false (sys_cache s)) = Ret c' →
    core_step s (mkSystem (sys_services s) (sys_endpoints s) c')
| sys_push p l1 l2 r :
    let c := sys_cache s in
    lc_pending c = l1 ++ p :: l2 →
    core_step s (mkSystem (sys_services s) (sys_endpoints s)
      (finish_push p r (set_runtime c (lc_ingressRoutesVersion c) (lc_serviceRoutesVersion c)
         (lc_DefaultIngressClass c) (lc_syncRequested c) (l1 ++ l2))))
| sys_service_mistyped env lister ings mc e c' :
    mistyped e →
    deliver (lcs_Service (local_controllers env lister ings mc)) e (sys_cache s) = Ret c' →
    core_step s (mkSystem (sys_services s) (sys_endpoints s) c')
| sys_endpoint_mistyped env lister ings mc e c' :
    mistyped e →
    deliver (lcs_Endpoints (local_controllers env lister ings mc)) e (sys_cache s) = Ret c' →
    core_step s (mkSystem (sys_services s) (sys_endpoints s) c').

(** The informer of imports calls its controller too. *)
Inductive sys_step (s : system) : system → Prop :=
| sys_core s' : core_step s s' → sys_step s s'
| sys_import env lister ings mc e c' :
    deliver (lcs_ServiceImport (local_controllers env lister ings mc)) e (sys_cache s) = Ret c' →
    sys_step s (mkSystem (sys_services s) (sys_endpoints s) c').

(** The part of the cache that follows the endpoints, and the services. *)
Definition ep_part (s : system) : ep_state :=
  mkEpState (sys_endpoints s) (lc_endpointsChanges (sys_cache s)) (lc_endpointsMap (sys_cache s)).
Definition svc_part (s : system) : svc_state :=
  mkSvcState (sys_services s) (lc_serviceChanges (sys_cache s)) (lc_serviceMap (sys_cache s)).

(** What the steps do to the tracked parts of the cache. *)
Definition ep_view (c : LocalCache) := (lc_endpointsChanges c, lc_endpointsMap c).
Definition svc_view (c : LocalCache) := (lc_serviceChanges c, lc_serviceMap c).

(** A sync applies the pending changes to both maps. *)
Definition synced_parts (c c' : LocalCache) : Prop :=
  EndpointsMap_Update (lc_endpointsMap c) (Some (lc_endpointsChanges c)) =
    (lc_endpointsMap c', Some (lc_endpointsChanges c')) ∧
  ServiceMap_Update (lc_serviceMap c) (lc_serviceChanges c) = (lc_serviceMap c', lc_serviceChanges c').

Lemma update_maps_synced c : synced_parts c (set_tracked c (update_maps (get_tracked c))).
Proof. split; reflexivity. Qed.

Definition parts (c : LocalCache) := (ep_view c, svc_view c).

Lemma refreshIngress_parts env ings c c' : refreshIngress env ings c = Ret c' → parts c' = parts c.
Proof.
  unfold refreshIngress. intros (ict & _ & Hr)%go_bind_ret.
  destruct (IngressMap_Update _ _) as [im ict']. by injection Hr as <-.
Qed.

Lemma sync_services_parts env ings mc c c' : sync_services env ings mc c = Ret c' → parts c' = parts c.
Proof.
  unfold sync_services. case_bool_decide; [|by intros [= <-]].
  intros ->%refreshIngress_parts. by case_match.
Qed.

Lemma sync_ingresses_parts mc c c' : sync_ingresses mc c = Ret c' → parts c' = parts c.
Proof.
  unfold sync_ingresses. intros (d & _ & Hr)%go_bind_ret. revert Hr.
  case_bool_decide; intros [= <-]; [|done]. by destruct (ingressBatches d mc).
Qed.

Lemma syncRoutes_parts env ings mc c c' : syncRoutes env ings mc c = Ret c' → synced_parts c c'.
Proof.
  unfold syncRoutes. intros (m & _ & (c1 & HA & HB)%go_bind_ret)%go_bind_ret.
  apply sync_services_parts in HA. apply sync_ingresses_parts in HB. rewrite HA in HB.
  pose proof (update_maps_synced c) as Hu. unfold synced_parts in *.
  unfold parts, ep_view, svc_view in HB. injection HB as -> -> -> ->. exact Hu.
Qed.

Lemma maybe_sync_parts b c : parts (maybe_sync b c) = parts c.
Proof. unfold maybe_sync. by destruct (b && isInitialized c). Qed.

Lemma OnServiceUpdate_parts old new c :
  parts (OnServiceUpdate old new c) =
    (ep_view c, ((ServiceChangeTracker_Update (lc_serviceChanges c) old new).2, lc_serviceMap c)).
Proof. unfold OnServiceUpdate. destruct (ServiceChangeTracker_Update _ _ _). by rewrite maybe_sync_parts. Qed.

Lemma OnEndpointsUpdate_parts old new c :
  parts (OnEndpointsUpdate old new c) =
    (((EndpointChangeTracker_Update (lc_endpointsChanges c) old new).2, lc_endpointsMap c), svc_view c).
Proof. unfold OnEndpointsUpdate. destruct (EndpointChangeTracker_Update _ _ _). by rewrite maybe_sync_parts. Qed.

Lemma OnServiceImportUpdate_parts lister old new c : parts (OnServiceImportUpdate lister old new c) = parts c.
Proof.
  unfold OnServiceImportUpdate. destruct (ServiceImportChangeTracker_Update _ _ _ _). by rewrite maybe_sync_parts.
Qed.

Lemma onIngressUpdate_parts env old new c c' : onIngressUpdate env old new c = Ret c' → parts c' = parts c.
Proof. unfold onIngressUpdate. intros (r & _ & [= <-])%go_bind_ret. by rewrite maybe_sync_parts. Qed.

Lemma updateDefaultIngressClass_parts class n c : parts (updateDefaultIngressClass class n c) = parts c.
Proof. unfold updateDefaultIngressClass. destruct (_ !! _); [|done]. by case_bool_decide. Qed.

(** Deliveries that concern neither services nor endpoints. *)
Lemma deliver_parts {T} (h : Handler T LocalCache) e c c' :
  (∀ x c c', On_Add h x c = Ret c' → parts c' = parts c) →
  (∀ o x c c', On_Update h o x c = Ret c' → parts c' = parts c) →
  (∀ x c c', On_Delete h x c = Ret c' → parts c' = parts c) →
  deliver (NewControllerWithEventHandler (Some h)) e c = Ret c' → parts c' = parts c.
Proof.
  intros Ha Hu Hd.
  destruct e as [[x|key x|]|[old|key old|] [x|key' x|]|[x|key [x|]|]]; simpl; unfold call_handler; simpl;
    first [by intros [= <-]|by apply Ha|by apply Hu|by apply Hd].
Qed.

Lemma On_Synced_parts env ings mc c c' :
  OnServiceSynced env ings mc c = Ret c' ∨ OnEndpointsSynced env ings mc c = Ret c' ∨
  OnIngressv1Synced env ings mc c = Ret c' ∨ OnIngressClassv1Synced env ings mc c = Ret c' ∨
  OnServiceImportSynced env ings mc c = Ret c' → synced_parts c c'.
Proof. intros [Hs|[Hs|[Hs|[Hs|Hs]]]]; by apply syncRoutes_parts in Hs. Qed.

(** The trackers with which the cache starts. *)
Definition ect0 : EndpointChangeTracker := NewEndpointChangeTracker None.
Definition sct0 : ServiceChangeTracker := NewServiceChangeTracker (Some enrichServiceInfo).

Definition simulates (s s' : system) : Prop :=
  rtc (ep_step ect0) (ep_part s) (ep_part s') ∧ rtc (svc_step sct0) (svc_part s) (svc_part s').

Lemma same_parts s s' :
  sys_services s' = sys_services s → sys_endpoints s' = sys_endpoints s →
  parts (sys_cache s') = parts (sys_cache s) → simulates s s'.
Proof.
  unfold simulates, ep_part, svc_part. intros -> ->.
  unfold parts, ep_view, svc_view. intros [= -> -> -> ->]. done.
Qed.

Lemma synced_simulates s c' :
  synced_parts (sys_cache s) c' → simulates s (mkSystem (sys_services s) (sys_endpoints s) c').
Proof. intros [He Hs]. split; apply rtc_once; by constructor. Qed.

Lemma service_simulates s e store' c' :
  informer_call (fun x => meta_nn (svc_Meta x)) (sys_services s) e store' →
  keeps_tracking (call_objects e).1 (call_objects e).2 →
  c' = OnServiceUpdate (call_objects e).1 (call_objects e).2 (sys_cache s) →
  simulates s (mkSystem store' (sys_endpoints s) c').
Proof.
  intros Hcall Hk ->. apply informer_call_event in Hcall as (nn & Hev).
  destruct (call_objects e) as [prev cur]. destruct Hev as (Hp & -> & Hc & Ho). simpl in *.
  pose proof (OnServiceUpdate_parts prev cur (sys_cache s)) as Hparts.
  unfold parts, ep_view, svc_view in Hparts. injection Hparts as H1' H2' H3' H4'.
  unfold simulates, ep_part, svc_part. simpl. rewrite H1', H2', H3', H4'. split; [done|].
  apply rtc_once, svc_event; [|done]. split; [done|by intros o Heq; split; [apply Hc|]|done].
Qed.

Lemma endpoints_simulates s e store' c' :
  informer_call (fun x => meta_nn (eps_Meta x)) (sys_endpoints s) e store' →
  c' = OnEndpointsUpdate (call_objects e).1 (call_objects e).2 (sys_cache s) →
  simulates s (mkSystem (sys_services s) store' c').
Proof.
  intros Hcall ->. apply informer_call_event in Hcall as (nn & Hev).
  destruct (call_objects e) as [prev cur]. destruct Hev as (Hp & -> & Hc & Ho). simpl in *.
  pose proof (OnEndpointsUpdate_parts prev cur (sys_cache s)) as Hparts.
  unfold parts, ep_view, svc_view in Hparts. injection Hparts as H1' H2' H3' H4'.
  unfold simulates, ep_part, svc_part. simpl. rewrite H1', H2', H3', H4'. split; [|done].
  apply rtc_once, ep_event. split; [done|by intros o Heq; split; [apply Hc|]|done].
Qed.

Lemma sys_step_simulates s s' : sys_step s s' → simulates s s'.
Proof.
  intros [s2 [env lister ings mc e store' c' Hcall Hk Hd|env lister ings mc e store' c' Hcall Hd
    |env lister ings mc e c' Hd|env lister ings mc e c' Hd
    |env lister ings mc synced c' cs Hr|env ings mc c' Hr|p l1 l2 r c Hp
    |env lister ings mc e c' He Hd|env lister ings mc e c' He Hd]|env lister ings mc e c' Hd].
  - eapply service_simulates; [done|done|]. cbn [local_controllers lcs_Service] in Hd.
    unfold NewServiceControllerWithEventHandler in Hd.
    erewrite (deliver_objects _ _ (fun o x c => Ret (OnServiceUpdate o x c))) in Hd by done. by injection Hd as <-.
  - eapply endpoints_simulates; [done|]. cbn [local_controllers lcs_Endpoints] in Hd.
    unfold NewEndpointsControllerWithEventHandler in Hd.
    erewrite (deliver_objects _ _ (fun o x c => Ret (OnEndpointsUpdate o x c))) in Hd by done. by injection Hd as <-.
  - apply same_parts; [done..|]. eapply deliver_parts; [..|exact Hd]; simpl.
    all: intros *; apply onIngressUpdate_parts.
  - apply same_parts; [done..|]. eapply deliver_parts; [..|exact Hd]; simpl.
    all: intros *; intros [= <-]; unfold OnIngressClassv1Update; try case_bool_decide; try done;
      apply updateDefaultIngressClass_parts.
  - destruct synced; cbn in Hr.
    + by apply synced_simulates, (On_Synced_parts env ings mc).
    + assert (c' = sys_cache s) as -> by (destruct Hr as [Hr|[Hr|[Hr|[Hr|Hr]]]]; by injection Hr).
      by apply same_parts.
  - apply syncRoutes_parts in Hr. by apply synced_simulates.
  - apply same_parts; [done..|]. unfold finish_push. destruct r; [|done]. by destruct (p_kind p).
  - rewrite deliver_mistyped in Hd by done. injection Hd as <-. by apply same_parts.
  - rewrite deliver_mistyped in Hd by done. injection Hd as <-. by apply same_parts.
  - apply same_parts; [done..|]. eapply deliver_parts; [..|exact Hd]; simpl.
    all: intros *; intros [= <-]; apply OnServiceImportUpdate_parts.
Qed.

Lemma sys_reachable s :
  rtc sys_step sys_init s →
  rtc (ep_step ect0) (ep_init None) (ep_part s) ∧ rtc (svc_step sct0) (svc_init (Some enrichServiceInfo)) (svc_part s).
Proof.
  intros Hr. change (ep_init None) with (ep_part sys_init).
  change (svc_init (Some enrichServiceInfo)) with (svc_part sys_init).
  induction Hr as [|s1 s2 s3 Hs _ IH]; [done|].
  destruct (sys_step_simulates _ _ Hs) as [He Hv]. destruct IH as [He' Hv']. split; by etrans.
Qed.
End chain.

(** ** Properties *)

(** What the stored Endpoints declare for a service port. *)
Definition endpoints_of `{KubeLib} (store : gmap NamespacedName Endpoints) (k : ServicePortName) :
    option (list BaseEndpointInfo) :=
  match store !! spn_NamespacedName k with
  | Some e => match vals_at k (endpoints_entries None e) with [] => None | infos => Some infos end
  | None => None
  end.

(** What the stored services declare for a service port. *)
Definition service_of `{KubeLib} (store : gmap NamespacedName Service) (k : ServicePortName) : option ServicePort :=
  store !! spn_NamespacedName k ≫= fun svc => service_entry (Some enrichServiceInfo) svc k.

(** The maps of the next sync are what the stores declare. *)
Lemma sys_maps `{KubeLib} `{X509Lib} `{MapRange} `{HashStructure} s :
  rtc sys_step sys_init s →
  let c := sys_cache s in
  let synced := set_tracked c (update_maps (get_tracked c)) in
  (∀ k, lc_endpointsMap synced !! k = endpoints_of (sys_endpoints s) k) ∧
  (∀ k, lc_serviceMap synced !! k = service_of (sys_services s) k) ∧
  (∀ env ings mc c', syncRoutes env ings mc c = Ret c' →
     lc_endpointsMap c' = lc_endpointsMap synced ∧ lc_serviceMap c' = lc_serviceMap synced).
Proof.
  intros [He Hv]%sys_reachable c synced.
  destruct (ep_sync_lookup ect0 _ He) as (em & ect & Hem & _ & Hek).
  destruct (svc_sync_lookup sct0 _ Hv) as (sm & sct & Hsm & _ & Hsk).
  destruct (update_maps_synced c) as [Hu1 Hu2]. fold synced in Hu1, Hu2. clearbody synced.
  unfold ep_part, svc_part in *. cbn [eps_map eps_tracker eps_store svcs_map svcs_tracker svcs_store] in *.
  fold c in Hem, Hsm. rewrite Hem in Hu1. rewrite Hsm in Hu2. injection Hu1 as Hu1 _. injection Hu2 as Hu2 _.
  split_and!.
  - intros k. rewrite <-Hu1. apply Hek.
  - intros k. rewrite <-Hu2. apply Hsk.
  - intros env ings mc c' [H1' H2']%syncRoutes_parts. rewrite Hem in H1'. rewrite Hsm in H2'.
    split; congruence.
Qed.

(** C8 (refinement).  From the informers to the routes: whatever the informers of the five
    resources call in which order (missed deletions included), however these calls interleave with
    the informers' first synchronisation, with runs of the sync runner and with the ends of
    pushes, and whatever calls with something else than an object of the resource come in between,
    the next sync sees, for every service port, exactly the endpoints and exactly the service port
    that the objects in the informers' stores declare. (No update turns a tracked service into a
    NodePort or LoadBalancer one.) *)
Theorem informers_reach_maps `{KubeLib} `{X509Lib} `{MapRange} `{HashStructure} s :
  rtc sys_step sys_init s →
  let c := sys_cache s in
  let synced := set_tracked c (update_maps (get_tracked c)) in
  (∀ k, lc_endpointsMap synced !! k = endpoints_of (sys_endpoints s) k) ∧
  (∀ k, lc_serviceMap synced !! k = service_of (sys_services s) k) ∧
  (∀ env ings mc c', syncRoutes env ings mc c = Ret c' →
     lc_endpointsMap c' = lc_endpointsMap synced ∧ lc_serviceMap c' = lc_serviceMap synced).
Proof. apply sys_maps. Qed.

(** The informer of endpoints has added one object. *)
Definition sample_system : system :=
  mkSystem ∅ {[ mkNN "ns" "web" := sample_endpoints ]} (@OnEndpointsAdd sample_lib sample_endpoints newLocalCache).

Lemma sample_system_reachable :
  rtc (@sys_step sample_lib sample_x509 list_range sample_hash) sys_init sample_system.
Proof.
  apply rtc_once, sys_core.
  apply (@sys_endpoint sample_lib sample_x509 list_range sample_hash sys_init sample_ing_env no_service (Err "") Panic
    (CallAdd (WObj sample_endpoints))); [|done].
  by apply (informer_add (fun x => meta_nn (eps_Meta x)) ∅ sample_endpoints).
Qed.

Lemma informers_reach_maps_witness :
  let c := sys_cache sample_system in
  let synced := set_tracked c (@update_maps list_range (get_tracked c)) in
  lc_endpointsMap synced !! mkSPN (mkNN "ns" "web") "http" "TCP" =
    Some [mkBaseEndpointInfo "10.0.0.1:8080" "node1" "h" ""].
Proof.
  destruct (@informers_reach_maps sample_lib sample_x509 list_range sample_hash sample_system
    sample_system_reachable) as (He & _ & _).
  etrans; [apply He|]. vm_compute. reflexivity.
Defined.
