(* ===== verification/Watchers.v ===== *)
(** * Filtered watches and the Gateway API controllers ([pkg/controller/configmap.go],
    [pkg/controller/gateway/v1beta1], [pkg/config/types.go],
    [pkg/cache/configmap_eventhandler.go])

    The controllers here have the shape of the ones in [Informers]; the one of
    config maps registers its functions behind a filter. *)

From S2P Require Import Prelude GoLib Kube CacheTypes Config Informers.

(** ** The filter of client-go ([cache.FilteringResourceEventHandler]) *)

Section filtering.
Context {T S : Type} (f : watch_obj T → bool).

(** The calls that pass: an update between objects of which only one passes is an
    addition or a deletion. *)
Definition filter_call (e : call T) : option (call T) :=
  match e with
  | CallAdd obj => if f obj then Some (CallAdd obj) else None
  | CallUpdate oldObj newObj =>
    match f newObj, f oldObj with
    | true, true => Some (CallUpdate oldObj newObj)
    | true, false => Some (CallAdd newObj)
    | false, true => Some (CallDelete oldObj)
    | false, false => None
    end
  | CallDelete obj => if f obj then Some (CallDelete obj) else None
  end.

Definition deliver_filtered (c : Controller T S) (e : call T) (s : S) : go S :=
  match filter_call e with Some e => deliver c e s | None => Ret s end.
End filtering.

(** ** The controller of config maps *)

(** What the filter looks at. *)
Definition as_informer_obj (obj : watch_obj ConfigMap) : informer_obj :=
  match obj with
  | WObj cm => ConfigMapObj cm
  | WDeleted _ o => DeletedFinalStateUnknown o
  | WOther => OtherObj
  end.

Section configmaps.
Context {S : Type} (md : ErieCanalMetadata).

(** The controller and the filter behind which its functions are registered. *)
Record ConfigMapController : Type := mkConfigMapController {
  cmc_controller : Controller ConfigMap S;
  cmc_filter : watch_obj ConfigMap → bool
}.

Definition default_filter (obj : watch_obj ConfigMap) : bool := DefaultConfigurationFilter md (as_informer_obj obj).

Definition NewConfigMapControllerWithEventHandler (handler : option (Handler ConfigMap S))
    (filter : option (watch_obj ConfigMap → bool)) : ConfigMapController :=
  mkConfigMapController (NewControllerWithEventHandler handler)
    match filter with None => default_filter | Some f => f end.

Definition ConfigMapController_handleAdd (c : ConfigMapController) : watch_obj ConfigMap → S → go S :=
  handleAdd (cmc_controller c).
Definition ConfigMapController_handleUpdate (c : ConfigMapController) :
    watch_obj ConfigMap → watch_obj ConfigMap → S → go S := handleUpdate (cmc_controller c).
Definition ConfigMapController_handleDelete (c : ConfigMapController) : watch_obj ConfigMap → S → go S :=
  handleDelete (cmc_controller c).
Definition ConfigMapController_Run (c : ConfigMapController) : bool → S → go S := Run_controller (cmc_controller c).
Definition ConfigMapStore_ByKey : (string → result string (option (watch_obj ConfigMap))) → string →
    go (result string ConfigMap) := store_ByKey.

(** What the informer does with a call: filter, then the function registered. *)
Definition configmap_deliver (c : ConfigMapController) : call ConfigMap → S → go S :=
  deliver_filtered (cmc_filter c) (cmc_controller c).
End configmaps.

(** ** The controllers of the Gateway API *)

Section gateways.
(** The objects of the Gateway API. *)
Context {Gateway GatewayClass HTTPRoute S : Type}.

Definition GatewayController : Type := Controller Gateway S.
Definition NewGatewayControllerWithEventHandler : option (Handler Gateway S) → GatewayController := NewControllerWithEventHandler.
Definition handleAddGateway : GatewayController → watch_obj Gateway → S → go S := handleAdd.
Definition handleUpdateGateway : GatewayController → watch_obj Gateway → watch_obj Gateway → S → go S := handleUpdate.
Definition handleDeleteGateway : GatewayController → watch_obj Gateway → S → go S := handleDelete.
Definition GatewayController_Run : GatewayController → bool → S → go S := Run_controller.
Definition GatewayStore_ByKey : (string → result string (option (watch_obj Gateway))) → string → go (result string Gateway) :=
  store_ByKey.

Definition GatewayClassController : Type := Controller GatewayClass S.
Definition NewGatewayClassControllerWithEventHandler : option (Handler GatewayClass S) → GatewayClassController := NewControllerWithEventHandler.
Definition handleAddGatewayClass : GatewayClassController → watch_obj GatewayClass → S → go S := handleAdd.
Definition handleUpdateGatewayClass : GatewayClassController → watch_obj GatewayClass → watch_obj GatewayClass → S → go S := handleUpdate.
Definition handleDeleteGatewayClass : GatewayClassController → watch_obj GatewayClass → S → go S := handleDelete.
Definition GatewayClassController_Run : GatewayClassController → bool → S → go S := Run_controller.
Definition GatewayClassStore_ByKey : (string → result string (option (watch_obj GatewayClass))) → string →
    go (result string GatewayClass) := store_ByKey.

Definition HTTPRouteController : Type := Controller HTTPRoute S.
Definition NewHTTPRouteControllerWithEventHandler : option (Handler HTTPRoute S) → HTTPRouteController := NewControllerWithEventHandler.
Definition handleAddHTTPRoute : HTTPRouteController → watch_obj HTTPRoute → S → go S := handleAdd.
Definition handleUpdateHTTPRoute : HTTPRouteController → watch_obj HTTPRoute → watch_obj HTTPRoute → S → go S := handleUpdate.
Definition handleDeleteHTTPRoute : HTTPRouteController → watch_obj HTTPRoute → S → go S := handleDelete.
Definition HTTPRouteController_Run : HTTPRouteController → bool → S → go S := Run_controller.
Definition HTTPRouteStore_ByKey : (string → result string (option (watch_obj HTTPRoute))) → string →
    go (result string HTTPRoute) := store_ByKey.
End gateways.

(** ** A filtered watch is a watch of the filtered store *)

Section filtered_store.
Context {T : Type} (name : T → NamespacedName) (f : watch_obj T → bool).

(** The objects that pass. *)
Definition passing (store : gmap NamespacedName T) : gmap NamespacedName T :=
  filter (fun kv => f (WObj kv.2) = true) store.

Lemma passing_lookup store nn :
  passing store !! nn = x ← store !! nn; if f (WObj x) then Some x else None.
Proof.
  unfold passing. rewrite map_lookup_filter. destruct (store !! nn) as [x|]; [|done]. simpl.
  destruct (f (WObj x)) eqn:Hf; [by rewrite option_guard_True|].
  by rewrite option_guard_False by (simpl; congruence).
Qed.

Lemma passing_insert store x :
  passing (<[name x := x]> store) =
    if f (WObj x) then <[name x := x]> (passing store) else delete (name x) (passing store).
Proof.
  apply map_eq. intros nn. rewrite passing_lookup. destruct (decide (name x = nn)) as [<-|Hne].
  - rewrite lookup_insert_eq. simpl.
    destruct (f (WObj x)); [by rewrite lookup_insert_eq|by rewrite lookup_delete_eq].
  - rewrite lookup_insert_ne, <-passing_lookup by done.
    destruct (f (WObj x)); [by rewrite lookup_insert_ne|by rewrite lookup_delete_ne].
Qed.

Lemma passing_delete store nn : passing (delete nn store) = delete nn (passing store).
Proof. unfold passing. by rewrite map_filter_delete. Qed.

(** Every change of the store that is told is, behind the filter, a change of the
    filtered store that is told, or one that does not concern it.  A deletion that
    was missed is told only when the filter looks into its record. *)
Theorem filtered_watch store e store' :
  (∀ x, (f (WDeleted "" (Some x)) = f (WObj x)) ∧ ∀ key, f (WDeleted key (Some x)) = f (WDeleted "" (Some x))) →
  (∀ nn x, store !! nn = Some x → name x = nn) →
  informer_call name store e store' →
  match filter_call f e with
  | Some e' => informer_call name (passing store) e' (passing store')
  | None => passing store' = passing store
  end.
Proof.
  intros Htomb Hname [x Hx|old x Hx|x Hx|key x Hx]; cbn [filter_call].
  - rewrite passing_insert. assert (Hn : passing store !! name x = None) by by rewrite passing_lookup, Hx.
    destruct (f (WObj x)); [by constructor|by rewrite delete_id].
  - pose proof (Hname _ _ Hx) as Hold.
    assert (Hp : passing store !! name x = if f (WObj old) then Some old else None)
      by by rewrite passing_lookup, Hx.
    rewrite passing_insert. destruct (f (WObj x)), (f (WObj old)).
    + by apply informer_update.
    + by apply informer_add.
    + rewrite <-Hold. apply informer_delete. by rewrite Hold.
    + by rewrite delete_id.
  - assert (Hp : passing store !! name x = if f (WObj x) then Some x else None) by by rewrite passing_lookup, Hx.
    rewrite passing_delete. destruct (f (WObj x)); [by apply informer_delete|by rewrite delete_id].
  - destruct (Htomb x) as [Ht Hk]. rewrite Hk, Ht, passing_delete.
    assert (Hp : passing store !! name x = if f (WObj x) then Some x else None) by by rewrite passing_lookup, Hx.
    destruct (f (WObj x)); [by apply informer_missed|by rewrite delete_id].
Qed.
End filtered_store.

(** The default filter does not look into the record of a missed deletion: when
    the configuration is deleted while the watch is interrupted, no handler is
    told, although the registered function is written for such a record. *)
Theorem missed_config_deletion_ignored {S} (md : ErieCanalMetadata) (h : Handler ConfigMap S) key cm s :
  configmap_deliver (NewConfigMapControllerWithEventHandler md (Some h) None) (CallDelete (WDeleted key (Some cm))) s =
    Ret s ∧
  ConfigMapController_handleDelete (NewConfigMapControllerWithEventHandler md (Some h) None) (WDeleted key (Some cm)) s =
    On_Delete h cm s.
Proof. done. Qed.

(** Apart from that, the handler of the configuration is told every change of the
    watched config maps of the own namespace, and nothing about others. *)
Theorem config_watch {S} (md : ErieCanalMetadata) (h : Handler ConfigMap S) e (s : S) cm :
  e = CallAdd (WObj cm) ∨ e = CallDelete (WObj cm) →
  configmap_deliver (NewConfigMapControllerWithEventHandler md (Some h) None) e s =
    if bool_decide (Namespace (cm_Meta cm) = GetErieCanalNamespace md) &&
       bool_decide (Name (cm_Meta cm) = MeshConfigName)
    then deliver (NewControllerWithEventHandler (Some h)) e s else Ret s.
Proof.
  assert (Hf : default_filter md (WObj cm) =
    bool_decide (Namespace (cm_Meta cm) = GetErieCanalNamespace md) && bool_decide (Name (cm_Meta cm) = MeshConfigName)).
  { unfold default_filter. simpl. f_equal. apply bool_decide_ext. unfold DefaultWatchedConfigMaps.
    by rewrite list_elem_of_singleton. }
  intros [-> | ->]; unfold configmap_deliver, deliver_filtered; cbn [filter_call cmc_filter NewConfigMapControllerWithEventHandler];
    rewrite Hf; by destruct (_ && _).
Qed.
