(* ===== verification/EndToEnd.v ===== *)
(** * From the objects of the cluster to the repository

    The parts composed: the informers of services and endpoints, their
    controllers, the trackers and maps of the local cache ([Informers],
    [LocalCache]), the routes built from them ([RouteBuild]) and the push to the
    repository ([Repo]). *)

From S2P Require Import Prelude GoLib Kube Tracker CacheTypes McsTypes EndpointsCache ServiceCache ServiceImportCache IngressCache Repo Config RouteBuild LocalCache Informers.

(** ** What the cluster declares *)

(** The addresses that the objects in the informers' stores, and the imports the
    cache knows, declare under a service port name. *)
Inductive declares `{KubeLib} (services : gmap NamespacedName Service) (endpoints : gmap NamespacedName Endpoints)
    (sim : ServiceImportMap) (mem : MultiClusterEndpointsMap) : string → string → Prop :=
| declares_endpoint k info svc eps ep :
    service_of services k = Some (SP_serviceInfo info svc ServiceTypeClusterIP) →
    endpoints_of endpoints k = Some eps → ep ∈ eps →
    declares services endpoints sim mem (registry_name svc (bsi_portName info)) (Endpoint ep)
| declares_external k info svc :
    service_of services k = Some (SP_serviceInfo info svc ServiceTypeExternalName) →
    declares services endpoints sim mem (registry_name svc (bsi_portName info)) (bsi_address info)
| declares_import k info svc eps ep :
    sim !! k = Some (SP_serviceImportInfo info svc) →
    mem !! k = Some eps → ep ∈ eps →
    declares services endpoints sim mem (registry_name svc (bsi_portName info)) (Endpoint ep).

Lemma declares_serves `{KubeLib} services endpoints sim mem (sm : ServiceMap) (em : EndpointsMap) name a :
  (∀ k, sm !! k = service_of services k) → (∀ k, em !! k = endpoints_of endpoints k) →
  serves sm sim em mem name a ↔ declares services endpoints sim mem name a.
Proof.
  intros Hsm Hem. split.
  - intros [k info svc eps ep Hk He Hin|k info svc Hk|k info svc eps ep Hk He Hin];
      [eapply declares_endpoint|eapply declares_external|eapply declares_import]; eauto; by rewrite <-?Hsm, <-?Hem.
  - intros [k info svc eps ep Hk He Hin|k info svc Hk|k info svc eps ep Hk He Hin];
      [eapply serves_endpoint|eapply serves_external|eapply serves_import]; eauto; by rewrite ?Hsm, ?Hem.
Qed.

(** The exchanges of a push that published a registry: the upload of the file, and
    the commit at the end. *)
Definition registry_published `{Resty} (mc : MeshConfig) (registry : gmap string (list string))
    (l : list exchange) : Prop :=
  ∃ version l0 ct resp c,
    l = l0 ++ [(POST (fullFileApiPath (GetDefaultServicesPath mc +:+ "/config/registry.json")) ct
                 (inr (C_ServiceRegistry registry)), Ok resp); c] ∧
    IsSuccess resp = true ∧ committed (GetDefaultServicesPath mc) version c.

Lemma one_batch `{Resty} b s s' :
  Batch_all [b] s = (Ok tt, s') → ∃ l, ses_log s' = ses_log s ++ l ∧ batch_done b l.
Proof.
  cbn [Batch_all]. unfold try, mbind, http_bind, mret, http_ret.
  destruct (batch_one b s) as [[u|] s1] eqn:E1; [|done]. intros [= <-].
  exact (logs_batch_one b _ _ _ E1).
Qed.

Lemma registry_batch_published `{Resty} mc registry s s' :
  Batch_all [mkBatch (GetDefaultServicesPath mc) [mkBatchItem "/config" "registry.json" (C_ServiceRegistry registry)]] s =
    (Ok tt, s') →
  ∃ l, ses_log s' = ses_log s ++ l ∧ registry_published mc registry l.
Proof.
  intros (l & Hl & version & lp & lu & c & -> & _ & Hu & _ & Hc)%one_batch. exists (lp ++ lu ++ [c]). split; [done|].
  cbn [b_Items b_Basepath] in Hu. apply Forall2_cons_inv_l in Hu as (e & lu' & (ct & resp & -> & Hs) & Hnil & ->).
  apply Forall2_nil_inv_l in Hnil as ->. exists version, lp, ct, resp, c. split_and!; [|done|done].
  done.
Qed.

(** C1 (refinement).  From the cluster to the repository: whatever the informers of the local
    connector called and however these calls interleaved with syncs and pushes, as long as no
    update turned a tracked service into a NodePort or LoadBalancer one (whose ports stay in the
    map, see [service_type_change_is_lost]), after a sync either the version of the last push is
    the one of the current routes, or a push is under way whose only file is a registry that
    lists, under every service port name, exactly the addresses that the services and endpoints in
    the informers' stores (and the imports in the cache's maps) declare; and when that push
    succeeds the repository has accepted this file and the commit after it. *)
Theorem stores_reach_repository `{KubeLib} `{X509Lib} `{MapRange} `{HashStructure} `{Resty} s env ings mc c' :
  rtc sys_step sys_init s → syncRoutes env ings (Ret mc) (sys_cache s) = Ret c' →
  lc_serviceRoutesVersion c' = sr_Hash (current_service_routes c') ∨
  ∃ p registry, p ∈ lc_pending c' ∧ p_kind p = ServicePush ∧ p_hash p = sr_Hash (current_service_routes c') ∧
    (∀ name a, (∃ l, registry !! name = Some l ∧ a ∈ l) ↔
       declares (sys_services s) (sys_endpoints s) (lc_serviceImportMap c') (lc_multiClusterEndpointsMap c') name a) ∧
    ∀ sess sess', Batch_all (p_batches p) sess = (Ok tt, sess') →
      ∃ l, ses_log sess' = ses_log sess ++ l ∧ registry_published mc registry l.
Proof.
  intros Hr Hsync. destruct (sys_maps s Hr) as (Hem & Hsm & Hkeep). destruct (Hkeep _ _ _ _ Hsync) as [He Hs].
  rewrite <-He in Hem. rewrite <-Hs in Hsm.
  destruct (syncRoutes_covered _ _ _ _ _ Hsync) as [[Hv|(p & Hp & Hk & Hh & Hb)] _]; [by left|right].
  destruct (serviceBatches_exact (lc_serviceMap c') (lc_serviceImportMap c') (lc_endpointsMap c')
    (lc_multiClusterEndpointsMap c') mc) as (registry & Hreg & Hexact & _).
  exists p, registry. split_and!; [done..| |].
  - intros name a. rewrite Hexact. by apply declares_serves.
  - intros sess sess'. unfold current_service_routes in Hb. rewrite Hreg in Hb. injection Hb as <-.
    apply registry_batch_published.
Qed.

(** ** The imports *)

(** The local connector's cluster: the system with the store of the informer of
    imports; [lister] is the lister of services, fixed during a run. *)
Section imports.
Context `{KubeLib} `{X509Lib} `{MapRange} `{HashStructure}.
Context (lister : NamespacedName → result string Service).

Record cluster_system : Type := mkClusterSystem {
  cs_system : system;
  cs_imports : gmap NamespacedName ServiceImport
}.

Definition cs_init : cluster_system := mkClusterSystem sys_init ∅.

Inductive cs_step (s : cluster_system) : cluster_system → Prop :=
| cs_core s' : core_step (cs_system s) s' → cs_step s (mkClusterSystem s' (cs_imports s))
| cs_import env ings mc e store' c' :
    informer_call (fun x => meta_nn (si_Meta x)) (cs_imports s) e store' →
    deliver (lcs_ServiceImport (local_controllers env lister ings mc)) e (sys_cache (cs_system s)) = Ret c' →
    cs_step s (mkClusterSystem (mkSystem (sys_services (cs_system s)) (sys_endpoints (cs_system s)) c') store').

Lemma cs_sys_reachable s : rtc cs_step cs_init s → rtc sys_step sys_init (cs_system s).
Proof.
  intros Hr. change sys_init with (cs_system cs_init). induction Hr as [|s1 s2 s3 Hs _ IH]; [done|].
  eapply rtc_l; [|exact IH]. destruct Hs as [s' Hc|env ings mc e store' c' _ Hd]; [by apply sys_core|by eapply sys_import].
Qed.

(** The part of the cache that follows the imports. *)
Definition imp_view (c : LocalCache) :=
  (lc_serviceImportChanges c, lc_serviceImportMap c, lc_multiClusterEndpointsMap c).

Definition synced_imports (c c' : LocalCache) : Prop :=
  ∃ ict, ServiceImportMap_Update (lc_serviceImportMap c) (lc_serviceImportChanges c) = (lc_serviceImportMap c', ict) ∧
    MultiClusterEndpointsMap_Update (lc_multiClusterEndpointsMap c) (Some ict) =
      (lc_multiClusterEndpointsMap c', Some (lc_serviceImportChanges c')).

Lemma update_maps_imports c : synced_imports c (set_tracked c (update_maps (get_tracked c))).
Proof. eexists. split; reflexivity. Qed.

Lemma refreshIngress_imports env ings c c' : refreshIngress env ings c = Ret c' → imp_view c' = imp_view c.
Proof.
  unfold refreshIngress. intros (ict & _ & Hr)%go_bind_ret.
  destruct (IngressMap_Update _ _) as [im ict']. by injection Hr as <-.
Qed.

Lemma syncRoutes_imports env ings mc c c' : syncRoutes env ings mc c = Ret c' → synced_imports c c'.
Proof.
  unfold syncRoutes. intros (m & _ & (c1 & HA & HB)%go_bind_ret)%go_bind_ret.
  assert (HA' : imp_view c1 = imp_view (set_tracked c (update_maps (get_tracked c)))).
  { revert HA. unfold sync_services. case_bool_decide; [|by intros [= <-]].
    intros ->%refreshIngress_imports. by case_match. }
  assert (HB' : imp_view c' = imp_view c1).
  { revert HB. unfold sync_ingresses. intros (d & _ & Hr)%go_bind_ret. revert Hr.
    case_bool_decide; intros [= <-]; [|done]. by destruct (ingressBatches d m). }
  pose proof (update_maps_imports c) as Hu. rewrite HA' in HB'. unfold synced_imports in *.
  unfold imp_view in HB'. injection HB' as -> -> ->. exact Hu.
Qed.

Lemma maybe_sync_imports b c : imp_view (maybe_sync b c) = imp_view c.
Proof. unfold maybe_sync. by destruct (b && isInitialized c). Qed.

Lemma OnServiceImportUpdate_imports old new c :
  imp_view (OnServiceImportUpdate lister old new c) =
    ((ServiceImportChangeTracker_Update lister (lc_serviceImportChanges c) old new).2, lc_serviceImportMap c,
     lc_multiClusterEndpointsMap c).
Proof.
  unfold OnServiceImportUpdate. destruct (ServiceImportChangeTracker_Update _ _ _ _). by rewrite maybe_sync_imports.
Qed.

Lemma OnServiceUpdate_imports old new c : imp_view (OnServiceUpdate old new c) = imp_view c.
Proof. unfold OnServiceUpdate. destruct (ServiceChangeTracker_Update _ _ _). by rewrite maybe_sync_imports. Qed.
Lemma OnEndpointsUpdate_imports old new c : imp_view (OnEndpointsUpdate old new c) = imp_view c.
Proof. unfold OnEndpointsUpdate. destruct (EndpointChangeTracker_Update _ _ _). by rewrite maybe_sync_imports. Qed.
Lemma onIngressUpdate_imports env old new c c' : onIngressUpdate env old new c = Ret c' → imp_view c' = imp_view c.
Proof. unfold onIngressUpdate. intros (r & _ & [= <-])%go_bind_ret. by rewrite maybe_sync_imports. Qed.
Lemma updateDefaultIngressClass_imports class n c : imp_view (updateDefaultIngressClass class n c) = imp_view c.
Proof. unfold updateDefaultIngressClass. destruct (_ !! _); [|done]. by case_bool_decide. Qed.

Lemma deliver_imports {T} (h : Handler T LocalCache) e c c' :
  (∀ x c c', On_Add h x c = Ret c' → imp_view c' = imp_view c) →
  (∀ o x c c', On_Update h o x c = Ret c' → imp_view c' = imp_view c) →
  (∀ x c c', On_Delete h x c = Ret c' → imp_view c' = imp_view c) →
  deliver (NewControllerWithEventHandler (Some h)) e c = Ret c' → imp_view c' = imp_view c.
Proof.
  intros Ha Hu Hd.
  destruct e as [[x|key x|]|[old|key old|] [x|key' x|]|[x|key [x|]|]]; simpl; unfold call_handler; simpl;
    first [by intros [= <-]|by apply Ha|by apply Hu|by apply Hd].
Qed.

(** A step of the rest leaves the part alone or syncs it. *)
Lemma core_step_imports s s' :
  core_step s s' → imp_view (sys_cache s') = imp_view (sys_cache s) ∨ synced_imports (sys_cache s) (sys_cache s').
Proof.
  intros [env l ings mc e store' c' Hcall Hk Hd|env l ings mc e store' c' Hcall Hd
    |env l ings mc e c' Hd|env l ings mc e c' Hd
    |env l ings mc synced c' cs Hr|env ings mc c' Hr|p l1 l2 r c Hp
    |env l ings mc e c' He Hd|env l ings mc e c' He Hd]; cbn [sys_cache].
  - left. eapply deliver_imports; [..|exact Hd]; simpl; intros *; intros [= <-]; apply OnServiceUpdate_imports.
  - left. eapply deliver_imports; [..|exact Hd]; simpl; intros *; intros [= <-]; apply OnEndpointsUpdate_imports.
  - left. eapply deliver_imports; [..|exact Hd]; simpl; intros *; apply onIngressUpdate_imports.
  - left. eapply deliver_imports; [..|exact Hd]; simpl; intros *; intros [= <-];
      unfold OnIngressClassv1Update; try case_bool_decide; try done; apply updateDefaultIngressClass_imports.
  - destruct synced; cbn in Hr.
    + right. destruct Hr as [Hr|[Hr|[Hr|[Hr|Hr]]]]; by apply syncRoutes_imports in Hr.
    + left. destruct Hr as [Hr|[Hr|[Hr|[Hr|Hr]]]]; by injection Hr as <-.
  - right. by apply syncRoutes_imports in Hr.
  - left. unfold finish_push. destruct r; [|done]. by destruct (p_kind p).
  - left. rewrite deliver_mistyped in Hd by done. by injection Hd as <-.
  - left. rewrite deliver_mistyped in Hd by done. by injection Hd as <-.
Qed.

Definition ict0 : ServiceImportChangeTracker := NewServiceImportChangeTracker (Some enrichServiceImportInfo) None.

Definition imp_part (s : cluster_system) : imp_state :=
  let c := sys_cache (cs_system s) in
  mkImpState (cs_imports s) (lc_serviceImportChanges c) (lc_serviceImportMap c) (lc_multiClusterEndpointsMap c).

Lemma imp_part_view s s' :
  cs_imports s' = cs_imports s → imp_view (sys_cache (cs_system s')) = imp_view (sys_cache (cs_system s)) →
  imp_part s' = imp_part s.
Proof. unfold imp_part, imp_view. intros -> [= -> -> ->]. done. Qed.

Lemma cs_step_imports s s' : cs_step s s' → rtc (imp_step lister ict0) (imp_part s) (imp_part s').
Proof.
  intros [s1 Hc|env ings mc e store' c' Hcall Hd].
  - destruct (core_step_imports _ _ Hc) as [Hv|(ict & H1' & H2')].
    + by rewrite (imp_part_view s (mkClusterSystem s1 (cs_imports s))).
    + eapply rtc_l; [by apply (imp_sync lister ict0 _ _ _ _ _ _ H1')|].
      by apply rtc_once, imp_sync_endpoints.
  - cbn [local_controllers lcs_ServiceImport] in Hd. unfold NewServiceImportControllerWithEventHandler in Hd.
    erewrite (deliver_objects _ _ (fun o x c => Ret (OnServiceImportUpdate lister o x c))) in Hd by done.
    injection Hd as <-. apply informer_call_event in Hcall as (nn & Hev).
    destruct (call_objects e) as [prev cur]. destruct Hev as (Hp & -> & Hc & Ho). simpl in *.
    pose proof (OnServiceImportUpdate_imports prev cur (sys_cache (cs_system s))) as Hv.
    unfold imp_view in Hv. injection Hv as H1' H2' H3'.
    unfold imp_part. simpl. rewrite H1', H2', H3'. apply rtc_once, imp_event.
    split; [done|by intros o Heq; split; [apply Hc|]|done].
Qed.

Lemma cs_imports_reachable s : rtc cs_step cs_init s → rtc (imp_step lister ict0) (imp_init ict0) (imp_part s).
Proof.
  intros Hr. change (imp_init ict0) with (imp_part cs_init).
  induction Hr as [|s1 s2 s3 Hs _ IH]; [done|]. etrans; [by apply cs_step_imports|done].
Qed.

(** The maps of the next sync are what the stored imports declare. *)
Lemma cs_import_maps s env ings mc c' :
  rtc cs_step cs_init s → syncRoutes env ings (Ret mc) (sys_cache (cs_system s)) = Ret c' →
  (∀ k, lc_serviceImportMap c' !! k = cs_imports s !! spn_NamespacedName k ≫= fun i =>
     last (vals_at k (import_entries lister (Some enrichServiceImportInfo) i))) ∧
  (∀ k, lc_multiClusterEndpointsMap c' !! k = cs_imports s !! spn_NamespacedName k ≫= fun i =>
     match vals_at k (import_endpoint_entries None i) with [] => None | infos => Some infos end).
Proof.
  intros Hr%cs_imports_reachable (ict & H1' & H2')%syncRoutes_imports.
  destruct (imports_sync_lookup lister ict0 _ Hr) as (sm & sct1 & em & sct2 & Hs & He & _ & _ & Hsm & Hem).
  unfold imp_part in *. cbn [imps_map imps_tracker imps_endpoints imps_store] in *.
  rewrite H1' in Hs. injection Hs as <- <-. rewrite H2' in He. injection He as <- <-. done.
Qed.

(** An imported address: where it comes from in the stored imports. *)
Lemma imported_address s env ings mc c' k info svc eps ep :
  rtc cs_step cs_init s → syncRoutes env ings (Ret mc) (sys_cache (cs_system s)) = Ret c' →
  lc_serviceImportMap c' !! k = Some (SP_serviceImportInfo info svc) →
  lc_multiClusterEndpointsMap c' !! k = Some eps → ep ∈ eps →
  ∃ i port iep, cs_imports s !! spn_NamespacedName k = Some i ∧ port ∈ si_Ports i ∧ iep ∈ ip_Endpoints port ∧
    svc = meta_nn (si_Meta i) ∧ bsi_portName info = ip_Name port ∧
    ep = newMultiClusterEndpointInfo iep (ie_Target iep).
Proof.
  intros Hr Hs Hsim Hmem Hep. destruct (cs_import_maps _ _ _ _ _ Hr Hs) as [Hsm Hem].
  rewrite Hsm in Hsim. rewrite Hem in Hmem. clear Hsm Hem.
  destruct (cs_imports s !! spn_NamespacedName k) as [i|]; [|done]. simpl in *.
  apply last_Some_elem_of, vals_at_elem, list_elem_of_fmap in Hsim as (port & Heq & _).
  injection Heq as -> -> Hsvc. subst svc.
  assert (Hin : ep ∈ vals_at (mkSPN (meta_nn (si_Meta i)) (ip_Name port) (ip_Protocol port))
    (import_endpoint_entries None i)).
  { destruct (vals_at _ _); [done|]. by injection Hmem as <-. }
  apply vals_at_elem, list_elem_of_bind in Hin as (port' & Hin & Hp').
  apply list_elem_of_fmap in Hin as (iep & Heq & Hiep). injection Heq as Hn Hpr ->.
  exists i, port', iep. split_and!; [done|done|done|done|exact Hn|done].
Qed.
End imports.

(** ** Witness: a service and its endpoints are added *)

Section witness.
#[local] Existing Instances sample_lib sample_x509 list_range sample_hash sample_resty.

Definition declared_system : system :=
  mkSystem {[ mkNN "ns" "web" := sample_service "ClusterIP" ]} {[ mkNN "ns" "web" := sample_endpoints ]}
    (OnServiceAdd (sample_service "ClusterIP") (OnEndpointsAdd sample_endpoints newLocalCache)).

Lemma declared_system_reachable : rtc sys_step sys_init declared_system.
Proof.
  eapply rtc_r; [exact sample_system_reachable|].
  apply sys_core, (sys_service sample_system sample_ing_env no_service (Err "") Panic
    (CallAdd (WObj (sample_service "ClusterIP")))); [|done|done].
  by apply (informer_add (fun x => meta_nn (svc_Meta x)) ∅ (sample_service "ClusterIP")).
Qed.

Lemma stores_reach_repository_witness :
  match syncRoutes sample_ing_env (Ok []) (Ret zeroMeshConfig) (sys_cache declared_system) with
  | Ret c' =>
    ∃ p (registry : gmap string (list string)), p ∈ lc_pending c' ∧ p_kind p = ServicePush ∧
      ∃ l, registry !! "ns/web:http" = Some l ∧ "10.0.0.1:8080" ∈ l
  | Panic => False
  end.
Proof.
  destruct (syncRoutes sample_ing_env (Ok []) (Ret zeroMeshConfig) (sys_cache declared_system)) as [c'|] eqn:E;
    [|vm_compute in E; discriminate E].
  destruct (stores_reach_repository declared_system sample_ing_env (Ok []) zeroMeshConfig c'
    declared_system_reachable E) as [Hv|(p & registry & Hp & Hk & _ & Hreg & _)].
  - vm_compute in E. injection E as <-. vm_compute in Hv. discriminate Hv.
  - exists p, registry. split; [exact Hp|]. split; [exact Hk|]. apply Hreg.
    refine (declares_endpoint _ _ _ _ sample_key (mkBaseServiceInfo "10.96.0.7" 80 "http" "TCP")
      (mkNN "ns" "web") [mkBaseEndpointInfo "10.0.0.1:8080" "node1" "h" ""]
      (mkBaseEndpointInfo "10.0.0.1:8080" "node1" "h" "") _ _ _); [vm_compute; reflexivity|vm_compute; reflexivity|by left].
Defined.
End witness.
