(* ===== verification/CrossCluster.v ===== *)
(** * From one cluster to the repository of another

    The federation ([Federation]) writes the imports of a cluster; the local
    connector of that cluster watches them and publishes the registry of its
    services ([EndToEnd]).  Together: which addresses of other clusters are
    published. *)

From S2P Require Import Prelude GoLib Kube Tracker CacheTypes McsTypes EndpointsCache ServiceCache ServiceImportCache IngressCache Repo Config RouteBuild LocalCache RemoteConnector ClusterReconciler Federation Informers EndToEnd.

(** The address under which an export is reached: the gateway of its cluster with
    the path of a rule. *)
Definition export_address (e : ServiceExportEvent) (r : ServiceExportRule) : string :=
  GatewayHost (ev_Geo e) +:+ ":" +:+ Itoa (GatewayPort (ev_Geo e)) +:+ er_Path r.

(** The objects of the cluster itself declare the address. *)
Definition local_address `{KubeLib} (s : cluster_system) : string → string → Prop :=
  declares (sys_services (cs_system s)) (sys_endpoints (cs_system s)) ∅ ∅.

Section cross.
Context `{VersionedLaws} `{MapRange} `{MetaLib} `{CondLib} `{KubeLib} `{NetLib} `{Resty} `{X509Lib} `{HashStructure}.
Context (lister : NamespacedName → result string Service).

(** What the informer of imports has seen is what the API server stores. *)
Definition caught_up (key : string) (f : federation) (s : cluster_system) : Prop :=
  ∀ nn i, cs_imports s !! nn = Some i → imports (fd_world f key) !! nn = Some i.

(** C5 (safety).  In a cluster of a federation that started without imports, whose local connector
    has caught up with the imports, every address that the next push publishes under a service
    port name is declared by the services and endpoints of the cluster itself, or it is the
    gateway address of another cluster, with the path of a rule, for an export of that very
    service which the connector of that cluster saw and the reconciler accepted. The runs of the
    local connector are those in which no tracked service turns into a NodePort or LoadBalancer
    one and the lister of services gives the same answers throughout. *)
Theorem published_addresses_are_exported W f key s env ings mc c' p registry name a :
  (∀ key, imports (W key) = ∅) → rtc fed_step (fed_start W) f →
  rtc (cs_step lister) cs_init s → caught_up key f s →
  syncRoutes env ings (Ret mc) (sys_cache (cs_system s)) = Ret c' →
  serviceBatches (current_service_routes c') mc = Some [mkBatch p [mkBatchItem "/config" "registry.json" (C_ServiceRegistry registry)]] →
  (∃ l, registry !! name = Some l ∧ a ∈ l) →
  local_address s name a ∨
  ∃ e r portName, name = registry_name (ev_nn e) portName ∧ a = export_address e r ∧ r ∈ ev_Rules e ∧
    ev_ClusterKey e ≠ key ∧ exported_by (ev_ClusterKey e) e ∧
    Watched (ev_ClusterKey e) (mkMessage ServiceExportCreated None (Some e)) ∈ fd_log f ∧
    Answered (mkMessage ServiceExportAccepted None (Some e)) ∈ fd_log f.
Proof.
  intros Hempty Hf Hs Hup Hsync Hb Hlisted.
  destruct (serviceBatches_exact (lc_serviceMap c') (lc_serviceImportMap c') (lc_endpointsMap c')
    (lc_multiClusterEndpointsMap c') mc) as (registry' & Hreg & Hexact & _).
  unfold current_service_routes in Hb. rewrite Hreg in Hb. injection Hb as _ ->.
  apply Hexact in Hlisted. pose proof (cs_sys_reachable lister s Hs) as Hsys.
  destruct (sys_maps (cs_system s) Hsys) as (Hem & Hsm & Hkeep). destruct (Hkeep _ _ _ _ Hsync) as [He Hsv].
  rewrite <-He in Hem. rewrite <-Hsv in Hsm.
  destruct Hlisted as [k info svc eps ep Hk Hke Hin|k info svc Hk|k info svc eps ep Hk Hke Hin].
  - left. eapply declares_endpoint; [by rewrite <-Hsm|by rewrite <-Hem|done].
  - left. eapply declares_external. by rewrite <-Hsm.
  - right. destruct (imported_address lister s env ings mc c' k info svc eps ep Hs Hsync Hk Hke Hin)
      as (i & port & iep & Hi & Hport & Hiep & -> & -> & ->).
    pose proof (Hup _ _ Hi) as Hstored.
    destruct (provenance W f key _ i port iep Hempty Hf Hstored Hport Hiep)
      as (e & r & Hne & Hex & Hw & Ha & Hnn & Hr & ->).
    exists e, r, (ip_Name port). rewrite (imports_named _ _ _ Hstored), <-Hnn.
    split_and!; try done. by apply rules_for_elem in Hr as [].
Qed.

(** The informer of imports has delivered what the API server stores. *)
Definition delivered (key : string) (f : federation) (s : cluster_system) : Prop :=
  ∀ nn i, imports (fd_world f key) !! nn = Some i → cs_imports s !! nn = Some i.

(** Every endpoint of a delivered import is published by the next push. *)
Lemma stored_import_published s env ings mc c' p registry i port iep :
  rtc (cs_step lister) cs_init s →
  syncRoutes env ings (Ret mc) (sys_cache (cs_system s)) = Ret c' →
  serviceBatches (current_service_routes c') mc = Some [mkBatch p [mkBatchItem "/config" "registry.json" (C_ServiceRegistry registry)]] →
  cs_imports s !! meta_nn (si_Meta i) = Some i → port ∈ si_Ports i → iep ∈ ip_Endpoints port →
  ∃ l, registry !! registry_name (meta_nn (si_Meta i)) (ip_Name port) = Some l ∧
    Endpoint (newMultiClusterEndpointInfo iep (ie_Target iep)) ∈ l.
Proof.
  intros Hs Hsync Hb Hi Hport Hiep. destruct (cs_import_maps lister _ _ _ _ _ Hs Hsync) as [Hsm Hem].
  destruct (serviceBatches_exact (lc_serviceMap c') (lc_serviceImportMap c') (lc_endpointsMap c')
    (lc_multiClusterEndpointsMap c') mc) as (registry' & Hreg & Hexact & _).
  unfold current_service_routes in Hb. rewrite Hreg in Hb. injection Hb as _ ->. apply Hexact.
  set (k := mkSPN (meta_nn (si_Meta i)) (ip_Name port) (ip_Protocol port)).
  specialize (Hsm k). specialize (Hem k). simpl in Hsm, Hem. rewrite Hi in Hsm, Hem. simpl in Hsm, Hem.
  assert (Hin : newMultiClusterEndpointInfo iep (ie_Target iep) ∈ vals_at k (import_endpoint_entries None i)).
  { apply vals_at_elem. unfold import_endpoint_entries. apply list_elem_of_bind. exists port.
    split; [|done]. apply list_elem_of_fmap. by exists iep. }
  assert (Hentry : vals_at k (import_entries lister (Some enrichServiceImportInfo) i) ≠ []).
  { intros Hnil. assert (Hx : enrichServiceImportInfo port i (newImportBaseServiceInfo lister port i) ∈
      vals_at k (import_entries lister (Some enrichServiceImportInfo) i)).
    { apply vals_at_elem, list_elem_of_fmap. by exists port. }
    rewrite Hnil in Hx. by apply elem_of_nil in Hx. }
  destruct (last (vals_at k _)) as [sp|] eqn:Hl; [|by apply last_None in Hl].
  apply last_Some_elem_of, vals_at_elem, list_elem_of_fmap in Hl as (port' & Heq & _). injection Heq as Hn _ ->.
  destruct (vals_at k (import_endpoint_entries None i)) as [|x xs] eqn:He; [by apply elem_of_nil in Hin|].
  rewrite Hn. exact (serves_import _ _ _ _ _ _ _ _ _ Hsm Hem Hin).
Qed.

(** C6 (functional).  What a cluster was told to import is published. In a federation that started
    without imports, when the accepted exports of a name have rules for the same ports, none is
    withdrawn, the goroutine of one of them has succeeded in a cluster and the local connector
    there has seen the imports, then the import is stored and the next push lists, for every port
    of it, under the service port name, an address of the exporting cluster: its gateway with the
    path of a rule for that port of an accepted export. The runs of the local connector are those
    in which no tracked service turns into a NodePort or LoadBalancer one and the lister of
    services gives the same answers throughout. *)
Theorem accepted_exports_are_published W f s env ings mc c' p registry ports t e :
  (∀ key, imports (W key) = ∅) → rtc fed_step (fed_start W) f →
  rtc (cs_step lister) cs_init s → delivered (tk_key t) f s →
  syncRoutes env ings (Ret mc) (sys_cache (cs_system s)) = Ret c' →
  serviceBatches (current_service_routes c') mc = Some [mkBatch p [mkBatchItem "/config" "registry.json" (C_ServiceRegistry registry)]] →
  (∀ e', Answered (mkMessage ServiceExportAccepted None (Some e')) ∈ fd_log f → ev_nn e' = ev_nn e →
     ∀ port, rules_for e' port ≠ [] ↔ ports port) →
  (∀ from e', Watched from (mkMessage ServiceExportDeleted (Some e') None) ∈ fd_log f → ev_nn e' ≠ ev_nn e) →
  t ∈ fd_tasks f → tk_prog t = Return (Ok tt) → to_import (tk_key t) (tk_msg t) e →
  ∃ imp, imports (fd_world f (tk_key t)) !! ev_nn e = Some imp ∧ ∀ q, q ∈ si_Ports imp →
    ∃ e' r l, exported_by (ev_ClusterKey e) e' ∧ ev_nn e' = ev_nn e ∧ r ∈ rules_for e' (ip_Port q) ∧
      Answered (mkMessage ServiceExportAccepted None (Some e')) ∈ fd_log f ∧
      registry !! registry_name (ev_nn e) (ip_Name q) = Some l ∧ export_address e' r ∈ l.
Proof.
  intros Hempty Hf Hs Hup Hsync Hb Hports Hkept Ht Hp Hto.
  destruct (accepted_in_force W f (ev_nn e) ports t e Hempty Hf Hports Hkept Ht Hp Hto eq_refl) as (imp & Himp & Hall).
  exists imp. split; [done|]. intros q Hq.
  specialize (Hall q Hq). apply list_elem_of_fmap in Hall as (iep & Hkey & Hiep).
  destruct (provenance W f _ _ imp q iep Hempty Hf Himp Hq Hiep) as (e' & r & _ & Hex & _ & Ha & Hnn & Hr & ->).
  rewrite <-Hkey in Hex. pose proof (imports_named _ _ _ Himp) as Hname.
  destruct (stored_import_published s env ings mc c' p registry imp q (export_endpoint e' r) Hs Hsync Hb)
    as (l & Hl & Hin); [by rewrite Hname; apply Hup|done|done|].
  exists e', r, l. rewrite Hname in Hl. done.
Qed.
End cross.

(** ** Witness: cluster [c] has imported the export of cluster [a] and publishes it *)

Section witness.
#[local] Existing Instances versioned_api versioned_api_laws versioned_laws list_range sample_status_lib
  sample_cond_lib sample_lib sample_net_lib sample_resty sample_x509 sample_hash.

Definition imported_web : ServiceImport :=
  mkServiceImport (mkMeta "ns" "web" "" "1" 0 None None None [] None) [run_port [run_endpoint "a"]] ClusterSetIP "".

Lemma imported_web_stored : imports (fd_world import_state "r/z/g/c") !! mkNN "ns" "web" = Some imported_web.
Proof. vm_compute. reflexivity. Qed.

Definition importing_system : cluster_system :=
  mkClusterSystem (mkSystem ∅ ∅ (OnServiceImportAdd no_service imported_web newLocalCache))
    {[ mkNN "ns" "web" := imported_web ]}.

Lemma importing_system_reachable : rtc (cs_step no_service) cs_init importing_system.
Proof.
  apply rtc_once, (cs_import no_service cs_init sample_ing_env (Err "") Panic (CallAdd (WObj imported_web))); [|done].
  by apply (informer_add (fun x => meta_nn (si_Meta x)) ∅ imported_web).
Qed.

Lemma importing_system_caught_up : caught_up "r/z/g/c" import_state importing_system.
Proof.
  intros nn i Hi. cbn [cs_imports importing_system] in Hi.
  apply lookup_singleton_Some in Hi as [<- <-]. exact imported_web_stored.
Qed.

(** The cache after the next sync, and the registry it pushes. *)
Definition importing_sync : go LocalCache :=
  syncRoutes sample_ing_env (Ok []) (Ret zeroMeshConfig) (sys_cache (cs_system importing_system)).
Definition importing_cache : LocalCache := match importing_sync with Ret c => c | Panic => newLocalCache end.
Definition importing_registry : gmap string (list string) :=
  foldl registry_add ∅ (sr_Routes (current_service_routes importing_cache)).

Lemma importing_sync_ok : importing_sync = Ret importing_cache.
Proof.
  unfold importing_cache.
  assert (Hr : match importing_sync with Ret _ => true | Panic => false end = true) by (vm_compute; reflexivity).
  by destruct importing_sync.
Qed.

Lemma importing_registry_web : importing_registry !! "ns/web:http" = Some ["gw.example.com:8080/"].
Proof. vm_compute. reflexivity. Qed.

Lemma published_addresses_are_exported_witness :
  local_address importing_system "ns/web:http" "gw.example.com:8080/" ∨
  ∃ e r portName, "ns/web:http" = registry_name (ev_nn e) portName ∧
    "gw.example.com:8080/" = export_address e r ∧ ev_ClusterKey e ≠ "r/z/g/c" ∧
    Answered (mkMessage ServiceExportAccepted None (Some e)) ∈ fd_log import_state.
Proof.
  destruct (published_addresses_are_exported no_service run_world import_state "r/z/g/c" importing_system
    sample_ing_env (Ok []) zeroMeshConfig importing_cache "/local/services" importing_registry "ns/web:http" "gw.example.com:8080/"
    run_world_empty import_state_reachable importing_system_reachable importing_system_caught_up importing_sync_ok eq_refl
    (ex_intro _ _ (conj importing_registry_web (list_elem_of_here _ _))))
    as [Hl|(e & r & portName & Hn & Ha & _ & Hne & _ & _ & Hacc)].
  - left. exact Hl.
  - right. exists e, r, portName. split; [exact Hn|]. split; [exact Ha|]. split; [exact Hne|exact Hacc].
Defined.

Lemma importing_system_delivered : delivered "r/z/g/c" import_state importing_system.
Proof.
  intros nn i Hi. assert (Hall : imports (fd_world import_state "r/z/g/c") = {[ mkNN "ns" "web" := imported_web ]})
    by (vm_compute; reflexivity).
  rewrite Hall in Hi. exact Hi.
Qed.

Lemma accepted_exports_are_published_witness :
  ∃ imp, imports (fd_world import_state "r/z/g/c") !! mkNN "ns" "web" = Some imp ∧ ∀ q, q ∈ si_Ports imp →
    ∃ e' r l, exported_by "r/z/g/a" e' ∧ r ∈ rules_for e' (ip_Port q) ∧
      importing_registry !! registry_name (mkNN "ns" "web") (ip_Name q) = Some l ∧ export_address e' r ∈ l.
Proof.
  destruct import_state_task as (t & Ht & Hk & Hm & Hp). pose proof importing_system_delivered as Hd.
  pose proof run_to_import as Hto. rewrite <-Hk in Hd, Hto. rewrite <-Hm in Hto.
  destruct (accepted_exports_are_published no_service run_world import_state importing_system
    sample_ing_env (Ok []) zeroMeshConfig importing_cache "/local/services" importing_registry (fun port => port = 80%Z) t (run_event "a")
    run_world_empty import_state_reachable importing_system_reachable Hd importing_sync_ok eq_refl)
    as (imp & Himp & Hall); [| |exact Ht|exact Hp|exact Hto|].
  - intros e ->%import_state_accepted _ port. rewrite run_event_rules.
    destruct (Z.eqb_spec 80 port); split; congruence.
  - intros from e'. rewrite import_state_log. by intros [[=]|[[=]| []%elem_of_nil]%elem_of_cons]%elem_of_cons.
  - exists imp. rewrite <-Hk. split; [exact Himp|]. intros q Hq.
    destruct (Hall q Hq) as (e' & r & l & Hex & _ & Hr & _ & Hl & Ha). exists e', r, l.
    split; [exact Hex|]. split; [exact Hr|]. split; [exact Hl|exact Ha].
Defined.
End witness.
