(* ===== verification/Connectors.v ===== *)
(** * Connectors: creation and start ([pkg/cluster/connector.go],
    [pkg/cluster/local.go], [pkg/cluster/remote.go], [pkg/cluster/context],
    [pkg/version], [pkg/cache/remote_cache.go], [pkg/cache/cache.go])

    How a connector comes to life: the check of the server's version, the choice
    between the local and the remote connector, and the order in which [Run]
    starts the controllers, the informers and the loops.  The semver library and
    the answers of the API server are parameters. *)

From S2P Require Import Prelude GoLib Clientset Kube CacheTypes McsTypes Config RemoteConnector.
From Stdlib Require Import Ascii.

(** [strings.ReplaceAll] of one byte by another. *)
Fixpoint ReplaceByte (old new : ascii) (s : string) : string :=
  match s with
  | EmptyString => EmptyString
  | String c s => String (if Ascii.eqb c old then new else c) (ReplaceByte old new s)
  end.

(** ** The version of the server *)

(** [semver.Version], of which the code uses literals and comparisons. *)
Class SemverLib : Type := {
  Version : Type;
  version_lit : N → N → N → Version;
  Version_EQ : Version → Version → bool;
  Version_GTE : Version → Version → bool;
  (** panics when the text is no version *)
  MustParse : string → go Version
}.

Section version.
Context `{SemverLib}.

Definition zero_version : Version := version_lit 0 0 0.
Definition MinK8sVersion : Version := version_lit 1 19 0.
Definition MinEndpointSliceVersion : Version := version_lit 1 21 0.

(** [server] is the answer of the discovery client: the git version. *)
Definition getServerVersion (server : result string string) : go (result string Version) :=
  match server with
  | Err e => Ret (Err e)
  | Ok gitVersion =>
    let gitVersion :=
      if (1 <? String.length gitVersion)%nat && String.prefix "v" gitVersion
      then String.substring 1 (String.length gitVersion - 1) gitVersion else gitVersion in
    v ← MustParse gitVersion; Ret (Ok v)
  end.

(** The package variable [ServerVersion] is threaded; [os.Exit] is the error. *)
Definition detectServerVersion (server : result string string) (ServerVersion : Version) :
    go (result string Version) :=
  if Version_EQ ServerVersion zero_version then
    r ← getServerVersion server;
    match r with Err _ => Ret (Err "exit status 1") | Ok ver => Ret (Ok ver) end
  else Ret (Ok ServerVersion).

Definition IsSupportedK8sVersion (server : result string string) (ServerVersion : Version) :
    go (result string (bool * Version)) :=
  r ← detectServerVersion server ServerVersion;
  match r with Err e => Ret (Err e) | Ok v => Ret (Ok (Version_GTE v MinK8sVersion, v)) end.

Definition IsEndpointSliceEnabled (server : result string string) (ServerVersion : Version) :
    go (result string (bool * Version)) :=
  r ← detectServerVersion server ServerVersion;
  match r with Err e => Ret (Err e) | Ok v => Ret (Ok (Version_GTE v MinEndpointSliceVersion, v)) end.

(** ** Creating a connector *)

Inductive Connector : Type :=
| LocalConnector (cfg : ConnectorConfig)
| RemoteConnector (cfg : ConnectorConfig).

(** The answers of the cluster of the connector. *)
Record connector_answers : Type := mkConnectorAnswers {
  (** kube.NewAPIForConfig, see [Clientset] *)
  ca_API : go (result string unit);
  ca_ServerVersion : result string string;
  (** the deployment of the manager *)
  ca_Manager : result kerror unit
}.

Definition NewConnector (ca : connector_answers) (cfg : ConnectorConfig) (ServerVersion : Version) :
    go (result string Connector * Version) :=
  api ← ca_API ca;
  match api with
  | Err e => Ret (Err e, ServerVersion)
  | Ok _ =>
    r ← IsSupportedK8sVersion (ca_ServerVersion ca) ServerVersion;
    match r with
    | Err e => Ret (Err e, ServerVersion)
    | Ok (supported, ServerVersion) =>
      if negb supported then Ret (Err "kubernetes server version is not supported", ServerVersion)
      else match ca_Manager ca with
           | Err NotFound => Ret (Err "not found", ServerVersion)
           | Err _ => Ret (Err "Get ErieCanal manager component error", ServerVersion)
           | Ok _ =>
             if cc_inCluster cfg then Ret (Ok (LocalConnector cfg), ServerVersion)
             else Ret (Ok (RemoteConnector cfg), ServerVersion)
           end
    end
  end.
End version.

(** ** The context of a connector ([pkg/cluster/context/types.go]) *)

Record ConnectorContext : Type := mkConnectorContext {
  cx_ClusterKey : string;
  cx_SpecHash : string;
  cx_ConnectorConfig : ConnectorConfig;
  cx_StopCh : nat
}.

(** No deadline, a nil channel, no error: the context is never cancelled. *)
Definition ctx_Deadline (c : ConnectorContext) : option Z := None.
Definition ctx_Done (c : ConnectorContext) : option nat := None.
Definition ctx_Err (c : ConnectorContext) : option string := None.
(** [isKey]: the key is [&ConnectorCtxKey] *)
Definition ctx_Value (c : ConnectorContext) (isKey : bool) : option ConnectorContext :=
  if isKey then Some c else None.

(** ** The cache of a remote cluster ([pkg/cache/remote_cache.go]) *)

Record RemoteCache : Type := mkRemoteCache {
  rc_connectorConfig : ConnectorConfig;
  rc_serviceExportSynced : bool;
  rc_initialized : Z;
  rc_runnerName : string
}.

Definition newRemoteCache (ctx : ConnectorContext) : RemoteCache :=
  let formattedKey := ReplaceByte "/" "-" (cx_ClusterKey ctx) in
  mkRemoteCache (cx_ConnectorConfig ctx) false 0 ("sync-runner-" +:+ formattedKey).

Definition RemoteCache_setInitialized (value : bool) (c : RemoteCache) : RemoteCache :=
  mkRemoteCache (rc_connectorConfig c) (rc_serviceExportSynced c) (if value then 1 else 0)%Z (rc_runnerName c).

(** "Nothing to do for the time-being" *)
Definition syncManagedCluster (c : RemoteCache) : RemoteCache := c.

Definition OnServiceExportSynced (c : RemoteCache) : RemoteCache :=
  let c := mkRemoteCache (rc_connectorConfig c) true (rc_initialized c) (rc_runnerName c) in
  syncManagedCluster (RemoteCache_setInitialized (rc_serviceExportSynced c) c).

(** ** Starting *)

Inductive resource : Type :=
| RService | REndpoints | RIngressClass | RIngress | RServiceImport | RSecret | RServiceExport.
#[export] Instance resource_eq_dec : EqDecision resource.
Proof. solve_decision. Defined.

Inductive start_action : Type :=
| StartRecording
| RunController (r : resource)
| RunInformer (r : resource)
| WaitForCacheSync (rs : list resource)
| HandleError
| Sleep
| RunProcessEvent
| RunSyncLoop.
#[export] Instance start_action_eq_dec : EqDecision start_action.
Proof. solve_decision. Defined.

(** How [Run] ends: with an error, or waiting for a channel that nobody writes to. *)
Inductive run_end : Type := Returned (err : string) | Waiting.

Section run.
(** [c.cache.GetBroadcaster() != nil && c.k8sAPI.EventClient != nil] *)
Context (recording : bool).
(** What [WaitForCacheSync] answers; [false] when the process is being stopped. *)
Context (synced : list resource → bool).

Definition wait_for (rs : list resource) : list start_action :=
  WaitForCacheSync rs :: if synced rs then [] else [HandleError].

Definition record_events : list start_action := if recording then [StartRecording] else [].

(** [derived] is the result of [ensureCodebaseDerivatives]. *)
Definition LocalConnector_Run (derived : result string unit) : list start_action * run_end :=
  match derived with
  | Err e => ([], Returned e)
  | Ok _ =>
    (record_events ++
     [RunController RService; RunController REndpoints; RunController RIngressClass; RunController RIngress;
      RunController RServiceImport; RunController RSecret;
      RunInformer RService; RunInformer REndpoints; RunInformer RSecret; RunInformer RIngressClass] ++
     wait_for [REndpoints; RService; RSecret] ++
     wait_for [RIngressClass] ++
     RunInformer RServiceImport :: wait_for [RServiceImport] ++
     Sleep :: RunInformer RIngress :: wait_for [RIngress] ++
     [RunSyncLoop], Waiting)
  end.

(** [later] is the configuration as it is read after the wait. *)
Definition RemoteConnector_Run `{ConfigLib} (md : ErieCanalMetadata)
    (apiUpdate : ConfigMap → result string ConfigMap) (c : ConnectorConfig) (w : cfg_world)
    (later : cfg_world → cfg_world) : go (list start_action * run_end) :=
  r ← updateConfigsOfManagedCluster md apiUpdate c w;
  match r.1 with
  | Err e => Ret ([], Returned e)
  | Ok _ =>
    mc ← GetConfig md (later r.2);
    Ret (record_events ++ [RunController RServiceExport; RunInformer RServiceExport] ++
         wait_for [RServiceExport] ++
         Sleep :: (if mc_IsManaged mc then [RunProcessEvent] else []) ++ [RunSyncLoop], Waiting)
  end.
End run.

(** ** Properties *)

Section version_claims.
Context `{SemverLib}.

Lemma detected_version server v : Version_EQ v zero_version = false → detectServerVersion server v = Ret (Ok v).
Proof. unfold detectServerVersion. by intros ->. Qed.

(** A connector is created only when the cluster answers, a supported version
    was found and the manager is deployed, and it is the local one exactly for the
    configuration of the own cluster; otherwise the error says so and nothing is
    created. *)
Theorem connector_created_iff ca cfg v r v' :
  NewConnector ca cfg v = Ret (r, v') →
  (∃ c, r = Ok c) ↔
  (ca_API ca = Ret (Ok tt) ∧ IsSupportedK8sVersion (ca_ServerVersion ca) v = Ret (Ok (true, v')) ∧
   ca_Manager ca = Ok tt ∧ r = Ok (if cc_inCluster cfg then LocalConnector cfg else RemoteConnector cfg)).
Proof.
  unfold NewConnector. destruct (ca_API ca) as [[[]|e]|]; cbn [mbind go_bind];
    [|intros [= <- <-]; split; [by intros [c [=]]|by intros [[=] _]]|done].
  destruct (IsSupportedK8sVersion _ v) as [[[ok v1]|e]|]; [| |done]; cbn [mbind go_bind].
  - destruct ok; cbn [negb].
    + destruct (ca_Manager ca) as [[]|[]]; [destruct (cc_inCluster cfg)| | |]; intros [= <- <-];
        (split; [intros [c Hc]; by inversion Hc|]); naive_solver.
    + intros [= <- <-]. split; [by intros [c [=]]|]. intros (_ & [=] & _).
  - intros [= <- <-]. split; [by intros [c [=]]|]. intros (_ & [=] & _).
Qed.

(** A kubeconfig from which client-go cannot build a client ends the process with a
    panic, although every caller handles the error that is never returned. *)
Theorem refused_configuration_panics `{Lib : RestLib Limiter HTTPClient RESTClient} config timeout e ca cfg v :
  kubernetes_NewForConfig (with_Timeout config timeout) = Err e →
  ca_API ca = (r ← NewAPIForConfig config timeout; Ret (match r with Ok _ => Ok tt | Err e => Err e end)) →
  NewConnector ca cfg v = Panic.
Proof. intros He Hapi. unfold NewConnector. rewrite Hapi. unfold NewAPIForConfig, NewAPIForConfigOrDie. by rewrite He. Qed.

(** The version is detected once per process: after a first successful check, the
    version of the cluster a connector is created for is never looked at. *)
Theorem version_checked_once server v b v' ca server' cfg :
  IsSupportedK8sVersion server v = Ret (Ok (b, v')) → Version_EQ v' zero_version = false →
  NewConnector ca cfg v' =
    NewConnector (mkConnectorAnswers (ca_API ca) server' (ca_Manager ca)) cfg v' ∧
  IsSupportedK8sVersion server' v' = Ret (Ok (b, v')).
Proof.
  intros Hs Hz. unfold NewConnector, IsSupportedK8sVersion. simpl. rewrite !detected_version by done.
  split; [done|]. cbn [mbind go_bind]. unfold IsSupportedK8sVersion in Hs.
  destruct (detectServerVersion server v) as [[v1|e]|]; [|done..]. by injection Hs as <- <-.
Qed.
End version_claims.

(** Something happens before something else: [b] after the first [a]. *)
Fixpoint precedes (a b : start_action) (l : list start_action) : bool :=
  match l with
  | [] => false
  | x :: l => if decide (x = a) then bool_decide (b ∈ l) else precedes a b l
  end.

(** What an action of a start-up has to respect. *)
Definition in_order (l : list start_action) (a : start_action) : Prop :=
  match a with
  (** an informer runs only when its controller does *)
  | RunInformer r => precedes (RunController r) a l = true
  | WaitForCacheSync rs =>
    (** one waits only for informers that run, *)
    Forall (fun r => precedes (RunInformer r) a l = true) rs ∧
    (** ingresses are watched only after the wait for everything else *)
    (RIngress ∈ rs ∨ RServiceExport ∈ rs ∨ precedes a (RunInformer RIngress) l = true)
  | _ => True
  end.

#[export] Instance in_order_dec l a : Decision (in_order l a).
Proof. destruct a; unfold in_order; apply _. Defined.

(** ... and the synchronisation loop comes last. *)
Definition well_started (l : list start_action) : Prop :=
  Forall (fun a => in_order l a ∧ (a = RunSyncLoop ∨ precedes a RunSyncLoop l = true)) l.

#[export] Instance well_started_dec l : Decision (well_started l).
Proof. unfold well_started. apply _. Defined.

Ltac by_evaluation := apply (bool_decide_unpack _); vm_compute; exact I.

(** The local connector starts nothing when its codebases cannot be derived.
    Otherwise every informer is started after its controller, is waited for only
    when it runs, the ingress informer starts after the waits for services,
    endpoints, secrets, ingress classes and imports, the synchronisation loop
    starts last, and when no error is reported all caches have synced. *)
Theorem local_start_order recording synced derived :
  match derived with
  | Err e => LocalConnector_Run recording synced derived = ([], Returned e)
  | Ok _ =>
    let l := (LocalConnector_Run recording synced derived).1 in
    well_started l ∧ RunSyncLoop ∈ l ∧
    (∀ r, r ≠ RServiceExport → ∃ rs, r ∈ rs ∧ WaitForCacheSync rs ∈ l ∧ (HandleError ∉ l → synced rs = true))
  end.
Proof.
  destruct derived as [u|e]; [|done]. cbv zeta. unfold LocalConnector_Run, wait_for, record_events.
  destruct (synced [REndpoints; RService; RSecret]) eqn:H1, (synced [RIngressClass]) eqn:H2,
    (synced [RServiceImport]) eqn:H3, (synced [RIngress]) eqn:H4, recording; cbn [app fst];
    (split; [by_evaluation|]; split; [by_evaluation|]; intros r Hr;
     destruct r; [exists [REndpoints; RService; RSecret]|exists [REndpoints; RService; RSecret]|exists [RIngressClass]
       |exists [RIngress]|exists [RServiceImport]|exists [REndpoints; RService; RSecret]|done];
     (split; [by_evaluation|]; split; [by_evaluation|]; intros Hno;
      first [assumption|destruct Hno; by_evaluation])).
Qed.

(** The start of a remote connector respects the same order. *)
Lemma remote_start_order `{ConfigLib} recording synced md apiUpdate c w later l :
  RemoteConnector_Run recording synced md apiUpdate c w later = Ret (l, Waiting) → well_started l.
Proof.
  unfold RemoteConnector_Run. intros ([[u|e] w'] & _ & Hr)%go_bind_ret; [|done]. simpl in Hr.
  apply go_bind_ret in Hr as (mc & _ & [= <-]). unfold wait_for, record_events.
  destruct recording, (synced [RServiceExport]), (mc_IsManaged mc); cbn [app]; by_evaluation.
Qed.

(** A remote connector whose cluster belongs to another control plane, or whose
    membership cannot be stored, returns the error and starts nothing; one that
    processes the messages of the federation has read a configuration that says
    that the cluster is managed. *)
Theorem remote_run_needs_membership `{ConfigLib} recording synced md apiUpdate c w later l e :
  (RemoteConnector_Run recording synced md apiUpdate c w later = Ret (l, Returned e) ↔
     l = [] ∧ ∃ w', updateConfigsOfManagedCluster md apiUpdate c w = Ret (Err e, w')) ∧
  (RemoteConnector_Run recording synced md apiUpdate c w later = Ret (l, Waiting) →
     ∃ w' mc, updateConfigsOfManagedCluster md apiUpdate c w = Ret (Ok tt, w') ∧
       GetConfig md (later w') = Ret mc ∧ (RunProcessEvent ∈ l ↔ mc_IsManaged mc = true)).
Proof.
  unfold RemoteConnector_Run. split; [split|].
  - intros ([[u|e'] w'] & Hu & Hr)%go_bind_ret; simpl in Hr.
    + by apply go_bind_ret in Hr as (mc & _ & [=]).
    + injection Hr as <- <-. eauto.
  - intros (-> & w' & ->). done.
  - intros ([[u|e'] w'] & Hu & Hr)%go_bind_ret; simpl in Hr; [|done].
    apply go_bind_ret in Hr as (mc & Hmc & [= <-]). destruct u. exists w', mc. split_and!; [done|done|].
    unfold wait_for, record_events.
    destruct recording, (synced [RServiceExport]), (mc_IsManaged mc); cbn [app];
      (split; [intros Hin|intros Heq]); try done; try by_evaluation;
      revert Hin; by_evaluation.
Qed.

(** ** Witnesses *)

Definition sample_semver : SemverLib := {|
  Version := N * N * N;
  version_lit := fun a b c => (a, b, c);
  Version_EQ := fun v w => bool_decide (v = w);
  Version_GTE := fun v w =>
    let '(a, b, c) := v in let '(a', b', c') := w in
    ((a' <? a) || ((a =? a') && ((b' <? b) || ((b =? b') && (c' <=? c)))))%N;
  MustParse := fun s =>
    if bool_decide (s = "1.25.3") then Ret (1, 25, 3)%N
    else if bool_decide (s = "1.15.0") then Ret (1, 15, 0)%N else Panic
|}.

Definition sample_answers (version : string) : connector_answers :=
  mkConnectorAnswers (Ret (Ok tt)) (Ok version) (Ok tt).

Lemma connector_created_iff_witness :
  @NewConnector sample_semver (sample_answers "v1.25.3") sample_geo (0, 0, 0)%N =
    Ret (Ok (RemoteConnector sample_geo), (1, 25, 3)%N) ∧
  @IsSupportedK8sVersion sample_semver (Ok "v1.25.3") (0, 0, 0)%N = Ret (Ok (true, (1, 25, 3)%N)).
Proof.
  split; [reflexivity|].
  destruct (proj1 (@connector_created_iff sample_semver (sample_answers "v1.25.3") sample_geo (0, 0, 0)%N
    (Ok (RemoteConnector sample_geo)) (1, 25, 3)%N eq_refl)) as (_ & Hs & _); [by eexists|exact Hs].
Defined.

(** A cluster of an unsupported version is connected after the control plane's
    version was found to be supported, and is refused when it comes first. *)
Example unsupported_cluster_is_connected :
  @NewConnector sample_semver (sample_answers "v1.15.0") sample_geo (1, 25, 3)%N =
    Ret (Ok (RemoteConnector sample_geo), (1, 25, 3)%N) ∧
  @NewConnector sample_semver (sample_answers "v1.15.0") sample_geo (0, 0, 0)%N =
    Ret (Err "kubernetes server version is not supported", (1, 15, 0)%N).
Proof. split; reflexivity. Qed.
