(* ===== verification/Startup.v ===== *)
(** * Start-up ([cmd/manager], [cmd/ingress-pipy], [cmd/proxy-init], [pkg/cluster/local.go])

    What the processes do with the repository when they start: the manager waits
    for it, publishes the scripts of the base codebases and writes the settings of
    the ingress into them; connectors and pods work on codebases derived from
    these.  [os.Exit] is the error "exit status 1" that ends the function.  The
    file system and the polling of apimachinery are parameters. *)

From S2P Require Import Prelude GoLib Kube CacheTypes McsTypes Repo Config RemoteConnector ClusterReconciler Admission Webhooks NamespacedIngress.
From Stdlib Require Import Ascii.

(** ** Paths ([path/filepath], on the cleaned paths that [filepath.Walk] yields) *)

(** What precedes and what follows the last slash. *)
Fixpoint split_path (s : string) : option (string * string) :=
  match s with
  | EmptyString => None
  | String c s' =>
    match split_path s' with
    | Some (d, b) => Some (String c d, b)
    | None => if bool_decide (c = "/"%char) then Some ("", s') else None
    end
  end.

Definition filepath_Dir (s : string) : string :=
  match split_path s with
  | Some (d, _) => if bool_decide (d = "") then "/" else d
  | None => "."
  end.
Definition filepath_Base (s : string) : string :=
  match split_path s with Some (_, b) => b | None => s end.

Definition TrimPrefix (s pre : string) : string :=
  if String.prefix pre s
  then String.substring (String.length pre) (String.length s - String.length pre) s
  else s.

Lemma split_path_Some s d b : split_path s = Some (d, b) → s = d +:+ "/" +:+ b.
Proof.
  revert d b. induction s as [|c s IH]; intros d b; simpl; [done|].
  destruct (split_path s) as [[d' b']|] eqn:E.
  - intros [= <- <-]. simpl. by rewrite (IH d' b').
  - case_bool_decide; [|done]. intros [= <- <-]. by subst c.
Qed.

Lemma prefix_sapp p s : String.prefix p (p +:+ s) = true.
Proof. induction p as [|c p IH]; simpl; [by destruct s|]. by destruct (Ascii.ascii_dec c c). Qed.

Lemma TrimPrefix_app p s : TrimPrefix (p +:+ s) p = s.
Proof.
  unfold TrimPrefix. rewrite prefix_sapp, length_sapp.
  replace (String.length p + String.length s - String.length p)%nat with (String.length s) by lia.
  apply substring_app_r.
Qed.

Lemma split_path_None s : ContainsByte "/"%char s = false → split_path s = None.
Proof.
  induction s as [|c s IH]; [done|]. simpl. intros [Hc Hs]%orb_false_iff.
  rewrite IH by done. rewrite bool_decide_false; [done|]. by intros ->.
Qed.

Lemma split_path_app d b : ContainsByte "/"%char b = false → split_path (d +:+ "/" +:+ b) = Some (d, b).
Proof. intros Hb. induction d as [|c d IH]; simpl; [by rewrite split_path_None|]. simpl in IH. by rewrite IH. Qed.

(** ** The scripts ([cmd/manager/repo.go]) *)

Definition ScriptsRoot : string := "/repo/scripts".

Section scripts.
(** The files under a directory and their contents. *)
Context (Walk : string → result string (list string)) (ReadFile : string → result string string).

Definition listFiles (root : string) : go (list string) :=
  match Walk root with Ok files => Ret files | Err _ => Panic end.

Definition script_item (scriptsDir file content : string) : BatchItem :=
  mkBatchItem (TrimPrefix (filepath_Dir file) scriptsDir) (filepath_Base file) (C_string content).

Fixpoint script_items (scriptsDir : string) (files : list string) : go (list BatchItem) :=
  match files with
  | [] => Ret []
  | file :: files =>
    match ReadFile file with
    | Err _ => Panic
    | Ok content =>
      items ← script_items scriptsDir files;
      Ret (script_item scriptsDir file content :: items)
    end
  end.

Definition createBatch (repoPath scriptsDir : string) : go Batch :=
  files ← listFiles scriptsDir;
  items ← script_items scriptsDir files;
  Ret (mkBatch repoPath items).

Definition ingressBatch : go Batch := createBatch "/base/ingress" (ScriptsRoot +:+ "/ingress").
Definition servicesBatch : go Batch := createBatch "/base/services" (ScriptsRoot +:+ "/services").

(** A script is uploaded to the place it has below the directory of the scripts. *)
Lemma script_place repoPath scriptsDir rel name content :
  ContainsByte "/"%char name = false → scriptsDir ≠ "" →
  item_path repoPath (script_item scriptsDir (scriptsDir +:+ rel +:+ "/" +:+ name) content) =
    repoPath +:+ rel +:+ "/" +:+ name.
Proof.
  intros Hn Hdir. pose proof (split_path_app (scriptsDir +:+ rel) name Hn) as Hs. rewrite sapp_assoc in Hs.
  unfold item_path, script_item, filepath_Dir, filepath_Base. cbn [bi_Path bi_Filename].
  rewrite Hs, bool_decide_false, TrimPrefix_app; [done|]. by destruct scriptsDir.
Qed.
End scripts.

(** ** The manager ([cmd/manager/repo.go], [http.go], [tls.go], [main.go]) *)

(** k8s.io/apimachinery/pkg/util/wait: polling an effectful condition, which never
    returns an error here. *)
Class PollLib `{Resty} : Type := {
  PollHttp : Z → Z → http bool → http (result string unit)
}.

(** The condition returned [false] [n] times. *)
Inductive polled `{Resty} (cond : http bool) (s : session) : nat → session → Prop :=
| polled_O : polled cond s 0 s
| polled_S n s1 s2 : polled cond s n s1 → cond s1 = (false, s2) → polled cond s (S n) s2.

(** "PollImmediate tries a condition func until it returns true, an error, or the
    timeout is reached." *)
Class PollLaws `{PollLib} : Prop := {
  PollHttp_spec : ∀ interval timeout cond s r s',
    (0 < interval)%Z → (0 < timeout)%Z → PollHttp interval timeout cond s = (r, s') →
    ∃ n s1, polled cond s n s1 ∧ (Z.of_nat n * interval ≤ timeout + interval)%Z ∧
      match r with Ok _ => cond s1 = (true, s') | Err _ => s1 = s' end
}.

Section manager.
Context `{ConfigLib} `{PollLib}.
Context (Walk : string → result string (list string)) (ReadFile : string → result string string).

Definition exit {A} : http (go (result string A)) := mret (Ret (Err "exit status 1")).

(** Continue unless the process has ended. *)
Definition step {A B} (m : http (go (result string A))) (f : A → http (go (result string B))) :
    http (go (result string B)) :=
  r ← m;
  match r with
  | Ret (Ok a) => f a
  | Ret (Err e) => mret (Ret (Err e))
  | Panic => mret Panic
  end.

(** An error of a client call ends the process. *)
Definition or_exit {A} (m : http (result string A)) : http (go (result string A)) :=
  r ← m; match r with Ok a => mret (Ret (Ok a)) | Err _ => exit end.

Definition initRepo : http (go (result string unit)) :=
  step (or_exit (PollHttp 5 300 IsRepoUp)) (fun _ =>
  match (b1 ← ingressBatch Walk ReadFile; b2 ← servicesBatch Walk ReadFile; Ret [b1; b2]) with
  | Panic => mret Panic
  | Ret batches => or_exit (Batch_all batches)
  end).

Definition setupHTTP (mc : MeshConfig) : http (go (result string unit)) :=
  or_exit (UpdateIngressHTTPConfig DefaultIngressBasePath mc).

Definition setupTLS (mc : MeshConfig) : http (go (result string unit)) :=
  let tls := is_TLS (mc_Ingress mc) in
  if tls_Enabled tls then
    if sslp_Enabled (tls_SSLPassthrough tls) then
      or_exit (UpdateSSLPassthrough DefaultIngressBasePath (sslp_Enabled (tls_SSLPassthrough tls))
        (sslp_UpstreamPort (tls_SSLPassthrough tls)))
    else or_exit (IssueCertForIngress DefaultIngressBasePath mc)
  else mret (Ret (Ok tt)).

(** The part of [main] that works on the repository. *)
Definition main_repo (mc : MeshConfig) : http (go (result string unit)) :=
  step initRepo (fun _ => step (setupHTTP mc) (fun _ => setupTLS mc)).
End manager.

(** ** What is on the wire *)

Section wire.
Context `{ConfigLib} `{PL : PollLib} `{!PollLaws}.
Context (Walk : string → result string (list string)) (ReadFile : string → result string string).

Lemma step_Ok {A B} (m : http (go (result string A))) (f : A → http (go (result string B))) s b s' :
  step m f s = (Ret (Ok b), s') → ∃ a s1, m s = (Ret (Ok a), s1) ∧ f a s1 = (Ret (Ok b), s').
Proof.
  unfold step, mbind, http_bind. destruct (m s) as [[[a|e]|] s1]; [by eauto|by intros [=]|by intros [=]].
Qed.

Lemma or_exit_Ok {A} (m : http (result string A)) s a s' :
  or_exit m s = (Ret (Ok a), s') → m s = (Ok a, s').
Proof. unfold or_exit, mbind, http_bind. destruct (m s) as [[a'|e] s1]; by intros [= <- <-]. Qed.

Lemma polled_log cond P s n s' :
  confined P cond → polled cond s n s' → ∃ l, ses_log s' = ses_log s ++ l ∧ Forall (fun e => P e.1) l.
Proof.
  intros Hc. induction 1 as [|n s1 s2 _ (l & Hl & Hf) Hr]; [exists []; by rewrite app_nil_r|].
  destruct (Hc _ _ _ Hr) as (l' & Hl' & Hf'). exists (l ++ l'). rewrite Hl', Hl, app_assoc.
  split; [done|]. by apply Forall_app.
Qed.

Lemma IsRepoUp_log : confined (fun r => r = GET (fullRepoApiPath "/")) IsRepoUp.
Proof.
  unfold IsRepoUp, get. repeat first [apply confined_ret | by apply confined_send
    | apply confined_try; [|intros ?] | apply confined_bind; [|intros ?] | case_match].
Qed.

Lemma two_batches b1 b2 s s' :
  Batch_all [b1; b2] s = (Ok tt, s') →
  ∃ l1 l2, ses_log s' = ses_log s ++ l1 ++ l2 ∧ batch_done b1 l1 ∧ batch_done b2 l2.
Proof.
  cbn [Batch_all]. unfold try, mbind, http_bind, mret, http_ret.
  destruct (batch_one b1 s) as [[u1|] s1] eqn:E1; [|done]. destruct (batch_one b2 s1) as [[u2|] s2] eqn:E2; [|done].
  intros [= <-]. destruct (logs_batch_one b1 _ _ _ E1) as (l1 & Hl1 & Hb1).
  destruct (logs_batch_one b2 _ _ _ E2) as (l2 & Hl2 & Hb2). exists l1, l2.
  by rewrite Hl2, Hl1, app_assoc.
Qed.

Lemma initRepo_log s s' :
  initRepo Walk ReadFile s = (Ret (Ok tt), s') →
  ∃ lp l1 l2 b1 b2, ses_log s' = ses_log s ++ lp ++ l1 ++ l2 ∧
    Forall (fun e => e.1 = GET (fullRepoApiPath "/")) lp ∧
    ingressBatch Walk ReadFile = Ret b1 ∧ servicesBatch Walk ReadFile = Ret b2 ∧
    batch_done b1 l1 ∧ batch_done b2 l2.
Proof.
  intros (u & s1 & Hp%or_exit_Ok & Hb)%step_Ok.
  apply PollHttp_spec in Hp as (n & s0 & Hpoll & _ & Hup); [|lia|lia].
  destruct (polled_log _ _ _ _ _ IsRepoUp_log Hpoll) as (l & Hl & Hf).
  destruct (IsRepoUp_log _ _ _ Hup) as (l' & Hl' & Hf').
  destruct (ingressBatch Walk ReadFile) as [b1|]; [|done].
  destruct (servicesBatch Walk ReadFile) as [b2|]; [|done]. simpl in Hb.
  apply or_exit_Ok, two_batches in Hb as (l1 & l2 & Hb & Hb1 & Hb2).
  exists (l ++ l'), l1, l2, b1, b2. rewrite Hb, Hl', Hl, <-!app_assoc.
  split; [done|]. split; [by apply Forall_app|]. by split_and!.
Qed.

Lemma settings_log mc s s' :
  step (setupHTTP mc) (fun _ => setupTLS mc) s = (Ret (Ok tt), s') → confined_log DefaultIngressBasePath s s'.
Proof.
  intros (u & s1 & Hh%or_exit_Ok & Ht)%step_Ok.
  assert (confined_log DefaultIngressBasePath s s1) as Hh1.
  { eapply confined_run; [|exact Hh]. unfold UpdateIngressHTTPConfig, getMainJson, GetFile, with_json.
    repeat first [apply confined_main_json | apply confined_ret | by apply confined_send
      | apply confined_try; [|intros ?] | case_match]. }
  eapply confined_log_trans; [exact Hh1|]. unfold setupTLS in Ht.
  destruct (tls_Enabled _); [|injection Ht as <-; apply confined_log_refl].
  destruct (sslp_Enabled _); apply or_exit_Ok in Ht; (eapply confined_run; [|exact Ht]).
  - by apply (confined_settings DefaultIngressBasePath mc).
  - by apply (confined_settings DefaultIngressBasePath mc true 0).
Qed.

(** Every script of the directory is an item of the batch. *)
Lemma createBatch_item repoPath scriptsDir b files file content :
  createBatch Walk ReadFile repoPath scriptsDir = Ret b → Walk scriptsDir = Ok files → file ∈ files →
  ReadFile file = Ok content →
  b_Basepath b = repoPath ∧ script_item scriptsDir file content ∈ b_Items b.
Proof.
  unfold createBatch, listFiles. intros Hb Hw Hf Hr. rewrite Hw in Hb. simpl in Hb.
  apply go_bind_ret in Hb as (items & Hi & [= <-]). split; [done|]. simpl. clear Hw.
  revert items Hi. induction files as [|f files IH]; intros items; [by apply elem_of_nil in Hf|].
  cbn [script_items]. apply elem_of_cons in Hf as [<-|Hf].
  - rewrite Hr. intros (its & _ & [= <-])%go_bind_ret. by left.
  - destruct (ReadFile f); [|done]. intros (its & Hi & [= <-])%go_bind_ret. right. by eapply IH.
Qed.

(** An item of a batch that went through was uploaded. *)
Lemma batch_done_item b l item :
  batch_done b l → item ∈ b_Items b → ∃ e, e ∈ l ∧ uploaded (b_Basepath b) item e.
Proof.
  intros (v & lp & lu & c & -> & _ & Hu & _) Hin. apply list_elem_of_lookup_1 in Hin as [i Hi].
  destruct (Forall2_lookup_l _ _ _ _ _ Hu Hi) as (e & He & Hup). exists e. split; [|done].
  rewrite !elem_of_app. right; left. by eapply list_elem_of_lookup_2.
Qed.
End wire.

(** The scripts of a base codebase, uploaded to their places. *)
Definition scripts_published `{Resty} (Walk : string → result string (list string)) (ReadFile : string → result string string)
    (repoPath scriptsDir : string) (l : list exchange) : Prop :=
  ∀ files rel name content,
    Walk scriptsDir = Ok files → ContainsByte "/"%char name = false →
    scriptsDir +:+ rel +:+ "/" +:+ name ∈ files →
    ReadFile (scriptsDir +:+ rel +:+ "/" +:+ name) = Ok content →
    ∃ ct resp, IsSuccess resp = true ∧
      (POST (fullFileApiPath (repoPath +:+ rel +:+ "/" +:+ name)) ct (inr (C_string content)), Ok resp) ∈ l.

Lemma batch_published `{Resty} Walk ReadFile repoPath scriptsDir b l :
  scriptsDir ≠ "" → createBatch Walk ReadFile repoPath scriptsDir = Ret b → batch_done b l →
  scripts_published Walk ReadFile repoPath scriptsDir l.
Proof.
  intros Hd Hb Hdone files rel name content Hw Hn Hin Hr.
  destruct (createBatch_item Walk ReadFile _ _ _ _ _ _ Hb Hw Hin Hr) as [Hbase Hitem].
  destruct (batch_done_item _ _ _ Hdone Hitem) as (e & He & ct & resp & -> & Hs).
  rewrite Hbase, script_place in He by done. eauto.
Qed.

(** C40 (safety).  When the manager has set up the repository, then, after it
    found the repository up, it published all scripts of both base codebases, each
    at the place it has in its directory, and committed them, before it wrote any
    setting; and the settings were written to the base codebase of the ingress
    only, which is the one that was published. *)
Theorem manager_publishes_base `{ConfigLib} `{PollLaws} Walk ReadFile mc s s' :
  main_repo Walk ReadFile mc s = (Ret (Ok tt), s') →
  ∃ lp l1 l2 lset b1 b2, ses_log s' = ses_log s ++ lp ++ l1 ++ l2 ++ lset ∧
    Forall (fun e => e.1 = GET (fullRepoApiPath "/")) lp ∧
    (b_Basepath b1 = DefaultIngressBasePath ∧ batch_done b1 l1 ∧
     scripts_published Walk ReadFile DefaultIngressBasePath "/repo/scripts/ingress" l1) ∧
    (b_Basepath b2 = DefaultServiceBasePath ∧ batch_done b2 l2 ∧
     scripts_published Walk ReadFile DefaultServiceBasePath "/repo/scripts/services" l2) ∧
    Forall (fun e => writes_only DefaultIngressBasePath e.1) lset.
Proof.
  intros (u & s1 & Hi & Hset)%step_Ok. destruct u.
  apply initRepo_log in Hi as (lp & l1 & l2 & b1 & b2 & Hl & Hp & Hb1 & Hb2 & Hd1 & Hd2).
  apply settings_log in Hset as (lset & Hls & Hw).
  assert (∀ rp sd b, createBatch Walk ReadFile rp sd = Ret b → b_Basepath b = rp) as Hbase.
  { unfold createBatch. intros rp sd b (fs & _ & (its & _ & [= <-])%go_bind_ret)%go_bind_ret. done. }
  exists lp, l1, l2, lset, b1, b2. rewrite Hls, Hl, <-!app_assoc. split_and!; try done.
  - exact (Hbase _ _ _ Hb1).
  - by eapply batch_published.
  - exact (Hbase _ _ _ Hb2).
  - by eapply batch_published.
Qed.

(** ** The other processes *)

(** The local connector ([pkg/cluster/local.go]). *)
Definition ensureCodebaseDerivatives `{Resty} (mc : MeshConfig) : http (result string unit) :=
  _ ←? DeriveCodebase (GetDefaultServicesPath mc) DefaultServiceBasePath;
  _ ←? DeriveCodebase (GetDefaultIngressPath mc) DefaultIngressBasePath;
  mret (Ok tt).

(** [cmd/proxy-init]: the codebases of the sidecars. *)
Fixpoint proxy_deriveCodebases `{Resty} (parentPath : string) (paths : list string) : http (result string unit) :=
  match paths with
  | [] => mret (Ok tt)
  | sidecarPath :: paths =>
    _ ←? DeriveCodebase sidecarPath parentPath;
    proxy_deriveCodebases parentPath paths
  end.

(** [cmd/ingress-pipy]: a container with its CPU limit (the value of the quantity,
    0 when there is no limit). *)
Record IngressContainer : Type := mkIngressContainer {
  ctr_Name : string;
  ctr_CPULimit : Z
}.

Definition ingressCodebase (md : ErieCanalMetadata) (mc : MeshConfig) : string :=
  if is_Namespaced (mc_Ingress mc)
  then RepoBaseURL mc +:+ NamespacedIngressCodebasePath mc (GetErieCanalPodNamespace md) +:+ "/"
  else RepoBaseURL mc +:+ IngressCodebasePath mc +:+ "/".

(** [pod]: the answer to reading the own pod, its containers. *)
Definition getIngressCpuLimitsQuota (podName : string) (pod : result string (list IngressContainer)) : result string Z :=
  match pod with
  | Err e => Err e
  | Ok containers =>
    match list_find (fun c => ctr_Name c = "ingress") containers with
    | Some (_, c) => Ok (ctr_CPULimit c)
    | None => Err ("No container named 'ingress' in POD " +:+ podName)
    end
  end.

Definition calcPipySpawn (podName : string) (pod : result string (list IngressContainer)) : result string Z :=
  match getIngressCpuLimitsQuota podName pod with
  | Err _ => Err "exit status 1"
  | Ok cpuLimits => Ok (if (0 <? cpuLimits)%Z then cpuLimits else 1%Z)
  end.

(** The arguments with which pipy is started. *)
Definition startPipy (spawn : Z) (ingressRepoUrl : string) : list string :=
  let args := [ingressRepoUrl] in
  if (1 <? spawn)%Z then ["--reuse-port"; "--threads=" +:+ Itoa spawn] ++ args else args.

(** The reconcilers that are registered ([cmd/manager/reconcilers.go]), in order;
    [setup] says whether SetupWithManager succeeds, a failure ends the process. *)
Fixpoint register_all (setup : string → bool) (names : list string) : list string * result string unit :=
  match names with
  | [] => ([], Ok tt)
  | n :: names =>
    if setup n then let '(l, r) := register_all setup names in (n :: l, r)
    else ([], Err "exit status 1")
  end.

(** One registration after another, unless the process has ended. *)
Definition and_then (a b : list string * result string unit) : list string * result string unit :=
  match a.2 with Ok _ => (a.1 ++ b.1, b.2) | Err _ => a end.

Definition registerCluster (setup : string → bool) := register_all setup ["Cluster"].
Definition registerServiceExport (setup : string → bool) := register_all setup ["ServiceExport"].
Definition registerServiceImport (setup : string → bool) := register_all setup ["ServiceImport"].
Definition registerGatewayAPIs (setup : string → bool) := register_all setup ["Gateway"; "GatewayClass"; "HTTPRoute"].
Definition registerNamespacedIngress (setup : string → bool) := register_all setup ["NamespacedIngress"].
Definition registerServiceLB (setup : string → bool) :=
  register_all setup ["ServiceLB(Service)"; "ServiceLB(Node)"].

Definition registerReconcilers (setup : string → bool) (mc : MeshConfig) : list string * result string unit :=
  and_then (registerCluster setup) (
  and_then (registerServiceExport setup) (
  and_then (registerServiceImport setup) (
  and_then (if mc_GatewayApi_Enabled mc then registerGatewayAPIs setup else ([], Ok tt)) (
  and_then (if is_Namespaced (mc_Ingress mc) then registerNamespacedIngress setup else ([], Ok tt))
    (if mc_ServiceLB_Enabled mc then registerServiceLB setup else ([], Ok tt)))))).

(** The gateway controller: the gateways that a class concerns. *)
Record GatewayRef : Type := mkGatewayRef {
  gw_Meta : ObjectMeta;
  gw_ClassName : string
}.
Definition GatewayController_name : string := "flomesh.io/gateway-controller".
Definition watched_class (controllerName : string) : bool := bool_decide (controllerName = GatewayController_name).
Fixpoint class_gateways (className : string) (gws : list GatewayRef) : list NamespacedName :=
  match gws with
  | [] => []
  | gw :: gws =>
    if bool_decide (gw_ClassName gw = className)
    then meta_nn (gw_Meta gw) :: class_gateways className gws
    else class_gateways className gws
  end.
Definition gatewayClassToGateways (gateways : result string (list GatewayRef)) (className : string) :
    list NamespacedName :=
  match gateways with Err _ => [] | Ok gws => class_gateways className gws end.

(** The reconciler of imports only reads its object. *)
Definition ServiceImport_Reconcile (read : result kerror ServiceImport) : option kerror :=
  match read with Err NotFound => None | Err e => Some e | Ok _ => None end.

(** The local connector derives what the reconciler of clusters derives: whoever
    comes second finds the codebases. *)
Theorem connectors_share_codebases `{Resty} mc s : ensureCodebaseDerivatives mc s = deriveCodebases mc s.
Proof.
  unfold ensureCodebaseDerivatives, deriveCodebases, try, mbind, http_bind, mret, http_ret.
  destruct (DeriveCodebase (GetDefaultServicesPath mc) _ s) as [[u|e] s1]; [|done].
  by destruct (DeriveCodebase (GetDefaultIngressPath mc) _ s1) as [[[]|e'] s2].
Qed.

(** A pod of a namespaced ingress reads, below the repository, the codebase that
    the reconciler of its namespace derives and configures. *)
Theorem pod_reads_its_codebase md mc nsig :
  is_Namespaced (mc_Ingress mc) = true → GetErieCanalPodNamespace md = Namespace (nsig_Meta nsig) →
  ingressCodebase md mc = RepoBaseURL mc +:+ NamespacedIngressCodebasePath mc (Namespace (nsig_Meta nsig)) +:+ "/".
Proof. intros Hn Hp. unfold ingressCodebase. by rewrite Hn, Hp. Qed.

(** Pipy runs with at least one thread, and with as many as the CPU limit. *)
Theorem pipy_threads podName containers spawn :
  calcPipySpawn podName (Ok containers) = Ok spawn →
  (1 ≤ spawn)%Z ∧ ∃ c, c ∈ containers ∧ ctr_Name c = "ingress" ∧ spawn = Z.max 1 (ctr_CPULimit c).
Proof.
  unfold calcPipySpawn, getIngressCpuLimitsQuota. destruct (list_find _ containers) as [[i c]|] eqn:E; [|done].
  apply list_find_Some in E as (Hi & Hc & _). intros [= <-].
  split; [destruct (Z.ltb_spec 0 (ctr_CPULimit c)); lia|]. exists c.
  split; [by eapply list_elem_of_lookup_2|]. split; [done|]. destruct (Z.ltb_spec 0 (ctr_CPULimit c)); lia.
Qed.

(** A class concerns exactly the gateways that name it, in their order. *)
Theorem class_gateways_spec className gws :
  class_gateways className gws = (fun gw => meta_nn (gw_Meta gw)) <$> filter (fun gw => gw_ClassName gw = className) gws.
Proof.
  induction gws as [|gw gws IH]; [done|]. cbn [class_gateways]. rewrite filter_cons.
  case_bool_decide; case_decide; try done. cbn [fmap list_fmap]. by rewrite IH.
Qed.

(** ** Witness *)

(** Polling that looks once. *)
Definition sample_poll : @PollLib sample_resty :=
  {| PollHttp := fun _ _ cond s => let '(b, s') := cond s in (if b then Ok tt else Err "timed out", s') |}.

#[export] Instance sample_poll_laws : @PollLaws sample_resty sample_poll.
Proof.
  split. intros interval timeout cond s r s' Hi Ht. simpl.
  destruct (cond s) as [[] s1] eqn:E; intros [= <- <-].
  - exists 0%nat, s. split_and!; [constructor|lia|done].
  - exists 1%nat, s1. split_and!; [|lia|done]. by econstructor; [constructor|].
Qed.

Definition sample_walk (root : string) : result string (list string) := Ok [root +:+ "/lib/main.js"].
Definition sample_read (file : string) : result string string := Ok ("// " +:+ file).
Definition fresh_session : @session sample_resty := @mkSession sample_resty ∅ [].

Definition sample_main : go (result string unit) * @session sample_resty :=
  @main_repo sample_config_lib sample_resty sample_poll sample_walk sample_read zeroMeshConfig fresh_session.

Lemma manager_publishes_base_witness :
  sample_main.1 = Ret (Ok tt) ∧
  ∃ ct resp, (POST (fullFileApiPath "/base/ingress/lib/main.js") ct
    (inr (C_string "// /repo/scripts/ingress/lib/main.js")), Ok resp) ∈ ses_log sample_main.2.
Proof.
  assert (sample_main.1 = Ret (Ok tt)) as Hr by (vm_compute; reflexivity). split; [exact Hr|].
  destruct (@manager_publishes_base sample_config_lib sample_resty sample_poll sample_poll_laws sample_walk
    sample_read zeroMeshConfig fresh_session sample_main.2) as (lp & l1 & l2 & lset & b1 & b2 & Hl & _ & (_ & _ & Hpub) & _).
  { change (sample_main = (Ret (Ok tt), sample_main.2)). rewrite <-Hr. apply surjective_pairing. }
  destruct (Hpub ["/repo/scripts/ingress/lib/main.js"] "/lib" "main.js" "// /repo/scripts/ingress/lib/main.js")
    as (ct & resp & _ & Hin); [reflexivity|reflexivity|by left|reflexivity|].
  exists ct, resp. rewrite Hl, !elem_of_app. tauto.
Defined.
