(* ===== verification/Triggers.v ===== *)
(** * What makes a controller reconcile ([SetupWithManager] of the controllers)

    A controller watches the objects of its kind, the objects they own, and for
    gateways the classes.  An event about a watched object becomes requests for
    reconciliation.  Here the watches of all controllers, the requests that follow
    from an event, and what that means together with the reconciliation of exports:
    what an export owns is restored; what it only waits for does not wake it. *)

From S2P Require Import Prelude GoLib Kube CacheTypes McsTypes EndpointsCache ServiceCache IngressCache Repo Config RouteBuild RemoteConnector ServiceExport Startup.

(** ** Events and requests *)

(** An object of an event: kind, name, its controller (kind and name) and, of a
    gateway class, the name of the controller it asks for. *)
Record kobject : Type := mkKObject {
  ko_Kind : string;
  ko_nn : NamespacedName;
  ko_Controller : option (string * string);
  ko_ControllerName : string
}.

(** What [For], [Owns] and [Watches] of the builder add. *)
Inductive watch : Type :=
| For (kind : string)
| Owns (kind : string)
| Watches (kind : string) (predicate : kobject → bool) (map : kobject → list NamespacedName).

(** A controller; the objects of its kind have namespaces or not. *)
Record controller : Type := mkController {
  ct_Kind : string;
  ct_Namespaced : bool;
  ct_Watches : list watch
}.

(** [EnqueueRequestForObject], [EnqueueRequestForOwner] for the controller of the
    object, and [EnqueueRequestsFromMapFunc], as controller-runtime documents them. *)
Definition watch_requests (c : controller) (o : kobject) (w : watch) : list NamespacedName :=
  match w with
  | For kind => if bool_decide (ko_Kind o = kind) then [ko_nn o] else []
  | Owns kind =>
    if bool_decide (ko_Kind o = kind) then
      match ko_Controller o with
      | Some (owner, name) =>
        if bool_decide (owner = ct_Kind c)
        then [mkNN (if ct_Namespaced c then nn_Namespace (ko_nn o) else "") name] else []
      | None => []
      end
    else []
  | Watches kind predicate map => if bool_decide (ko_Kind o = kind) && predicate o then map o else []
  end.

Definition requests (c : controller) (o : kobject) : list NamespacedName :=
  ct_Watches c ≫= watch_requests c o.

(** ** The controllers *)

Definition cluster_controller : controller :=
  mkController "Cluster" false [For "Cluster"; Owns "Secret"; Owns "Deployment"].
Definition serviceexport_controller : controller :=
  mkController "ServiceExport" true [For "ServiceExport"; Owns "Ingress"].
Definition serviceimport_controller : controller :=
  mkController "ServiceImport" true [For "ServiceImport"; Owns "Service"; Owns "Endpoints"].
Definition namespacedingress_controller : controller :=
  mkController "NamespacedIngress" true
    [For "NamespacedIngress"; Owns "Service"; Owns "Deployment"; Owns "ServiceAccount"; Owns "Role"; Owns "RoleBinding"].
Definition servicelb_service_controller : controller :=
  mkController "Service" true [For "Service"; Owns "Pod"; Owns "Endpoints"; Owns "DaemonSet"].
Definition servicelb_node_controller : controller := mkController "Node" false [For "Node"].
Definition gatewayclass_controller : controller := mkController "GatewayClass" false [For "GatewayClass"].
Definition httproute_controller : controller := mkController "HTTPRoute" true [For "HTTPRoute"].

(** [gateways] is what listing them yields. *)
Definition gateway_controller (gateways : result string (list GatewayRef)) : controller :=
  mkController "Gateway" true
    [For "Gateway";
     Watches "GatewayClass" (fun o => watched_class (ko_ControllerName o))
       (fun o => gatewayClassToGateways gateways (nn_Name (ko_nn o)))].

(** The reconcilers of gateways, classes and routes do nothing. *)
Definition Gateway_Reconcile (nn : NamespacedName) : option kerror := None.
Definition GatewayClass_Reconcile (nn : NamespacedName) : option kerror := None.
Definition HTTPRoute_Reconcile (nn : NamespacedName) : option kerror := None.

(** ** Properties *)

(** What an event about an object asks a controller that only watches its own kind
    and owned kinds for. *)
Lemma requests_spec kind namespaced owned o nn :
  let c := mkController kind namespaced (For kind :: (Owns <$> owned)) in
  nn ∈ requests c o ↔
    (ko_Kind o = kind ∧ nn = ko_nn o) ∨
    (ko_Kind o ∈ owned ∧ ∃ name, ko_Controller o = Some (kind, name) ∧
       nn = mkNN (if namespaced then nn_Namespace (ko_nn o) else "") name).
Proof.
  intros c. unfold requests. rewrite list_elem_of_bind. split.
  - intros (w & Hnn & [->|Hw]%elem_of_cons); simpl in Hnn.
    + case_bool_decide; [|by apply elem_of_nil in Hnn]. left. by apply list_elem_of_singleton in Hnn.
    + apply list_elem_of_fmap in Hw as (k & -> & Hk). simpl in Hnn. right.
      case_bool_decide as Hkind; [|by apply elem_of_nil in Hnn].
      destruct (ko_Controller o) as [[owner name]|]; [|by apply elem_of_nil in Hnn].
      case_bool_decide as Howner; [|by apply elem_of_nil in Hnn]. apply list_elem_of_singleton in Hnn as ->. subst.
      split; [done|]. by exists name.
  - intros [[Hk ->]|(Hk & name & Hc & ->)].
    + exists (For kind). split; [|left]. simpl. rewrite bool_decide_eq_true_2 by done. left.
    + exists (Owns (ko_Kind o)). split; [|right; by apply list_elem_of_fmap_2]. simpl.
      rewrite bool_decide_eq_true_2, Hc, bool_decide_eq_true_2 by done. left.
Qed.

(** A gateway is reconciled when it changes, and when its class does, provided that
    the class asks for this controller. *)
Theorem gateway_requests gws o nn :
  nn ∈ requests (gateway_controller (Ok gws)) o ↔
    (ko_Kind o = "Gateway" ∧ nn = ko_nn o) ∨
    (ko_Kind o = "GatewayClass" ∧ ko_ControllerName o = GatewayController_name ∧
     ∃ gw, gw ∈ gws ∧ gw_ClassName gw = nn_Name (ko_nn o) ∧ nn = meta_nn (gw_Meta gw)).
Proof.
  assert (Hg : ∀ l name, nn ∈ class_gateways name l ↔ ∃ gw, gw ∈ l ∧ gw_ClassName gw = name ∧ nn = meta_nn (gw_Meta gw)).
  { induction l as [|gw l IH]; intros name; simpl.
    - split; [by intros ?%elem_of_nil|]. by intros (? & ?%elem_of_nil & _).
    - setoid_rewrite elem_of_cons. case_bool_decide as Hc; rewrite ?elem_of_cons, IH; naive_solver. }
  unfold requests. rewrite list_elem_of_bind. cbn [ct_Watches gateway_controller]. split.
  - intros (w & Hnn & [->|[->|Hw%elem_of_nil]%elem_of_cons]%elem_of_cons); simpl in Hnn; [| |done].
    + case_bool_decide; [|by apply elem_of_nil in Hnn]. left. by apply list_elem_of_singleton in Hnn.
    + unfold watched_class in Hnn. right. repeat case_bool_decide; simpl in Hnn; try by apply elem_of_nil in Hnn.
      by apply Hg in Hnn.
  - intros [[Hk ->]|(Hk & Hc & Hgw)].
    + eexists. split; [|left]. simpl. rewrite bool_decide_eq_true_2 by done. left.
    + eexists. split; [|right; left]. simpl. unfold watched_class. rewrite !bool_decide_eq_true_2 by done. by apply Hg.
Qed.

(** Pods of a load balancer belong to its DaemonSet: their events wake nobody, only
    those of the DaemonSet wake the controller of the service. *)
Theorem lb_pods_wake_nobody nn ds :
  requests servicelb_service_controller (mkKObject "Pod" nn (Some ("DaemonSet", ds)) "") = [] ∧
  ∀ svc, requests servicelb_service_controller (mkKObject "DaemonSet" nn (Some ("Service", svc)) "") =
    [mkNN (nn_Namespace nn) svc].
Proof. by split. Qed.

Section exports.
Context `{MetaLib} `{ExportLib} `{MapRange}.
Context (outcome : export_write → option kerror).

(** The ingress of an export, as events show it. *)
Definition export_ingress_object (export : ServiceExport) : kobject :=
  mkKObject "Ingress" (mkNN (Namespace (se_Meta export)) (export_ingress_name export))
    (Some ("ServiceExport", Name (se_Meta export))) "".

(** The status of an export does not matter for its conflicts. *)
Lemma find_ingress_status meta spec x y er ings :
  find_ingress (mkServiceExport meta spec x) er ings = find_ingress (mkServiceExport meta spec y) er ings.
Proof. induction ings as [|ing ings IH]; [done|]. simpl. by rewrite IH. Qed.

Lemma find_conflict_status export x ers ings :
  find_conflict (mkServiceExport (se_Meta export) (se_Spec export) x) ers ings = find_conflict export ers ings.
Proof.
  destruct export as [meta spec st]. induction ers as [|er ers IH]; [done|]. simpl in *.
  by rewrite (find_ingress_status _ _ x st), IH.
Qed.

(** The ingress of an export is restored.  When it is deleted by someone
    else, the event asks for the reconciliation of exactly that export; and that
    reconciliation, when the export can take effect and the API server accepts what
    is written, creates the ingress again, with the paths and settings of the export
    and owned by it, and reports the export as valid. *)
Theorem deleted_ingress_is_recreated rd export svc ings meta nn :
  requests serviceexport_controller (export_ingress_object export) = [nn] →
  (∀ w, outcome w = None) →
  rd_export rd = Ok export → rd_service rd = Ok svc →
  DeletionTimestamp (svc_Meta svc) = None → svc_Type svc ≠ ServiceTypeExternalName →
  rd_ingresses rd = Ok ings → find_conflict export (ses_Rules (se_Spec export)) ings = Ret None →
  rd_ingress rd = Err NotFound → SetControllerReference (se_Meta export) (ing_Meta (newIngress export)) = Ok meta →
  nn = meta_nn (se_Meta export) ∧
  ∃ e cond, Reconcile outcome nn rd =
      Ret ([CreateIngress (mkIngress meta (Some "pipy") [] (export_rules export)); UpdateStatus e cond], None) ∧
    cond_Type cond = ServiceExportValid ∧ cond_Status cond = ConditionTrue.
Proof.
  intros [= <-] Hout He Hs Hdel Hty Hi Hconf Hing Hset. split; [done|]. unfold Reconcile. rewrite He, Hs.
  rewrite bool_decide_eq_false_2 by (rewrite Hdel; by intros [? ?]). rewrite bool_decide_eq_false_2 by done.
  rewrite Hi. cbn [se_Spec se_Meta].
  rewrite find_conflict_status, Hconf. cbn. rewrite Hing. unfold reconcile_ingress.
  change (newIngress (mkServiceExport (se_Meta export) (se_Spec export) _)) with (newIngress export).
  cbn [se_Meta]. rewrite Hset. unfold successExport, update_status, write_then. rewrite !Hout.
  by eexists _, _.
Qed.

(** An export that was made before its service: the reconciliation reports that the
    service is missing and ends without an error, so that it is not repeated; and no
    event about the service asks for it. *)
Theorem export_not_woken_by_its_service rd export nn svc owner :
  (∀ w, outcome w = None) → rd_export rd = Ok export → rd_service rd = Err NotFound →
  (∃ e cond, Reconcile outcome nn rd = Ret ([UpdateStatus e cond], None) ∧ cond_Status cond = ConditionFalse) ∧
  requests serviceexport_controller (mkKObject "Service" svc owner "") = [].
Proof.
  intros Hout He Hs. split; [|done]. unfold Reconcile. rewrite He, Hs.
  unfold nonexistService, update_status, write_then. rewrite Hout. by eexists _, _.
Qed.
End exports.

(** ** Witness *)

Lemma deleted_ingress_is_recreated_witness :
  requests serviceexport_controller (export_ingress_object (sample_export true)) = [mkNN "ns" "web"] ∧
  ∃ e cond, @Reconcile sample_meta_lib sample_export_lib list_range (fun _ => None) (mkNN "ns" "web") sample_export_reads =
    Ret ([CreateIngress (newIngress (sample_export true)); UpdateStatus e cond], None) ∧ cond_Status cond = ConditionTrue.
Proof.
  split; [reflexivity|].
  destruct (@deleted_ingress_is_recreated sample_meta_lib sample_export_lib list_range (fun _ => None) sample_export_reads
    (sample_export true) (sample_service "ClusterIP") [] (ing_Meta (newIngress (sample_export true))) (mkNN "ns" "web")
    eq_refl (fun _ => eq_refl) eq_refl eq_refl eq_refl) as (_ & e & cond & Hr & _ & Hc);
    [discriminate|reflexivity..|].
  exists e, cond. split; [exact Hr|exact Hc].
Defined.
