(* ===== verification/Manager.v ===== *)
(** * The manager process ([cmd/manager/main.go], [cmd/manager/reconcilers.go],
    [cmd/manager/eventhandlers.go])

    [main] composed of its parts: the options and the check of the server, the
    configuration with the identity of the cluster, the repository, the webhooks,
    the reconcilers, and the start of the controller manager.  An [os.Exit] is the
    error "exit status 1"; what ends the process there is an answer of the outside
    or of a part that is modelled in another file. *)

From S2P Require Import Prelude GoLib Kube CacheTypes McsTypes Repo Config RemoteConnector ClusterReconciler Admission Webhooks NamespacedIngress Startup Connectors.

(** ** Data *)

Definition set_uid (uid : string) (mc : MeshConfig) : MeshConfig :=
  let cl := mc_Cluster mc in
  mkMeshConfig (mc_IsManaged mc) (mc_Repo_RootURL mc) (mc_Images mc) (mc_Webhook_ServiceName mc) (mc_Ingress mc)
    (mc_GatewayApi_Enabled mc) (mc_Certificate mc)
    (mkClusterSettings uid (cl_Region cl) (cl_Zone cl) (cl_Group cl) (cl_Name cl) (cl_ControlPlaneUID cl))
    (mc_ServiceLB_Enabled mc).

(** The answers of the outside, in the order in which they are asked for. *)
Record manager_answers : Type := mkManagerAnswers {
  (** ctrl.Options of the configuration file *)
  ma_Options : result string unit;
  (** kube.NewAPIForConfig, see [Clientset] *)
  ma_API : go (result string unit);
  ma_ServerVersion : result string string;
  (** the namespace of ErieCanal: its UID *)
  ma_Namespace : result kerror string;
  (** [tls.GetCertificateManager], see [Certificates] *)
  ma_CertManager : MeshConfig → result string unit;
  (** ctrl.NewManager *)
  ma_Manager : result string unit;
  (** [createWebhookConfigurations], see [WebhookServer] *)
  ma_WebhookConfigurations : MeshConfig → result string unit;
  (** SetupWithManager of a reconciler *)
  ma_Setup : string → bool;
  (** the informer of config maps *)
  ma_ConfigMapInformer : result string unit;
  ma_Healthz : result string unit;
  ma_Readyz : result string unit;
  (** mgr.Start, when it returns *)
  ma_Start : result string unit
}.

(** What runs when [main] has got to the end. *)
Record manager_run : Type := mkManagerRun {
  st_config : MeshConfig;
  st_reconcilers : list string
}.

Section main.
Context `{SemverLib} `{ConfigLib} `{PollLib}.
Context (Walk : string → result string (list string)) (ReadFile : string → result string string).
Context (md : ErieCanalMetadata) (apiUpdate : ConfigMap → result string ConfigMap).
Context (ma : manager_answers).

(** An error ends the process. *)
Definition must {E A} (r : result E A) : http (go (result string A)) :=
  match r with Ok a => mret (Ret (Ok a)) | Err _ => exit end.
Definition must_go {A} (m : go A) : http (go (result string A)) :=
  mret (a ← m; Ret (Ok a)).

Definition loadManagerOptions : http (go (result string unit)) := must (ma_Options ma).
Definition newK8sAPI : http (go (result string unit)) :=
  match ma_API ma with Ret r => must r | Panic => mret Panic end.
Definition getClusterUID : http (go (result string string)) := must (ma_Namespace ma).
Definition newManager : http (go (result string unit)) := must (ma_Manager ma).

(** The package variable of the version is still zero. *)
Definition check_version : http (go (result string unit)) :=
  step (mret (IsSupportedK8sVersion (ma_ServerVersion ma) zero_version)) (fun r =>
    if negb r.1 then exit else mret (Ret (Ok tt))).

(** [mc.Cluster.UID = getClusterUID(k8sApi)] and [mcClient.UpdateConfig(mc)] *)
Definition store_config (w : cfg_world) : http (go (result string (MeshConfig * cfg_world))) :=
  step (must_go (GetConfig md w)) (fun mc =>
  step getClusterUID (fun uid =>
  step (must_go (UpdateConfig md apiUpdate (Some (set_uid uid mc)) w)) (fun r =>
  step (must r.1) (fun mc => mret (Ret (Ok (mc, r.2))))))).

Definition registerEventHandler : http (go (result string unit)) := must (ma_ConfigMapInformer ma).

Definition addLivenessAndReadinessCheck : http (go (result string unit)) :=
  step (must (ma_Healthz ma)) (fun _ => must (ma_Readyz ma)).

Definition startManager : http (go (result string unit)) := must (ma_Start ma).

(** The reconcilers, for the configuration as it is read then. *)
Definition register_reconcilers (mc : MeshConfig) : http (go (result string (list string))) :=
  let '(l, r) := registerReconcilers (ma_Setup ma) mc in
  match r with Ok _ => mret (Ret (Ok l)) | Err _ => exit end.

Definition main (w : cfg_world) : http (go (result string manager_run)) :=
  step loadManagerOptions (fun _ =>
  step newK8sAPI (fun _ =>
  step check_version (fun _ =>
  step (store_config w) (fun '(mc, w') =>
  step (must (ma_CertManager ma mc)) (fun _ =>
  step (main_repo Walk ReadFile mc) (fun _ =>
  step newManager (fun _ =>
  step (must_go (GetConfig md w')) (fun mc' =>
  step (must (ma_WebhookConfigurations ma mc')) (fun _ =>
  step (register_reconcilers mc') (fun reconcilers =>
  step registerEventHandler (fun _ =>
  step addLivenessAndReadinessCheck (fun _ =>
  step startManager (fun _ =>
  mret (Ret (Ok (mkManagerRun mc reconcilers)))))))))))))))).

(** ** Properties *)

Lemma must_Ok {E A} (r : result E A) s a s' : must r s = (Ret (Ok a), s') → r = Ok a ∧ s' = s.
Proof. destruct r; [by intros [= -> ->]|done]. Qed.

Lemma must_go_Ok {A} (m : go A) s a s' : must_go m s = (Ret (Ok a), s') → m = Ret a ∧ s' = s.
Proof. destruct m; [by intros [= -> ->]|done]. Qed.

Lemma check_version_Ok s u s' :
  check_version s = (Ret (Ok u), s') →
  s' = s ∧ ∃ v, IsSupportedK8sVersion (ma_ServerVersion ma) zero_version = Ret (Ok (true, v)).
Proof.
  intros ([b v] & s1 & Hv & Hr)%step_Ok. injection Hv as Hv ->.
  destruct b; simpl in Hr; [|done]. injection Hr as _ ->. eauto.
Qed.

Lemma store_config_Ok w s mc w' s' :
  store_config w s = (Ret (Ok (mc, w')), s') →
  s' = s ∧ ∃ uid mc0, ma_Namespace ma = Ok uid ∧ GetConfig md w = Ret mc0 ∧
    UpdateConfig md apiUpdate (Some (set_uid uid mc0)) w = Ret (Ok mc, w').
Proof.
  intros (mc0 & s1 & [Hg ->]%must_go_Ok & Hr)%step_Ok.
  apply step_Ok in Hr as (uid & s2 & [Hu ->]%must_Ok & Hr).
  apply step_Ok in Hr as ([r w1] & s3 & [Hup ->]%must_go_Ok & Hr).
  apply step_Ok in Hr as (mc1 & s4 & [Hm ->]%must_Ok & Hr). simpl in Hm.
  injection Hr as -> <- ->. split; [done|]. exists uid, mc0. by rewrite Hup, Hm.
Qed.

Lemma register_all_Ok setup names l :
  register_all setup names = (l, Ok tt) → l = names ∧ ∀ n, n ∈ names → setup n = true.
Proof.
  revert l. induction names as [|n names IH]; intros l; simpl.
  - intros [= <-]. split; [done|]. by intros ? ?%elem_of_nil.
  - destruct (setup n) eqn:Hn; [|done]. destruct (register_all setup names) as [l' r].
    intros [= <- ->]. destruct (IH l' eq_refl) as [-> Hall]. split; [done|].
    intros x [->|Hx]%elem_of_cons; [done|by apply Hall].
Qed.

(** The controllers a configuration enables. *)
Definition enabled_reconcilers (mc : MeshConfig) : list string :=
  ["Cluster"; "ServiceExport"; "ServiceImport"] ++
  (if mc_GatewayApi_Enabled mc then ["Gateway"; "GatewayClass"; "HTTPRoute"] else []) ++
  (if is_Namespaced (mc_Ingress mc) then ["NamespacedIngress"] else []) ++
  (if mc_ServiceLB_Enabled mc then ["ServiceLB(Service)"; "ServiceLB(Node)"] else []).

Lemma register_all_app setup l1 l2 :
  and_then (register_all setup l1) (register_all setup l2) = register_all setup (l1 ++ l2).
Proof.
  unfold and_then. induction l1 as [|n l1 IH]; simpl; [by destruct (register_all setup l2)|].
  destruct (setup n); [|done]. rewrite <-IH. destruct (register_all setup l1) as [l [u|e]]; done.
Qed.

Lemma registerReconcilers_all setup mc : registerReconcilers setup mc = register_all setup (enabled_reconcilers mc).
Proof.
  unfold registerReconcilers, enabled_reconcilers, registerCluster, registerServiceExport, registerServiceImport,
    registerGatewayAPIs, registerNamespacedIngress, registerServiceLB.
  change (["Cluster"; "ServiceExport"; "ServiceImport"]) with (["Cluster"] ++ ["ServiceExport"] ++ ["ServiceImport"]).
  change ([], Ok tt) with (register_all setup []).
  rewrite <-!(app_assoc _ _ (_ ++ _)), <-!register_all_app.
  by destruct (mc_GatewayApi_Enabled mc), (is_Namespaced (mc_Ingress mc)), (mc_ServiceLB_Enabled mc).
Qed.

Lemma newK8sAPI_Ok s u s' : newK8sAPI s = (Ret (Ok u), s') → s' = s.
Proof. unfold newK8sAPI. destruct (ma_API ma) as [r|]; [|done]. by intros [_ ->]%must_Ok. Qed.

Lemma register_Ok mc s l s' :
  register_reconcilers mc s = (Ret (Ok l), s') →
  s' = s ∧ l = enabled_reconcilers mc ∧ ∀ n, n ∈ l → ma_Setup ma n = true.
Proof.
  unfold register_reconcilers. rewrite registerReconcilers_all. destruct (register_all _ _) as [l' [[]|e]] eqn:Hr; [|done].
  intros [= <- <-]. apply register_all_Ok in Hr as [-> Hall]. done.
Qed.

(** The controller manager is started only when everything before it went
    through: the version of the server is supported, the configuration with the
    identity of the cluster (the UID of its namespace) was accepted by the API
    server, the certificate manager was made from the stored configuration, the
    base codebases were published and set up, and the reconcilers are exactly the
    ones that the configuration enables, each of them set up. *)
Theorem manager_starts_complete w s st s' :
  main w s = (Ret (Ok st), s') →
  (∃ v, IsSupportedK8sVersion (ma_ServerVersion ma) zero_version = Ret (Ok (true, v))) ∧
  (∃ uid mc0 w' mc', ma_Namespace ma = Ok uid ∧ GetConfig md w = Ret mc0 ∧
     UpdateConfig md apiUpdate (Some (set_uid uid mc0)) w = Ret (Ok (st_config st), w') ∧
     GetConfig md w' = Ret mc' ∧ ma_WebhookConfigurations ma mc' = Ok tt ∧
     st_reconcilers st = enabled_reconcilers mc') ∧
  ma_CertManager ma (st_config st) = Ok tt ∧
  main_repo Walk ReadFile (st_config st) s = (Ret (Ok tt), s') ∧
  (∀ n, n ∈ st_reconcilers st → ma_Setup ma n = true) ∧
  ma_Start ma = Ok tt.
Proof.
  intros ([] & s1 & [_ ->]%must_Ok & Hr)%step_Ok.
  apply step_Ok in Hr as ([] & s1 & ->%newK8sAPI_Ok & Hr).
  apply step_Ok in Hr as ([] & s2 & [-> [v Hv]]%check_version_Ok & Hr).
  apply step_Ok in Hr as ([mc w'] & s3 & [-> (uid & mc0 & Huid & Hg & Hu)]%store_config_Ok & Hr).
  apply step_Ok in Hr as ([] & s4 & [Hcert ->]%must_Ok & Hr).
  apply step_Ok in Hr as ([] & s5 & Hrepo & Hr).
  apply step_Ok in Hr as ([] & s6 & [_ ->]%must_Ok & Hr).
  apply step_Ok in Hr as (mc' & s7 & [Hg' ->]%must_go_Ok & Hr).
  apply step_Ok in Hr as ([] & s8 & [Hwh ->]%must_Ok & Hr).
  apply step_Ok in Hr as (l & s9 & [-> [Hl Hset]]%register_Ok & Hr).
  apply step_Ok in Hr as ([] & s10 & [_ ->]%must_Ok & Hr).
  apply step_Ok in Hr as ([] & s11 & Hh & Hr).
  apply step_Ok in Hh as ([] & s12 & [_ ->]%must_Ok & [_ ->]%must_Ok).
  apply step_Ok in Hr as ([] & s13 & [Hst ->]%must_Ok & Hr). injection Hr as <- <-. simpl.
  split_and!; eauto 12.
Qed.
End main.

(** ** Witness: everything answers *)

Definition sample_manager_answers : manager_answers :=
  mkManagerAnswers (Ok tt) (Ret (Ok tt)) (Ok "v1.25.3") (Ok "uid") (fun _ => Ok tt) (Ok tt) (fun _ => Ok tt) (fun _ => true)
    (Ok tt) (Ok tt) (Ok tt) (Ok tt).

Definition sample_manager_run : go (result string manager_run) * @session sample_resty :=
  @main sample_semver sample_config_lib sample_resty sample_poll sample_walk sample_read sample_md Ok
    sample_manager_answers sample_join_world fresh_session.

Lemma manager_starts_complete_witness :
  ∃ st, sample_manager_run.1 = Ret (Ok st) ∧ "Cluster" ∈ st_reconcilers st ∧
    @main_repo sample_config_lib sample_resty sample_poll sample_walk sample_read (st_config st) fresh_session =
      (Ret (Ok tt), sample_manager_run.2).
Proof.
  assert (Hrun : ∃ st, sample_manager_run.1 = Ret (Ok st)) by (vm_compute; by eexists).
  destruct Hrun as [st Hst]. exists st. split; [exact Hst|].
  destruct (@manager_starts_complete sample_semver sample_config_lib sample_resty sample_poll sample_walk sample_read
    sample_md Ok sample_manager_answers sample_join_world fresh_session st sample_manager_run.2)
    as (_ & (uid & mc0 & w' & mc' & _ & _ & _ & _ & _ & Hl) & _ & Hrepo & _).
  { change (sample_manager_run = (Ret (Ok st), sample_manager_run.2)). rewrite <-Hst. apply surjective_pairing. }
  split; [rewrite Hl; by left|exact Hrepo].
Defined.

(** ** The process of an ingress pod ([cmd/ingress-pipy/main.go]) *)

Record ingress_answers : Type := mkIngressAnswers {
  (** kube.NewAPIForConfig, see [Clientset] *)
  ia_API : go (result string unit);
  ia_ServerVersion : result string string;
  ia_PodName : string;
  (** the containers of the own pod *)
  ia_Pod : result string (list IngressContainer);
  (** starting the process of pipy, and serving the probes *)
  ia_Start : result string unit;
  ia_Serve : result string unit
}.

Section ingress_main.
Context `{SemverLib} `{ConfigLib}.
Context (md : ErieCanalMetadata) (ia : ingress_answers).

(** The arguments of the pipy process that was started. *)
Definition ingress_main (w : cfg_world) : go (result string (list string)) :=
  api ← ia_API ia;
  match api with
  | Err _ => Ret (Err "exit status 1")
  | Ok _ =>
    supported ← IsSupportedK8sVersion (ia_ServerVersion ia) zero_version;
    match supported with
    | Err e => Ret (Err e)
    | Ok (false, _) => Ret (Err "exit status 1")
    | Ok (true, _) =>
      mc ← GetConfig md w;
      let ingressRepoUrl := ingressCodebase md mc in
      match calcPipySpawn (ia_PodName ia) (ia_Pod ia) with
      | Err e => Ret (Err e)
      | Ok spawn =>
        match ia_Start ia, ia_Serve ia with
        | Ok _, Ok _ => Ret (Ok (startPipy spawn ingressRepoUrl))
        | _, _ => Ret (Err "exit status 1")
        end
      end
    end
  end.

(** An ingress pod that runs has started pipy on the codebase of the stored
    configuration, with as many threads as the limit of its container, at least
    one, and on a server of a supported version. *)
Theorem ingress_runs_configured_pipy w args :
  ingress_main w = Ret (Ok args) →
  (∃ v, IsSupportedK8sVersion (ia_ServerVersion ia) zero_version = Ret (Ok (true, v))) ∧
  ∃ mc containers c, GetConfig md w = Ret mc ∧ ia_Pod ia = Ok containers ∧ c ∈ containers ∧ ctr_Name c = "ingress" ∧
    args = startPipy (Z.max 1 (ctr_CPULimit c)) (ingressCodebase md mc).
Proof.
  unfold ingress_main. intros (api & _ & Hr)%go_bind_ret. destruct api as [u|e]; [|done].
  apply go_bind_ret in Hr as (supported & Hv & Hr). destruct supported as [[[] v]|e]; [|done..].
  split; [by exists v|]. apply go_bind_ret in Hr as (mc & Hmc & Hr). exists mc.
  destruct (ia_Pod ia) as [containers|e]; [|done]. destruct (calcPipySpawn _ _) as [spawn|e] eqn:Hs; [|done].
  apply pipy_threads in Hs as (_ & c & Hin & Hn & ->). destruct (ia_Start ia), (ia_Serve ia); [|done..].
  injection Hr as <-. by exists containers, c.
Qed.
End ingress_main.
