(* ===== verification/Cli.v ===== *)
(** * The command line ([cli/cmd/install.go], [cli/cmd/uninstall.go]) and merging of
    values ([pkg/helm/helm.go])

    Helm and the parsing of [--set] options are parameters; a terminal is the list
    of what its reads yield. *)

From S2P Require Import Prelude GoLib.
From Stdlib Require Import Ascii.

(** ** [strings.TrimSpace], on ASCII *)

Definition is_space (c : ascii) : bool :=
  let n := nat_of_ascii c in ((9 <=? n)%nat && (n <=? 13)%nat) || (n =? 32)%nat.

Fixpoint TrimLeftSpace (s : string) : string :=
  match s with
  | String c s' => if is_space c then TrimLeftSpace s' else s
  | EmptyString => EmptyString
  end.

Fixpoint TrimRightSpace (s : string) : string :=
  match s with
  | String c s =>
    match TrimRightSpace s with
    | EmptyString => if is_space c then EmptyString else String c EmptyString
    | s' => String c s'
    end
  | EmptyString => EmptyString
  end.

Definition TrimSpace (s : string) : string := TrimRightSpace (TrimLeftSpace s).

(** ** Uninstalling *)

(** What a line of input means. *)
Inductive reply : Type := Yes | No | Again.

Definition parse_reply (res : string) : reply :=
  if (String.length res <? 2)%nat then Again
  else
    let s := ToLower (TrimSpace res) in
    if bool_decide (s = "y") then Yes else if bool_decide (s = "n") then No else Again.

(** The loop; [input] is what the reads yield, a read beyond it fails. *)
Fixpoint confirm_loop (tries : nat) (input : list (result string string)) : result string bool :=
  match tries with
  | O => Ok false
  | S tries =>
    match input with
    | [] => Err "EOF"
    | Err e :: _ => Err e
    | Ok res :: input =>
      match parse_reply res with
      | Yes => Ok true
      | No => Ok false
      | Again => confirm_loop tries input
      end
    end
  end.

Definition confirm (input : list (result string string)) (tries : Z) : result string bool :=
  confirm_loop (Z.to_nat tries) input.

Record uninstallMeshCmd : Type := mkUninstall {
  un_meshName : string;
  un_namespace : string;
  un_force : bool
}.

(** The name of the release that is uninstalled, if any, and the error returned;
    [uninstall] is helm. *)
Definition uninstall_run (u : uninstallMeshCmd) (input : list (result string string))
    (uninstall : string → result string unit) : option string * option string :=
  match confirm input 3 with
  | Err e => (None, Some e)
  | Ok false => (None, None)
  | Ok true =>
    (Some (un_meshName u), match uninstall (un_meshName u) with Ok _ => None | Err e => Some e end)
  end.

(** ** Installing *)

Section install.
(** [map[string]interface{}] and [strvals.ParseInto], which changes its argument. *)
Context {Values : Type} (empty : Values) (ParseInto : string → Values → result string unit * Values).

Record installCmd : Type := mkInstall {
  in_meshName : string;
  in_namespace : string;
  in_timeout : Z;
  in_setOptions : list string;
  in_atomic : bool
}.

(** The options of helm. *)
Record install_options : Type := mkInstallOptions {
  io_ReleaseName : string;
  io_Namespace : string;
  io_CreateNamespace : bool;
  io_Wait : bool;
  io_Atomic : bool;
  io_Timeout : Z
}.

Fixpoint parseVal (vals : list string) (parsedVals : Values) : result string unit * Values :=
  match vals with
  | [] => (Ok tt, parsedVals)
  | v :: vals =>
    match ParseInto v parsedVals with
    | (Err e, parsedVals) => (Err e, parsedVals)
    | (Ok _, parsedVals) => parseVal vals parsedVals
    end
  end.

Definition resolve_set_options (i : installCmd) : result string Values :=
  match parseVal (in_setOptions i) empty with
  | (Err e, _) => Err ("invalid format for --set: " +:+ e)
  | (Ok _, finalValues) => Ok finalValues
  end.

(** What helm is asked to do, if it comes to that, and the error returned. *)
Definition install_run {Chart} (i : installCmd) (chart : result string Chart)
    (install : install_options → Chart → Values → result string unit) :
    option (install_options * Chart * Values) * option string :=
  match chart with
  | Err e => (None, Some ("error loading chart for installation: " +:+ e))
  | Ok chart =>
    match resolve_set_options i with
    | Err e => (None, Some e)
    | Ok values =>
      let opts := mkInstallOptions (in_meshName i) (in_namespace i) true true (in_atomic i) (in_timeout i) in
      (Some (opts, chart, values), match install opts chart values with Ok _ => None | Err e => Some e end)
    end
  end.
End install.

(** ** Merging values ([helm.MergeMaps]) *)

(** A value: a map, of which no key occurs twice, or anything else. *)
Inductive value : Type :=
| VMap (kvs : list (string * value))
| VAtom (a : string).

Fixpoint alookup (k : string) (m : list (string * value)) : option value :=
  match m with
  | [] => None
  | (k', v) :: m => if bool_decide (k' = k) then Some v else alookup k m
  end.

(** [out[k] = v] *)
Fixpoint aset (k : string) (v : value) (m : list (string * value)) : list (string * value) :=
  match m with
  | [] => [(k, v)]
  | (k', v') :: m => if bool_decide (k' = k) then (k, v) :: m else (k', v') :: aset k v m
  end.

(** The entries of [v], if it is a map, merged into [out]. *)
Fixpoint merge_into (v : value) (out : list (string * value)) : list (string * value) :=
  match v with
  | VAtom _ => out
  | VMap b =>
    (fix go b out :=
       match b with
       | [] => out
       | (k, v) :: b =>
         go b (aset k
           match v with
           | VAtom _ => v
           | VMap _ =>
             match alookup k out with
             | Some (VMap bv) => VMap (merge_into v bv)
             | _ => v
             end
           end out)
       end) b out
  end.

Definition MergeMaps (a b : list (string * value)) : list (string * value) := merge_into (VMap b) a.

(** ** Properties *)

(** The command uninstalls the release only when one of at most three lines the
    user typed, all before it being neither, says so. *)
Theorem confirm_needs_yes input tries :
  confirm input tries = Ok true →
  ∃ pre res rest, input = (Ok <$> pre) ++ Ok res :: rest ∧ (Z.of_nat (length pre) < tries)%Z ∧
    Forall (fun l => parse_reply l = Again) pre ∧ ToLower (TrimSpace res) = "y".
Proof.
  unfold confirm. intros Hc.
  cut (∃ pre res rest, input = (Ok <$> pre) ++ Ok res :: rest ∧ (length pre < Z.to_nat tries)%nat ∧
    Forall (fun l => parse_reply l = Again) pre ∧ ToLower (TrimSpace res) = "y").
  { intros (pre & res & rest & ? & ? & ?). exists pre, res, rest. split_and!; try tauto. lia. }
  revert input Hc. induction (Z.to_nat tries) as [|n IH]; intros input; simpl; [done|].
  destruct input as [|[res|e] input]; [done| |done]. destruct (parse_reply res) eqn:Hres; [|done|].
  - intros _. exists [], res, input. split_and!; [done|simpl; lia|constructor|].
    unfold parse_reply in Hres. destruct (String.length res <? 2)%nat; [done|].
    case_bool_decide; [done|]. by case_bool_decide.
  - intros (pre & r & rest & -> & Hlen & Hf & Hy)%IH. exists (res :: pre), r, rest.
    split_and!; [done|simpl; lia|by constructor|done].
Qed.

(** The flag that is documented to skip the question has no effect. *)
Theorem force_is_ignored u input uninstall :
  uninstall_run u input uninstall = uninstall_run (mkUninstall (un_meshName u) (un_namespace u) (negb (un_force u))) input uninstall ∧
  (un_force u = true → uninstall_run u [] uninstall = (None, Some "EOF")).
Proof. by split. Qed.

(** Helm is asked to install only with values that all options parsed into. *)
Theorem install_uses_all_options {Values Chart} (empty : Values) ParseInto i (chart : result string Chart) install asked err :
  install_run empty ParseInto i chart install = (Some asked, err) →
  ∃ c values, chart = Ok c ∧ parseVal ParseInto (in_setOptions i) empty = (Ok tt, values) ∧
    asked = (mkInstallOptions (in_meshName i) (in_namespace i) true true (in_atomic i) (in_timeout i), c, values) ∧
    (err = None ↔ install asked.1.1 c values = Ok tt).
Proof.
  unfold install_run, resolve_set_options. destruct chart as [c|e]; [|done].
  destruct (parseVal _ _ _) as [[[]|e] values]; [|done]. intros [= <- <-]. exists c, values.
  split_and!; [done..|]. simpl. destruct (install _ c values) as [[]|e]; split; congruence.
Qed.

(** *** Merging *)

Fixpoint well_formed (v : value) : Prop :=
  match v with
  | VAtom _ => True
  | VMap m =>
    (fix all m :=
       match m with
       | [] => True
       | (k, v) :: m => alookup k m = None ∧ well_formed v ∧ all m
       end) m
  end.

Lemma well_formed_cons k v m : well_formed (VMap ((k, v) :: m)) ↔ alookup k m = None ∧ well_formed v ∧ well_formed (VMap m).
Proof. done. Qed.

Lemma alookup_aset k v m k' : alookup k' (aset k v m) = if bool_decide (k = k') then Some v else alookup k' m.
Proof.
  induction m as [|[k0 v0] m IH]; simpl; [done|].
  destruct (decide (k0 = k)) as [->|H0]; [rewrite bool_decide_true by done; simpl; by case_bool_decide|].
  rewrite bool_decide_false by done. simpl. rewrite IH.
  destruct (decide (k = k')) as [<-|H1]; [|by rewrite (bool_decide_false (k = k'))].
  by rewrite bool_decide_false, bool_decide_true.
Qed.

(** What a merged entry is. *)
Definition merged (old : option value) (v : value) : value :=
  match v, old with
  | VMap _, Some (VMap bv) => VMap (merge_into v bv)
  | _, _ => v
  end.

Lemma merge_into_cons k v b out :
  merge_into (VMap ((k, v) :: b)) out = merge_into (VMap b) (aset k (merged (alookup k out) v) out).
Proof. cbn [merge_into]. unfold merged. by destruct v. Qed.

(** The keys of both maps are kept; where both have a map these are merged, and
    else the second one's entry wins.  The statement does not depend on the order
    in which the maps are visited. *)
Theorem MergeMaps_lookup a b k :
  well_formed (VMap b) →
  alookup k (MergeMaps a b) =
    match alookup k b with
    | None => alookup k a
    | Some v => Some (merged (alookup k a) v)
    end.
Proof.
  unfold MergeMaps. revert a. induction b as [|[k0 v0] b IH]; intros a Hwf; [done|].
  apply well_formed_cons in Hwf as (Hno & _ & Hwf). rewrite merge_into_cons, IH, !alookup_aset by done. simpl.
  case_bool_decide as Hk; [|done]. subst k0. by rewrite Hno.
Qed.

(** The value at the end of a path of keys. *)
Fixpoint at_path (p : list string) (v : value) : option value :=
  match p with
  | [] => Some v
  | k :: p => match v with VMap m => alookup k m ≫= at_path p | VAtom _ => None end
  end.

Lemma well_formed_lookup m k v : well_formed (VMap m) → alookup k m = Some v → well_formed v.
Proof.
  induction m as [|[k0 v0] m IH]; [done|]. intros (_ & Hv & Hm)%well_formed_cons. simpl.
  case_bool_decide; [by intros [= <-]|by apply IH].
Qed.

(** Every setting of the second map is in force, however deep it is. *)
Theorem MergeMaps_overrides p a b x :
  well_formed (VMap b) → p ≠ [] → at_path p (VMap b) = Some (VAtom x) →
  at_path p (VMap (MergeMaps a b)) = Some (VAtom x).
Proof.
  revert a b. induction p as [|k p IH]; intros a b Hwf Hne Hp; [done|]. cbn [at_path] in *.
  rewrite MergeMaps_lookup by done. destruct (alookup k b) as [v|] eqn:Hk; [|done]. simpl in Hp |- *.
  unfold merged. destruct v as [m|y]; [|done]. destruct (alookup k a) as [[m'|z]|]; [|done..].
  destruct p as [|k' p]; [done|]. apply (IH m' m); [by eapply well_formed_lookup|done|done].
Qed.
