(* ===== verification/Memory.v ===== *)
(** * Go's memory: pointers, slices and maps that may be shared

    The model of memory under which the deep copies of the API objects
    ([DeepCopy]) are proved: values hold references into a heap, a type says what
    is reached through them, and the class [DeepCopies] is what a copying function
    promises. *)

From S2P Require Import Prelude GoLib.

(** ** Values and types *)

Abbreviation loc := nat.

(** What is copied by an assignment: strings, numbers, booleans. *)
Inductive scalar : Type := SString (s : string) | SInt (z : Z) | SBool (b : bool).

(** A value as a variable holds it.  A reference is a pointer, a slice or a map;
    nil is [None]. *)
Inductive val : Type :=
| VScalar (s : scalar)
| VStruct (fields : gmap string val)
| VRef (l : option loc).

(** What a reference leads to.  A slice views the whole of its array. *)
Inductive cell : Type :=
| CObj (v : val)
| CSlice (vs : list val)
| CMap (kvs : gmap string val).

Abbreviation heap := (gmap nat cell).

(** Types are not recursive, so that everything is defined by recursion on them. *)
Inductive ty : Type :=
| TScalar
| TStruct (fields : list (string * ty))
| TPtr (t : ty)
| TSlice (t : ty)
| TMap (t : ty).

(** What a value stands for, with everything it leads to. *)
Inductive tree : Type :=
| RScalar (s : scalar)
| RStruct (fields : list tree)
| RNil
| RPtr (r : tree)
| RSlice (rs : list tree)
| RMap (kvs : gmap string tree).

Fixpoint ty_ind' (P : ty → Prop) (Hs : P TScalar)
    (Hst : ∀ fs, Forall (fun nt => P nt.2) fs → P (TStruct fs))
    (Hp : ∀ t, P t → P (TPtr t)) (Hsl : ∀ t, P t → P (TSlice t)) (Hm : ∀ t, P t → P (TMap t)) (t : ty) : P t :=
  match t with
  | TScalar => Hs
  | TStruct fs =>
    Hst fs ((fix go fs : Forall (fun nt => P nt.2) fs :=
               match fs with
               | [] => Forall_nil_2 _
               | nt :: fs => Forall_cons_2 _ nt fs (ty_ind' P Hs Hst Hp Hsl Hm nt.2) (go fs)
               end) fs)
  | TPtr t => Hp t (ty_ind' P Hs Hst Hp Hsl Hm t)
  | TSlice t => Hsl t (ty_ind' P Hs Hst Hp Hsl Hm t)
  | TMap t => Hm t (ty_ind' P Hs Hst Hp Hsl Hm t)
  end.

(** ** Meaning and footprint of a value *)

Fixpoint denote (t : ty) (h : heap) (v : val) : option tree :=
  match t, v with
  | TScalar, VScalar s => Some (RScalar s)
  | TStruct fs, VStruct vs => RStruct <$> mapM (fun nt => vs !! nt.1 ≫= denote nt.2 h) fs
  | (TPtr _ | TSlice _ | TMap _), VRef None => Some RNil
  | TPtr t, VRef (Some l) =>
    match h !! l with Some (CObj v) => RPtr <$> denote t h v | _ => None end
  | TSlice t, VRef (Some l) =>
    match h !! l with Some (CSlice vs) => RSlice <$> mapM (denote t h) vs | _ => None end
  | TMap t, VRef (Some l) =>
    match h !! l with
    | Some (CMap kvs) =>
      if bool_decide (map_Forall (fun _ v => is_Some (denote t h v)) kvs)
      then Some (RMap (omap (denote t h) kvs)) else None
    | _ => None
    end
  | _, _ => None
  end.

(** The cells that a value of a type leads to. *)
Fixpoint foot (t : ty) (h : heap) (v : val) : gset loc :=
  match t, v with
  | TStruct fs, VStruct vs =>
    ⋃ ((fun nt => match vs !! nt.1 with Some v => foot nt.2 h v | None => ∅ end) <$> fs)
  | TPtr t, VRef (Some l) =>
    {[l]} ∪ match h !! l with Some (CObj v) => foot t h v | _ => ∅ end
  | TSlice t, VRef (Some l) =>
    {[l]} ∪ match h !! l with Some (CSlice vs) => ⋃ (foot t h <$> vs) | _ => ∅ end
  | TMap t, VRef (Some l) =>
    {[l]} ∪ match h !! l with Some (CMap kvs) => ⋃ (foot t h <$> (map_to_list kvs).*2) | _ => ∅ end
  | _, _ => ∅
  end.

(** Nothing is reached through a value of the type. *)
Fixpoint flat (t : ty) : bool :=
  match t with
  | TScalar => true
  | TStruct fs => forallb (fun nt => flat nt.2) fs
  | _ => false
  end.

(** ** Code that reads and allocates memory *)

(** [None] is code that goes wrong: a dangling or ill-typed access. *)
Definition heapM (A : Type) : Type := heap → option (A * heap).

#[export] Instance heapM_ret : MRet heapM := fun A a h => Some (a, h).
#[export] Instance heapM_bind : MBind heapM :=
  fun A B f m h => match m h with Some (a, h') => f a h' | None => None end.

Definition stuck {A} : heapM A := fun _ => None.
Definition load (l : loc) : heapM cell := fun h => (fun c => (c, h)) <$> h !! l.
Definition alloc (c : cell) : heapM loc := fun h => let l := fresh (dom h) in Some (l, <[l := c]> h).

(** [make([]T, len)] and a loop that fills it: the elements in order. *)
Fixpoint copy_elems (f : val → heapM val) (vs : list val) : heapM (list val) :=
  match vs with
  | [] => mret []
  | v :: vs => v' ← f v; vs' ← copy_elems f vs; mret (v' :: vs')
  end.

(** [if in != nil { *out = make([]T, len( *in)); ... }] *)
Definition copy_slice (f : val → heapM val) (v : val) : heapM val :=
  match v with
  | VRef None => mret v
  | VRef (Some l) =>
    c ← load l;
    match c with
    | CSlice vs => vs' ← copy_elems f vs; l' ← alloc (CSlice vs'); mret (VRef (Some l'))
    | _ => stuck
    end
  | _ => stuck
  end.

(** [if in != nil { *out = new(T); ( *in).DeepCopyInto( *out) }] *)
Definition copy_ptr (f : val → heapM val) (v : val) : heapM val :=
  match v with
  | VRef None => mret v
  | VRef (Some l) =>
    c ← load l;
    match c with
    | CObj x => x' ← f x; l' ← alloc (CObj x'); mret (VRef (Some l'))
    | _ => stuck
    end
  | _ => stuck
  end.

(** [if in != nil { *out = make(map[K]T); for key, val := range *in { ( *out)[key] = val } }] *)
Definition copy_map `{MapRange} (v : val) : heapM val :=
  match v with
  | VRef None => mret v
  | VRef (Some l) =>
    c ← load l;
    match c with
    | CMap kvs => l' ← alloc (CMap (gomap_merge ∅ (Some kvs))); mret (VRef (Some l'))
    | _ => stuck
    end
  | _ => stuck
  end.

(** [*out = *in], and then fields of [out] are replaced by copies of those of [in]. *)
Fixpoint copy_into (ops : list (string * (val → heapM val))) (inp out : gmap string val) : heapM (gmap string val) :=
  match ops with
  | [] => mret out
  | (n, f) :: ops =>
    match inp !! n with
    | Some x => x' ← f x; copy_into ops inp (<[n := x']> out)
    | None => stuck
    end
  end.

Definition copy_fields (ops : list (string * (val → heapM val))) (v : val) : heapM val :=
  match v with
  | VStruct inp => out ← copy_into ops inp inp; mret (VStruct out)
  | _ => stuck
  end.

(** ** Values depend on their footprint only *)

Lemma heapM_bind_eq {A B} (m : heapM A) (f : A → heapM B) h :
  (m ≫= f) h = match m h with Some (a, h') => f a h' | None => None end.
Proof. done. Qed.

Definition agree (D : gset loc) (h h' : heap) : Prop := ∀ l, l ∈ D → h' !! l = h !! l.

Lemma agree_mono D D' h h' : D' ⊆ D → agree D h h' → agree D' h h'.
Proof. intros Hs Ha l Hl. apply Ha. set_solver. Qed.

Lemma mapM_elem {A B} (f : A → option B) l k x : mapM f l = Some k → x ∈ l → ∃ y, f x = Some y ∧ y ∈ k.
Proof.
  intros Hm%mapM_Some Hx. apply list_elem_of_lookup in Hx as [i Hi].
  destruct (Forall2_lookup_l _ _ _ _ _ Hm Hi) as (y & Hy & Hf). exists y. split; [done|by eapply list_elem_of_lookup_2].
Qed.

Lemma mapM_agree {A B} (f g : A → option B) l k :
  mapM f l = Some k → (∀ x y, x ∈ l → f x = Some y → g x = Some y) → mapM g l = Some k.
Proof.
  intros Hm%mapM_Some Hfg. apply mapM_Some, Forall2_same_length_lookup. split; [exact (Forall2_length _ _ _ Hm)|].
  intros i x y Hx Hy. apply Hfg; [by eapply list_elem_of_lookup_2|]. exact (Forall2_lookup_lr _ _ _ _ _ _ Hm Hx Hy).
Qed.

Lemma elem_of_union_fmap {A} (f : A → gset loc) l a : a ∈ ⋃ (f <$> l) ↔ ∃ x, x ∈ l ∧ a ∈ f x.
Proof.
  rewrite elem_of_union_list. setoid_rewrite list_elem_of_fmap. naive_solver.
Qed.

Lemma union_fmap_sub {A} (f : A → gset loc) l x : x ∈ l → f x ⊆ ⋃ (f <$> l).
Proof. intros Hx a Ha. apply elem_of_union_fmap. eauto. Qed.

Lemma union_fmap_ext {A} (f g : A → gset loc) l : (∀ x, x ∈ l → f x = g x) → ⋃ (f <$> l) = ⋃ (g <$> l).
Proof.
  intros Hfg. apply set_eq. intros a. rewrite !elem_of_union_fmap.
  split; intros (x & Hx & Hin); exists x; (split; [done|]); [by rewrite <-Hfg|by rewrite Hfg].
Qed.

Lemma map_values_elem (kvs : gmap string val) v : v ∈ (map_to_list kvs).*2 ↔ ∃ k, kvs !! k = Some v.
Proof.
  rewrite list_elem_of_fmap. split.
  - intros ([k v'] & -> & Hin%elem_of_map_to_list). by exists k.
  - intros [k Hk]. exists (k, v). split; [done|by apply elem_of_map_to_list].
Qed.

(** A type whose values depend on their footprint only. *)
Definition local (t : ty) : Prop := ∀ h h' v r,
  denote t h v = Some r → agree (foot t h v) h h' → denote t h' v = Some r ∧ foot t h' v = foot t h v.

Lemma local_struct fs : Forall (fun nt => local nt.2) fs → local (TStruct fs).
Proof.
  intros IH h h' v r Hd Ha. destruct v as [|vs|]; [done| |done]. cbn [denote foot] in *.
  apply fmap_Some in Hd as (rs & Hm & ->). rewrite Forall_forall in IH.
  assert (Hfield : ∀ nt y, nt ∈ fs → vs !! nt.1 ≫= denote nt.2 h = Some y →
    vs !! nt.1 ≫= denote nt.2 h' = Some y ∧
    match vs !! nt.1 with Some v => foot nt.2 h' v | None => ∅ end =
    match vs !! nt.1 with Some v => foot nt.2 h v | None => ∅ end).
  { intros nt y Hin Hy. pose proof (union_fmap_sub (fun nt => match vs !! nt.1 with Some v => foot nt.2 h v | None => ∅ end) _ _ Hin) as Hsub.
    simpl in Hsub. destruct (vs !! nt.1) as [x|]; [|done]. simpl in *. apply IH; [done|done|].
    by eapply agree_mono. }
  split.
  - rewrite (mapM_agree _ _ _ _ Hm); [done|]. intros nt y Hin Hy. by apply Hfield.
  - apply union_fmap_ext. intros nt Hin. destruct (mapM_elem _ _ _ _ Hm Hin) as (y & Hy & _). by apply (Hfield nt y).
Qed.

Lemma local_slice t : local t → local (TSlice t).
Proof.
  intros IH h h' v r Hd Ha. destruct v as [| |[l|]]; [done|done| |done]. cbn [denote foot] in *.
  rewrite (Ha l) by set_solver. destruct (h !! l) as [[|vs|]|]; [done| |done..].
  apply fmap_Some in Hd as (rs & Hm & ->).
  assert (He : ∀ x y, x ∈ vs → denote t h x = Some y → denote t h' x = Some y ∧ foot t h' x = foot t h x).
  { intros x y Hx Hy. apply IH; [done|]. eapply agree_mono; [|exact Ha].
    pose proof (union_fmap_sub (foot t h) _ _ Hx). set_solver. }
  split.
  - rewrite (mapM_agree _ _ _ _ Hm); [done|]. intros x y Hx Hy. by apply He.
  - f_equal. apply union_fmap_ext. intros x Hx. destruct (mapM_elem _ _ _ _ Hm Hx) as (y & Hy & _). by apply (He x y).
Qed.

Lemma local_map t : local t → local (TMap t).
Proof.
  intros IH h h' v r Hd Ha. destruct v as [| |[l|]]; [done|done| |done]. cbn [denote foot] in *.
  rewrite (Ha l) by set_solver. destruct (h !! l) as [[| |kvs]|]; [done|done| |done].
  case_bool_decide as Hall; [|done]. injection Hd as <-.
  assert (He : ∀ k x, kvs !! k = Some x → denote t h' x = denote t h x ∧ foot t h' x = foot t h x).
  { intros k x Hx. destruct (Hall k x Hx) as [y Hy]. rewrite Hy. apply IH; [done|]. eapply agree_mono; [|exact Ha].
    pose proof (union_fmap_sub (foot t h) (map_to_list kvs).*2 x) as Hsub. rewrite map_values_elem in Hsub.
    specialize (Hsub (ex_intro _ k Hx)). set_solver. }
  split.
  - rewrite bool_decide_true by (intros k x Hx; destruct (He k x Hx) as [-> _]; by eapply Hall).
    do 2 f_equal. apply map_eq. intros k. rewrite !lookup_omap. destruct (kvs !! k) as [x|] eqn:Hx; [|done].
    by apply (He k).
  - f_equal. apply union_fmap_ext. intros x [k Hx]%map_values_elem. by apply (He k).
Qed.

(** Memory that agrees on the footprint gives the value the same meaning. *)
Lemma denote_local t : local t.
Proof.
  induction t as [|fs IH|t IH|t IH|t IH] using ty_ind'; [|by apply local_struct| |by apply local_slice|by apply local_map].
  - intros h h' v r Hd Ha. by destruct v.
  - intros h h' v r Hd Ha. destruct v as [| |[l|]]; [done|done| |done]. cbn [denote foot] in *.
    rewrite (Ha l) by set_solver. destruct (h !! l) as [[x| |]|]; [|done..].
    apply fmap_Some in Hd as (r' & Hd & ->). destruct (IH h h' x r' Hd) as [-> ->]; [|done].
    eapply agree_mono; [|exact Ha]. set_solver.
Qed.

(** A value with a meaning leads to allocated cells only. *)
Lemma foot_dom t : ∀ h v r, denote t h v = Some r → foot t h v ⊆ dom h.
Proof.
  induction t as [|fs IH|t IH|t IH|t IH] using ty_ind'; intros h v r Hd.
  - by destruct v.
  - destruct v as [|vs|]; [done| |done]. cbn [denote foot] in *.
    apply fmap_Some in Hd as (rs & Hm & ->). rewrite Forall_forall in IH.
    intros a (nt & Hin & Ha)%elem_of_union_fmap. destruct (mapM_elem _ _ _ _ Hm Hin) as (y & Hy & _).
    simpl in Hy. destruct (vs !! nt.1) as [x|]; [|done]. by eapply IH.
  - destruct v as [| |[l|]]; [done|done| |done]. cbn [denote foot] in *.
    destruct (h !! l) as [[x| |]|] eqn:Hl; [|done..]. apply fmap_Some in Hd as (r' & Hd & ->).
    apply elem_of_dom_2 in Hl. apply IH in Hd. set_solver.
  - destruct v as [| |[l|]]; [done|done| |done]. cbn [denote foot] in *.
    destruct (h !! l) as [[|vs|]|] eqn:Hl; [done| |done..]. apply fmap_Some in Hd as (rs & Hm & ->).
    apply elem_of_dom_2 in Hl. apply union_subseteq. split; [set_solver|].
    intros a (x & Hx & Ha)%elem_of_union_fmap. destruct (mapM_elem _ _ _ _ Hm Hx) as (y & Hy & _). by eapply IH.
  - destruct v as [| |[l|]]; [done|done| |done]. cbn [denote foot] in *.
    destruct (h !! l) as [[| |kvs]|] eqn:Hl; [done|done| |done]. case_bool_decide as Hall; [|done].
    apply elem_of_dom_2 in Hl. apply union_subseteq. split; [set_solver|].
    intros a (x & [k Hx]%map_values_elem & Ha)%elem_of_union_fmap. destruct (Hall k x Hx) as [y Hy]. by eapply IH.
Qed.

Lemma flat_foot t : ∀ h v, flat t = true → foot t h v = ∅.
Proof.
  induction t as [|fs IH|t IH|t IH|t IH] using ty_ind'; intros h v Hf; [|..|done|done|done].
  - by destruct v.
  - destruct v as [|vs|]; [done| |done]. cbn [flat foot] in *. apply set_eq. intros a. split; [|set_solver].
    intros (nt & Hin & Ha)%elem_of_union_fmap. rewrite Forall_forall in IH. rewrite forallb_forall in Hf.
    specialize (Hf nt). rewrite <-list_elem_of_In in Hf. destruct (vs !! nt.1) as [x|]; [|done].
    rewrite (IH nt Hin h x (Hf Hin)) in Ha. done.
Qed.

Lemma denote_mono t h h' v r :
  h ⊆ h' → denote t h v = Some r → denote t h' v = Some r ∧ foot t h' v = foot t h v.
Proof.
  intros Hsub Hd. apply denote_local; [done|]. intros l Hl. apply (foot_dom _ _ _ _ Hd), elem_of_dom in Hl as [c Hc].
  rewrite Hc. by eapply lookup_weaken.
Qed.

(** ** What a copying function promises *)

(** [v'] is a copy made since memory was [h]: same meaning, nothing shared. *)
Record copied (h : heap) (t : ty) (r : tree) (v' : val) (h' : heap) : Prop := {
  cp_grows : h ⊆ h';
  cp_denotes : denote t h' v' = Some r;
  cp_fresh : foot t h' v' ## dom h
}.

(** Copying does not go wrong, and yields a copy. *)
Class DeepCopies (t : ty) (f : val → heapM val) : Prop :=
  deep_copies : ∀ h v r, denote t h v = Some r → ∃ v' h', f v h = Some (v', h') ∧ copied h t r v' h'.

Lemma copied_since h0 h t r v' h' : h0 ⊆ h → copied h t r v' h' → copied h0 t r v' h'.
Proof.
  intros Hsub [Hg Hd Hf]. split; [by etrans|done|]. apply subseteq_dom in Hsub. set_solver.
Qed.

Lemma copied_grow h t r v' h' h'' : copied h t r v' h' → h' ⊆ h'' → copied h t r v' h''.
Proof.
  intros [Hg Hd Hf] Hsub. destruct (denote_mono _ _ _ _ _ Hsub Hd) as [Hd' Hf']. split; [by etrans|done|by rewrite Hf'].
Qed.

Lemma alloc_grows (h : heap) c : h ⊆ <[fresh (dom h) := c]> h.
Proof. apply insert_subseteq, not_elem_of_dom, is_fresh. Qed.

Lemma alloc_fresh (h0 h : heap) : h0 ⊆ h → fresh (dom h) ∉ dom h0.
Proof. intros Hsub%subseteq_dom Hin. apply (is_fresh (dom h)). set_solver. Qed.

(** An assignment copies a value through which nothing is reached. *)
Lemma flat_copies t : flat t = true → DeepCopies t mret.
Proof.
  intros Hf h v r Hd. exists v, h. split; [done|]. split; [done|done|]. rewrite flat_foot by done. set_solver.
Qed.

Class FlatType (t : ty) : Prop := flat_type : flat t = true.
#[export] Hint Extern 0 (FlatType _) => reflexivity : typeclass_instances.

#[export] Instance flat_type_copies t `{!FlatType t} : DeepCopies t mret.
Proof. by apply flat_copies. Qed.

Section combinators.
Context (t : ty) (f : val → heapM val) `{Hf : !DeepCopies t f}.

Lemma copy_elems_copies vs rs h :
  mapM (denote t h) vs = Some rs →
  ∃ vs' h', copy_elems f vs h = Some (vs', h') ∧ h ⊆ h' ∧ Forall2 (fun r v' => copied h t r v' h') rs vs'.
Proof.
  revert rs h. induction vs as [|v vs IH]; intros rs h Hm.
  - injection Hm as <-. exists [], h. by split_and!.
  - apply mapM_Some, Forall2_cons_inv_l in Hm as (r & rs' & Hr & Hm%mapM_Some & ->).
    destruct (Hf h v r Hr) as (v' & h1 & Hv & Hc). pose proof (cp_grows _ _ _ _ _ Hc) as H1.
    destruct (IH rs' h1) as (vs' & h2 & Hvs & H2 & Hcs).
    { eapply mapM_agree; [exact Hm|]. intros x y _ Hy. by eapply denote_mono. }
    exists (v' :: vs'), h2. cbn [copy_elems]. rewrite heapM_bind_eq, Hv, heapM_bind_eq, Hvs. split_and!; [done|by etrans|].
    constructor; [by eapply copied_grow|]. eapply Forall2_impl; [exact Hcs|]. intros ? ?. by apply copied_since.
Qed.

#[export] Instance copy_slice_copies : DeepCopies (TSlice t) (copy_slice f).
Proof.
  intros h v r Hd. destruct v as [| |[l|]]; [done|done| |].
  - cbn [denote] in Hd. destruct (h !! l) as [[|vs|]|] eqn:Hl; [done| |done..].
    apply fmap_Some in Hd as (rs & Hm & ->). destruct (copy_elems_copies vs rs h Hm) as (vs' & h' & Hvs & Hg & Hcs).
    exists (VRef (Some (fresh (dom h')))), (<[fresh (dom h') := CSlice vs']> h').
    unfold copy_slice. rewrite heapM_bind_eq. unfold load. rewrite Hl. simpl. rewrite heapM_bind_eq, Hvs. split; [done|].
    assert (Hcs' : Forall2 (fun r v' => copied h t r v' (<[fresh (dom h') := CSlice vs']> h')) rs vs').
    { eapply Forall2_impl; [exact Hcs|]. intros ? ? Hc. eapply copied_grow; [exact Hc|apply alloc_grows]. }
    split; [etrans; [exact Hg|apply alloc_grows]| |]; cbn [denote foot]; rewrite lookup_insert_eq.
    + rewrite (mapM_Some_2 _ _ rs); [done|]. apply Forall2_flip in Hcs'. eapply Forall2_impl; [exact Hcs'|].
      intros ? ? Hc. apply (cp_denotes _ _ _ _ _ Hc).
    + apply disjoint_union_l. split; [apply disjoint_singleton_l; by apply alloc_fresh|].
      intros a (x & Hx & Ha)%elem_of_union_fmap. apply list_elem_of_lookup in Hx as [i Hi].
      destruct (Forall2_lookup_r _ _ _ _ _ Hcs' Hi) as (y & _ & Hc). by apply (cp_fresh _ _ _ _ _ Hc).
  - exists (VRef None), h. split; [done|]. split; [done|done|]. cbn [foot]. set_solver.
Qed.

#[export] Instance copy_ptr_copies : DeepCopies (TPtr t) (copy_ptr f).
Proof.
  intros h v r Hd. destruct v as [| |[l|]]; [done|done| |].
  - cbn [denote] in Hd. destruct (h !! l) as [[x| |]|] eqn:Hl; [|done..].
    apply fmap_Some in Hd as (r' & Hx & ->). destruct (Hf h x r' Hx) as (x' & h' & Hcopy & Hc).
    exists (VRef (Some (fresh (dom h')))), (<[fresh (dom h') := CObj x']> h').
    unfold copy_ptr. rewrite heapM_bind_eq. unfold load. rewrite Hl. simpl. rewrite heapM_bind_eq, Hcopy. split; [done|].
    pose proof (copied_grow _ _ _ _ _ _ Hc (alloc_grows h' (CObj x'))) as Hc'.
    split; [apply (cp_grows _ _ _ _ _ Hc')| |]; cbn [denote foot]; rewrite lookup_insert_eq.
    + by rewrite (cp_denotes _ _ _ _ _ Hc').
    + apply disjoint_union_l. split; [|apply (cp_fresh _ _ _ _ _ Hc')].
      apply disjoint_singleton_l, alloc_fresh. apply (cp_grows _ _ _ _ _ Hc).
  - exists (VRef None), h. split; [done|]. split; [done|done|]. cbn [foot]. set_solver.
Qed.
End combinators.

(** Maps are copied entry by entry with assignments. *)
#[export] Instance copy_map_copies `{MapRange} : DeepCopies (TMap TScalar) copy_map.
Proof.
  intros h v r Hd. destruct v as [| |[l|]]; [done|done| |].
  - cbn [denote] in Hd. destruct (h !! l) as [[| |kvs]|] eqn:Hl; [done|done| |done].
    assert (Hkvs : gomap_merge ∅ (Some kvs) = kvs).
    { apply map_eq. intros k. rewrite lookup_gomap_merge. simpl. by destruct (kvs !! k). }
    exists (VRef (Some (fresh (dom h)))), (<[fresh (dom h) := CMap kvs]> h).
    unfold copy_map. rewrite heapM_bind_eq. unfold load. rewrite Hl. simpl. rewrite Hkvs. split; [done|].
    split; [apply alloc_grows| |]; cbn [denote foot]; rewrite lookup_insert_eq; [done|].
    apply disjoint_union_l. split; [apply disjoint_singleton_l, is_fresh|].
    intros a (x & _ & Ha)%elem_of_union_fmap. destruct x; set_solver.
  - exists (VRef None), h. split; [done|]. split; [done|done|]. cbn [foot]. set_solver.
Qed.

(** *** Structs *)

Section struct.
Context (fs : list (string * ty)) (Hnd : NoDup fs.*1).

(** The fields of [out] have their meaning, and those in [D] share nothing with the
    memory there was at the start. *)
Definition fields_copied (D : string → Prop) (h0 h : heap) (out : gmap string val) (rs : list tree) : Prop :=
  Forall2 (fun nt r => ∃ x, out !! nt.1 = Some x ∧ denote nt.2 h x = Some r ∧
    (D nt.1 → foot nt.2 h x ## dom h0)) fs rs.

Lemma fields_of_struct h vs r :
  denote (TStruct fs) h (VStruct vs) = Some r →
  ∃ rs, r = RStruct rs ∧ fields_copied (fun _ => False) h h vs rs.
Proof.
  cbn [denote]. intros (rs & Hm%mapM_Some & ->)%fmap_Some. exists rs. split; [done|].
  eapply Forall2_impl; [exact Hm|]. intros nt r (x & Hx & Hd)%bind_Some. by exists x.
Qed.

Lemma field_copied D h0 h out rs n t r i :
  fields_copied D h0 h out rs → fs !! i = Some (n, t) → rs !! i = Some r →
  ∃ x, out !! n = Some x ∧ denote t h x = Some r ∧ (D n → foot t h x ## dom h0).
Proof. intros Hc Hi Hr. apply (Forall2_lookup_lr _ _ _ _ _ _ Hc Hi Hr). Qed.

Lemma copy_into_copies ops : ∀ D h0 h inp out rs,
  Forall (fun op => ∃ t, (op.1, t) ∈ fs ∧ DeepCopies t op.2) ops →
  h0 ⊆ h → fields_copied (fun _ => False) h0 h0 inp rs → fields_copied D h0 h out rs →
  ∃ out' h', copy_into ops inp out h = Some (out', h') ∧ h ⊆ h' ∧
    fields_copied (fun n => n ∈ ops.*1 ∨ D n) h0 h' out' rs.
Proof.
  induction ops as [|[n f] ops IH]; intros D h0 h inp out rs Hops Hsub Hin Hout.
  - exists out, h. split_and!; [done|done|]. eapply Forall2_impl; [exact Hout|].
    intros nt r (x & Hx & Hd & Hf). exists x. split_and!; [done|done|]. intros [Hn|]; [by apply elem_of_nil in Hn|by apply Hf].
  - apply Forall_cons in Hops as [(t & Ht & Hf) Hops]. simpl in Ht, Hf.
    apply list_elem_of_lookup in Ht as [i Hi].
    destruct (Forall2_lookup_l _ _ _ _ _ Hin Hi) as (r & Hr & x & Hx & Hd & _). simpl in Hx, Hd.
    destruct (denote_mono _ _ _ _ _ Hsub Hd) as [Hd1 _]. destruct (Hf h x r Hd1) as (x' & h1 & Hcopy & Hc).
    destruct (IH (fun m => m = n ∨ D m) h0 h1 inp (<[n := x']> out) rs) as (out' & h' & Hrest & Hg & Hc').
    + done.
    + etrans; [exact Hsub|apply (cp_grows _ _ _ _ _ Hc)].
    + done.
    + apply Forall2_same_length_lookup. split; [by eapply Forall2_length|].
      intros j [m u] r' Hj Hr'. simpl. destruct (decide (m = n)) as [->|Hne].
      * assert (j = i) as ->.
        { eapply (NoDup_lookup fs.*1); [exact Hnd|by rewrite list_lookup_fmap, Hj|by rewrite list_lookup_fmap, Hi]. }
        rewrite Hi in Hj. injection Hj as <-. rewrite Hr in Hr'. injection Hr' as <-.
        exists x'. rewrite lookup_insert_eq. split_and!; [done|apply (cp_denotes _ _ _ _ _ Hc)|].
        intros _. apply (cp_fresh _ _ _ _ _ (copied_since _ _ _ _ _ _ Hsub Hc)).
      * destruct (field_copied _ _ _ _ _ _ _ _ _ Hout Hj Hr') as (y & Hy & Hdy & Hfy).
        destruct (denote_mono _ _ _ _ _ (cp_grows _ _ _ _ _ Hc) Hdy) as [Hdy' Hfoot].
        exists y. rewrite lookup_insert_ne by done. split_and!; [done|done|]. rewrite Hfoot. intros [->|]; [done|by apply Hfy].
    + exists out', h'. cbn [copy_into]. rewrite Hx, heapM_bind_eq, Hcopy. split_and!; [done|etrans; [apply (cp_grows _ _ _ _ _ Hc)|done]|].
      eapply Forall2_impl; [exact Hc'|]. intros nt r' (y & Hy & Hdy & Hfy). exists y. split_and!; [done|done|].
      intros Hor. apply Hfy. rewrite fmap_cons, elem_of_cons in Hor. simpl in Hor. tauto.
Qed.

(** A struct is copied by assignment followed by copies of all fields through which
    something is reached. *)
Lemma copy_fields_copies ops :
  Forall (fun op => ∃ t, (op.1, t) ∈ fs ∧ DeepCopies t op.2) ops →
  Forall (fun nt => nt.1 ∈ ops.*1 ∨ flat nt.2 = true) fs →
  DeepCopies (TStruct fs) (copy_fields ops).
Proof.
  intros Hops Hall h v r Hd. destruct v as [|inp|]; [done| |done].
  destruct (fields_of_struct _ _ _ Hd) as (rs & -> & Hin).
  destruct (copy_into_copies ops (fun _ => False) h h inp inp rs Hops) as (out & h' & Hcopy & Hg & Hc); [done|done|done|].
  exists (VStruct out), h'. cbn [copy_fields]. rewrite heapM_bind_eq, Hcopy. split; [done|]. split; [done| |].
  - cbn [denote]. rewrite (mapM_Some_2 _ _ rs); [done|]. eapply Forall2_impl; [exact Hc|].
    intros nt r (x & Hx & Hdx & _). by rewrite Hx.
  - cbn [foot]. intros a ([n t] & Hnt & Ha)%elem_of_union_fmap. pose proof Hnt as [i Hi]%list_elem_of_lookup.
    destruct (Forall2_lookup_l _ _ _ _ _ Hc Hi) as (r & _ & x & Hx & _ & Hfx). simpl in *. rewrite Hx in Ha.
    rewrite Forall_forall in Hall. destruct (Hall _ Hnt) as [Hop|Hflat]; [by apply Hfx; [left|]|].
    rewrite flat_foot in Ha by done. set_solver.
Qed.
End struct.

(** ** Independence *)

(** However the copy is changed afterwards, the original keeps its meaning, and
    conversely. *)
Lemma copied_independent h t r v v' h' :
  denote t h v = Some r → copied h t r v' h' →
  (∀ h'', (∀ l, l ∉ foot t h' v' → h'' !! l = h' !! l) → denote t h'' v = Some r) ∧
  (∀ h'', (∀ l, l ∉ dom h → h'' !! l = h' !! l) → denote t h'' v' = Some r).
Proof.
  intros Hd Hc. split; intros h'' Hsame.
  - destruct (denote_mono _ _ _ _ _ (cp_grows _ _ _ _ _ Hc) Hd) as [Hd' Hfoot].
    eapply denote_local; [exact Hd'|]. intros l Hl. apply Hsame. intros Hl'. rewrite Hfoot in Hl.
    apply (foot_dom _ _ _ _ Hd) in Hl. by apply (cp_fresh _ _ _ _ _ Hc l).
  - eapply denote_local; [apply (cp_denotes _ _ _ _ _ Hc)|]. intros l Hl. apply Hsame. intros Hl'.
    by apply (cp_fresh _ _ _ _ _ Hc l).
Qed.

(** Solves [DeepCopies] for a struct: every copied field is one of the struct and is
    copied deeply, all others are flat. *)
Ltac solve_field := repeat (first [apply list_elem_of_here | apply list_elem_of_further]).
Ltac solve_struct :=
  apply copy_fields_copies;
  [ apply (bool_decide_unpack _); vm_compute; exact I
  | repeat (apply Forall_cons_2; [eexists; split; [cbn [fst]; solve [solve_field] | cbn [snd]; apply _] |]); apply Forall_nil_2
  | repeat (apply Forall_cons_2; [cbn [fst snd]; first [left; solve [solve_field] | right; reflexivity | right; apply flat_type] |]); apply Forall_nil_2 ].
