(* ===== verification/DeepCopy.v ===== *)
(** * Deep copies of the API objects ([apis/*/v1alpha1/zz_generated.deepcopy.go])

    The types of the objects, the functions that copy them, and the proof that a
    copy means the same as the original and shares no memory with it: the caches of
    the informers hand out shared objects, and the code that changes one changes a
    copy. *)

From S2P Require Import Prelude GoLib Memory.

(** ** Types of Kubernetes *)

(** The types of Kubernetes that the objects embed. *)
Inductive ext : Type :=
| ObjectMeta | ListMeta | Condition | SessionAffinityConfig | CoreServicePort | EnvVar
| ResourceRequirements | Affinity | Toleration | SecurityContext | PodSecurityContext.

(** Their structure, and their copying functions, which make deep copies; TypeMeta
    holds strings only. *)
Class ExternalTypes : Type := {
  TypeMeta_type : ty;
  TypeMeta_flat :: FlatType TypeMeta_type;
  ext_type : ext → ty;
  ext_DeepCopyInto : ext → val → heapM val;
  ext_copies :: ∀ x, DeepCopies (ext_type x) (ext_DeepCopyInto x)
}.

(** [if in == nil { return nil }; out := new(T); in.DeepCopyInto(out); return out] *)
Definition DeepCopy (DeepCopyInto : val → heapM val) (inp : val) : heapM val :=
  match inp with
  | VRef (Some l) =>
    c ← load l;
    match c with
    | CObj v => out ← DeepCopyInto v; l' ← alloc (CObj out); mret (VRef (Some l'))
    | _ => stuck
    end
  | VRef None => mret (VRef None)
  | _ => stuck
  end.

(** [if c := in.DeepCopy(); c != nil { return c }; return nil]: an interface is nil
    or holds the pointer. *)
Definition DeepCopyObject (DeepCopy : val → heapM val) (inp : val) : heapM (option val) :=
  c ← DeepCopy inp;
  match c with VRef None => mret None | c => mret (Some c) end.

#[export] Instance DeepCopy_copies t f `{!DeepCopies t f} : DeepCopies (TPtr t) (DeepCopy f).
Proof.
  intros h v r Hd. destruct (copy_ptr_copies t f h v r Hd) as (v' & h' & Hc & Hcp). exists v', h'.
  split; [|done]. rewrite <-Hc. by destruct v as [| |[]].
Qed.

(** ** The types and their copies *)

Section copies.
Context `{ExternalTypes} `{MapRange}.

(** *** [apis/cluster/v1alpha1] *)

Definition ClusterSpec_type : ty :=
  TStruct [("IsInCluster", TScalar); ("Region", TScalar); ("Zone", TScalar); ("Group", TScalar);
    ("GatewayHost", TScalar); ("GatewayPort", TScalar); ("Kubeconfig", TScalar)].

Definition ClusterStatus_type : ty :=
  TStruct [("Conditions", TSlice (ext_type Condition))].

Definition Cluster_type : ty :=
  TStruct [("TypeMeta", TypeMeta_type); ("ObjectMeta", ext_type ObjectMeta); ("Spec", ClusterSpec_type);
    ("Status", ClusterStatus_type)].

Definition ClusterList_type : ty :=
  TStruct [("TypeMeta", TypeMeta_type); ("ListMeta", ext_type ListMeta); ("Items", TSlice Cluster_type)].

Definition ClusterSpec_DeepCopyInto : val → heapM val := copy_fields [].

Definition ClusterSpec_DeepCopy : val → heapM val := DeepCopy ClusterSpec_DeepCopyInto.

#[export] Instance ClusterSpec_copies : DeepCopies ClusterSpec_type ClusterSpec_DeepCopyInto.
Proof. solve_struct. Qed.

Definition ClusterStatus_DeepCopyInto : val → heapM val :=
  copy_fields [("Conditions", copy_slice (ext_DeepCopyInto Condition))].

Definition ClusterStatus_DeepCopy : val → heapM val := DeepCopy ClusterStatus_DeepCopyInto.

#[export] Instance ClusterStatus_copies : DeepCopies ClusterStatus_type ClusterStatus_DeepCopyInto.
Proof. solve_struct. Qed.

Definition Cluster_DeepCopyInto : val → heapM val :=
  copy_fields [("TypeMeta", mret); ("ObjectMeta", ext_DeepCopyInto ObjectMeta); ("Spec", mret);
    ("Status", ClusterStatus_DeepCopyInto)].

Definition Cluster_DeepCopy : val → heapM val := DeepCopy Cluster_DeepCopyInto.
Definition Cluster_DeepCopyObject : val → heapM (option val) := DeepCopyObject Cluster_DeepCopy.

#[export] Instance Cluster_copies : DeepCopies Cluster_type Cluster_DeepCopyInto.
Proof. solve_struct. Qed.

Definition ClusterList_DeepCopyInto : val → heapM val :=
  copy_fields [("TypeMeta", mret); ("ListMeta", ext_DeepCopyInto ListMeta); ("Items", copy_slice Cluster_DeepCopyInto)].

Definition ClusterList_DeepCopy : val → heapM val := DeepCopy ClusterList_DeepCopyInto.
Definition ClusterList_DeepCopyObject : val → heapM (option val) := DeepCopyObject ClusterList_DeepCopy.

#[export] Instance ClusterList_copies : DeepCopies ClusterList_type ClusterList_DeepCopyInto.
Proof. solve_struct. Qed.


(** *** [apis/serviceexport/v1alpha1] *)

Definition ServiceExportRule_type : ty :=
  TStruct [("PortNumber", TScalar); ("Path", TScalar); ("PathType", TPtr TScalar)].

Definition PathRewrite_type : ty :=
  TStruct [("From", TScalar); ("To", TScalar)].

Definition ServiceExportSpec_type : ty :=
  TStruct [("PathRewrite", TPtr PathRewrite_type); ("SessionSticky", TScalar); ("LoadBalancer", TScalar);
    ("Rules", TSlice ServiceExportRule_type); ("TargetClusters", TSlice TScalar);
    ("ServiceAccountName", TScalar)].

Definition ServiceExportStatus_type : ty :=
  TStruct [("Conditions", TSlice (ext_type Condition))].

Definition ServiceExport_type : ty :=
  TStruct [("TypeMeta", TypeMeta_type); ("ObjectMeta", ext_type ObjectMeta); ("Spec", ServiceExportSpec_type);
    ("Status", ServiceExportStatus_type)].

Definition ServiceExportList_type : ty :=
  TStruct [("TypeMeta", TypeMeta_type); ("ListMeta", ext_type ListMeta); ("Items", TSlice ServiceExport_type)].

Definition ServiceExportRule_DeepCopyInto : val → heapM val :=
  copy_fields [("PathType", copy_ptr mret)].

Definition ServiceExportRule_DeepCopy : val → heapM val := DeepCopy ServiceExportRule_DeepCopyInto.

#[export] Instance ServiceExportRule_copies : DeepCopies ServiceExportRule_type ServiceExportRule_DeepCopyInto.
Proof. solve_struct. Qed.

Definition PathRewrite_DeepCopyInto : val → heapM val := copy_fields [].

Definition PathRewrite_DeepCopy : val → heapM val := DeepCopy PathRewrite_DeepCopyInto.

#[export] Instance PathRewrite_copies : DeepCopies PathRewrite_type PathRewrite_DeepCopyInto.
Proof. solve_struct. Qed.

Definition ServiceExportSpec_DeepCopyInto : val → heapM val :=
  copy_fields [("PathRewrite", copy_ptr mret); ("Rules", copy_slice ServiceExportRule_DeepCopyInto);
    ("TargetClusters", copy_slice mret)].

Definition ServiceExportSpec_DeepCopy : val → heapM val := DeepCopy ServiceExportSpec_DeepCopyInto.

#[export] Instance ServiceExportSpec_copies : DeepCopies ServiceExportSpec_type ServiceExportSpec_DeepCopyInto.
Proof. solve_struct. Qed.

Definition ServiceExportStatus_DeepCopyInto : val → heapM val :=
  copy_fields [("Conditions", copy_slice (ext_DeepCopyInto Condition))].

Definition ServiceExportStatus_DeepCopy : val → heapM val := DeepCopy ServiceExportStatus_DeepCopyInto.

#[export] Instance ServiceExportStatus_copies : DeepCopies ServiceExportStatus_type ServiceExportStatus_DeepCopyInto.
Proof. solve_struct. Qed.

Definition ServiceExport_DeepCopyInto : val → heapM val :=
  copy_fields [("TypeMeta", mret); ("ObjectMeta", ext_DeepCopyInto ObjectMeta);
    ("Spec", ServiceExportSpec_DeepCopyInto); ("Status", ServiceExportStatus_DeepCopyInto)].

Definition ServiceExport_DeepCopy : val → heapM val := DeepCopy ServiceExport_DeepCopyInto.
Definition ServiceExport_DeepCopyObject : val → heapM (option val) := DeepCopyObject ServiceExport_DeepCopy.

#[export] Instance ServiceExport_copies : DeepCopies ServiceExport_type ServiceExport_DeepCopyInto.
Proof. solve_struct. Qed.

Definition ServiceExportList_DeepCopyInto : val → heapM val :=
  copy_fields [("TypeMeta", mret); ("ListMeta", ext_DeepCopyInto ListMeta);
    ("Items", copy_slice ServiceExport_DeepCopyInto)].

Definition ServiceExportList_DeepCopy : val → heapM val := DeepCopy ServiceExportList_DeepCopyInto.
Definition ServiceExportList_DeepCopyObject : val → heapM (option val) := DeepCopyObject ServiceExportList_DeepCopy.

#[export] Instance ServiceExportList_copies : DeepCopies ServiceExportList_type ServiceExportList_DeepCopyInto.
Proof. solve_struct. Qed.


(** *** [apis/serviceimport/v1alpha1] *)

Definition ImportTarget_type : ty :=
  TStruct [("Host", TScalar); ("IP", TScalar); ("Port", TScalar); ("Path", TScalar)].

Definition ImportEndpoint_type : ty :=
  TStruct [("Target", ImportTarget_type); ("ClusterKey", TScalar)].

Definition ImportServicePort_type : ty :=
  TStruct [("Name", TScalar); ("Protocol", TScalar); ("AppProtocol", TPtr TScalar); ("Port", TScalar);
    ("Endpoints", TSlice ImportEndpoint_type)].

Definition ServiceImportSpec_type : ty :=
  TStruct [("Ports", TSlice ImportServicePort_type); ("IPs", TSlice TScalar); ("Type", TScalar);
    ("SessionAffinity", TScalar); ("SessionAffinityConfig", TPtr (ext_type SessionAffinityConfig));
    ("ServiceAccountName", TScalar)].

Definition ImportClusterStatus_type : ty :=
  TStruct [("Cluster", TScalar); ("Addresses", TSlice TScalar)].

Definition ServiceImportStatus_type : ty :=
  TStruct [("Clusters", TSlice ImportClusterStatus_type)].

Definition ServiceImport_type : ty :=
  TStruct [("TypeMeta", TypeMeta_type); ("ObjectMeta", ext_type ObjectMeta); ("Spec", ServiceImportSpec_type);
    ("Status", ServiceImportStatus_type)].

Definition ServiceImportList_type : ty :=
  TStruct [("TypeMeta", TypeMeta_type); ("ListMeta", ext_type ListMeta); ("Items", TSlice ServiceImport_type)].

Definition ImportTarget_DeepCopyInto : val → heapM val := copy_fields [].

Definition ImportTarget_DeepCopy : val → heapM val := DeepCopy ImportTarget_DeepCopyInto.

#[export] Instance ImportTarget_copies : DeepCopies ImportTarget_type ImportTarget_DeepCopyInto.
Proof. solve_struct. Qed.

Definition ImportEndpoint_DeepCopyInto : val → heapM val :=
  copy_fields [("Target", mret)].

Definition ImportEndpoint_DeepCopy : val → heapM val := DeepCopy ImportEndpoint_DeepCopyInto.

#[export] Instance ImportEndpoint_copies : DeepCopies ImportEndpoint_type ImportEndpoint_DeepCopyInto.
Proof. solve_struct. Qed.

Definition ImportServicePort_DeepCopyInto : val → heapM val :=
  copy_fields [("AppProtocol", copy_ptr mret); ("Endpoints", copy_slice mret)].

Definition ImportServicePort_DeepCopy : val → heapM val := DeepCopy ImportServicePort_DeepCopyInto.

#[export] Instance ImportServicePort_copies : DeepCopies ImportServicePort_type ImportServicePort_DeepCopyInto.
Proof. solve_struct. Qed.

Definition ServiceImportSpec_DeepCopyInto : val → heapM val :=
  copy_fields [("Ports", copy_slice ImportServicePort_DeepCopyInto); ("IPs", copy_slice mret);
    ("SessionAffinityConfig", copy_ptr (ext_DeepCopyInto SessionAffinityConfig))].

Definition ServiceImportSpec_DeepCopy : val → heapM val := DeepCopy ServiceImportSpec_DeepCopyInto.

#[export] Instance ServiceImportSpec_copies : DeepCopies ServiceImportSpec_type ServiceImportSpec_DeepCopyInto.
Proof. solve_struct. Qed.

Definition ImportClusterStatus_DeepCopyInto : val → heapM val :=
  copy_fields [("Addresses", copy_slice mret)].

Definition ImportClusterStatus_DeepCopy : val → heapM val := DeepCopy ImportClusterStatus_DeepCopyInto.

#[export] Instance ImportClusterStatus_copies : DeepCopies ImportClusterStatus_type ImportClusterStatus_DeepCopyInto.
Proof. solve_struct. Qed.

Definition ServiceImportStatus_DeepCopyInto : val → heapM val :=
  copy_fields [("Clusters", copy_slice ImportClusterStatus_DeepCopyInto)].

Definition ServiceImportStatus_DeepCopy : val → heapM val := DeepCopy ServiceImportStatus_DeepCopyInto.

#[export] Instance ServiceImportStatus_copies : DeepCopies ServiceImportStatus_type ServiceImportStatus_DeepCopyInto.
Proof. solve_struct. Qed.

Definition ServiceImport_DeepCopyInto : val → heapM val :=
  copy_fields [("TypeMeta", mret); ("ObjectMeta", ext_DeepCopyInto ObjectMeta);
    ("Spec", ServiceImportSpec_DeepCopyInto); ("Status", ServiceImportStatus_DeepCopyInto)].

Definition ServiceImport_DeepCopy : val → heapM val := DeepCopy ServiceImport_DeepCopyInto.
Definition ServiceImport_DeepCopyObject : val → heapM (option val) := DeepCopyObject ServiceImport_DeepCopy.

#[export] Instance ServiceImport_copies : DeepCopies ServiceImport_type ServiceImport_DeepCopyInto.
Proof. solve_struct. Qed.

Definition ServiceImportList_DeepCopyInto : val → heapM val :=
  copy_fields [("TypeMeta", mret); ("ListMeta", ext_DeepCopyInto ListMeta);
    ("Items", copy_slice ServiceImport_DeepCopyInto)].

Definition ServiceImportList_DeepCopy : val → heapM val := DeepCopy ServiceImportList_DeepCopyInto.
Definition ServiceImportList_DeepCopyObject : val → heapM (option val) := DeepCopyObject ServiceImportList_DeepCopy.

#[export] Instance ServiceImportList_copies : DeepCopies ServiceImportList_type ServiceImportList_DeepCopyInto.
Proof. solve_struct. Qed.


(** *** [apis/namespacedingress/v1alpha1] *)

Definition NsigHTTP_type : ty :=
  TStruct [("Enabled", TScalar); ("Port", ext_type CoreServicePort)].

Definition NsigSSLPassthrough_type : ty :=
  TStruct [("Enabled", TScalar); ("UpstreamPort", TPtr TScalar)].

Definition NsigTLS_type : ty :=
  TStruct [("Enabled", TScalar); ("Port", ext_type CoreServicePort); ("SSLPassthrough", NsigSSLPassthrough_type)].

Definition NamespacedIngressSpec_type : ty :=
  TStruct [("ServiceType", TScalar); ("ServiceAnnotations", TMap TScalar); ("ServiceLabels", TMap TScalar);
    ("PodAnnotations", TMap TScalar); ("PodLabels", TMap TScalar); ("HTTP", NsigHTTP_type);
    ("TLS", NsigTLS_type); ("Env", TSlice (ext_type EnvVar)); ("Resources", ext_type ResourceRequirements);
    ("NodeSelector", TMap TScalar); ("ServiceAccountName", TScalar); ("Affinity", TPtr (ext_type Affinity));
    ("Tolerations", TSlice (ext_type Toleration)); ("LogLevel", TPtr TScalar); ("Replicas", TPtr TScalar);
    ("SecurityContext", TPtr (ext_type SecurityContext));
    ("PodSecurityContext", TPtr (ext_type PodSecurityContext))].

Definition NamespacedIngressStatus_type : ty :=
  TStruct [("Replicas", TScalar); ("Selector", TScalar)].

Definition NamespacedIngress_type : ty :=
  TStruct [("TypeMeta", TypeMeta_type); ("ObjectMeta", ext_type ObjectMeta); ("Spec", NamespacedIngressSpec_type);
    ("Status", NamespacedIngressStatus_type)].

Definition NamespacedIngressList_type : ty :=
  TStruct [("TypeMeta", TypeMeta_type); ("ListMeta", ext_type ListMeta); ("Items", TSlice NamespacedIngress_type)].

Definition NsigHTTP_DeepCopyInto : val → heapM val :=
  copy_fields [("Port", ext_DeepCopyInto CoreServicePort)].

Definition NsigHTTP_DeepCopy : val → heapM val := DeepCopy NsigHTTP_DeepCopyInto.

#[export] Instance NsigHTTP_copies : DeepCopies NsigHTTP_type NsigHTTP_DeepCopyInto.
Proof. solve_struct. Qed.

Definition NsigSSLPassthrough_DeepCopyInto : val → heapM val :=
  copy_fields [("UpstreamPort", copy_ptr mret)].

Definition NsigSSLPassthrough_DeepCopy : val → heapM val := DeepCopy NsigSSLPassthrough_DeepCopyInto.

#[export] Instance NsigSSLPassthrough_copies : DeepCopies NsigSSLPassthrough_type NsigSSLPassthrough_DeepCopyInto.
Proof. solve_struct. Qed.

Definition NsigTLS_DeepCopyInto : val → heapM val :=
  copy_fields [("Port", ext_DeepCopyInto CoreServicePort); ("SSLPassthrough", NsigSSLPassthrough_DeepCopyInto)].

Definition NsigTLS_DeepCopy : val → heapM val := DeepCopy NsigTLS_DeepCopyInto.

#[export] Instance NsigTLS_copies : DeepCopies NsigTLS_type NsigTLS_DeepCopyInto.
Proof. solve_struct. Qed.

Definition NamespacedIngressSpec_DeepCopyInto : val → heapM val :=
  copy_fields [("ServiceAnnotations", copy_map); ("ServiceLabels", copy_map); ("PodAnnotations", copy_map);
    ("PodLabels", copy_map); ("HTTP", NsigHTTP_DeepCopyInto); ("TLS", NsigTLS_DeepCopyInto);
    ("Env", copy_slice (ext_DeepCopyInto EnvVar)); ("Resources", ext_DeepCopyInto ResourceRequirements);
    ("NodeSelector", copy_map); ("Affinity", copy_ptr (ext_DeepCopyInto Affinity));
    ("Tolerations", copy_slice (ext_DeepCopyInto Toleration)); ("LogLevel", copy_ptr mret);
    ("Replicas", copy_ptr mret); ("SecurityContext", copy_ptr (ext_DeepCopyInto SecurityContext));
    ("PodSecurityContext", copy_ptr (ext_DeepCopyInto PodSecurityContext))].

Definition NamespacedIngressSpec_DeepCopy : val → heapM val := DeepCopy NamespacedIngressSpec_DeepCopyInto.

#[export] Instance NamespacedIngressSpec_copies : DeepCopies NamespacedIngressSpec_type NamespacedIngressSpec_DeepCopyInto.
Proof. solve_struct. Qed.

Definition NamespacedIngressStatus_DeepCopyInto : val → heapM val := copy_fields [].

Definition NamespacedIngressStatus_DeepCopy : val → heapM val := DeepCopy NamespacedIngressStatus_DeepCopyInto.

#[export] Instance NamespacedIngressStatus_copies : DeepCopies NamespacedIngressStatus_type NamespacedIngressStatus_DeepCopyInto.
Proof. solve_struct. Qed.

Definition NamespacedIngress_DeepCopyInto : val → heapM val :=
  copy_fields [("TypeMeta", mret); ("ObjectMeta", ext_DeepCopyInto ObjectMeta);
    ("Spec", NamespacedIngressSpec_DeepCopyInto); ("Status", mret)].

Definition NamespacedIngress_DeepCopy : val → heapM val := DeepCopy NamespacedIngress_DeepCopyInto.
Definition NamespacedIngress_DeepCopyObject : val → heapM (option val) := DeepCopyObject NamespacedIngress_DeepCopy.

#[export] Instance NamespacedIngress_copies : DeepCopies NamespacedIngress_type NamespacedIngress_DeepCopyInto.
Proof. solve_struct. Qed.

Definition NamespacedIngressList_DeepCopyInto : val → heapM val :=
  copy_fields [("TypeMeta", mret); ("ListMeta", ext_DeepCopyInto ListMeta);
    ("Items", copy_slice NamespacedIngress_DeepCopyInto)].

Definition NamespacedIngressList_DeepCopy : val → heapM val := DeepCopy NamespacedIngressList_DeepCopyInto.
Definition NamespacedIngressList_DeepCopyObject : val → heapM (option val) := DeepCopyObject NamespacedIngressList_DeepCopy.

#[export] Instance NamespacedIngressList_copies : DeepCopies NamespacedIngressList_type NamespacedIngressList_DeepCopyInto.
Proof. solve_struct. Qed.


(** *** [apis/globaltrafficpolicy/v1alpha1] *)

Definition TrafficTarget_type : ty :=
  TStruct [("ClusterKey", TScalar); ("Weight", TPtr TScalar)].

Definition GlobalTrafficPolicySpec_type : ty :=
  TStruct [("LbType", TScalar); ("Targets", TSlice TrafficTarget_type)].

Definition GlobalTrafficPolicyStatus_type : ty := TStruct [].

Definition GlobalTrafficPolicy_type : ty :=
  TStruct [("TypeMeta", TypeMeta_type); ("ObjectMeta", ext_type ObjectMeta); ("Spec", GlobalTrafficPolicySpec_type);
    ("Status", GlobalTrafficPolicyStatus_type)].

Definition GlobalTrafficPolicyList_type : ty :=
  TStruct [("TypeMeta", TypeMeta_type); ("ListMeta", ext_type ListMeta); ("Items", TSlice GlobalTrafficPolicy_type)].

Definition TrafficTarget_DeepCopyInto : val → heapM val :=
  copy_fields [("Weight", copy_ptr mret)].

Definition TrafficTarget_DeepCopy : val → heapM val := DeepCopy TrafficTarget_DeepCopyInto.

#[export] Instance TrafficTarget_copies : DeepCopies TrafficTarget_type TrafficTarget_DeepCopyInto.
Proof. solve_struct. Qed.

Definition GlobalTrafficPolicySpec_DeepCopyInto : val → heapM val :=
  copy_fields [("Targets", copy_slice TrafficTarget_DeepCopyInto)].

Definition GlobalTrafficPolicySpec_DeepCopy : val → heapM val := DeepCopy GlobalTrafficPolicySpec_DeepCopyInto.

#[export] Instance GlobalTrafficPolicySpec_copies : DeepCopies GlobalTrafficPolicySpec_type GlobalTrafficPolicySpec_DeepCopyInto.
Proof. solve_struct. Qed.

Definition GlobalTrafficPolicyStatus_DeepCopyInto : val → heapM val := copy_fields [].

Definition GlobalTrafficPolicyStatus_DeepCopy : val → heapM val := DeepCopy GlobalTrafficPolicyStatus_DeepCopyInto.

#[export] Instance GlobalTrafficPolicyStatus_copies : DeepCopies GlobalTrafficPolicyStatus_type GlobalTrafficPolicyStatus_DeepCopyInto.
Proof. solve_struct. Qed.

Definition GlobalTrafficPolicy_DeepCopyInto : val → heapM val :=
  copy_fields [("TypeMeta", mret); ("ObjectMeta", ext_DeepCopyInto ObjectMeta);
    ("Spec", GlobalTrafficPolicySpec_DeepCopyInto); ("Status", mret)].

Definition GlobalTrafficPolicy_DeepCopy : val → heapM val := DeepCopy GlobalTrafficPolicy_DeepCopyInto.
Definition GlobalTrafficPolicy_DeepCopyObject : val → heapM (option val) := DeepCopyObject GlobalTrafficPolicy_DeepCopy.

#[export] Instance GlobalTrafficPolicy_copies : DeepCopies GlobalTrafficPolicy_type GlobalTrafficPolicy_DeepCopyInto.
Proof. solve_struct. Qed.

Definition GlobalTrafficPolicyList_DeepCopyInto : val → heapM val :=
  copy_fields [("TypeMeta", mret); ("ListMeta", ext_DeepCopyInto ListMeta);
    ("Items", copy_slice GlobalTrafficPolicy_DeepCopyInto)].

Definition GlobalTrafficPolicyList_DeepCopy : val → heapM val := DeepCopy GlobalTrafficPolicyList_DeepCopyInto.
Definition GlobalTrafficPolicyList_DeepCopyObject : val → heapM (option val) := DeepCopyObject GlobalTrafficPolicyList_DeepCopy.

#[export] Instance GlobalTrafficPolicyList_copies : DeepCopies GlobalTrafficPolicyList_type GlobalTrafficPolicyList_DeepCopyInto.
Proof. solve_struct. Qed.


(** *** [apis/multiclusterendpoint/v1alpha1] *)

Definition EndpointTarget_type : ty :=
  TStruct [("Host", TScalar); ("IP", TScalar); ("Port", TScalar); ("Path", TScalar)].

Definition MultiClusterEndpointSpec_type : ty :=
  TStruct [("ClusterKey", TScalar); ("Target", EndpointTarget_type)].

Definition MultiClusterEndpointStatus_type : ty := TStruct [].

Definition MultiClusterEndpoint_type : ty :=
  TStruct [("TypeMeta", TypeMeta_type); ("ObjectMeta", ext_type ObjectMeta);
    ("Spec", MultiClusterEndpointSpec_type); ("Status", MultiClusterEndpointStatus_type)].

Definition MultiClusterEndpointList_type : ty :=
  TStruct [("TypeMeta", TypeMeta_type); ("ListMeta", ext_type ListMeta);
    ("Items", TSlice MultiClusterEndpoint_type)].

Definition EndpointTarget_DeepCopyInto : val → heapM val := copy_fields [].

Definition EndpointTarget_DeepCopy : val → heapM val := DeepCopy EndpointTarget_DeepCopyInto.

#[export] Instance EndpointTarget_copies : DeepCopies EndpointTarget_type EndpointTarget_DeepCopyInto.
Proof. solve_struct. Qed.

Definition MultiClusterEndpointSpec_DeepCopyInto : val → heapM val :=
  copy_fields [("Target", mret)].

Definition MultiClusterEndpointSpec_DeepCopy : val → heapM val := DeepCopy MultiClusterEndpointSpec_DeepCopyInto.

#[export] Instance MultiClusterEndpointSpec_copies : DeepCopies MultiClusterEndpointSpec_type MultiClusterEndpointSpec_DeepCopyInto.
Proof. solve_struct. Qed.

Definition MultiClusterEndpointStatus_DeepCopyInto : val → heapM val := copy_fields [].

Definition MultiClusterEndpointStatus_DeepCopy : val → heapM val := DeepCopy MultiClusterEndpointStatus_DeepCopyInto.

#[export] Instance MultiClusterEndpointStatus_copies : DeepCopies MultiClusterEndpointStatus_type MultiClusterEndpointStatus_DeepCopyInto.
Proof. solve_struct. Qed.

Definition MultiClusterEndpoint_DeepCopyInto : val → heapM val :=
  copy_fields [("TypeMeta", mret); ("ObjectMeta", ext_DeepCopyInto ObjectMeta); ("Spec", mret); ("Status", mret)].

Definition MultiClusterEndpoint_DeepCopy : val → heapM val := DeepCopy MultiClusterEndpoint_DeepCopyInto.
Definition MultiClusterEndpoint_DeepCopyObject : val → heapM (option val) := DeepCopyObject MultiClusterEndpoint_DeepCopy.

#[export] Instance MultiClusterEndpoint_copies : DeepCopies MultiClusterEndpoint_type MultiClusterEndpoint_DeepCopyInto.
Proof. solve_struct. Qed.

Definition MultiClusterEndpointList_DeepCopyInto : val → heapM val :=
  copy_fields [("TypeMeta", mret); ("ListMeta", ext_DeepCopyInto ListMeta);
    ("Items", copy_slice MultiClusterEndpoint_DeepCopyInto)].

Definition MultiClusterEndpointList_DeepCopy : val → heapM val := DeepCopy MultiClusterEndpointList_DeepCopyInto.
Definition MultiClusterEndpointList_DeepCopyObject : val → heapM (option val) := DeepCopyObject MultiClusterEndpointList_DeepCopy.

#[export] Instance MultiClusterEndpointList_copies : DeepCopies MultiClusterEndpointList_type MultiClusterEndpointList_DeepCopyInto.
Proof. solve_struct. Qed.

End copies.

(** ** The objects of the API *)

(** The objects that are registered in the scheme. *)
Inductive api_object : Type :=
| OCluster | OServiceExport | OServiceImport | ONamespacedIngress | OGlobalTrafficPolicy | OMultiClusterEndpoint
| OClusterList | OServiceExportList | OServiceImportList | ONamespacedIngressList
| OGlobalTrafficPolicyList | OMultiClusterEndpointList.

Section objects.
Context `{ExternalTypes} `{MapRange}.

Definition object_type (k : api_object) : ty :=
  match k with
  | OCluster => Cluster_type
  | OServiceExport => ServiceExport_type
  | OServiceImport => ServiceImport_type
  | ONamespacedIngress => NamespacedIngress_type
  | OGlobalTrafficPolicy => GlobalTrafficPolicy_type
  | OMultiClusterEndpoint => MultiClusterEndpoint_type
  | OClusterList => ClusterList_type
  | OServiceExportList => ServiceExportList_type
  | OServiceImportList => ServiceImportList_type
  | ONamespacedIngressList => NamespacedIngressList_type
  | OGlobalTrafficPolicyList => GlobalTrafficPolicyList_type
  | OMultiClusterEndpointList => MultiClusterEndpointList_type
  end.

Definition object_DeepCopyObject (k : api_object) : val → heapM (option val) :=
  match k with
  | OCluster => Cluster_DeepCopyObject
  | OServiceExport => ServiceExport_DeepCopyObject
  | OServiceImport => ServiceImport_DeepCopyObject
  | ONamespacedIngress => NamespacedIngress_DeepCopyObject
  | OGlobalTrafficPolicy => GlobalTrafficPolicy_DeepCopyObject
  | OMultiClusterEndpoint => MultiClusterEndpoint_DeepCopyObject
  | OClusterList => ClusterList_DeepCopyObject
  | OServiceExportList => ServiceExportList_DeepCopyObject
  | OServiceImportList => ServiceImportList_DeepCopyObject
  | ONamespacedIngressList => NamespacedIngressList_DeepCopyObject
  | OGlobalTrafficPolicyList => GlobalTrafficPolicyList_DeepCopyObject
  | OMultiClusterEndpointList => MultiClusterEndpointList_DeepCopyObject
  end.

Lemma DeepCopyObject_copies t (f : val → heapM val) `{!DeepCopies t f} h p r :
  denote (TPtr t) h p = Some r →
  ∃ res h', DeepCopyObject (DeepCopy f) p h = Some (res, h') ∧
    ((res = None ∧ r = RNil) ∨ ∃ p', res = Some p' ∧ r ≠ RNil ∧ copied h (TPtr t) r p' h').
Proof.
  intros Hd. destruct (DeepCopy_copies t f h p r Hd) as (p' & h' & Hc & Hcp). unfold DeepCopyObject. rewrite heapM_bind_eq, Hc.
  pose proof (cp_denotes _ _ _ _ _ Hcp) as Hd'. destruct p' as [| |[l|]]; [done|done| |].
  - exists (Some (VRef (Some l))), h'. split; [done|]. right. exists (VRef (Some l)). split_and!; [done| |done].
    simpl in Hd'. destruct (h' !! l) as [[x| |]|]; [|done..]. by apply fmap_Some in Hd' as (r' & _ & ->).
  - exists None, h'. split; [done|]. left. split; [done|]. by injection Hd' as <-.
Qed.

(** C27 (safety).  Copying an object of any of the twelve registered kinds does not go wrong,
    gives nil for nil only, and otherwise an object of the same content that shares
    no memory with the original: whatever is changed in the copy, the original
    keeps its content, and whatever is changed in the memory there was before, the
    copy keeps its own. *)
Theorem deep_copies_independent k h p r :
  denote (TPtr (object_type k)) h p = Some r →
  ∃ res h', object_DeepCopyObject k p h = Some (res, h') ∧
    ((res = None ∧ r = RNil) ∨
     ∃ p', res = Some p' ∧ r ≠ RNil ∧ denote (TPtr (object_type k)) h' p' = Some r ∧
       (∀ h'', (∀ l, l ∉ foot (TPtr (object_type k)) h' p' → h'' !! l = h' !! l) →
          denote (TPtr (object_type k)) h'' p = Some r) ∧
       (∀ h'', (∀ l, l ∉ dom h → h'' !! l = h' !! l) → denote (TPtr (object_type k)) h'' p' = Some r)).
Proof.
  intros Hd. assert (∃ f, DeepCopies (object_type k) f ∧ object_DeepCopyObject k = DeepCopyObject (DeepCopy f)) as (f & Hf & ->).
  { destruct k; (eexists; split; [|reflexivity]); cbn [object_type]; apply _. }
  destruct (DeepCopyObject_copies _ f h p r Hd) as (res & h' & Hc & Hor). exists res, h'. split; [done|].
  destruct Hor as [?|(p' & -> & Hne & Hcp)]; [by left|right].
  destruct (copied_independent _ _ _ _ _ _ Hd Hcp) as [Ho Hn]. exists p'. split_and!; [done|done|apply (cp_denotes _ _ _ _ _ Hcp)|done|done].
Qed.
End objects.

(** ** A concrete import *)

Definition sample_ext_type (x : ext) : ty :=
  match x with
  | ObjectMeta => TStruct [("Name", TScalar); ("Labels", TMap TScalar)]
  | _ => TStruct [("Name", TScalar)]
  end.

Definition sample_ext_copy `{MapRange} (x : ext) : val → heapM val :=
  match x with
  | ObjectMeta => copy_fields [("Labels", copy_map)]
  | _ => copy_fields []
  end.

Lemma sample_ext_copies `{MapRange} x : DeepCopies (sample_ext_type x) (sample_ext_copy x).
Proof. destruct x; cbn [sample_ext_type sample_ext_copy]; solve_struct. Qed.

Definition sample_external : ExternalTypes := {|
  TypeMeta_type := TStruct [("Kind", TScalar); ("APIVersion", TScalar)];
  TypeMeta_flat := eq_refl;
  ext_type := sample_ext_type;
  ext_DeepCopyInto := @sample_ext_copy list_range;
  ext_copies := @sample_ext_copies list_range
|}.

Definition str (s : string) : val := VScalar (SString s).

(** An import with a label and a port with one endpoint. *)
Definition sample_import_heap : heap := list_to_map
  [(0%nat, CObj (VStruct (list_to_map
      [("TypeMeta", VStruct (list_to_map [("Kind", str "ServiceImport"); ("APIVersion", str "flomesh.io/v1alpha1")]));
       ("ObjectMeta", VStruct (list_to_map [("Name", str "web"); ("Labels", VRef (Some 1%nat))]));
       ("Spec", VStruct (list_to_map
          [("Ports", VRef (Some 2%nat)); ("IPs", VRef None); ("Type", str "ClusterSetIP"); ("SessionAffinity", str "");
           ("SessionAffinityConfig", VRef None); ("ServiceAccountName", str "")]));
       ("Status", VStruct (list_to_map [("Clusters", VRef None)]))])));
   (1%nat, CMap (list_to_map [("app", str "web")]));
   (2%nat, CSlice [VStruct (list_to_map
      [("Name", str "http"); ("Protocol", str "TCP"); ("AppProtocol", VRef None); ("Port", VScalar (SInt 80));
       ("Endpoints", VRef (Some 3%nat))])]);
   (3%nat, CSlice [VStruct (list_to_map
      [("Target", VStruct (list_to_map
          [("Host", str "10.0.0.1"); ("IP", str "10.0.0.1"); ("Port", VScalar (SInt 8080)); ("Path", str "/web")]));
       ("ClusterKey", str "r/z/g/a")])])].

Section example.
#[local] Existing Instances sample_external list_range.

Definition sample_content : tree :=
  default RNil (denote (TPtr (object_type OServiceImport)) sample_import_heap (VRef (Some 0%nat))).

(** Four cells are copied, and they are new. *)
Example sample_copy :
  match object_DeepCopyObject OServiceImport (VRef (Some 0%nat)) sample_import_heap with
  | Some (Some p', h') =>
    bool_decide (elements (foot (TPtr (object_type OServiceImport)) h' p') ≡ₚ [4; 5; 6; 7]%nat)
  | _ => false
  end = true.
Proof. vm_compute. reflexivity. Qed.

Lemma deep_copies_independent_witness :
  denote (TPtr (object_type OServiceImport)) sample_import_heap (VRef (Some 0%nat)) = Some sample_content ∧
  ∃ res h', object_DeepCopyObject OServiceImport (VRef (Some 0%nat)) sample_import_heap = Some (res, h') ∧
    ((res = None ∧ sample_content = RNil) ∨
     ∃ p', res = Some p' ∧ sample_content ≠ RNil ∧
       denote (TPtr (object_type OServiceImport)) h' p' = Some sample_content ∧
       (∀ h'', (∀ l, l ∉ foot (TPtr (object_type OServiceImport)) h' p' → h'' !! l = h' !! l) →
          denote (TPtr (object_type OServiceImport)) h'' (VRef (Some 0%nat)) = Some sample_content) ∧
       (∀ h'', (∀ l, l ∉ dom sample_import_heap → h'' !! l = h' !! l) →
          denote (TPtr (object_type OServiceImport)) h'' p' = Some sample_content)).
Proof.
  assert (Hd : denote (TPtr (object_type OServiceImport)) sample_import_heap (VRef (Some 0%nat)) = Some sample_content)
    by (vm_compute; reflexivity).
  split; [exact Hd|]. exact (deep_copies_independent OServiceImport sample_import_heap (VRef (Some 0%nat)) sample_content Hd).
Defined.
End example.
