(* ===== verification/Clients.v ===== *)
(** * The typed clients ([pkg/generated/clientset/versioned/typed])

    What the generated clients of the six kinds ask the API server, as the calls
    they make on a request of client-go's REST client; the clients of imports and
    exports as an implementation of the interface [ClusterAPI] that the remote
    connector and the federation are proved against. *)

From S2P Require Import Prelude GoLib Kube CacheTypes McsTypes Repo Config RouteBuild RemoteConnector ClusterReconciler Federation.

(** ** Requests *)

Record ListOptions : Type := mkListOptions {
  lo_TimeoutSeconds : option Z;
  lo_Watch : bool;
  (** selectors, resource version, limit *)
  lo_other : string
}.

(** The options of the calls, as the parameter codec encodes them. *)
Inductive options : Type :=
| GetOptions (o : string) | CreateOptions (o : string) | UpdateOptions (o : string) | PatchOptions (o : string)
| ListOpts (o : ListOptions).

Inductive body (T : Type) : Type :=
| BObject (x : T) | BDeleteOptions (o : string) | BData (data : string).
Arguments BObject {T} x.
Arguments BDeleteOptions {T} o.
Arguments BData {T} data.

Inductive verb : Type := VGet | VPost | VPut | VDelete | VPatch (pt : string).

(** A call on a request that is being built. *)
Inductive build (T : Type) : Type :=
| InNamespace (ns : string) | OnResource (resource : string) | Named (name : string)
| OnSubResource (subresources : list string) | WithParams (o : options) | WithTimeout (t : Z) | WithBody (b : body T).
Arguments InNamespace {T} ns.
Arguments OnResource {T} resource.
Arguments Named {T} name.
Arguments OnSubResource {T} subresources.
Arguments WithParams {T} o.
Arguments WithTimeout {T} t.
Arguments WithBody {T} b.

Record RestRequest (T : Type) : Type := mkRestRequest { rq_verb : verb; rq_calls : list (build T) }.
Arguments mkRestRequest {T} rq_verb rq_calls.
Arguments rq_verb {T} _.
Arguments rq_calls {T} _.

(** ** The clients *)

(** The interface of a client ([ServiceImportInterface] and the like). *)
Record ResourceInterface (T : Type) : Type := mkResourceInterface {
  rc_Create : T → string → RestRequest T;
  rc_Update : T → string → RestRequest T;
  rc_UpdateStatus : T → string → RestRequest T;
  rc_Delete : string → string → RestRequest T;
  rc_DeleteCollection : string → ListOptions → RestRequest T;
  rc_Get : string → string → RestRequest T;
  rc_List : ListOptions → RestRequest T;
  rc_Watch : ListOptions → RestRequest T;
  rc_Patch : string → string → string → string → list string → RestRequest T
}.
Arguments rc_Create {T} _ _ _.
Arguments rc_Update {T} _ _ _.
Arguments rc_UpdateStatus {T} _ _ _.
Arguments rc_Delete {T} _ _ _.
Arguments rc_DeleteCollection {T} _ _ _.
Arguments rc_Get {T} _ _ _.
Arguments rc_List {T} _ _.
Arguments rc_Watch {T} _ _.
Arguments rc_Patch {T} _ _ _ _ _ _.

(** [time.Duration( *opts.TimeoutSeconds) * time.Second], in nanoseconds. *)
Definition request_timeout (opts : ListOptions) : Z :=
  match lo_TimeoutSeconds opts with Some s => int64_wrap (s * 1000000000) | None => 0 end.

(** [ns] is the namespace the client was made for, [None] for a resource that has none. *)
Definition typed_client {T} (meta : T → ObjectMeta) (resource : string) (ns : option string) : ResourceInterface T :=
  let scoped calls := match ns with Some ns => InNamespace ns :: calls | None => calls end in
  {| rc_Get := fun name opts =>
       mkRestRequest VGet (scoped [OnResource resource; Named name; WithParams (GetOptions opts)]);
     rc_List := fun opts =>
       mkRestRequest VGet (scoped [OnResource resource; WithParams (ListOpts opts); WithTimeout (request_timeout opts)]);
     rc_Watch := fun opts =>
       mkRestRequest VGet (scoped [OnResource resource;
         WithParams (ListOpts (mkListOptions (lo_TimeoutSeconds opts) true (lo_other opts)));
         WithTimeout (request_timeout opts)]);
     rc_Create := fun x opts =>
       mkRestRequest VPost (scoped [OnResource resource; WithParams (CreateOptions opts); WithBody (BObject x)]);
     rc_Update := fun x opts =>
       mkRestRequest VPut (scoped [OnResource resource; Named (Name (meta x)); WithParams (UpdateOptions opts);
         WithBody (BObject x)]);
     rc_UpdateStatus := fun x opts =>
       mkRestRequest VPut (scoped [OnResource resource; Named (Name (meta x)); OnSubResource ["status"];
         WithParams (UpdateOptions opts); WithBody (BObject x)]);
     rc_Delete := fun name opts =>
       mkRestRequest VDelete (scoped [OnResource resource; Named name; WithBody (BDeleteOptions opts)]);
     rc_DeleteCollection := fun opts listOpts =>
       mkRestRequest VDelete (scoped [OnResource resource; WithParams (ListOpts listOpts);
         WithTimeout (request_timeout listOpts); WithBody (BDeleteOptions opts)]);
     rc_Patch := fun name pt data opts subresources =>
       mkRestRequest (VPatch pt) (scoped [OnResource resource; Named name; OnSubResource subresources;
         WithParams (PatchOptions opts); WithBody (BData data)])
  |}.

Definition serviceImports (namespace : string) : ResourceInterface ServiceImport :=
  typed_client si_Meta "serviceimports" (Some namespace).
Definition serviceExports (namespace : string) : ResourceInterface ServiceExport :=
  typed_client se_Meta "serviceexports" (Some namespace).
Definition clusters {T} (meta : T → ObjectMeta) : ResourceInterface T := typed_client meta "clusters" None.
Definition namespacedIngresses {T} (meta : T → ObjectMeta) (namespace : string) : ResourceInterface T :=
  typed_client meta "namespacedingresses" (Some namespace).
Definition globalTrafficPolicies {T} (meta : T → ObjectMeta) (namespace : string) : ResourceInterface T :=
  typed_client meta "globaltrafficpolicies" (Some namespace).
Definition multiClusterEndpoints {T} (meta : T → ObjectMeta) (namespace : string) : ResourceInterface T :=
  typed_client meta "multiclusterendpoints" (Some namespace).

(** ** What an API server does with requests *)

(** The object, or the collection, that a request is about. *)
Record target : Type := mkTarget {
  tg_Namespace : option string;
  tg_Resource : string;
  tg_Name : option string;
  tg_SubResource : list string
}.

Definition target_call {T} (t : target) (c : build T) : target :=
  match c with
  | InNamespace ns => mkTarget (Some ns) (tg_Resource t) (tg_Name t) (tg_SubResource t)
  | OnResource r => mkTarget (tg_Namespace t) r (tg_Name t) (tg_SubResource t)
  | Named n => mkTarget (tg_Namespace t) (tg_Resource t) (Some n) (tg_SubResource t)
  | OnSubResource l => mkTarget (tg_Namespace t) (tg_Resource t) (tg_Name t) (tg_SubResource t ++ l)
  | _ => t
  end.

Definition target_of {T} (q : RestRequest T) : target := foldl target_call (mkTarget None "" None []) (rq_calls q).

Fixpoint body_of {T} (calls : list (build T)) : option (body T) :=
  match calls with
  | [] => None
  | WithBody b :: _ => Some b
  | _ :: calls => body_of calls
  end.

(** [Do(ctx).Into(result)] and [Do(ctx).Error()], for the objects of one kind. *)
Class RestInterface (T W : Type) : Type := {
  Into : RestRequest T → W → result kerror T * W;
  DoError : RestRequest T → W → result kerror unit * W
}.

(** What Kubernetes documents: an object is stored under its namespace and name, a
    create fails when there is one, an update replaces the stored object, and has to
    name its version, an update of the status leaves the rest of it alone; a failed
    request changes nothing.  [content] is what the object is apart from its
    metadata and [status]. *)
Class ObjectServer {T W C S : Type} `{!RestInterface T W} (meta : T → ObjectMeta) (content : T → C) (status : T → S)
    (resource : string) : Type := {
  objects : W → gmap NamespacedName T;
  objects_named : ∀ w nn x, objects w !! nn = Some x → meta_nn (meta x) = nn;
  server_get : ∀ q ns name w r w',
    rq_verb q = VGet → target_of q = mkTarget (Some ns) resource (Some name) [] → Into q w = (r, w') →
    objects w' = objects w ∧
    match r with
    | Ok x => objects w !! mkNN ns name = Some x
    | Err NotFound => objects w !! mkNN ns name = None
    | Err _ => True
    end;
  server_post : ∀ q ns x w r w',
    rq_verb q = VPost → target_of q = mkTarget (Some ns) resource None [] → body_of (rq_calls q) = Some (BObject x) →
    Namespace (meta x) = ns → Into q w = (r, w') →
    match r with
    | Ok x' => objects w !! meta_nn (meta x) = None ∧ objects w' = <[meta_nn (meta x) := x']> (objects w) ∧
        meta_nn (meta x') = meta_nn (meta x) ∧ content x' = content x
    | Err e => objects w' = objects w ∧ (e = AlreadyExists → is_Some (objects w !! meta_nn (meta x)))
    end;
  server_put : ∀ q ns name x w r w',
    rq_verb q = VPut → target_of q = mkTarget (Some ns) resource (Some name) [] → body_of (rq_calls q) = Some (BObject x) →
    meta_nn (meta x) = mkNN ns name → Into q w = (r, w') →
    match r with
    | Ok x' => objects w' = <[mkNN ns name := x']> (objects w) ∧ content x' = content x ∧
        ∃ cur, objects w !! mkNN ns name = Some cur ∧ ResourceVersion (meta cur) = ResourceVersion (meta x)
    | Err _ => objects w' = objects w
    end;
  server_put_status : ∀ q ns name x w r w',
    rq_verb q = VPut → target_of q = mkTarget (Some ns) resource (Some name) ["status"] →
    body_of (rq_calls q) = Some (BObject x) → meta_nn (meta x) = mkNN ns name → Into q w = (r, w') →
    match r with
    | Ok x' => objects w' = <[mkNN ns name := x']> (objects w) ∧ status x' = status x ∧
        ∃ cur, objects w !! mkNN ns name = Some cur ∧ content x' = content cur
    | Err _ => objects w' = objects w
    end;
  server_delete : ∀ q ns name w r w',
    rq_verb q = VDelete → target_of q = mkTarget (Some ns) resource (Some name) [] → DoError q w = (r, w') →
    match r with
    | Ok _ => objects w' = delete (mkNN ns name) (objects w)
    | Err _ => objects w' = objects w
    end
}.

(** The clients of the core API that the connector uses. *)
Class CoreClient (W : Type) : Type := {
  Namespaces_Create : string → W → result kerror unit * W;
  Services_Get : NamespacedName → W → result kerror Service * W
}.

(** ** The clients as the interface of the remote connector *)

Section rest_api.
Context {W : Type} `{!RestInterface ServiceImport W} `{!RestInterface ServiceExport W} `{!CoreClient W}.

Definition rest_api : ClusterAPI := {|
  kworld := W;
  ns_Create := Namespaces_Create;
  imp_Create := fun i => Into (rc_Create (serviceImports (Namespace (si_Meta i))) i "");
  imp_Get := fun nn => Into (rc_Get (serviceImports (nn_Namespace nn)) (nn_Name nn) "");
  imp_Update := fun i => Into (rc_Update (serviceImports (Namespace (si_Meta i))) i "");
  imp_Delete := fun nn => DoError (rc_Delete (serviceImports (nn_Namespace nn)) (nn_Name nn) "");
  svc_Get := Services_Get;
  exp_Get := fun nn => Into (rc_Get (serviceExports (nn_Namespace nn)) (nn_Name nn) "");
  exp_UpdateStatus := fun e => Into (rc_UpdateStatus (serviceExports (Namespace (se_Meta e))) e "")
|}.
End rest_api.

(** One server for both kinds: requests about exports, namespaces and services leave
    the imports alone, and versions identify what was stored. *)
Class ClusterServer (W : Type) `{!RestInterface ServiceImport W, !RestInterface ServiceExport W, !CoreClient W} : Type := {
  cs_import_server :: ObjectServer (W := W) si_Meta si_Ports (fun _ => tt) "serviceimports";
  cs_export_server :: ObjectServer (W := W) se_Meta se_Spec se_Conditions "serviceexports";
  import_objects : W → gmap NamespacedName ServiceImport := @objects _ _ _ _ _ _ _ _ _ cs_import_server;
  export_keeps : ∀ (q : RestRequest ServiceExport) w r w', Into q w = (r, w') → import_objects w' = import_objects w;
  namespace_keeps : ∀ n w r w', Namespaces_Create n w = (r, w') → import_objects w' = import_objects w;
  service_keeps : ∀ nn w r w', Services_Get nn w = (r, w') → import_objects w' = import_objects w;
  was_object : W → ServiceImport → Prop;
  was_object_now : ∀ w nn i, import_objects w !! nn = Some i → was_object w i;
  was_object_unique : ∀ w i j, was_object w i → was_object w j →
    meta_nn (si_Meta i) = meta_nn (si_Meta j) → ResourceVersion (si_Meta i) = ResourceVersion (si_Meta j) → i = j;
  history_Into : ∀ (q : RestRequest ServiceImport) w r w' i, Into q w = (r, w') → was_object w i → was_object w' i;
  history_DoError : ∀ (q : RestRequest ServiceImport) w r w' i, DoError q w = (r, w') → was_object w i → was_object w' i;
  history_export : ∀ (q : RestRequest ServiceExport) w r w' i, Into q w = (r, w') → was_object w i → was_object w' i;
  history_namespace : ∀ n w r w' i, Namespaces_Create n w = (r, w') → was_object w i → was_object w' i;
  history_service : ∀ nn w r w' i, Services_Get nn w = (r, w') → was_object w i → was_object w' i
}.

Section rest_laws.
Context {W : Type} `{ClusterServer W}.

Lemma nn_eta nn : mkNN (nn_Namespace nn) (nn_Name nn) = nn.
Proof. by destruct nn. Qed.

(** The generated clients ask for what the connector means: the laws that its
    theorems rest on hold. *)
Definition rest_api_laws : @ClusterAPILaws rest_api.
Proof.
  refine {| imports := (import_objects : @kworld rest_api → _) |}; simpl.
  - intros n w r w'. apply namespace_keeps.
  - intros nn w r w' Hi. rewrite <-(nn_eta nn). by apply (server_get _ (nn_Namespace nn) (nn_Name nn)) in Hi.
  - intros i w r w' Hi. by apply (server_post _ (Namespace (si_Meta i)) i) in Hi.
  - intros i w r w' Hi. apply (server_put _ (Namespace (si_Meta i)) (Name (si_Meta i)) i) in Hi; [|done..].
    destruct r as [i'|e]; [|done]. by destruct Hi as (? & ? & _).
  - intros nn w r w' Hi. apply (server_delete _ (nn_Namespace nn) (nn_Name nn)) in Hi; [|done..].
    by rewrite (nn_eta nn) in Hi.
  - intros w nn i. apply objects_named.
Defined.

Definition rest_versioned_laws : @VersionedLaws rest_api rest_api_laws.
Proof.
  refine {| was_stored := (was_object : @kworld rest_api → _) |}; simpl.
  - apply was_object_now.
  - apply was_object_unique.
  - intros R q w r w' i Hs. destruct q; simpl in Hs;
      eauto using history_Into, history_DoError, history_export, history_namespace.
  - intros nn w r w' Hs. split; [by eapply service_keeps|]. intros i. by eapply history_service.
  - intros i w i' w' Hi. apply (server_put _ (Namespace (si_Meta i)) (Name (si_Meta i)) i) in Hi; [|done..].
    by destruct Hi as (_ & _ & ?).
  - intros nn w r w'. apply export_keeps.
  - intros e w r w'. apply export_keeps.
Defined.

Definition export_objects : W → gmap NamespacedName ServiceExport := @objects _ _ _ _ _ _ _ _ _ cs_export_server.

(** The condition that tells an exporter of the conflict. *)
Definition conflict_condition (exp : ServiceExport) (evt : ServiceExportEvent) : Condition :=
  mkCondition ServiceExportConflict ConditionTrue (Generation (se_Meta exp)) "Conflict"
    ("ServiceExport " +:+ Namespace (se_Meta exp) +:+ "/" +:+ Name (se_Meta exp) +:+ " conflicts, " +:+ ev_Error evt).

(** Rejecting an export through the generated client: in the exporting
    cluster, when it succeeds, the stored export gets the condition that says why,
    and keeps its specification; when it fails nothing is changed, and in every other
    cluster nothing is asked.  No other export is touched. *)
Theorem rejection_changes_status_only `{MetaLib} key evt w r w' :
  @run_prog rest_api (reject_prog key evt) w = (r, w') →
  if bool_decide (key = ev_ClusterKey evt) then
    match r with
    | Ok _ => ∃ e e', export_objects w !! ev_nn evt = Some e ∧
        export_objects w' = <[ev_nn evt := e']> (export_objects w) ∧ se_Spec e' = se_Spec e ∧
        se_Conditions e' = Some (SetStatusCondition (default [] (se_Conditions e)) (conflict_condition e evt))
    | Err _ => export_objects w' = export_objects w
    end
  else r = Ok tt ∧ w' = w.
Proof.
  unfold reject_prog. case_bool_decide as Hkey; [|by intros [= <- <-]].
  cbn [run_prog]. rewrite kube_bind_eq. destruct (serve (ExpGet (ev_nn evt)) w) as [r1 w1] eqn:Hg.
  apply (server_get _ (nn_Namespace (ev_nn evt)) (nn_Name (ev_nn evt))) in Hg as [Hw1 Hg]; [|done..].
  destruct r1 as [e|err]; [|intros Hr; injection Hr as <- <-; exact Hw1]. rewrite nn_eta in Hg.
  pose proof (objects_named _ _ _ Hg) as Hnn. cbn [run_prog]. rewrite kube_bind_eq.
  match goal with |- context [ExpUpdateStatus ?x] =>
    set (e0 := x); destruct (serve (ExpUpdateStatus e0) w1) as [r2 w2] eqn:Hu end.
  apply (server_put_status _ (nn_Namespace (ev_nn evt)) (nn_Name (ev_nn evt)) e0) in Hu;
    [|done|by rewrite <-Hnn|done|by rewrite nn_eta]. rewrite nn_eta in Hu. unfold export_objects. rewrite Hw1 in Hu.
  destruct r2 as [e'|err]; intros Hr; injection Hr as <- <-; [|done]. destruct Hu as (Hw2 & Hst & cur & Hcur & Hsp).
  rewrite Hg in Hcur. injection Hcur as <-. by exists e, e'.
Qed.
End rest_laws.

(** ** A server that stores exports *)

Abbreviation export_store := (gmap NamespacedName ServiceExport).

(** The exports that are stored under their own name. *)
Definition well_named (w : export_store) : export_store :=
  map_imap (fun nn e => if decide (meta_nn (se_Meta e) = nn) then Some e else None) w.

Lemma well_named_lookup w nn :
  well_named w !! nn = e ← w !! nn; if decide (meta_nn (se_Meta e) = nn) then Some e else None.
Proof. apply map_lookup_imap. Qed.

Definition refuse {T A} (q : RestRequest T) (w : export_store) : result kerror A * export_store :=
  (Err (OtherError "refused"), w).

Definition serve_export (q : RestRequest ServiceExport) (w : export_store) : result kerror ServiceExport * export_store :=
  match rq_verb q, target_of q, body_of (rq_calls q) with
  | VGet, mkTarget (Some ns) _ (Some name) [], _ =>
    (match well_named w !! mkNN ns name with Some e => Ok e | None => Err NotFound end, w)
  | VPut, mkTarget (Some ns) _ (Some name) ["status"], Some (BObject x) =>
    match well_named w !! mkNN ns name with
    | Some e =>
      let e' := mkServiceExport (se_Meta e) (se_Spec e) (se_Conditions x) in (Ok e', <[mkNN ns name := e']> w)
    | None => (Err NotFound, w)
    end
  | _, _, _ => refuse q w
  end.

#[local] Instance sample_import_rest : RestInterface ServiceImport export_store :=
  {| Into := refuse; DoError := refuse |}.
#[local] Instance sample_export_rest : RestInterface ServiceExport export_store :=
  {| Into := serve_export; DoError := refuse |}.
#[local] Instance sample_core : CoreClient export_store :=
  {| Namespaces_Create := fun _ w => (Err (OtherError "refused"), w);
     Services_Get := fun _ w => (Err (OtherError "refused"), w) |}.

Lemma well_named_named w nn e : well_named w !! nn = Some e → meta_nn (se_Meta e) = nn.
Proof. rewrite well_named_lookup. intros (e' & _ & He)%bind_Some. case_decide; by simplify_eq. Qed.

Lemma well_named_insert w nn e :
  meta_nn (se_Meta e) = nn → well_named (<[nn := e]> w) = <[nn := e]> (well_named w).
Proof.
  intros Hnn. apply map_eq. intros k. rewrite well_named_lookup, !lookup_insert. case_decide as Hk; simpl.
  - subst. by rewrite decide_True.
  - by rewrite well_named_lookup.
Qed.

#[local] Instance sample_import_server :
  ObjectServer (W := export_store) si_Meta si_Ports (fun _ => tt) "serviceimports".
Proof.
  refine {| objects := fun _ => ∅ |}; intros;
    repeat match goal with H : Into _ _ = _ |- _ => injection H as <- <- | H : DoError _ _ = _ |- _ => injection H as <- <- end;
    done.
Defined.

#[local] Instance sample_export_server :
  ObjectServer (W := export_store) se_Meta se_Spec se_Conditions "serviceexports".
Proof.
  refine {| objects := well_named |}.
  - apply well_named_named.
  - intros q ns name w r w' Hv Ht. simpl. unfold serve_export. rewrite Hv, Ht. intros [= <- <-].
    split; [done|]. by destruct (well_named w !! _).
  - intros q ns x w r w' Hv Ht Hb Hn. simpl. unfold serve_export. rewrite Hv. by intros [= <- <-].
  - intros q ns name x w r w' Hv Ht Hb Hn. simpl. unfold serve_export. rewrite Hv, Ht. by intros [= <- <-].
  - intros q ns name x w r w' Hv Ht Hb Hn. simpl. unfold serve_export. rewrite Hv, Ht, Hb.
    destruct (well_named w !! _) as [e|] eqn:He; intros [= <- <-]; [|done].
    rewrite well_named_insert by exact (well_named_named _ _ _ He). split_and!; [done|done|]. by exists e.
  - intros q ns name w r w' Hv Ht. by intros [= <- <-].
Defined.

#[local] Instance sample_server : ClusterServer export_store.
Proof. by refine {| was_object := fun _ _ => False |}. Defined.

Section example.
#[local] Existing Instance sample_status_lib.

Definition rejected_event : ServiceExportEvent := mkExportEvent (run_geo "a") web_export web_service "it exists".

Definition store_before : export_store := {[ mkNN "ns" "web" := web_export ]}.
Definition store_after : export_store :=
  {[ mkNN "ns" "web" := mkServiceExport (se_Meta web_export) (se_Spec web_export)
       (Some [conflict_condition web_export rejected_event]) ]}.

Lemma rejection_changes_status_only_witness :
  @run_prog rest_api (reject_prog "r/z/g/a" rejected_event) store_before = (Ok tt, store_after) ∧
  ∃ e e', export_objects store_before !! mkNN "ns" "web" = Some e ∧
    export_objects store_after = <[mkNN "ns" "web" := e']> (export_objects store_before) ∧ se_Spec e' = se_Spec e ∧
    se_Conditions e' = Some (SetStatusCondition (default [] (se_Conditions e)) (conflict_condition e rejected_event)).
Proof.
  assert (Hrun : @run_prog rest_api (reject_prog "r/z/g/a" rejected_event) store_before = (Ok tt, store_after))
    by (vm_compute; reflexivity).
  split; [exact Hrun|]. exact (rejection_changes_status_only "r/z/g/a" rejected_event store_before (Ok tt) store_after Hrun).
Defined.
End example.
