(* ===== verification/SharedInformers.v ===== *)
(** * Shared informers and listers ([pkg/generated/informers], [pkg/generated/listers])

    The factory from which the caches get their informers: one informer per kind,
    shared by all that ask for it, is_started once, and none after a shutdown.  The
    listers read the store of an informer by keys. *)

From S2P Require Import Prelude GoLib Kube McsTypes Repo Config RouteBuild RemoteConnector ClusterReconciler Federation Clients.
From Stdlib Require Import Ascii.

(** ** Kinds ([reflect.Type] of the objects) *)

Inductive object_kind : Type :=
| KCluster | KGlobalTrafficPolicy | KMultiClusterEndpoint | KNamespacedIngress | KServiceExport | KServiceImport.

#[export] Instance object_kind_eq_dec : EqDecision object_kind.
Proof. solve_decision. Defined.

Definition kind_code (k : object_kind) : nat :=
  match k with
  | KCluster => 0 | KGlobalTrafficPolicy => 1 | KMultiClusterEndpoint => 2 | KNamespacedIngress => 3
  | KServiceExport => 4 | KServiceImport => 5
  end.

Definition kind_of_code (n : nat) : option object_kind :=
  [KCluster; KGlobalTrafficPolicy; KMultiClusterEndpoint; KNamespacedIngress; KServiceExport; KServiceImport] !! n.

#[export] Instance object_kind_countable : Countable object_kind.
Proof. apply (inj_countable kind_code kind_of_code). by intros []. Defined.

(** ** Informers *)

(** [func( *v1.ListOptions)], nil or a function. *)
Definition TweakListOptionsFunc : Type := option (ListOptions → ListOptions).

Definition tweak_options (tweak : TweakListOptionsFunc) (o : ListOptions) : ListOptions :=
  match tweak with Some f => f o | None => o end.

(** An informer as [cache.NewSharedIndexInformer] makes it; [si_id] is its identity. *)
Record SharedIndexInformer : Type := mkInformer {
  si_id : nat;
  si_kind : object_kind;
  si_namespace : string;
  si_tweak : TweakListOptionsFunc;
  si_resync : Z
}.

(** The requests that its list and watch functions send; clusters have no namespace. *)
Definition ListFunc {T} (meta : T → ObjectMeta) (resource : string) (i : SharedIndexInformer) (o : ListOptions) : RestRequest T :=
  rc_List (typed_client meta resource (if decide (si_kind i = KCluster) then None else Some (si_namespace i)))
    (tweak_options (si_tweak i) o).
Definition WatchFunc {T} (meta : T → ObjectMeta) (resource : string) (i : SharedIndexInformer) (o : ListOptions) : RestRequest T :=
  rc_Watch (typed_client meta resource (if decide (si_kind i = KCluster) then None else Some (si_namespace i)))
    (tweak_options (si_tweak i) o).

(** ** The factory *)

Record sharedInformerFactory : Type := mkFactory {
  fa_namespace : string;
  fa_tweakListOptions : TweakListOptionsFunc;
  fa_defaultResync : Z;
  fa_customResync : gmap object_kind Z;
  fa_informers : gmap object_kind SharedIndexInformer;
  fa_startedInformers : gmap object_kind bool;
  (** the number of goroutines *)
  fa_wg : nat;
  fa_shuttingDown : bool;
  (** the identity of the next informer *)
  fa_next : nat
}.

Definition SharedInformerOption : Type := sharedInformerFactory → sharedInformerFactory.

Definition WithCustomResyncConfig `{MapRange} (resyncConfig : gmap object_kind Z) : SharedInformerOption := fun f =>
  mkFactory (fa_namespace f) (fa_tweakListOptions f) (fa_defaultResync f)
    (gomap_merge (fa_customResync f) (Some resyncConfig)) (fa_informers f) (fa_startedInformers f) (fa_wg f)
    (fa_shuttingDown f) (fa_next f).
Definition WithTweakListOptions (tweak : TweakListOptionsFunc) : SharedInformerOption := fun f =>
  mkFactory (fa_namespace f) tweak (fa_defaultResync f) (fa_customResync f) (fa_informers f) (fa_startedInformers f)
    (fa_wg f) (fa_shuttingDown f) (fa_next f).
Definition WithNamespace (namespace : string) : SharedInformerOption := fun f =>
  mkFactory namespace (fa_tweakListOptions f) (fa_defaultResync f) (fa_customResync f) (fa_informers f)
    (fa_startedInformers f) (fa_wg f) (fa_shuttingDown f) (fa_next f).

Definition NewSharedInformerFactoryWithOptions (defaultResync : Z) (opts : list SharedInformerOption) :
    sharedInformerFactory :=
  foldl (fun f opt => opt f) (mkFactory "" None defaultResync ∅ ∅ ∅ 0 false 0) opts.

Definition NewSharedInformerFactory (defaultResync : Z) : sharedInformerFactory :=
  NewSharedInformerFactoryWithOptions defaultResync [].

Definition NewFilteredSharedInformerFactory (defaultResync : Z) (namespace : string) (tweak : TweakListOptionsFunc) :
    sharedInformerFactory :=
  NewSharedInformerFactoryWithOptions defaultResync [WithNamespace namespace; WithTweakListOptions tweak].

(** [newFunc] makes the informer from the resync period and an identity. *)
Definition InformerFor (k : object_kind) (newFunc : Z → nat → SharedIndexInformer) (f : sharedInformerFactory) :
    SharedIndexInformer * sharedInformerFactory :=
  match fa_informers f !! k with
  | Some informer => (informer, f)
  | None =>
    let resyncPeriod := default (fa_defaultResync f) (fa_customResync f !! k) in
    let informer := newFunc resyncPeriod (fa_next f) in
    (informer, mkFactory (fa_namespace f) (fa_tweakListOptions f) (fa_defaultResync f) (fa_customResync f)
                 (<[k := informer]> (fa_informers f)) (fa_startedInformers f) (fa_wg f) (fa_shuttingDown f)
                 (S (fa_next f)))
  end.

(** The typed informers: [f.Serviceimport().V1alpha1().ServiceImports().Informer()]. *)
Definition defaultInformer (k : object_kind) (f : sharedInformerFactory) (resyncPeriod : Z) (id : nat) :
    SharedIndexInformer :=
  mkInformer id k (fa_namespace f) (fa_tweakListOptions f) resyncPeriod.

Definition Informer (k : object_kind) (f : sharedInformerFactory) : SharedIndexInformer * sharedInformerFactory :=
  InformerFor k (defaultInformer k f) f.

(** Group, version and resource. *)
Definition resource_kind (resource : string * string * string) : option object_kind :=
  let '(g, v, r) := resource in
  if bool_decide (g = "flomesh.io" ∧ v = "v1alpha1") then
    if bool_decide (r = "clusters") then Some KCluster
    else if bool_decide (r = "globaltrafficpolicies") then Some KGlobalTrafficPolicy
    else if bool_decide (r = "multiclusterendpoints") then Some KMultiClusterEndpoint
    else if bool_decide (r = "namespacedingresses") then Some KNamespacedIngress
    else if bool_decide (r = "serviceexports") then Some KServiceExport
    else if bool_decide (r = "serviceimports") then Some KServiceImport
    else None
  else None.

Definition ForResource (resource : string * string * string) (f : sharedInformerFactory) :
    result string (string * string * SharedIndexInformer) * sharedInformerFactory :=
  match resource_kind resource with
  | Some k =>
    let '(informer, f) := Informer k f in (Ok (resource.1.1, resource.2, informer), f)
  | None => (Err "no informer found for the resource", f)
  end.

(** [f.startedInformers[informerType]] *)
Definition is_started (f : sharedInformerFactory) (k : object_kind) : bool := default false (fa_startedInformers f !! k).

Section factory_ops.
Context `{MapRange}.

(** One turn of the loop of [Start]: the goroutines that are added are those of
    informers that run until [stopCh] is closed. *)
Definition start_one (stopCh : nat) (acc : list (nat * nat) * sharedInformerFactory)
    (entry : object_kind * SharedIndexInformer) : list (nat * nat) * sharedInformerFactory :=
  let '(l, f) := acc in
  if is_started f entry.1 then acc
  else (l ++ [(si_id entry.2, stopCh)],
        mkFactory (fa_namespace f) (fa_tweakListOptions f) (fa_defaultResync f) (fa_customResync f) (fa_informers f)
          (<[entry.1 := true]> (fa_startedInformers f)) (S (fa_wg f)) (fa_shuttingDown f) (fa_next f)).

Definition Start (stopCh : nat) (f : sharedInformerFactory) : list (nat * nat) * sharedInformerFactory :=
  if fa_shuttingDown f then ([], f)
  else foldl (start_one stopCh) ([], f) (go_range (fa_informers f)).

(** [f.wg.Done()], when an informer has stopped. *)
Definition wg_Done (f : sharedInformerFactory) : sharedInformerFactory :=
  mkFactory (fa_namespace f) (fa_tweakListOptions f) (fa_defaultResync f) (fa_customResync f) (fa_informers f)
    (fa_startedInformers f) (pred (fa_wg f)) (fa_shuttingDown f) (fa_next f).

(** The first half of [Shutdown]; the second waits until [fa_wg] is zero. *)
Definition Shutdown_mark (f : sharedInformerFactory) : sharedInformerFactory :=
  mkFactory (fa_namespace f) (fa_tweakListOptions f) (fa_defaultResync f) (fa_customResync f) (fa_informers f)
    (fa_startedInformers f) (fa_wg f) true (fa_next f).

(** [synced] is what [cache.WaitForCacheSync] answers for an informer. *)
Definition WaitForCacheSync (synced : nat → bool) (f : sharedInformerFactory) : gmap object_kind bool :=
  (fun i => synced (si_id i)) <$>
    filter (fun ki => is_started f ki.1 = true) (fa_informers f).
End factory_ops.

(** ** The factory at work *)

(** Goroutines are pairs of the informer they run and the channel that stops it. *)
Record informer_system : Type := mkInformerSystem {
  is_factory : sharedInformerFactory;
  is_running : list (nat * nat);
  is_closed : gset nat;
  (** all informers that were ever run, in order *)
  is_ran : list nat
}.

Inductive is_step `{MapRange} (s : informer_system) : informer_system → Prop :=
| is_informer k :
    is_step s (mkInformerSystem (Informer k (is_factory s)).2 (is_running s) (is_closed s) (is_ran s))
| is_start ch l f :
    Start ch (is_factory s) = (l, f) →
    is_step s (mkInformerSystem f (is_running s ++ l) (is_closed s) (is_ran s ++ l.*1))
| is_close ch :
    is_step s (mkInformerSystem (is_factory s) (is_running s) ({[ch]} ∪ is_closed s) (is_ran s))
(** an informer runs until its channel is closed *)
| is_stop i id ch :
    is_running s !! i = Some (id, ch) → ch ∈ is_closed s →
    is_step s (mkInformerSystem (wg_Done (is_factory s)) (delete i (is_running s)) (is_closed s) (is_ran s))
| is_shutdown :
    is_step s (mkInformerSystem (Shutdown_mark (is_factory s)) (is_running s) (is_closed s) (is_ran s)).

(** The step in which an informer stops, alone. *)
Inductive informer_stops (s : informer_system) : informer_system → Prop :=
| informer_stop i id ch :
    is_running s !! i = Some (id, ch) → ch ∈ is_closed s →
    informer_stops s (mkInformerSystem (wg_Done (is_factory s)) (delete i (is_running s)) (is_closed s) (is_ran s)).

Definition is_init (f : sharedInformerFactory) : informer_system := mkInformerSystem f [] ∅ [].

(** [Shutdown] can return. *)
Definition shut_down (s : informer_system) : Prop :=
  fa_shuttingDown (is_factory s) = true ∧ fa_wg (is_factory s) = 0%nat.

Record factory_inv (s : informer_system) : Prop := {
  fi_wg : fa_wg (is_factory s) = length (is_running s);
  fi_kind : ∀ k i, fa_informers (is_factory s) !! k = Some i → si_kind i = k ∧ (si_id i < fa_next (is_factory s))%nat;
  fi_id : ∀ k k' i i', fa_informers (is_factory s) !! k = Some i → fa_informers (is_factory s) !! k' = Some i' →
    si_id i = si_id i' → k = k';
  fi_once : NoDup (is_ran s);
  fi_ran : ∀ id, id ∈ is_ran s →
    ∃ k i, fa_informers (is_factory s) !! k = Some i ∧ si_id i = id ∧ is_started (is_factory s) k = true;
  fi_running : (is_running s).*1 ⊆+ is_ran s
}.

Section factory_proofs.
Context `{MapRange}.

(** What a loop over the informers starts. *)
Lemma start_fold ch L : ∀ l f, NoDup L.*1 →
  ∃ f', foldl (start_one ch) (l, f) L =
      (l ++ ((fun e => (si_id e.2, ch)) <$> List.filter (fun e => negb (is_started f e.1)) L), f') ∧
    fa_informers f' = fa_informers f ∧ fa_next f' = fa_next f ∧ fa_shuttingDown f' = fa_shuttingDown f ∧
    fa_wg f' = (fa_wg f + length (List.filter (fun e => negb (is_started f e.1)) L))%nat ∧
    ∀ k, is_started f' k = is_started f k || bool_decide (k ∈ L.*1).
Proof.
  induction L as [|[k i] L IH]; intros l f Hnd.
  - exists f. cbn [foldl List.filter fmap list_fmap length]. rewrite app_nil_r. split_and!; [done..|lia|].
    intros k. rewrite bool_decide_false by apply not_elem_of_nil. by rewrite orb_false_r.
  - rewrite fmap_cons in Hnd. apply NoDup_cons in Hnd as [Hk Hnd]. cbn [foldl List.filter fst].
    unfold start_one at 2. cbn [fst snd]. destruct (is_started f k) eqn:Hs; cbn [negb].
    + destruct (IH l f Hnd) as (f' & Hf & Hi & Hn & Hsd & Hw & Hst). exists f'.
      split_and!; [exact Hf|exact Hi|exact Hn|exact Hsd|exact Hw|].
      intros k'. rewrite Hst, fmap_cons. simpl. destruct (decide (k' = k)) as [->|Hne].
      * by rewrite Hs.
      * f_equal. apply bool_decide_ext. rewrite elem_of_cons. tauto.
    + match goal with |- context [foldl _ (_, ?g) L] => set (f1 := g) end.
      destruct (IH (l ++ [(si_id i, ch)]) f1 Hnd) as (f' & Hf & Hi & Hn & Hsd & Hw & Hst).
      assert (Hf1 : ∀ k', is_started f1 k' = is_started f k' || bool_decide (k' = k)).
      { intros k'. unfold is_started. simpl. destruct (decide (k' = k)) as [->|Hne].
        - rewrite lookup_insert_eq, bool_decide_true by done. by rewrite orb_true_r.
        - rewrite lookup_insert_ne, bool_decide_false by done. by rewrite orb_false_r. }
      assert (Hfilter : List.filter (fun e => negb (is_started f1 e.1)) L = List.filter (fun e => negb (is_started f e.1)) L).
      { apply filter_ext_in. intros e He%list_elem_of_In. rewrite Hf1, bool_decide_false; [by rewrite orb_false_r|].
        intros <-. apply Hk. exact (list_elem_of_fmap_2 fst L e He). }
      rewrite Hfilter in Hf, Hw. exists f'. rewrite Hf. cbn [fmap list_fmap]. rewrite <-app_assoc. simpl in Hw |- *.
      split_and!; [done..|lia|]. intros k'. rewrite Hst, Hf1. rewrite <-orb_assoc. f_equal.
      destruct (decide (k' = k)) as [->|Hne].
      * rewrite (bool_decide_true (k = k)) by done. symmetry. apply bool_decide_true. left.
      * rewrite (bool_decide_false (k' = k)) by done. simpl. apply bool_decide_ext. rewrite elem_of_cons. tauto.
Qed.
(** The entries that a call of [Start] starts. *)
Definition to_start (f : sharedInformerFactory) : list (object_kind * SharedIndexInformer) :=
  if fa_shuttingDown f then []
  else List.filter (fun e => negb (is_started f e.1)) (go_range (fa_informers f)).

Lemma Start_eq ch f l f' :
  Start ch f = (l, f') →
  l = (fun e => (si_id e.2, ch)) <$> to_start f ∧ fa_informers f' = fa_informers f ∧ fa_next f' = fa_next f ∧
  fa_shuttingDown f' = fa_shuttingDown f ∧ fa_wg f' = (fa_wg f + length (to_start f))%nat ∧
  (∀ k, is_started f k = true → is_started f' k = true) ∧
  ∀ e, e ∈ to_start f → is_started f' e.1 = true.
Proof.
  unfold Start, to_start. destruct (fa_shuttingDown f) eqn:Hsd.
  - intros [= <- <-]. split_and!; [done..|simpl; lia|done|]. by intros e ?%elem_of_nil.
  - destruct (start_fold ch (go_range (fa_informers f)) [] f (go_range_NoDup _)) as (f1 & Hf & Hi & Hn & Hs & Hw & Hst).
    rewrite Hf. intros [= <- <-]. split_and!; [done|done|done|congruence|done| |].
    + intros k Hk. by rewrite Hst, Hk.
    + intros e [He _]%list_elem_of_In%filter_In. rewrite Hst. apply orb_true_intro. right. apply bool_decide_true.
      apply list_elem_of_In in He. exact (list_elem_of_fmap_2 fst _ e He).
Qed.

Lemma to_start_elem f e : e ∈ to_start f → fa_informers f !! e.1 = Some e.2 ∧ is_started f e.1 = false.
Proof.
  unfold to_start. destruct (fa_shuttingDown f); [by intros ?%elem_of_nil|].
  intros [He Hn]%list_elem_of_In%filter_In. apply list_elem_of_In in He. destruct e as [k i].
  apply go_range_elem in He. split; [done|]. by destruct (is_started f _).
Qed.

Lemma to_start_NoDup s : factory_inv s → NoDup ((fun e => si_id e.2) <$> to_start (is_factory s)).
Proof.
  intros Hinv. apply NoDup_fmap_2_strong.
  - intros [k i] [k' i'] [Hk _]%to_start_elem [Hk' _]%to_start_elem Hid. simpl in *.
    assert (k = k') as <- by by eapply (fi_id _ Hinv). congruence.
  - unfold to_start. destruct (fa_shuttingDown _); [constructor|].
    apply NoDup_ListNoDup, List.NoDup_filter, NoDup_ListNoDup. eapply NoDup_fmap_1, go_range_NoDup.
Qed.

Lemma factory_inv_init f : fa_informers f = ∅ → fa_wg f = 0%nat → factory_inv (is_init f).
Proof.
  intros Hi Hw. split; simpl; [done|..].
  - intros k i. by rewrite Hi, lookup_empty.
  - intros k k' i i'. by rewrite Hi, lookup_empty.
  - constructor.
  - by intros id ?%elem_of_nil.
  - done.
Qed.

Lemma factory_inv_informer s k :
  factory_inv s →
  factory_inv (mkInformerSystem (Informer k (is_factory s)).2 (is_running s) (is_closed s) (is_ran s)).
Proof.
  intros Hinv. unfold Informer, InformerFor.
  destruct (fa_informers (is_factory s) !! k) as [inf|] eqn:Hk; [by destruct Hinv|].
  destruct Hinv as [Hw Hkind Hid Honce Hran Hrun]. split; simpl; [done| | |done| |done].
  - intros k' i' [[<- <-]|[Hne Hl]]%lookup_insert_Some; simpl; [split; [done|lia]|].
    destruct (Hkind _ _ Hl). split; [done|lia].
  - intros k1 k2 i1 i2 [[<- <-]|[Hne1 H1]]%lookup_insert_Some [[<- <-]|[Hne2 H2]]%lookup_insert_Some Heq; simpl in *.
    + done.
    + destruct (Hkind _ _ H2). lia.
    + destruct (Hkind _ _ H1). lia.
    + by eapply Hid.
  - intros id Hin. destruct (Hran id Hin) as (k' & i' & Hl & <- & Hs'). exists k', i'.
    split_and!; [|done|done]. rewrite lookup_insert_ne; [done|congruence].
Qed.

Lemma factory_inv_start s ch l f :
  factory_inv s → Start ch (is_factory s) = (l, f) →
  factory_inv (mkInformerSystem f (is_running s ++ l) (is_closed s) (is_ran s ++ l.*1)).
Proof.
  intros Hinv Hst. destruct (Start_eq _ _ _ _ Hst) as (-> & Hi & Hn & _ & Hw & Hmono & Hnew).
  pose proof (to_start_NoDup s Hinv) as Hnd.
  assert (Hids : ((fun e : object_kind * SharedIndexInformer => (si_id e.2, ch)) <$> to_start (is_factory s)).*1 =
                 (fun e => si_id e.2) <$> to_start (is_factory s)) by by rewrite <-list_fmap_compose.
  destruct Hinv as [Hwg Hkind Hid Honce Hran Hrun]. split; simpl; rewrite ?Hi, ?Hn.
  - rewrite Hw, length_app, length_fmap. lia.
  - done.
  - done.
  - rewrite Hids. apply NoDup_app. split_and!; [done| |done].
    intros id Hin (e & -> & He)%list_elem_of_fmap. destruct (to_start_elem _ _ He) as [He1 He2].
    destruct (Hran _ Hin) as (k & i & Hk & Heq & Hs'). assert (k = e.1) as -> by by eapply Hid. congruence.
  - intros id [Hin|Hin]%elem_of_app.
    + destruct (Hran id Hin) as (k & i & Hk & Heq & Hs'). exists k, i. rewrite ?Hi; auto.
    + rewrite Hids in Hin. apply list_elem_of_fmap in Hin as (e & -> & He). destruct (to_start_elem _ _ He) as [He1 _].
      exists e.1, e.2. rewrite ?Hi; auto.
  - rewrite fmap_app. by apply submseteq_app.
Qed.

Lemma factory_inv_step s s' : factory_inv s → is_step s s' → factory_inv s'.
Proof.
  intros Hinv Hs. destruct Hs as [k|ch l f Hst|ch|i id ch Hi Hc|].
  - by apply factory_inv_informer.
  - by eapply factory_inv_start.
  - by destruct Hinv.
  - destruct Hinv as [Hw Hkind Hid Honce Hran Hrun]. split; simpl; try done.
    + rewrite Hw, length_delete; [lia|by eexists].
    + etrans; [|exact Hrun]. apply sublist_submseteq, fmap_sublist, sublist_delete.
  - by destruct Hinv.
Qed.
End factory_proofs.

Section factory_claims.
Context `{MapRange}.

Lemma factory_inv_reachable f s :
  fa_informers f = ∅ → fa_wg f = 0%nat → rtc is_step (is_init f) s → factory_inv s.
Proof.
  intros Hi Hw. apply rtc_invariant; [by apply factory_inv_init|]. intros s1 s2 Hs Hinv. by eapply factory_inv_step.
Qed.

(** While the factory is shut down nothing starts. *)
Lemma shut_down_step s s' :
  factory_inv s → shut_down s → is_step s s' → shut_down s' ∧ is_running s' = [] ∧ is_ran s' = is_ran s.
Proof.
  intros Hinv [Hsd Hw] Hs. pose proof (fi_wg _ Hinv) as Hlen. rewrite Hw in Hlen. symmetry in Hlen. apply nil_length_inv in Hlen.
  destruct Hs as [k|ch l f Hst|ch|i id ch Hi Hc|]; simpl.
  - unfold Informer, InformerFor. by destruct (fa_informers (is_factory s) !! k).
  - unfold Start in Hst. rewrite Hsd in Hst. injection Hst as <- <-. by rewrite !app_nil_r.
  - done.
  - by rewrite Hlen in Hi.
  - done.
Qed.

Lemma informer_stops_step s s' : informer_stops s s' → is_step s s'.
Proof. intros [i id ch Hi Hc]. by eapply is_stop. Qed.

(** The informers' stopping counts the running ones down. *)
Lemma informer_stops_count n s s' :
  nsteps informer_stops n s s' → factory_inv s →
  factory_inv s' ∧ fa_shuttingDown (is_factory s') = fa_shuttingDown (is_factory s) ∧
  is_ran s' = is_ran s ∧ (n + length (is_running s') = length (is_running s))%nat.
Proof.
  induction 1 as [s|n s1 s2 s3 Hs _ IH]; intros Hinv; [done|].
  destruct (IH (factory_inv_step _ _ Hinv (informer_stops_step _ _ Hs))) as (Hinv3 & Hsd & Hran & Hlen).
  destruct Hs as [i id ch Hi Hc]. split_and!; [done|done|done|]. simpl in Hlen.
  pose proof (lookup_lt_Some _ _ _ Hi). rewrite length_delete in Hlen by by eexists. lia.
Qed.

(** C28 (safety).  A shutdown is final.  Whatever was asked of the factory before, when
    [Shutdown] can return no informer runs any more, and none is ever run again; every
    informer was run at most once.  After [Shutdown] was called it can return exactly when
    as many informers have stopped as were running, in whatever order they stop; and once
    the channels of the running informers are closed their stopping alone, without any
    other step, gets there. *)
Theorem shutdown_is_final f s :
  fa_informers f = ∅ → fa_wg f = 0%nat → rtc is_step (is_init f) s →
  NoDup (is_ran s) ∧ (is_running s).*1 ⊆+ is_ran s ∧
  (shut_down s → ∀ s', rtc is_step s s' → is_running s' = [] ∧ is_ran s' = is_ran s) ∧
  (fa_shuttingDown (is_factory s) = true →
     (∀ n s', nsteps informer_stops n s s' → (shut_down s' ↔ n = length (is_running s))) ∧
     (Forall (fun r => r.2 ∈ is_closed s) (is_running s) →
        ∃ s', nsteps informer_stops (length (is_running s)) s s' ∧ shut_down s' ∧ is_ran s' = is_ran s)).
Proof.
  intros Hi Hw Hr. pose proof (factory_inv_reachable _ _ Hi Hw Hr) as Hinv.
  split_and!; [apply (fi_once _ Hinv)|apply (fi_running _ Hinv)| |intros Hsd; split].
  - intros Hsd s' Hs'. cut (factory_inv s' ∧ shut_down s' ∧ is_running s' = [] ∧ is_ran s' = is_ran s); [tauto|].
    revert Hs'. apply (rtc_invariant is_step (fun s' => factory_inv s' ∧ shut_down s' ∧ is_running s' = [] ∧ is_ran s' = is_ran s)).
    + split_and!; [done|done| |done]. apply nil_length_inv. rewrite <-(fi_wg _ Hinv). apply Hsd.
    + intros s1 s2 Hs (Hinv1 & Hsd1 & _ & Hran1). destruct (shut_down_step _ _ Hinv1 Hsd1 Hs) as (? & ? & Hran2).
      split_and!; [by eapply factory_inv_step|done|done|congruence].
  - intros n s' (Hinv' & Hsd' & _ & Hlen)%informer_stops_count; [|done]. unfold shut_down.
    rewrite (fi_wg _ Hinv'), Hsd', Hsd. split; [intros [_ H0]; lia|intros ->; split; [done|lia]].
  - clear Hr. remember (length (is_running s)) as n eqn:Hn. revert s Hinv Hn Hsd.
    induction n as [|n IH]; intros s Hinv Hn Hsd Hclosed.
    + exists s. split_and!; [constructor| |done]. split; [done|]. rewrite (fi_wg _ Hinv). congruence.
    + destruct (is_running s) as [|[id ch] rest] eqn:Hrun; [done|]. apply Forall_cons in Hclosed as [Hch Hclosed].
      assert (Hs : informer_stops s (mkInformerSystem (wg_Done (is_factory s)) (delete 0%nat (is_running s)) (is_closed s) (is_ran s))).
      { eapply informer_stop; [by rewrite Hrun|exact Hch]. }
      destruct (IH _ (factory_inv_step _ _ Hinv (informer_stops_step _ _ Hs))) as (s' & Hs' & Hd & Hran); simpl; rewrite ?Hrun; simpl;
        [by injection Hn|done|done|]. exists s'. split_and!; [by eapply nsteps_l|done|done].
Qed.

(** An informer is shared: whoever asks for a kind, then or later, gets the same one,
    with the resync period and namespace of the factory; so a lister reads the store
    that the informer of the controller fills. *)
Theorem informer_is_shared s k s' :
  rtc is_step (mkInformerSystem (Informer k (is_factory s)).2 (is_running s) (is_closed s) (is_ran s)) s' →
  (Informer k (is_factory s')).1 = (Informer k (is_factory s)).1.
Proof.
  intros Hs'. set (i := (Informer k (is_factory s)).1).
  assert (Hk : fa_informers (is_factory s') !! k = Some i).
  { revert Hs'. apply (rtc_invariant is_step (fun s' => fa_informers (is_factory s') !! k = Some i)).
    - simpl. subst i. unfold Informer, InformerFor. destruct (fa_informers (is_factory s) !! k) eqn:Hl; simpl; [done|].
      apply lookup_insert_eq.
    - intros s1 s2 Hs Hl. destruct Hs as [k'|ch l f' Hst|ch|j id ch Hj Hc|]; simpl; [|..|done|done|done].
      + unfold Informer, InformerFor. destruct (fa_informers (is_factory s1) !! k') eqn:Hk'; [done|]. simpl.
        rewrite lookup_insert_ne; [done|congruence].
      + destruct (Start_eq _ _ _ _ Hst) as (_ & -> & _). done. }
  unfold Informer, InformerFor at 1. by rewrite Hk.
Qed.

(** [WaitForCacheSync] answers for the started informers, and for those only. *)
Theorem WaitForCacheSync_lookup synced f k :
  WaitForCacheSync synced f !! k =
    if is_started f k then (fun i => synced (si_id i)) <$> fa_informers f !! k else None.
Proof.
  unfold WaitForCacheSync. rewrite lookup_fmap, map_lookup_filter. destruct (fa_informers f !! k) as [i|]; simpl; [|by destruct (is_started f k)].
  case_guard as Hs; simpl in Hs; [by rewrite Hs|]. by apply not_true_is_false in Hs as ->.
Qed.
End factory_claims.

(** ** Listers *)

(** [cache.MetaNamespaceKeyFunc] *)
Definition MetaNamespaceKeyFunc (nn : NamespacedName) : string :=
  if bool_decide (nn_Namespace nn = "") then nn_Name nn else nn_Namespace nn +:+ "/" +:+ nn_Name nn.

Section listers.
Context `{MapRange} {T : Type} (meta : T → ObjectMeta).
(** [selector.Matches] on the labels of an object. *)
Context (matches : T → bool).

(** The indexer of an informer: the objects by key. *)
Implicit Types (indexer : gmap string T) (store : gmap NamespacedName T).

(** [kube.MetaNamespaceKey]; a tombstone carries the key. *)
Definition MetaNamespaceKey (obj : T + string) : string :=
  match obj with inl x => MetaNamespaceKeyFunc (meta_nn (meta x)) | inr key => key end.

(** [cache.ListAll] and [cache.ListAllByNamespace] *)
Definition Lister_List indexer : list T := List.filter matches (go_range indexer).*2.
Definition NamespaceLister_List (namespace : string) indexer : list T :=
  if bool_decide (namespace = "") then Lister_List indexer
  else List.filter (fun x => bool_decide (Namespace (meta x) = namespace)) (Lister_List indexer).

(** Of a kind with namespaces, and of clusters. *)
Definition NamespaceLister_Get (namespace name : string) indexer : result kerror T :=
  match indexer !! (namespace +:+ "/" +:+ name) with None => Err NotFound | Some obj => Ok obj end.
Definition ClusterLister_Get (name : string) indexer : result kerror T :=
  match indexer !! name with None => Err NotFound | Some obj => Ok obj end.

(** The indexer of an informer whose store is [store]. *)
Definition indexes indexer store : Prop :=
  ∀ k x, indexer !! k = Some x ↔ ∃ nn, store !! nn = Some x ∧ k = MetaNamespaceKeyFunc nn.

(** Names of namespaces and objects contain no slash. *)
Definition valid_name (nn : NamespacedName) : Prop :=
  ContainsByte "/"%char (nn_Namespace nn) = false ∧ ContainsByte "/"%char (nn_Name nn) = false.

Lemma ContainsByte_app c s t : ContainsByte c (s +:+ t) = ContainsByte c s || ContainsByte c t.
Proof. induction s as [|a s IH]; [done|]. simpl. rewrite <-orb_assoc. f_equal. exact IH. Qed.

Lemma key_inj nn nn' :
  valid_name nn → valid_name nn' → MetaNamespaceKeyFunc nn = MetaNamespaceKeyFunc nn' → nn = nn'.
Proof.
  destruct nn as [ns n], nn' as [ns' n']. intros [Hns Hn] [Hns' Hn']. simpl in *. unfold MetaNamespaceKeyFunc. simpl.
  repeat case_bool_decide; subst; [by intros ->|..]; simpl; intros Heq.
  - subst n. rewrite ContainsByte_app in Hn. simpl in Hn. by rewrite orb_true_r in Hn.
  - subst n'. rewrite ContainsByte_app in Hn'. simpl in Hn'. by rewrite orb_true_r in Hn'.
  - apply sep_inj in Heq as [-> ->]; done.
Qed.

(** A lister of a namespace reads the store of the informer: [Get] is the lookup by
    namespace and name, and [List] gives the objects of the namespace that the
    selector matches, each of them once. *)
Theorem lister_reads_store indexer store ns name :
  indexes indexer store → (∀ nn x, store !! nn = Some x → meta_nn (meta x) = nn ∧ valid_name nn) →
  ns ≠ "" → valid_name (mkNN ns name) →
  NamespaceLister_Get ns name indexer =
    match store !! mkNN ns name with Some x => Ok x | None => Err NotFound end ∧
  ∀ x, x ∈ NamespaceLister_List ns indexer ↔
    store !! meta_nn (meta x) = Some x ∧ Namespace (meta x) = ns ∧ matches x = true.
Proof.
  intros Hix Hst Hns Hv. split.
  - unfold NamespaceLister_Get.
    assert (Hkey : ns +:+ "/" +:+ name = MetaNamespaceKeyFunc (mkNN ns name)).
    { unfold MetaNamespaceKeyFunc. simpl. by rewrite bool_decide_false. }
    rewrite Hkey. destruct (indexer !! _) as [x|] eqn:Hx.
    + apply Hix in Hx as (nn & Hnn & Heq). apply key_inj in Heq as ->; [by rewrite Hnn|done|by eapply Hst].
    + destruct (store !! mkNN ns name) as [x|] eqn:Hs; [|done].
      assert (Hsome : indexer !! MetaNamespaceKeyFunc (mkNN ns name) = Some x) by (apply Hix; eauto). congruence.
  - intros x. unfold NamespaceLister_List, Lister_List. rewrite bool_decide_false by done.
    rewrite !list_elem_of_In, !filter_In, <-list_elem_of_In, bool_decide_eq_true.
    assert (Hin : x ∈ (go_range indexer).*2 ↔ store !! meta_nn (meta x) = Some x).
    { rewrite list_elem_of_fmap. split.
      - intros ([k y] & -> & Hk%go_range_elem). apply Hix in Hk as (nn & Hnn & _). simpl.
        by destruct (Hst _ _ Hnn) as [-> _].
      - intros Hx. exists (MetaNamespaceKeyFunc (meta_nn (meta x)), x). split; [done|]. apply go_range_elem, Hix. eauto. }
    rewrite Hin. tauto.
Qed.
End listers.

(** ** The informer of imports, from start to shutdown *)

Section example.
#[local] Existing Instance list_range.

Definition ask_import (s : informer_system) : informer_system :=
  mkInformerSystem (Informer KServiceImport (is_factory s)).2 (is_running s) (is_closed s) (is_ran s).
Definition start_all (ch : nat) (s : informer_system) : informer_system :=
  let '(l, f) := Start ch (is_factory s) in
  mkInformerSystem f (is_running s ++ l) (is_closed s) (is_ran s ++ l.*1).
Definition close_stop (ch : nat) (s : informer_system) : informer_system :=
  mkInformerSystem (is_factory s) (is_running s) ({[ch]} ∪ is_closed s) (is_ran s).
Definition mark (s : informer_system) : informer_system :=
  mkInformerSystem (Shutdown_mark (is_factory s)) (is_running s) (is_closed s) (is_ran s).

(** Started twice, the informer runs once. *)
Definition stopping_system : informer_system :=
  mark (close_stop 0 (start_all 0 (start_all 0 (ask_import (is_init (NewSharedInformerFactory 60)))))).

Example import_informer_runs_once : is_ran stopping_system = [0%nat].
Proof. vm_compute. reflexivity. Qed.

Lemma stopping_reachable : rtc is_step (is_init (NewSharedInformerFactory 60)) stopping_system.
Proof.
  assert (Hstart : ∀ ch s, is_step s (start_all ch s)).
  { intros ch s. unfold start_all. destruct (Start ch (is_factory s)) as [l f] eqn:Hst. by apply (is_start s ch). }
  eapply rtc_l; [exact (is_informer _ KServiceImport)|]. eapply rtc_l; [apply (Hstart 0%nat)|].
  eapply rtc_l; [apply (Hstart 0%nat)|]. eapply rtc_l; [exact (is_close _ 0%nat)|].
  eapply rtc_l; [exact (is_shutdown _)|]. apply rtc_refl.
Qed.

Lemma shutdown_is_final_witness :
  is_running stopping_system = [(0%nat, 0%nat)] ∧
  ∃ s', nsteps informer_stops 1 stopping_system s' ∧ shut_down s' ∧ is_ran s' = is_ran stopping_system.
Proof.
  assert (Hrun : is_running stopping_system = [(0%nat, 0%nat)]) by (vm_compute; reflexivity). split; [exact Hrun|].
  change 1%nat with (length [(0%nat, 0%nat)]). rewrite <-Hrun.
  refine (proj2 (proj2 (proj2 (proj2 (shutdown_is_final (NewSharedInformerFactory 60) stopping_system eq_refl eq_refl
    stopping_reachable))) eq_refl) _).
  rewrite Hrun. constructor; [|constructor]. apply (bool_decide_unpack _). vm_compute. exact I.
Defined.
End example.
