(* ===== verification/ApiKinds.v ===== *)
(** * The packages of the API kinds ([apis/*/v1alpha1/register.go], [pkg/generated])

    For each of the six kinds there is the same generated code: its registration in
    a scheme, the client of its group, its shared informer with its lister, and the
    fake client for tests.  Here this code is written once, for all kinds, and given
    for each of them; the fake clients are compared with the real ones. *)

From S2P Require Import Prelude GoLib Kube Clientset McsTypes Repo Config RouteBuild RemoteConnector ClusterReconciler Federation Clients SharedInformers.

(** ** Registration *)

Definition kind_name (k : object_kind) : string :=
  match k with
  | KCluster => "Cluster" | KGlobalTrafficPolicy => "GlobalTrafficPolicy"
  | KMultiClusterEndpoint => "MultiClusterEndpoint" | KNamespacedIngress => "NamespacedIngress"
  | KServiceExport => "ServiceExport" | KServiceImport => "ServiceImport"
  end.

Definition resource_name (k : object_kind) : string :=
  match k with
  | KCluster => "clusters" | KGlobalTrafficPolicy => "globaltrafficpolicies"
  | KMultiClusterEndpoint => "multiclusterendpoints" | KNamespacedIngress => "namespacedingresses"
  | KServiceExport => "serviceexports" | KServiceImport => "serviceimports"
  end.

(** A Go type of the API: the objects of a kind, or their lists. *)
Inductive api_type : Type := TObject (k : object_kind) | TList (k : object_kind).

(** [runtime.Scheme] *)
Class SchemeLib : Type := {
  Scheme : Type;
  NewScheme : Scheme;
  AddKnownTypes : string * string → list api_type → Scheme → Scheme;
  AddToGroupVersion : string * string → Scheme → Scheme
}.

(** [SchemeGroupVersion.WithKind(kind).GroupKind()] and the same for resources. *)
Definition GroupKind (kind : string) : string * string := (SchemeGroupVersion.1, kind).
Definition GroupResource (resource : string) : string * string := (SchemeGroupVersion.1, resource).

Section registration.
Context `{SchemeLib}.

(** [addKnownTypes] of the package of a kind; its [init] registers the same types
    with the builder behind [AddToScheme]. *)
Definition addKnownTypes (k : object_kind) (s : Scheme) : Scheme :=
  AddToGroupVersion SchemeGroupVersion (AddKnownTypes SchemeGroupVersion [TObject k; TList k] s).

Definition localSchemeBuilder : list (Scheme → Scheme) :=
  addKnownTypes <$>
    [KCluster; KGlobalTrafficPolicy; KMultiClusterEndpoint; KNamespacedIngress; KServiceExport; KServiceImport].

Definition AddToScheme (s : Scheme) : Scheme := foldl (fun s add => add s) s localSchemeBuilder.

(** The [init] of the packages [scheme] and [fake]. *)
Definition clientset_scheme : Scheme := AddToScheme (AddToGroupVersion ("", "v1") NewScheme).
End registration.

(** What apimachinery documents: the types that were added are recognized. *)
Class SchemeLaws `{SchemeLib} : Type := {
  Recognizes : Scheme → string * string → api_type → bool;
  AddKnownTypes_recognizes : ∀ gv l s gv' t,
    Recognizes (AddKnownTypes gv l s) gv' t = true ↔ Recognizes s gv' t = true ∨ (gv' = gv ∧ t ∈ l);
  AddToGroupVersion_recognizes : ∀ gv s gv' t, Recognizes s gv' t = true → Recognizes (AddToGroupVersion gv s) gv' t = true
}.

Lemma addKnownTypes_keeps `{SchemeLaws} k s gv t :
  Recognizes s gv t = true → Recognizes (addKnownTypes k s) gv t = true.
Proof. intros Hr. apply AddToGroupVersion_recognizes, AddKnownTypes_recognizes. by left. Qed.

Lemma addKnownTypes_adds `{SchemeLaws} k s t :
  t ∈ [TObject k; TList k] → Recognizes (addKnownTypes k s) SchemeGroupVersion t = true.
Proof. intros Ht. apply AddToGroupVersion_recognizes, AddKnownTypes_recognizes. by right. Qed.

(** The scheme of the clientset recognizes the objects and the lists of every kind. *)
Theorem clientset_scheme_complete `{SchemeLaws} k t :
  t ∈ [TObject k; TList k] → Recognizes clientset_scheme SchemeGroupVersion t = true.
Proof.
  intros Ht. unfold clientset_scheme, AddToScheme, localSchemeBuilder. cbn [fmap list_fmap foldl].
  destruct k; repeat first [by apply addKnownTypes_adds|apply addKnownTypes_keeps].
Qed.

(** ** The clients of the groups *)

Section groups.
Context {Limiter HTTPClient RESTClient : Type} `{!RestLib (Limiter := Limiter) (HTTPClient := HTTPClient) (RESTClient := RESTClient)}.

(** A package such as [typed/serviceexport/v1alpha1]. *)
Record GroupClient (I : Type) : Type := mkGroupClient {
  gc_NewForConfig : RestConfig Limiter → result string RESTClient;
  gc_NewForConfigAndClient : RestConfig Limiter → HTTPClient → result string RESTClient;
  gc_NewForConfigOrDie : RestConfig Limiter → go RESTClient;
  gc_New : RESTClient → RESTClient;
  gc_setConfigDefaults : RestConfig Limiter → RestConfig Limiter;
  (** of a client that may be nil *)
  gc_RESTClient : option RESTClient → option RESTClient;
  (** the getter of the clients of the kind *)
  gc_Getter : I
}.

Definition group_client {I} (getter : I) : GroupClient I :=
  mkGroupClient I group_NewForConfig group_NewForConfigAndClient group_NewForConfigOrDie (fun c => c)
    setConfigDefaults (fun c => c) getter.

Definition ClusterV1alpha1Client {T} (meta : T → ObjectMeta) : GroupClient (ResourceInterface T) :=
  group_client (clusters meta).
Definition GlobaltrafficpolicyV1alpha1Client {T} (meta : T → ObjectMeta) : GroupClient (string → ResourceInterface T) :=
  group_client (globalTrafficPolicies meta).
Definition MulticlusterendpointV1alpha1Client {T} (meta : T → ObjectMeta) : GroupClient (string → ResourceInterface T) :=
  group_client (multiClusterEndpoints meta).
Definition NamespacedingressV1alpha1Client {T} (meta : T → ObjectMeta) : GroupClient (string → ResourceInterface T) :=
  group_client (namespacedIngresses meta).
Definition ServiceexportV1alpha1Client : GroupClient (string → ResourceInterface ServiceExport) :=
  group_client serviceExports.
Definition ServiceimportV1alpha1Client : GroupClient (string → ResourceInterface ServiceImport) :=
  group_client serviceImports.

(** [New(c rest.Interface)] of the clientset; [discovery] is [discovery.NewDiscoveryClient]. *)
Definition Clientset_New (discovery : RESTClient → RESTClient) (c : RESTClient) : Clientset (RESTClient := RESTClient) :=
  mkClientset c c c c c c (discovery c).
End groups.

(** ** Listers *)

(** [ServiceImportNamespaceLister] and the like. *)
Record NamespaceLister (T : Type) : Type := mkNamespaceLister {
  nl_List : (T → bool) → list T;
  nl_Get : string → result kerror T
}.
Arguments nl_List {T} _ _.
Arguments nl_Get {T} _ _.

(** [ServiceImportLister] and the like; a selector is what it matches. *)
Record Lister (T : Type) : Type := mkLister {
  li_List : (T → bool) → list T;
  li_Namespace : string → NamespaceLister T
}.
Arguments li_List {T} _ _.
Arguments li_Namespace {T} _ _.

Record ClusterLister (T : Type) : Type := mkClusterLister {
  cl_List : (T → bool) → list T;
  cl_Get : string → result kerror T
}.
Arguments cl_List {T} _ _.
Arguments cl_Get {T} _ _.

Section listers.
Context `{MapRange}.

Definition namespaced_lister {T} (meta : T → ObjectMeta) (indexer : gmap string T) : Lister T :=
  mkLister T (fun selector => Lister_List selector indexer)
    (fun namespace => mkNamespaceLister T (fun selector => NamespaceLister_List meta selector namespace indexer)
       (fun name => NamespaceLister_Get namespace name indexer)).

Definition NewClusterLister {T} (indexer : gmap string T) : ClusterLister T :=
  mkClusterLister T (fun selector => Lister_List selector indexer) (fun name => ClusterLister_Get name indexer).
Definition NewGlobalTrafficPolicyLister {T} (meta : T → ObjectMeta) : gmap string T → Lister T := namespaced_lister meta.
Definition NewMultiClusterEndpointLister {T} (meta : T → ObjectMeta) : gmap string T → Lister T := namespaced_lister meta.
Definition NewNamespacedIngressLister {T} (meta : T → ObjectMeta) : gmap string T → Lister T := namespaced_lister meta.
Definition NewServiceExportLister : gmap string ServiceExport → Lister ServiceExport := namespaced_lister se_Meta.
Definition NewServiceImportLister : gmap string ServiceImport → Lister ServiceImport := namespaced_lister si_Meta.
End listers.

(** ** Informers *)

(** What a factory hands down through its groups and versions to an informer. *)
Record informer_scope : Type := mkScope { sc_namespace : string; sc_tweakListOptions : TweakListOptionsFunc }.

(** [New] of the group and of the version. *)
Definition group_New (namespace : string) (tweak : TweakListOptionsFunc) : informer_scope := mkScope namespace tweak.
Definition group_V1alpha1 (g : informer_scope) : informer_scope := group_New (sc_namespace g) (sc_tweakListOptions g).
Definition version_informer (v : informer_scope) : informer_scope := mkScope (sc_namespace v) (sc_tweakListOptions v).

(** [f.Serviceimport()] and the like. *)
Definition factory_group (f : sharedInformerFactory) : informer_scope := group_New (fa_namespace f) (fa_tweakListOptions f).

(** The informer package of a kind with objects [T] and listers [L]; [nat] is the
    identity of the informer that is made. *)
Record KindInformer (T L : Type) : Type := mkKindInformer {
  ki_NewFiltered : string → Z → TweakListOptionsFunc → nat → SharedIndexInformer;
  ki_New : string → Z → nat → SharedIndexInformer;
  ki_ListFunc : SharedIndexInformer → ListOptions → RestRequest T;
  ki_WatchFunc : SharedIndexInformer → ListOptions → RestRequest T;
  ki_defaultInformer : informer_scope → Z → nat → SharedIndexInformer;
  ki_Informer : informer_scope → sharedInformerFactory → SharedIndexInformer * sharedInformerFactory;
  (** [GetIndexer] gives the store of an informer *)
  ki_Lister : (SharedIndexInformer → gmap string T) → informer_scope → sharedInformerFactory → L * sharedInformerFactory
}.
Arguments ki_NewFiltered {T L} _.
Arguments ki_New {T L} _.
Arguments ki_ListFunc {T L} _.
Arguments ki_WatchFunc {T L} _.
Arguments ki_defaultInformer {T L} _.
Arguments ki_Informer {T L} _.
Arguments ki_Lister {T L} _.

Definition kind_informer {T L} (k : object_kind) (meta : T → ObjectMeta) (newLister : gmap string T → L) : KindInformer T L :=
  let newFiltered namespace resyncPeriod tweak id := mkInformer id k namespace tweak resyncPeriod in
  let defaultInformer s resyncPeriod id := newFiltered (sc_namespace s) resyncPeriod (sc_tweakListOptions s) id in
  let informer s f := InformerFor k (defaultInformer s) f in
  {| ki_NewFiltered := newFiltered;
     ki_New := fun namespace resyncPeriod id => newFiltered namespace resyncPeriod None id;
     ki_ListFunc := ListFunc meta (resource_name k);
     ki_WatchFunc := WatchFunc meta (resource_name k);
     ki_defaultInformer := defaultInformer;
     ki_Informer := informer;
     ki_Lister := fun GetIndexer s f => let '(i, f) := informer s f in (newLister (GetIndexer i), f) |}.

Section kind_informers.
Context `{MapRange}.

Definition clusterInformer {T} (meta : T → ObjectMeta) : KindInformer T (ClusterLister T) :=
  kind_informer KCluster meta NewClusterLister.
Definition globalTrafficPolicyInformer {T} (meta : T → ObjectMeta) : KindInformer T (Lister T) :=
  kind_informer KGlobalTrafficPolicy meta (NewGlobalTrafficPolicyLister meta).
Definition multiClusterEndpointInformer {T} (meta : T → ObjectMeta) : KindInformer T (Lister T) :=
  kind_informer KMultiClusterEndpoint meta (NewMultiClusterEndpointLister meta).
Definition namespacedIngressInformer {T} (meta : T → ObjectMeta) : KindInformer T (Lister T) :=
  kind_informer KNamespacedIngress meta (NewNamespacedIngressLister meta).
Definition serviceExportInformer : KindInformer ServiceExport (Lister ServiceExport) :=
  kind_informer KServiceExport se_Meta NewServiceExportLister.
Definition serviceImportInformer : KindInformer ServiceImport (Lister ServiceImport) :=
  kind_informer KServiceImport si_Meta NewServiceImportLister.
End kind_informers.

(** The informer of a kind that a factory gives directly, through its groups, or as
    the informer of the resource of the kind, is the same one. *)
Theorem informer_of_kind {T L} k (meta : T → ObjectMeta) (newLister : gmap string T → L) f :
  ki_Informer (kind_informer k meta newLister) (version_informer (group_V1alpha1 (factory_group f))) f = Informer k f ∧
  ForResource (SchemeGroupVersion, resource_name k) f =
    (Ok ("flomesh.io", resource_name k, (Informer k f).1), (Informer k f).2).
Proof.
  split; [done|]. unfold ForResource.
  assert (Hk : resource_kind (SchemeGroupVersion, resource_name k) = Some k) by by destruct k.
  rewrite Hk. by destruct (Informer k f).
Qed.

(** The informers of a factory ask for the objects of their kind: of the namespace of
    the factory, or of the cluster when the kind has no namespaces, with the options
    as the factory tweaks them. *)
Theorem informer_asks_for_its_kind {T L} k (meta : T → ObjectMeta) (newLister : gmap string T → L) f o :
  fa_informers f !! k = None →
  let i := (Informer k f).1 in
  let ns := if decide (k = KCluster) then None else Some (fa_namespace f) in
  ki_ListFunc (kind_informer k meta newLister) i o =
    rc_List (typed_client meta (resource_name k) ns) (tweak_options (fa_tweakListOptions f) o) ∧
  target_of (ki_ListFunc (kind_informer k meta newLister) i o) = mkTarget ns (resource_name k) None [] ∧
  target_of (ki_WatchFunc (kind_informer k meta newLister) i o) = mkTarget ns (resource_name k) None [].
Proof.
  intros Hnone. unfold Informer, InformerFor. rewrite Hnone. simpl. unfold ListFunc, WatchFunc. simpl.
  split; [done|]. by destruct k.
Qed.

(** ** The fake clients *)

Record GroupVersionResource : Type := mkGVR { gvr_Group : string; gvr_Version : string; gvr_Resource : string }.
Record GroupVersionKind : Type := mkGVK { gvk_Group : string; gvk_Version : string; gvk_Kind : string }.

#[export] Instance gvr_eq_dec : EqDecision GroupVersionResource.
Proof. solve_decision. Defined.
#[export] Instance gvr_countable : Countable GroupVersionResource.
Proof.
  apply (inj_countable (fun r => (gvr_Group r, gvr_Version r, gvr_Resource r))
    (fun t => Some (mkGVR t.1.1 t.1.2 t.2))). by intros [].
Defined.

(** [testing.Action], by the function that makes it; without a namespace it is the
    function for the root scope ([NewRootGetAction] and so on). *)
Inductive fake_action (T : Type) : Type :=
| NewGetAction (r : GroupVersionResource) (ns : option string) (name : string)
| NewListAction (r : GroupVersionResource) (k : GroupVersionKind) (ns : option string) (opts : ListOptions)
| NewWatchAction (r : GroupVersionResource) (ns : option string) (opts : ListOptions)
| NewCreateAction (r : GroupVersionResource) (ns : option string) (x : T)
| NewUpdateAction (r : GroupVersionResource) (ns : option string) (x : T)
| NewUpdateSubresourceAction (r : GroupVersionResource) (subresource : string) (ns : option string) (x : T)
| NewDeleteActionWithOptions (r : GroupVersionResource) (ns : option string) (name : string) (opts : string)
| NewDeleteCollectionAction (r : GroupVersionResource) (ns : option string) (opts : ListOptions)
| NewPatchSubresourceAction (r : GroupVersionResource) (ns : option string) (name pt data : string) (subresources : list string).
Arguments NewGetAction {T}.
Arguments NewListAction {T}.
Arguments NewWatchAction {T}.
Arguments NewCreateAction {T}.
Arguments NewUpdateAction {T}.
Arguments NewUpdateSubresourceAction {T}.
Arguments NewDeleteActionWithOptions {T}.
Arguments NewDeleteCollectionAction {T}.
Arguments NewPatchSubresourceAction {T}.

(** [runtime.Object]: an object of the kind, or a list with its metadata. *)
Inductive fake_object (T : Type) : Type := FObject (x : T) | FList (listMeta : string) (items : list T).
Arguments FObject {T}.
Arguments FList {T}.

(** [testing.Fake] with its reactors. *)
Class FakeLib (T W : Type) : Type := {
  (** the object may be nil *)
  Invokes : fake_action T → W → (option (fake_object T) * option kerror) * W;
  InvokesWatch : fake_action T → W → (option nat * option kerror) * W;
  (** the selector that [ExtractFromListOptions] finds, on the labels of an object; it may be nil *)
  ExtractFromListOptions : ListOptions → option (option (gmap string string) → bool)
}.

Section fake.
Context {T W : Type} `{!FakeLib T W}.
Context (meta : T → ObjectMeta) (r : GroupVersionResource) (k : GroupVersionKind) (ns : option string).

(** A result that may be nil, with an error that may be nil; the assertion of the
    type of the object panics when it is another one. *)
Definition fake_call (a : fake_action T) (w : W) : go (option T * option kerror) * W :=
  let '((obj, err), w') := Invokes a w in
  (match obj with
   | None => Ret (None, err)
   | Some (FObject x) => Ret (Some x, err)
   | Some (FList _ _) => Panic
   end, w').

Definition fake_Get (name : string) := fake_call (NewGetAction r ns name).
Definition fake_Create (x : T) := fake_call (NewCreateAction r ns x).
Definition fake_Update (x : T) := fake_call (NewUpdateAction r ns x).
Definition fake_UpdateStatus (x : T) := fake_call (NewUpdateSubresourceAction r "status" ns x).
Definition fake_Patch (name pt data : string) (subresources : list string) :=
  fake_call (NewPatchSubresourceAction r ns name pt data subresources).

(** The items that the selector matches. *)
Definition fake_List (opts : ListOptions) (w : W) : go (option (string * list T) * option kerror) * W :=
  let '((obj, err), w') := Invokes (NewListAction r k ns opts) w in
  (match obj with
   | None => Ret (None, err)
   | Some (FList listMeta items) =>
     let label := default (fun _ => true) (ExtractFromListOptions opts) in
     Ret (Some (listMeta, List.filter (fun item => label (Labels (meta item))) items), err)
   | Some (FObject _) => Panic
   end, w').

Definition fake_Watch (opts : ListOptions) : W → (option nat * option kerror) * W :=
  InvokesWatch (NewWatchAction r ns opts).

Definition fake_Delete (name opts : string) (w : W) : option kerror * W :=
  let '((_, err), w') := Invokes (NewDeleteActionWithOptions r ns name opts) w in (err, w').

(** The options of the deletion are not passed on. *)
Definition fake_DeleteCollection (opts : string) (listOpts : ListOptions) (w : W) : option kerror * W :=
  let '((_, err), w') := Invokes (NewDeleteCollectionAction r ns listOpts) w in (err, w').
End fake.

(** The fake of [ServiceImportInterface] and the like. *)
Record FakeInterface (T W : Type) : Type := mkFakeInterface {
  fk_Get : string → string → W → go (option T * option kerror) * W;
  fk_List : ListOptions → W → go (option (string * list T) * option kerror) * W;
  fk_Watch : ListOptions → W → (option nat * option kerror) * W;
  fk_Create : T → string → W → go (option T * option kerror) * W;
  fk_Update : T → string → W → go (option T * option kerror) * W;
  fk_UpdateStatus : T → string → W → go (option T * option kerror) * W;
  fk_Delete : string → string → W → option kerror * W;
  fk_DeleteCollection : string → ListOptions → W → option kerror * W;
  fk_Patch : string → string → string → string → list string → W → go (option T * option kerror) * W
}.
Arguments fk_Get {T W}.
Arguments fk_List {T W}.
Arguments fk_Watch {T W}.
Arguments fk_Create {T W}.
Arguments fk_Update {T W}.
Arguments fk_UpdateStatus {T W}.
Arguments fk_Delete {T W}.
Arguments fk_DeleteCollection {T W}.
Arguments fk_Patch {T W}.

Section fakes.
Context {T W : Type} `{!FakeLib T W}.

(** The options other than those of lists and deletions are not passed on. *)
Definition fake_client (meta : T → ObjectMeta) (group : string) (k : object_kind) (ns : option string) : FakeInterface T W :=
  let r := mkGVR group "v1alpha1" (resource_name k) in
  let gvk := mkGVK group "v1alpha1" (kind_name k) in
  {| fk_Get := fun name _ => fake_Get r ns name;
     fk_List := fake_List meta r gvk ns;
     fk_Watch := fake_Watch r ns;
     fk_Create := fun x _ => fake_Create r ns x;
     fk_Update := fun x _ => fake_Update r ns x;
     fk_UpdateStatus := fun x _ => fake_UpdateStatus r ns x;
     fk_Delete := fake_Delete r ns;
     fk_DeleteCollection := fake_DeleteCollection r ns;
     fk_Patch := fun name pt data _ subresources => fake_Patch r ns name pt data subresources |}.

Definition FakeClusters (meta : T → ObjectMeta) : FakeInterface T W := fake_client meta "cluster" KCluster None.
Definition FakeGlobalTrafficPolicies (meta : T → ObjectMeta) (namespace : string) : FakeInterface T W :=
  fake_client meta "globaltrafficpolicy" KGlobalTrafficPolicy (Some namespace).
Definition FakeMultiClusterEndpoints (meta : T → ObjectMeta) (namespace : string) : FakeInterface T W :=
  fake_client meta "multiclusterendpoint" KMultiClusterEndpoint (Some namespace).
Definition FakeNamespacedIngresses (meta : T → ObjectMeta) (namespace : string) : FakeInterface T W :=
  fake_client meta "namespacedingress" KNamespacedIngress (Some namespace).
End fakes.
Definition FakeServiceExports {W} `{!FakeLib ServiceExport W} (namespace : string) : FakeInterface ServiceExport W :=
  fake_client se_Meta "serviceexport" KServiceExport (Some namespace).
Definition FakeServiceImports {W} `{!FakeLib ServiceImport W} (namespace : string) : FakeInterface ServiceImport W :=
  fake_client si_Meta "serviceimport" KServiceImport (Some namespace).

(** [FakeServiceimportV1alpha1] and the like; their REST client is a nil pointer. *)
Record FakeGroup (I : Type) : Type := mkFakeGroup { fg_Getter : I; fg_RESTClient : option unit }.

Definition FakeClusterV1alpha1 {T W} `{!FakeLib T W} (meta : T → ObjectMeta) : FakeGroup (FakeInterface T W) :=
  mkFakeGroup _ (FakeClusters meta) None.
Definition FakeGlobaltrafficpolicyV1alpha1 {T W} `{!FakeLib T W} (meta : T → ObjectMeta) : FakeGroup (string → FakeInterface T W) :=
  mkFakeGroup _ (FakeGlobalTrafficPolicies meta) None.
Definition FakeMulticlusterendpointV1alpha1 {T W} `{!FakeLib T W} (meta : T → ObjectMeta) : FakeGroup (string → FakeInterface T W) :=
  mkFakeGroup _ (FakeMultiClusterEndpoints meta) None.
Definition FakeNamespacedingressV1alpha1 {T W} `{!FakeLib T W} (meta : T → ObjectMeta) : FakeGroup (string → FakeInterface T W) :=
  mkFakeGroup _ (FakeNamespacedIngresses meta) None.
Definition FakeServiceexportV1alpha1 {W} `{!FakeLib ServiceExport W} : FakeGroup (string → FakeInterface ServiceExport W) :=
  mkFakeGroup _ FakeServiceExports None.
Definition FakeServiceimportV1alpha1 {W} `{!FakeLib ServiceImport W} : FakeGroup (string → FakeInterface ServiceImport W) :=
  mkFakeGroup _ FakeServiceImports None.

(** *** The fake asks for what the real client asks for *)

(** A call of the interface, with its options. *)
Inductive client_call (T : Type) : Type :=
| CGet (name opts : string) | CList (opts : ListOptions) | CWatch (opts : ListOptions)
| CCreate (x : T) (opts : string) | CUpdate (x : T) (opts : string) | CUpdateStatus (x : T) (opts : string)
| CDelete (name opts : string) | CDeleteCollection (opts : string) (listOpts : ListOptions)
| CPatch (name pt data opts : string) (subresources : list string).
Arguments CGet {T}.
Arguments CList {T}.
Arguments CWatch {T}.
Arguments CCreate {T}.
Arguments CUpdate {T}.
Arguments CUpdateStatus {T}.
Arguments CDelete {T}.
Arguments CDeleteCollection {T}.
Arguments CPatch {T}.

(** What an API server is asked to do: the verb of Kubernetes, the object or
    collection, and the object or the patch that is sent. *)
Record asked (T : Type) : Type := mkAsked { as_verb : string; as_target : target; as_sent : option (T + string) }.
Arguments mkAsked {T}.

Section asking.
Context {T : Type} (meta : T → ObjectMeta).

Definition request_sent (q : RestRequest T) : option (T + string) :=
  match body_of (rq_calls q) with Some (BObject x) => Some (inl x) | Some (BData d) => Some (inr d) | _ => None end.

Definition watches (q : RestRequest T) : bool :=
  existsb (fun c => match c with WithParams (ListOpts o) => lo_Watch o | _ => false end) (rq_calls q).

(** How an API server reads a request. *)
Definition asked_by_request (q : RestRequest T) : asked T :=
  let t := target_of q in
  let one := match tg_Name t with Some _ => true | None => false end in
  mkAsked
    (match rq_verb q with
     | VGet => if one then "get" else if watches q then "watch" else "list"
     | VPost => "create" | VPut => "update"
     | VDelete => if one then "delete" else "delete-collection"
     | VPatch _ => "patch"
     end) t (request_sent q).

(** The verb, resource, namespace, name and subresource that client-go documents for an action. *)
Definition asked_by_action (a : fake_action T) : asked T :=
  match a with
  | NewGetAction r ns name => mkAsked "get" (mkTarget ns (gvr_Resource r) (Some name) []) None
  | NewListAction r _ ns _ => mkAsked "list" (mkTarget ns (gvr_Resource r) None []) None
  | NewWatchAction r ns _ => mkAsked "watch" (mkTarget ns (gvr_Resource r) None []) None
  | NewCreateAction r ns x => mkAsked "create" (mkTarget ns (gvr_Resource r) None []) (Some (inl x))
  | NewUpdateAction r ns x => mkAsked "update" (mkTarget ns (gvr_Resource r) (Some (Name (meta x))) []) (Some (inl x))
  | NewUpdateSubresourceAction r sub ns x =>
    mkAsked "update" (mkTarget ns (gvr_Resource r) (Some (Name (meta x))) [sub]) (Some (inl x))
  | NewDeleteActionWithOptions r ns name _ => mkAsked "delete" (mkTarget ns (gvr_Resource r) (Some name) []) None
  | NewDeleteCollectionAction r ns _ => mkAsked "delete-collection" (mkTarget ns (gvr_Resource r) None []) None
  | NewPatchSubresourceAction r ns name pt data subs =>
    mkAsked "patch" (mkTarget ns (gvr_Resource r) (Some name) subs) (Some (inr data))
  end.

Definition real_call (c : ResourceInterface T) (m : client_call T) : RestRequest T :=
  match m with
  | CGet name opts => rc_Get c name opts
  | CList opts => rc_List c opts
  | CWatch opts => rc_Watch c opts
  | CCreate x opts => rc_Create c x opts
  | CUpdate x opts => rc_Update c x opts
  | CUpdateStatus x opts => rc_UpdateStatus c x opts
  | CDelete name opts => rc_Delete c name opts
  | CDeleteCollection opts listOpts => rc_DeleteCollection c opts listOpts
  | CPatch name pt data opts subs => rc_Patch c name pt data opts subs
  end.

(** The actions of a fake, as [testing.Fake] records them. *)
Definition recorded {W} (c : FakeInterface T W) (m : client_call T) (w : W) : W :=
  match m with
  | CGet name opts => (fk_Get c name opts w).2
  | CList opts => (fk_List c opts w).2
  | CWatch opts => (fk_Watch c opts w).2
  | CCreate x opts => (fk_Create c x opts w).2
  | CUpdate x opts => (fk_Update c x opts w).2
  | CUpdateStatus x opts => (fk_UpdateStatus c x opts w).2
  | CDelete name opts => (fk_Delete c name opts w).2
  | CDeleteCollection opts listOpts => (fk_DeleteCollection c opts listOpts w).2
  | CPatch name pt data opts subs => (fk_Patch c name pt data opts subs w).2
  end.
End asking.

(** [testing.Fake] appends every action to those it has recorded. *)
Class RecordingLaws (T W : Type) `{FakeLib T W} : Type := {
  Actions : W → list (fake_action T);
  Invokes_records : ∀ a w, Actions (Invokes a w).2 = Actions w ++ [a];
  InvokesWatch_records : ∀ a w, Actions (InvokesWatch a w).2 = Actions w ++ [a]
}.

Ltac records :=
  match goal with
  | |- context [Invokes ?a ?w] =>
    let Hr := fresh in pose proof (Invokes_records a w) as Hr; destruct (Invokes a w) as [[[[]|] ?] ?]; exact Hr
  end.

Lemma fake_call_records {T W} `{RecordingLaws T W} a w : Actions (fake_call a w).2 = Actions w ++ [a].
Proof. unfold fake_call. records. Qed.

(** A test with a fake client asks for what the real client would ask for:
    whatever is called, with whatever arguments and options, the fake records
    exactly one action, of the verb, resource, namespace, name and subresource of the
    request that the real client sends, with the same object or patch. *)
Theorem fake_asks_the_same {T W} `{RecordingLaws T W} (meta : T → ObjectMeta) group k ns m w :
  (∀ opts, m = CList opts → lo_Watch opts = false) →
  ∃ a, Actions (recorded (fake_client meta group k ns) m w) = Actions w ++ [a] ∧
    asked_by_action meta a = asked_by_request (real_call (typed_client meta (resource_name k) ns) m).
Proof.
  intros Hlist. destruct m as [name o|o|o|x o|x o|x o|name o|o lo|name pt d o subs];
    unfold recorded, fake_client; cbn [fk_Get fk_List fk_Watch fk_Create fk_Update fk_UpdateStatus fk_Delete
      fk_DeleteCollection fk_Patch]; unfold fake_Get, fake_Create, fake_Update, fake_UpdateStatus, fake_Patch.
  - eexists. split; [apply fake_call_records|]. by destruct ns.
  - eexists. split; [unfold fake_List; records|].
    unfold asked_by_request, watches. specialize (Hlist o eq_refl). destruct ns; simpl; by rewrite Hlist.
  - eexists. split; [apply InvokesWatch_records|]. by destruct ns.
  - eexists. split; [apply fake_call_records|]. by destruct ns.
  - eexists. split; [apply fake_call_records|]. by destruct ns.
  - eexists. split; [apply fake_call_records|]. by destruct ns.
  - eexists. split; [unfold fake_Delete; records|]. by destruct ns.
  - eexists. split; [unfold fake_DeleteCollection; records|]. by destruct ns.
  - eexists. split; [apply fake_call_records|]. by destruct ns.
Qed.

(** *** The fake clientset *)

(** [testing.ObjectTracker], behind the reactors that [NewSimpleClientset] adds. *)
Class TrackerLib (T W : Type) `{FakeLib T W} : Type := {
  NewObjectTracker : W;
  tracker_Add : T → W → result string W
}.

Fixpoint add_objects {T W} `{TrackerLib T W} (objects : list T) (w : W) : go W :=
  match objects with
  | [] => Ret w
  | obj :: objects => match tracker_Add obj w with Err _ => Panic | Ok w => add_objects objects w end
  end.

Definition NewSimpleClientset {T W} `{TrackerLib T W} (objects : list T) : go W := add_objects objects NewObjectTracker.

(** What client-go documents: the tracker stores an object under the resource that it
    guesses from the kind under which the scheme knows its type, and the reactor
    looks up the resource of the action. *)
Class TrackerLaws {T W : Type} `{TrackerLib T W} (meta : T → ObjectMeta) (k : object_kind) : Type := {
  tracked : W → gmap (GroupVersionResource * NamespacedName) T;
  tracker_empty : tracked NewObjectTracker = ∅;
  tracker_Add_tracked : ∀ x w w', tracker_Add x w = Ok w' →
    tracked w' = <[(mkGVR "flomesh.io" "v1alpha1" (resource_name k), meta_nn (meta x)) := x]> (tracked w);
  tracker_Get : ∀ r ns name w,
    (Invokes (NewGetAction r ns name) w).1 =
      match tracked w !! (r, mkNN (default "" ns) name) with
      | Some x => (Some (FObject x), None)
      | None => (None, Some NotFound)
      end
}.

(** The fake clients name another API group than the one the types are registered
    under: they do not find any object that the clientset was made with. *)
Theorem seeded_objects_not_found {T W} `{TrackerLaws T W meta k} group ns objects w name o :
  NewSimpleClientset objects = Ret w → group ≠ SchemeGroupVersion.1 →
  (fk_Get (fake_client meta group k ns) name o w).1 = Ret (None, Some NotFound).
Proof.
  intros Hnew Hgroup.
  assert (Htracked : ∀ r nn x, tracked w !! (r, nn) = Some x → gvr_Group r = "flomesh.io").
  { assert (Hadd : ∀ l w0, add_objects l w0 = Ret w → (∀ r nn x, tracked w0 !! (r, nn) = Some x → gvr_Group r = "flomesh.io") →
      ∀ r nn x, tracked w !! (r, nn) = Some x → gvr_Group r = "flomesh.io").
    { induction l as [|x l IH]; intros w0; simpl; [by intros [= ->]|].
      destruct (tracker_Add x w0) as [w1|e] eqn:Ha; [|done]. intros Hl Hw0. apply (IH w1 Hl). intros r nn y.
      rewrite (tracker_Add_tracked _ _ _ Ha). intros [[[= <- _] _]|[_ Hy]]%lookup_insert_Some; [done|by eapply Hw0]. }
    apply (Hadd objects NewObjectTracker Hnew). intros r nn x. by rewrite tracker_empty, lookup_empty. }
  cbn [fk_Get fake_client]. unfold fake_Get, fake_call.
  match goal with |- context [Invokes ?a w] => pose proof (tracker_Get (mkGVR group "v1alpha1" (resource_name k)) ns name w) as Hg;
    destruct (Invokes a w) as [[obj err] w'] end. simpl in Hg |- *.
  destruct (tracked w !! _) as [x|] eqn:Hx; [by apply Htracked in Hx|]. by injection Hg as -> ->.
Qed.

(** *** A fake that records and tracks *)

Section example.
Definition fake_state : Type := list (fake_action ServiceImport) * gmap (GroupVersionResource * NamespacedName) ServiceImport.

Definition sample_invokes (a : fake_action ServiceImport) (w : fake_state) :
    (option (fake_object ServiceImport) * option kerror) * fake_state :=
  (match a with
   | NewGetAction r ns name =>
     match w.2 !! (r, mkNN (default "" ns) name) with Some x => (Some (FObject x), None) | None => (None, Some NotFound) end
   | _ => (None, None)
   end, (w.1 ++ [a], w.2)).

#[local] Instance sample_fake : FakeLib ServiceImport fake_state :=
  {| Invokes := sample_invokes; InvokesWatch := fun a w => ((None, None), (w.1 ++ [a], w.2));
     ExtractFromListOptions := fun _ => None |}.
#[local] Instance sample_recording : RecordingLaws ServiceImport fake_state.
Proof. by refine {| Actions := fun w : fake_state => w.1 |}. Defined.
#[local] Instance sample_tracker : TrackerLib ServiceImport fake_state :=
  {| NewObjectTracker := ([], ∅);
     tracker_Add := fun x w => Ok (w.1, <[(mkGVR "flomesh.io" "v1alpha1" "serviceimports", meta_nn (si_Meta x)) := x]> w.2) |}.
#[local] Instance sample_tracker_laws : TrackerLaws (T := ServiceImport) (W := fake_state) si_Meta KServiceImport.
Proof. refine {| tracked := fun w : fake_state => w.2 |}; [done| |done]. by intros x w w' [= <-]. Defined.

Definition seeded_import : ServiceImport := mkServiceImport (named "ns" "web") [] ClusterSetIP "".

Lemma fake_asks_the_same_witness :
  ∃ a, Actions (recorded (FakeServiceImports "ns") (CUpdateStatus seeded_import "") ([], ∅)) = [a] ∧
    asked_by_action si_Meta a =
      mkAsked "update" (mkTarget (Some "ns") "serviceimports" (Some "web") ["status"]) (Some (inl seeded_import)).
Proof.
  destruct (fake_asks_the_same si_Meta "serviceimport" KServiceImport (Some "ns") (CUpdateStatus seeded_import "") ([], ∅))
    as (a & Ha & Heq); [intros opts Ho; discriminate Ho|]. exists a. split; [exact Ha|exact Heq].
Defined.

Lemma seeded_objects_not_found_witness :
  ∃ w, NewSimpleClientset [seeded_import] = Ret w ∧
    (fk_Get (FakeServiceImports "ns") "web" "" w).1 = Ret (None, Some NotFound).
Proof.
  eexists. split; [reflexivity|].
  apply (seeded_objects_not_found "serviceimport" (Some "ns") [seeded_import]); [reflexivity|].
  intros Heq. discriminate Heq.
Defined.
End example.
